(** * Longest prefix match table: a shallow embedding of lpm.c

    The table couples a 1-bit trie (the btrie, authoritative store of the
    prefix -> data bindings) with an 8-bit stride multibit trie (the mtrie,
    read by the data plane).  The C sources are [lpm.h], [lpm_internal.h]
    and [lpm.c]; every definition below keeps the name of the C function
    or type it embeds.

    Conventions of the embedding.
    - [void *] values and counters are integers of [Z]; [NULL] is [0].
      Fixed-width arithmetic is written out with [u8], [u32] and [s32].
    - The two tries are owned trees, so a pointer to a node or a block is
      modelled by the tree it points to ([BNull] / [MNull] for a null
      pointer), and a pointer *into* a tree that the code later writes
      through is modelled by the path that reaches it (an address and the
      number of leading bits, or bytes, consumed).
    - An address is a list of bytes in network order.  A byte read beyond
      the end of the list yields 0, and every byte read is truncated to
      [u8].
    - [assert] failures and [exit] are the [Abort] outcome of [exec].
    - [malloc] is an oracle: a list of booleans consumed one per request,
      [false] meaning that the request fails; an exhausted list always
      succeeds.
    - Console and log printing is left out. *)

From Stdlib Require Import String Ascii ZArith List Lia Bool.
Import ListNotations.
Open Scope Z_scope.

(** ** Outcomes of a run *)

Inductive exec (A : Type) : Type :=
| Ret (a : A)
| Abort.

Arguments Ret {A} a.
Arguments Abort {A}.

Definition bind {A B : Type} (c : exec A) (k : A -> exec B) : exec B :=
  match c with
  | Ret a => k a
  | Abort => Abort
  end.

Notation "x <- c ;; k" := (bind c (fun x => k))
  (at level 61, c at next level, right associativity).
Notation "' p <- c ;; k" := (bind c (fun x => match x with p => k end))
  (at level 61, p pattern, c at next level, right associativity).

(** ** lpm.h *)

Inductive lpm_result_t : Type :=
| LPM_SUCCESS
| LPM_ERR_RESOURCES
| LPM_ERR_INVALID
| LPM_ERR_INTERNAL
| LPM_ERR_NOTFOUND
| LPM_ERR_EXISTS
| LPM_ERR_CONFLICT
| LPM_ERR_EXOTIC.

Definition lpm_result_eqb (a b : lpm_result_t) : bool :=
  match a, b with
  | LPM_SUCCESS, LPM_SUCCESS
  | LPM_ERR_RESOURCES, LPM_ERR_RESOURCES
  | LPM_ERR_INVALID, LPM_ERR_INVALID
  | LPM_ERR_INTERNAL, LPM_ERR_INTERNAL
  | LPM_ERR_NOTFOUND, LPM_ERR_NOTFOUND
  | LPM_ERR_EXISTS, LPM_ERR_EXISTS
  | LPM_ERR_CONFLICT, LPM_ERR_CONFLICT
  | LPM_ERR_EXOTIC, LPM_ERR_EXOTIC => true
  | _, _ => false
  end.

Inductive lpm_debug_t : Type :=
| DEBUG_NORMAL
| DEBUG_MEMORY
| DEBUG_ALGORITHM
| DEBUG_ALL
| LOGGING
| DEBUG_UNKNOWN (v : Z).

(** ** lpm_internal.h *)

Definition NULL : Z := 0.

Definition u8 (x : Z) : Z := x mod 256.
Definition u32 (x : Z) : Z := x mod 4294967296.
Definition s32 (x : Z) : Z := (x + 2147483648) mod 4294967296 - 2147483648.

Definition LPM_STRIDE : Z := 8.
Definition LPM_LEVEL_MAX : Z := 16.
Definition LPM_MASKLEN_MAX : Z := LPM_LEVEL_MAX * LPM_STRIDE.
Definition LPM_TABLE_NAME_LEN : nat := 32.
Definition LPM_TABLE_DEFAULT_NAME : string := "Unknown".

Definition LPM_DEBUG_MASK : Z := 18446744073709551615.
Definition LPM_DEBUG_NORM : Z := Z.shiftl 1 0.
Definition LPM_DEBUG_MEM : Z := Z.shiftl 1 1.
Definition LPM_DEBUG_ALG : Z := Z.shiftl 1 2.
Definition LPM_LOGGING : Z := Z.shiftl 1 3.

(** [btrie_node_t *]: a null pointer, or a node with its data and its
    two children. *)
Inductive btrie_node_t : Type :=
| BNull
| BNode (data : Z) (child0 child1 : btrie_node_t).

(** [mtrie_node_t *] used as a block base: a null pointer, or a block of
    entries; an entry ([mtrie_node_t]) holds its data and the base of the
    block of the next level. *)
Inductive mtrie_block_t : Type :=
| MNull
| MBlock (entries : list mtrie_node_t)
with mtrie_node_t : Type :=
| MNode (data : Z) (base : mtrie_block_t).

Definition mdata (e : mtrie_node_t) : Z := match e with MNode d _ => d end.
Definition mbase (e : mtrie_node_t) : mtrie_block_t := match e with MNode _ b => b end.

Record lpm_lkup_table_stat : Type := mkStat {
  btrie_node_alloc_stat : Z;
  btrie_node_alloc_fail_stat : Z;
  mtrie_block_alloc_stat : Z;
  mtrie_block_alloc_fail_stat : Z;
  data_total : Z;
  data_per_masklen : list Z
}.

Record lpm_lkup_table_t : Type := mkTable {
  name : string;
  btrie_root : btrie_node_t;
  hi256_table_base : mtrie_block_t;
  default_data : Z;
  default_addr : list Z;
  default_masklen : Z;
  debug_flag : Z;
  stat : lpm_lkup_table_stat
}.

Definition set_btrie_root (t : lpm_lkup_table_t) (r : btrie_node_t) : lpm_lkup_table_t :=
  mkTable (name t) r (hi256_table_base t) (default_data t) (default_addr t)
          (default_masklen t) (debug_flag t) (stat t).

Definition set_hi256_table_base (t : lpm_lkup_table_t) (b : mtrie_block_t) : lpm_lkup_table_t :=
  mkTable (name t) (btrie_root t) b (default_data t) (default_addr t)
          (default_masklen t) (debug_flag t) (stat t).

Definition set_default (t : lpm_lkup_table_t) (d : Z) (a : list Z) (m : Z) : lpm_lkup_table_t :=
  mkTable (name t) (btrie_root t) (hi256_table_base t) d a m (debug_flag t) (stat t).

Definition set_debug_flag (t : lpm_lkup_table_t) (f : Z) : lpm_lkup_table_t :=
  mkTable (name t) (btrie_root t) (hi256_table_base t) (default_data t) (default_addr t)
          (default_masklen t) f (stat t).

Definition set_stat (t : lpm_lkup_table_t) (s : lpm_lkup_table_stat) : lpm_lkup_table_t :=
  mkTable (name t) (btrie_root t) (hi256_table_base t) (default_data t) (default_addr t)
          (default_masklen t) (debug_flag t) s.

Definition set_btrie_node_alloc_stat (s : lpm_lkup_table_stat) (v : Z) :=
  mkStat v (btrie_node_alloc_fail_stat s) (mtrie_block_alloc_stat s)
         (mtrie_block_alloc_fail_stat s) (data_total s) (data_per_masklen s).

Definition set_btrie_node_alloc_fail_stat (s : lpm_lkup_table_stat) (v : Z) :=
  mkStat (btrie_node_alloc_stat s) v (mtrie_block_alloc_stat s)
         (mtrie_block_alloc_fail_stat s) (data_total s) (data_per_masklen s).

Definition set_mtrie_block_alloc_stat (s : lpm_lkup_table_stat) (v : Z) :=
  mkStat (btrie_node_alloc_stat s) (btrie_node_alloc_fail_stat s) v
         (mtrie_block_alloc_fail_stat s) (data_total s) (data_per_masklen s).

Definition set_mtrie_block_alloc_fail_stat (s : lpm_lkup_table_stat) (v : Z) :=
  mkStat (btrie_node_alloc_stat s) (btrie_node_alloc_fail_stat s) (mtrie_block_alloc_stat s)
         v (data_total s) (data_per_masklen s).

Definition set_data_total (s : lpm_lkup_table_stat) (v : Z) :=
  mkStat (btrie_node_alloc_stat s) (btrie_node_alloc_fail_stat s) (mtrie_block_alloc_stat s)
         (mtrie_block_alloc_fail_stat s) v (data_per_masklen s).

Definition set_data_per_masklen (s : lpm_lkup_table_stat) (l : list Z) :=
  mkStat (btrie_node_alloc_stat s) (btrie_node_alloc_fail_stat s) (mtrie_block_alloc_stat s)
         (mtrie_block_alloc_fail_stat s) (data_total s) l.

(** Array helpers: read with a default, write in place (a write out of
    range leaves the list as it is). *)
Fixpoint upd_nth {A : Type} (n : nat) (l : list A) (v : A) : list A :=
  match l, n with
  | [], _ => []
  | _ :: tl, O => v :: tl
  | x :: tl, S n' => x :: upd_nth n' tl v
  end.

Definition zget (l : list Z) (i : Z) : Z := nth (Z.to_nat i) l 0.
Definition zset (l : list Z) (i : Z) (v : Z) : list Z := upd_nth (Z.to_nat i) l v.

(** The allocator oracle. *)
Definition malloc (mem : list bool) : bool * list bool :=
  match mem with
  | [] => (true, [])
  | ok :: mem' => (ok, mem')
  end.

(** *** Bit addressing *)

Definition byte_at (addr : list Z) (i : Z) : Z := u8 (zget addr i).

Definition BOUNDARY_BIT_POSITION (pos : Z) : bool := Z.land pos 7 =? 7.

Definition CLEAR_BIT_AT_POSITION (addr : list Z) (pos : Z) : exec (list Z) :=
  if pos <? LPM_MASKLEN_MAX then
    let mask := u8 (Z.lxor 255 (Z.shiftl 1 (7 - Z.land pos 7))) in
    Ret (zset addr (Z.shiftr pos 3) (Z.land (byte_at addr (Z.shiftr pos 3)) mask))
  else Abort.

Definition SET_BIT_AT_POSITION (addr : list Z) (pos : Z) : exec (list Z) :=
  if pos <? LPM_MASKLEN_MAX then
    Ret (zset addr (Z.shiftr pos 3)
              (u8 (Z.lor (byte_at addr (Z.shiftr pos 3)) (Z.shiftl 1 (7 - Z.land pos 7)))))
  else Abort.

(** The value computed by [bit_at_position], without its assertion. *)
Definition addr_bit (addr : list Z) (pos : Z) : Z :=
  if Z.land (byte_at addr (Z.shiftr pos 3)) (Z.shiftl 1 (7 - Z.land pos 7)) =? 0
  then 0 else 1.

Definition bit_at_position (addr : list Z) (pos : Z) : exec Z :=
  if pos <? LPM_MASKLEN_MAX then Ret (addr_bit addr pos) else Abort.

(** ** lpm.c: B-trie *)

Definition bchild (node : btrie_node_t) (bit : Z) : btrie_node_t :=
  match node with
  | BNull => BNull
  | BNode _ c0 c1 => if bit =? 0 then c0 else c1
  end.

Definition bset_child (node : btrie_node_t) (bit : Z) (c : btrie_node_t) : btrie_node_t :=
  match node with
  | BNull => BNull
  | BNode d c0 c1 => if bit =? 0 then BNode d c c1 else BNode d c0 c
  end.

Definition bdata (node : btrie_node_t) : Z :=
  match node with
  | BNull => NULL
  | BNode d _ _ => d
  end.

Definition bset_data (node : btrie_node_t) (d : Z) : btrie_node_t :=
  match node with
  | BNull => BNull
  | BNode _ c0 c1 => BNode d c0 c1
  end.

Definition bis_null (node : btrie_node_t) : bool :=
  match node with
  | BNull => true
  | BNode _ _ _ => false
  end.

(** Pointers into the btrie.  [bnode_at n node addr pos] is the node
    reached from [node] by the [n] bits of [addr] from position [pos] on;
    [bnode_modify] rewrites that node in place. *)
Fixpoint bnode_at (n : nat) (node : btrie_node_t) (addr : list Z) (pos : Z) : btrie_node_t :=
  match n with
  | O => node
  | S n' => bnode_at n' (bchild node (addr_bit addr pos)) addr (pos + 1)
  end.

Fixpoint bnode_modify (n : nat) (node : btrie_node_t) (addr : list Z) (pos : Z)
         (f : btrie_node_t -> btrie_node_t) : btrie_node_t :=
  match n with
  | O => f node
  | S n' =>
      let bit := addr_bit addr pos in
      bset_child node bit (bnode_modify n' (bchild node bit) addr (pos + 1) f)
  end.

Definition btrie_mem_alloc (st : lpm_lkup_table_stat) (mem : list bool)
  : btrie_node_t * lpm_lkup_table_stat * list bool :=
  let (ok, mem') := malloc mem in
  if ok
  then (BNode NULL BNull BNull,
        set_btrie_node_alloc_stat st (s32 (btrie_node_alloc_stat st + 1)), mem')
  else (BNull,
        set_btrie_node_alloc_fail_stat st (u32 (btrie_node_alloc_fail_stat st + 1)), mem').

Definition btrie_mem_free (st : lpm_lkup_table_stat) (p : btrie_node_t)
  : exec lpm_lkup_table_stat :=
  match p with
  | BNull => Ret st
  | BNode _ _ _ =>
      if 0 <? btrie_node_alloc_stat st
      then Ret (set_btrie_node_alloc_stat st (s32 (btrie_node_alloc_stat st - 1)))
      else Abort
  end.

Definition btrie_alloc_node (table : lpm_lkup_table_t) (mem : list bool)
  : btrie_node_t * lpm_lkup_table_t * list bool :=
  let '(ret, st, mem') := btrie_mem_alloc (stat table) mem in
  (ret, set_stat table st, mem').

Definition btrie_free_node (table : lpm_lkup_table_t) (p : btrie_node_t)
  : exec lpm_lkup_table_t :=
  st <- btrie_mem_free (stat table) p ;;
  Ret (set_stat table st).

(** The loop of [btrie_find_node]: [n] iterations are left, [pos] is the
    next bit position. *)
Fixpoint btrie_find_node_loop (n : nat) (node : btrie_node_t) (addr : list Z) (pos : Z)
  : exec btrie_node_t :=
  match n with
  | O => Ret node
  | S n' =>
      match node with
      | BNull => Ret BNull
      | BNode _ _ _ =>
          bit <- bit_at_position addr pos ;;
          btrie_find_node_loop n' (bchild node bit) addr (pos + 1)
      end
  end.

Definition btrie_find_node (root : btrie_node_t) (addr : list Z) (masklen : Z)
  : exec btrie_node_t :=
  btrie_find_node_loop (Z.to_nat masklen) root addr 0.

Definition btrie_find_data (root : btrie_node_t) (addr : list Z) (masklen : Z) : exec Z :=
  node <- btrie_find_node root addr masklen ;;
  Ret (bdata node).

(** The result of [btrie_add_node]: the return code and the two rollback
    outputs.  [append_point] is the depth, along [addr], of the node it
    points to ([None] for the null pointer it is initialised with); the
    new node itself is the node at depth [masklen] along [addr]. *)
Record add_node_out : Type := mkAddOut {
  an_ret : lpm_result_t;
  an_append_point : option Z;
  an_append_bit : Z
}.

(** The while loop of [btrie_add_node], run on the subtree [place]; the
    rewritten subtree is returned with the outputs. *)
Fixpoint btrie_add_node_loop (n : nat) (table : lpm_lkup_table_t) (mem : list bool)
         (place : btrie_node_t) (addr : list Z) (pos : Z) (out : add_node_out)
  : exec (btrie_node_t * add_node_out * lpm_lkup_table_t * list bool) :=
  match n with
  | O => Ret (place, out, table, mem)
  | S n' =>
      match place with
      | BNull => Abort
      | BNode _ _ _ =>
          bit <- bit_at_position addr pos ;;
          match bchild place bit with
          | BNull =>
              let '(nw, table1, mem1) := btrie_alloc_node table mem in
              match nw with
              | BNull =>
                  Ret (place,
                       mkAddOut LPM_ERR_RESOURCES (an_append_point out) (an_append_bit out),
                       table1, mem1)
              | BNode _ _ _ =>
                  ' (sub, out', table2, mem2) <-
                    btrie_add_node_loop n' table1 mem1 nw addr (pos + 1)
                      (mkAddOut LPM_SUCCESS (an_append_point out) (an_append_bit out)) ;;
                  Ret (bset_child place bit sub, out', table2, mem2)
              end
          | BNode _ _ _ as child =>
              nextbit <- bit_at_position addr (pos + 1) ;;
              ' (sub, out', table2, mem2) <-
                btrie_add_node_loop n' table mem child addr (pos + 1)
                  (mkAddOut (an_ret out) (Some (pos + 1)) nextbit) ;;
              Ret (bset_child place bit sub, out', table2, mem2)
          end
      end
  end.

Definition btrie_add_node (table : lpm_lkup_table_t) (mem : list bool)
           (addr : list Z) (masklen : Z)
  : exec (add_node_out * lpm_lkup_table_t * list bool) :=
  match hi256_table_base table with
  | MNull => Abort
  | MBlock _ =>
      out0 <- (if 0 <? masklen
               then bit0 <- bit_at_position addr 0 ;;
                    Ret (mkAddOut LPM_ERR_EXISTS (Some 0) bit0)
               else Ret (mkAddOut LPM_ERR_EXISTS None 0)) ;;
      ' (root, out, table1, mem1) <-
        btrie_add_node_loop (Z.to_nat masklen) table mem (btrie_root table) addr 0 out0 ;;
      Ret (out, set_btrie_root table1 root, mem1)
  end.

Fixpoint btrie_del_appended (table : lpm_lkup_table_t) (node : btrie_node_t)
  : exec lpm_lkup_table_t :=
  match node with
  | BNull => Ret table
  | BNode _ c0 c1 =>
      match c0, c1 with
      | BNode _ _ _, BNode _ _ _ => Abort
      | BNode _ _ _, BNull =>
          table1 <- btrie_free_node table node ;;
          btrie_del_appended table1 c0
      | BNull, _ =>
          table1 <- btrie_free_node table node ;;
          btrie_del_appended table1 c1
      end
  end.

Fixpoint __btrie_destroy_subtree (table : lpm_lkup_table_t) (node : btrie_node_t)
  : exec lpm_lkup_table_t :=
  match node with
  | BNull => Ret table
  | BNode _ c0 c1 =>
      table1 <- __btrie_destroy_subtree table c0 ;;
      table2 <- __btrie_destroy_subtree table1 c1 ;;
      btrie_free_node table2 node
  end.

Definition btrie_destroy_subtree (table : lpm_lkup_table_t) (node : btrie_node_t)
  : exec lpm_lkup_table_t :=
  __btrie_destroy_subtree table node.

(** The visitor of a walk: it may keep a state of its own, of type [W];
    it receives the address buffer, the mask length and the data, and
    returns an [int]. *)
Definition lpm_data_walker_func_t (W : Type) : Type :=
  W -> list Z -> Z -> Z -> Z * W.

Section Walk.
Variable W : Type.
Variable walker : lpm_data_walker_func_t W.

Fixpoint __btrie_dfs_walk (node : btrie_node_t) (addr : list Z) (bitpos : Z) (w : W)
    : exec (lpm_result_t * list Z * W) :=
    match node with
    | BNull => Abort
    | BNode data c0 c1 =>
        let '(rc, w1) := if data =? NULL then (0, w) else walker w addr bitpos data in
        if negb (rc =? 0) then Ret (LPM_ERR_EXOTIC, addr, w1)
        else
          ' (ret, addr1, w2) <-
            match c0 with
            | BNull => Ret (LPM_SUCCESS, addr, w1)
            | BNode _ _ _ =>
                a <- CLEAR_BIT_AT_POSITION addr bitpos ;;
                __btrie_dfs_walk c0 a (bitpos + 1) w1
            end ;;
          if negb (lpm_result_eqb ret LPM_SUCCESS) then Ret (ret, addr1, w2)
          else
            match c1 with
            | BNull => Ret (LPM_SUCCESS, addr1, w2)
            | BNode _ _ _ =>
                a <- SET_BIT_AT_POSITION addr1 bitpos ;;
                ' (ret', a', w3) <- __btrie_dfs_walk c1 a (bitpos + 1) w2 ;;
                a'' <- CLEAR_BIT_AT_POSITION a' bitpos ;;
                Ret (ret', a'', w3)
            end
    end.

Definition btrie_dfs_walk (root : btrie_node_t) (w : W) : exec (lpm_result_t * W) :=
    let addr := repeat 0 (Z.to_nat LPM_LEVEL_MAX) in
    ' (ret, _, w') <- __btrie_dfs_walk root addr 0 w ;;
    Ret (ret, w').
End Walk.

Arguments __btrie_dfs_walk {W} walker node addr bitpos w.
Arguments btrie_dfs_walk {W} walker root w.

Definition btrie_init (table : lpm_lkup_table_t) (mem : list bool)
  : lpm_result_t * lpm_lkup_table_t * list bool :=
  match btrie_root table with
  | BNode _ _ _ => (LPM_ERR_EXISTS, table, mem)
  | BNull =>
      let '(nw, table1, mem1) := btrie_alloc_node table mem in
      match nw with
      | BNull => (LPM_ERR_RESOURCES, set_btrie_root table1 BNull, mem1)
      | BNode _ _ _ => (LPM_SUCCESS, set_btrie_root table1 nw, mem1)
      end
  end.

Definition btrie_destroy (table : lpm_lkup_table_t) : exec lpm_lkup_table_t :=
  table1 <- btrie_destroy_subtree table (btrie_root table) ;;
  Ret (set_btrie_root table1 BNull).

(** ** lpm.c: M-trie *)

Definition MTRIE_BLOCK_ENTRY : Z := Z.shiftl 1 LPM_STRIDE.

Definition mnode_zero : mtrie_node_t := MNode NULL MNull.

(** [base + idx]: the entry of index [idx] of a block. *)
Definition entry_at (es : list mtrie_node_t) (idx : Z) : mtrie_node_t :=
  nth (Z.to_nat idx) es mnode_zero.

Definition set_entry (es : list mtrie_node_t) (idx : Z) (e : mtrie_node_t)
  : list mtrie_node_t :=
  upd_nth (Z.to_nat idx) es e.

Definition set_entry_data (es : list mtrie_node_t) (idx : Z) (d : Z) : list mtrie_node_t :=
  set_entry es idx (MNode d (mbase (entry_at es idx))).

Definition set_entry_base (es : list mtrie_node_t) (idx : Z) (b : mtrie_block_t)
  : list mtrie_node_t :=
  set_entry es idx (MNode (mdata (entry_at es idx)) b).

Definition mis_null (b : mtrie_block_t) : bool :=
  match b with
  | MNull => true
  | MBlock _ => false
  end.

Definition mtrie_mem_alloc (st : lpm_lkup_table_stat) (mem : list bool)
  : mtrie_block_t * lpm_lkup_table_stat * list bool :=
  let (ok, mem') := malloc mem in
  if ok
  then (MBlock (repeat mnode_zero (Z.to_nat MTRIE_BLOCK_ENTRY)),
        set_mtrie_block_alloc_stat st (s32 (mtrie_block_alloc_stat st + 1)), mem')
  else (MNull,
        set_mtrie_block_alloc_fail_stat st (u32 (mtrie_block_alloc_fail_stat st + 1)), mem').

Definition mtrie_mem_free (st : lpm_lkup_table_stat) (p : mtrie_block_t)
  : exec lpm_lkup_table_stat :=
  match p with
  | MNull => Ret st
  | MBlock _ =>
      if 0 <? mtrie_block_alloc_stat st
      then Ret (set_mtrie_block_alloc_stat st (s32 (mtrie_block_alloc_stat st - 1)))
      else Abort
  end.

Definition mtrie_alloc_block (table : lpm_lkup_table_t) (mem : list bool)
  : mtrie_block_t * lpm_lkup_table_t * list bool :=
  let '(base, st, mem') := mtrie_mem_alloc (stat table) mem in
  (base, set_stat table st, mem').

(** [__mtrie_free_block]: the blocks below the entries are freed first,
    in the order of the entries, then the block itself. *)
Fixpoint __mtrie_free_block (st : lpm_lkup_table_stat) (base : mtrie_block_t)
  : exec lpm_lkup_table_stat :=
  match base with
  | MNull => Ret st
  | MBlock es =>
      st1 <- (fix entries_loop (es : list mtrie_node_t) (st : lpm_lkup_table_stat)
                : exec lpm_lkup_table_stat :=
                match es with
                | [] => Ret st
                | MNode _ b :: tl =>
                    st' <- __mtrie_free_block st b ;;
                    entries_loop tl st'
                end) es st ;;
      mtrie_mem_free st1 base
  end.

Definition mtrie_free_block (table : lpm_lkup_table_t) (base : mtrie_block_t)
  : exec lpm_lkup_table_t :=
  st <- __mtrie_free_block (stat table) base ;;
  Ret (set_stat table st).

Definition mtrie_init (table : lpm_lkup_table_t) (mem : list bool)
  : lpm_result_t * lpm_lkup_table_t * list bool :=
  match hi256_table_base table with
  | MBlock _ => (LPM_ERR_EXISTS, table, mem)
  | MNull =>
      let '(nw, table1, mem1) := mtrie_alloc_block table mem in
      match nw with
      | MNull => (LPM_ERR_RESOURCES, set_hi256_table_base table1 MNull, mem1)
      | MBlock _ => (LPM_SUCCESS, set_hi256_table_base table1 nw, mem1)
      end
  end.

Definition mtrie_destroy (table : lpm_lkup_table_t) : exec lpm_lkup_table_t :=
  table1 <- mtrie_free_block table (hi256_table_base table) ;;
  Ret (set_hi256_table_base table1 MNull).

(** ** lpm.c: the table *)

Definition empty_stat : lpm_lkup_table_stat :=
  mkStat 0 0 0 0 0 (repeat 0 (Z.to_nat (LPM_MASKLEN_MAX + 1))).

(** [strncpy (table->name, name, LPM_TABLE_NAME_LEN - 1)] into a zeroed
    buffer. *)
Fixpoint strncpy (n : nat) (s : string) : string :=
  match n, s with
  | S n', String c s' => String c (strncpy n' s')
  | _, _ => EmptyString
  end.

Definition lpm_mem_alloc (mem : list bool) : option lpm_lkup_table_t * list bool :=
  let (ok, mem') := malloc mem in
  if ok
  then (Some (mkTable EmptyString BNull MNull NULL
                      (repeat 0 (Z.to_nat LPM_LEVEL_MAX)) 0 0 empty_stat), mem')
  else (None, mem').

Definition set_name (t : lpm_lkup_table_t) (s : string) : lpm_lkup_table_t :=
  mkTable s (btrie_root t) (hi256_table_base t) (default_data t) (default_addr t)
          (default_masklen t) (debug_flag t) (stat t).

Definition lpm_create_table (nm : option string) (mem : list bool)
  : exec (option lpm_lkup_table_t * list bool) :=
  match lpm_mem_alloc mem with
  | (None, mem1) => Ret (None, mem1)
  | (Some table0, mem1) =>
      let table :=
        set_name table0
          match nm with
          | None => LPM_TABLE_DEFAULT_NAME
          | Some s => strncpy (LPM_TABLE_NAME_LEN - 1) s
          end in
      let '(r1, table1, mem2) := btrie_init table mem1 in
      if negb (lpm_result_eqb r1 LPM_SUCCESS) then Ret (None, mem2)
      else
        let '(r2, table2, mem3) := mtrie_init table1 mem2 in
        if negb (lpm_result_eqb r2 LPM_SUCCESS)
        then _ <- btrie_destroy table2 ;; Ret (None, mem3)
        else Ret (Some table2, mem3)
  end.

Definition lpm_destroy_table (table : option lpm_lkup_table_t)
  : exec (lpm_result_t * option lpm_lkup_table_t) :=
  match table with
  | None => Ret (LPM_ERR_INVALID, None)
  | Some t =>
      t1 <- mtrie_destroy t ;;
      t2 <- btrie_destroy t1 ;;
      Ret (LPM_SUCCESS, None)
  end.

Definition lpm_debug_support (table : option lpm_lkup_table_t) (debug : lpm_debug_t) (on : Z)
  : lpm_result_t * option lpm_lkup_table_t :=
  match table with
  | None => (LPM_ERR_INVALID, None)
  | Some t =>
      let flag := debug_flag t in
      if on =? 1 then
        match debug with
        | DEBUG_NORMAL => (LPM_SUCCESS, Some (set_debug_flag t (Z.lor flag LPM_DEBUG_NORM)))
        | DEBUG_MEMORY => (LPM_SUCCESS, Some (set_debug_flag t (Z.lor flag LPM_DEBUG_MEM)))
        | DEBUG_ALGORITHM => (LPM_SUCCESS, Some (set_debug_flag t (Z.lor flag LPM_DEBUG_ALG)))
        | DEBUG_ALL => (LPM_SUCCESS, Some (set_debug_flag t (Z.lor flag LPM_DEBUG_MASK)))
        | LOGGING => (LPM_SUCCESS, Some (set_debug_flag t (Z.lor flag LPM_LOGGING)))
        | DEBUG_UNKNOWN _ => (LPM_ERR_INVALID, Some t)
        end
      else if on =? 0 then
        let clear m := Z.land flag (Z.lxor LPM_DEBUG_MASK m) in
        match debug with
        | DEBUG_NORMAL => (LPM_SUCCESS, Some (set_debug_flag t (clear LPM_DEBUG_NORM)))
        | DEBUG_MEMORY => (LPM_SUCCESS, Some (set_debug_flag t (clear LPM_DEBUG_MEM)))
        | DEBUG_ALGORITHM => (LPM_SUCCESS, Some (set_debug_flag t (clear LPM_DEBUG_ALG)))
        | DEBUG_ALL => (LPM_SUCCESS, Some (set_debug_flag t (clear LPM_DEBUG_MASK)))
        | LOGGING => (LPM_SUCCESS, Some (set_debug_flag t (clear LPM_LOGGING)))
        | DEBUG_UNKNOWN _ => (LPM_ERR_INVALID, Some t)
        end
      else (LPM_ERR_INVALID, Some t)
  end.

Definition lpm_check_arg (table : option lpm_lkup_table_t) (addr : option (list Z))
           (masklen : Z) : lpm_result_t :=
  match table with
  | None => LPM_ERR_INVALID
  | Some _ =>
      if LPM_MASKLEN_MAX <? masklen then LPM_ERR_INVALID
      else
        match addr with
        | None => if 0 <? masklen then LPM_ERR_INVALID else LPM_SUCCESS
        | Some _ => LPM_SUCCESS
        end
  end.

(** An address argument that passed [lpm_check_arg]; a null address is
    only accepted with mask length 0, where it is never read. *)
Definition addr_of (addr : option (list Z)) : list Z :=
  match addr with
  | Some a => a
  | None => []
  end.

Definition lpm_find_entry (table : option lpm_lkup_table_t) (addr : option (list Z))
           (masklen : Z) : exec Z :=
  if negb (lpm_result_eqb (lpm_check_arg table addr masklen) LPM_SUCCESS) then Ret NULL
  else
    match table with
    | None => Ret NULL
    | Some t =>
        match btrie_root t with
        | BNull => Ret NULL
        | BNode _ _ _ => btrie_find_data (btrie_root t) (addr_of addr) masklen
        end
    end.

(** The while loop of [lpm_search_table]: [level] counts the increments
    of [idx], so that [*idx] is the byte [level] of [addr]. *)
Fixpoint lpm_search_loop (base : mtrie_block_t) (addr : list Z) (level : Z) (data : Z)
  : Z :=
  match base with
  | MNull => data
  | MBlock es =>
      (fix pick (es : list mtrie_node_t) (i : nat) : Z :=
         match es, i with
         | [], _ => data
         | MNode d b :: _, O =>
             lpm_search_loop b addr (level + 1) (if d =? NULL then data else d)
         | _ :: tl, S i' => pick tl i'
         end) es (Z.to_nat (byte_at addr level))
  end.

(** [using_default] is the pointer argument: [None] for a null pointer,
    [Some v] for a pointer to a byte holding [v]; the byte after the call
    is returned with the result. *)
Definition lpm_search_table (table : option lpm_lkup_table_t) (addr : option (list Z))
           (using_default : option Z) : Z * option Z :=
  match table, addr, using_default with
  | Some t, Some a, Some _ =>
      let data := lpm_search_loop (hi256_table_base t) a 0 NULL in
      if data =? NULL then (default_data t, Some 1) else (data, Some 0)
  | _, _, _ => (NULL, using_default)
  end.

(** *** Writing the mtrie *)

(** The for loop of [lpm_pattern_generate]: [n] entries are written from
    index [tmp_idx] on. *)
Fixpoint pattern_loop (n : nat) (base : list mtrie_node_t) (tmp_idx : Z) (data : Z)
  : list mtrie_node_t :=
  match n with
  | O => base
  | S n' => pattern_loop n' (set_entry_data base tmp_idx data) (tmp_idx + 1) data
  end.

Definition pattern_mask (bitpos : Z) : Z :=
  let masklen := u32 (bitpos + 1) mod 8 in
  if BOUNDARY_BIT_POSITION bitpos then 255
  else u8 (Z.lnot (Z.shiftl 1 (8 - masklen) - 1)).

Definition lpm_pattern_generate (base : list mtrie_node_t) (idx : Z) (bitpos : Z) (data : Z)
  : list mtrie_node_t :=
  let mask := pattern_mask bitpos in
  let tmp_idx := Z.land idx mask in
  let end_idx := u8 (Z.lor idx (Z.lnot mask)) in
  pattern_loop (Z.to_nat (end_idx - tmp_idx + 1)) base tmp_idx data.

(** The index adjusted by the [switch (nextbit)] of [lpm_gen_combinations],
    and the bit position handed to [lpm_pattern_generate].  The switch is
    written twice in the source; below bit 8 it leaves out the [& 7] and
    asserts [temp_bitpos != 7], which is the same there. *)
Definition combination_target (idx : Z) (temp_bitpos : Z) (nextbit : Z) : exec (Z * Z) :=
  if nextbit =? 0 then
    if BOUNDARY_BIT_POSITION temp_bitpos then Abort
    else Ret (Z.land idx (Z.lxor 255 (Z.shiftl 1 (7 - Z.land (temp_bitpos + 1) 7))),
              temp_bitpos + 1)
  else if nextbit =? 1 then
    if BOUNDARY_BIT_POSITION temp_bitpos then Abort
    else Ret (u8 (Z.lor idx (Z.shiftl 1 (7 - Z.land (temp_bitpos + 1) 7))),
              temp_bitpos + 1)
  else Ret (idx, temp_bitpos).

(** One element of [trie_chain] / [trie_idx] / [trie_chain_alloc]. *)
Record chain_link : Type := mkLink {
  cl_block : list mtrie_node_t;
  cl_idx : Z;
  cl_alloc : bool
}.

(** Release of the blocks allocated so far, when a later level fails. *)
Fixpoint trie_chain_release (table : lpm_lkup_table_t) (chain : list chain_link)
  : exec lpm_lkup_table_t :=
  match chain with
  | [] => Ret table
  | l :: tl =>
      table1 <- (if cl_alloc l then mtrie_free_block table (MBlock (cl_block l))
                 else Ret table) ;;
      trie_chain_release table1 tl
  end.

(** The first for loop of [lpm_gen_combinations]: [n] levels are left,
    [chain] holds the levels below [level] in order.  [None] stands for
    the [LPM_ERR_RESOURCES] return. *)
Fixpoint trie_chain_build (n : nat) (table : lpm_lkup_table_t) (mem : list bool)
         (frontier_trie : mtrie_block_t) (addr : list Z) (level : Z)
         (chain : list chain_link)
  : exec (option (list chain_link) * lpm_lkup_table_t * list bool) :=
  match n with
  | O => Ret (Some chain, table, mem)
  | S n' =>
      let idx := byte_at addr level in
      match frontier_trie with
      | MNull =>
          let '(nw, table1, mem1) := mtrie_alloc_block table mem in
          match nw with
          | MNull =>
              table2 <- trie_chain_release table1 chain ;;
              Ret (None, table2, mem1)
          | MBlock es =>
              trie_chain_build n' table1 mem1 (mbase (entry_at es idx)) addr (level + 1)
                               (chain ++ [mkLink es idx true])
          end
      | MBlock es =>
          trie_chain_build n' table mem (mbase (entry_at es idx)) addr (level + 1)
                           (chain ++ [mkLink es idx false])
      end
  end.

(** The second for loop of [lpm_gen_combinations], from the lowest level
    up.  The blocks of the chain are the blocks of the tree: hooking the
    block of a level into the entry above it, or finding it there
    already, leaves the upper block with the current lower block under
    its entry.  [chain] is given lowest level first, the lowest block
    itself left out, and [low] is the block below. *)
Fixpoint trie_chain_hook (chain : list chain_link) (low : mtrie_block_t) : mtrie_block_t :=
  match chain with
  | [] => low
  | l :: tl => trie_chain_hook tl (MBlock (set_entry_base (cl_block l) (cl_idx l) low))
  end.

Definition lpm_gen_combinations (table : lpm_lkup_table_t) (mem : list bool)
           (addr : list Z) (temp_bitpos : Z) (data : Z) (nextbit : Z)
  : exec (lpm_result_t * lpm_lkup_table_t * list bool) :=
  if negb (temp_bitpos <? LPM_MASKLEN_MAX) then Abort
  else if negb ((nextbit =? -1) || (nextbit =? 0) || (nextbit =? 1)) then Abort
  else
    match hi256_table_base table with
    | MNull => Abort
    | MBlock mtrie_table_base =>
        if temp_bitpos <? 8 then
          ' (idx, bitpos) <- combination_target (byte_at addr 0) temp_bitpos nextbit ;;
          Ret (LPM_SUCCESS,
               set_hi256_table_base table
                 (MBlock (lpm_pattern_generate mtrie_table_base idx bitpos data)),
               mem)
        else
          let trie_count := Z.shiftr temp_bitpos 3 + 1 in
          ' (chain, table1, mem1) <-
            trie_chain_build (Z.to_nat trie_count) table mem
                             (MBlock mtrie_table_base) addr 0 [] ;;
          match chain with
          | None => Ret (LPM_ERR_RESOURCES, table1, mem1)
          | Some chain =>
              match rev chain with
              | [] => Abort
              | last :: uppers =>
                  ' (idx, bitpos) <- combination_target (cl_idx last) temp_bitpos nextbit ;;
                  let frontier_trie := lpm_pattern_generate (cl_block last) idx bitpos data in
                  Ret (LPM_SUCCESS,
                       set_hi256_table_base table1
                         (trie_chain_hook uppers (MBlock frontier_trie)),
                       mem1)
              end
          end
    end.

(** [__lpm_prefix_expansion]; the address buffer, which the function
    rewrites, is returned with the result. *)
Fixpoint __lpm_prefix_expansion (table : lpm_lkup_table_t) (mem : list bool)
         (addr : list Z) (masklen : Z) (temp_bitpos : Z) (temp_root : btrie_node_t)
         (data : Z) {struct temp_root}
  : exec (lpm_result_t * lpm_lkup_table_t * list bool * list Z) :=
  let direct :=
    ' (r, t, m) <- lpm_gen_combinations table mem addr temp_bitpos data (-1) ;;
    Ret (r, t, m, addr) in
  if BOUNDARY_BIT_POSITION temp_bitpos then direct
  else
    match temp_root with
    | BNull => Abort
    | BNode _ BNull BNull => direct
    | BNode _ c0 c1 =>
        ' (ret, table1, mem1, addr1) <-
          match c0 with
          | BNode d0 _ _ =>
              if d0 =? NULL then
                a <- CLEAR_BIT_AT_POSITION addr (temp_bitpos + 1) ;;
                __lpm_prefix_expansion table mem a masklen (temp_bitpos + 1) c0 data
              else Ret (LPM_SUCCESS, table, mem, addr)
          | BNull =>
              ' (r, t, m) <- lpm_gen_combinations table mem addr temp_bitpos data 0 ;;
              Ret (r, t, m, addr)
          end ;;
        if negb (lpm_result_eqb ret LPM_SUCCESS) then Ret (ret, table1, mem1, addr1)
        else
          ' (ret', table2, mem2, addr2) <-
            match c1 with
            | BNode d1 _ _ =>
                if d1 =? NULL then
                  a <- SET_BIT_AT_POSITION addr1 (temp_bitpos + 1) ;;
                  __lpm_prefix_expansion table1 mem1 a masklen (temp_bitpos + 1) c1 data
                else Ret (LPM_SUCCESS, table1, mem1, addr1)
            | BNull =>
                ' (r, t, m) <- lpm_gen_combinations table1 mem1 addr1 temp_bitpos data 1 ;;
                Ret (r, t, m, addr1)
            end ;;
          if negb (lpm_result_eqb ret' LPM_SUCCESS) then Ret (ret', table2, mem2, addr2)
          else Ret (LPM_SUCCESS, table2, mem2, addr2)
    end.

Definition lpm_prefix_expansion (table : lpm_lkup_table_t) (mem : list bool)
           (addr : list Z) (masklen : Z) (temp_bitpos : Z) (temp_root : btrie_node_t)
           (data : Z)
  : exec (lpm_result_t * lpm_lkup_table_t * list bool * list Z) :=
  __lpm_prefix_expansion table mem addr masklen temp_bitpos temp_root data.

(** *** Public operations *)

(** [memset (&temp_addr, 0, sizeof (temp_addr)); memcpy (&temp_addr, addr, cnt)]. *)
Definition copy_addr (addr : list Z) (cnt : Z) : list Z :=
  map (fun i => if Z.of_nat i <? cnt then byte_at addr (Z.of_nat i) else 0)
      (seq 0 (Z.to_nat LPM_LEVEL_MAX)).

Definition lpm_update_default_data (table : option lpm_lkup_table_t)
           (addr : option (list Z)) (masklen : Z)
  : exec (lpm_result_t * option lpm_lkup_table_t) :=
  if negb (lpm_result_eqb (lpm_check_arg table addr masklen) LPM_SUCCESS)
  then Ret (LPM_ERR_INVALID, table)
  else
    match table with
    | None => Ret (LPM_ERR_INVALID, table)
    | Some t =>
        match btrie_root t with
        | BNull => Ret (LPM_ERR_INTERNAL, table)
        | BNode _ _ _ =>
            data <- btrie_find_data (btrie_root t) (addr_of addr) masklen ;;
            if data =? NULL then Ret (LPM_ERR_NOTFOUND, table)
            else
              let daddr :=
                if 0 <? masklen then
                  let cnt := Z.shiftr (masklen - 1) 3 + 1 in
                  let copied := copy_addr (addr_of addr) cnt in
                  let mask := Z.lxor 255 (Z.shiftl 1 (7 - Z.land (masklen - 1) 7) - 1) in
                  zset copied (cnt - 1) (Z.land (zget copied (cnt - 1)) mask)
                else repeat 0 (Z.to_nat LPM_LEVEL_MAX) in
              Ret (LPM_SUCCESS, Some (set_default t data daddr masklen))
        end
    end.

(** The rollback of the btrie in [lpm_add_entry]: the chain below
    [append_point->child[append_bit]] is cut off and released. *)
Definition btrie_rollback (table : lpm_lkup_table_t) (addr : list Z)
           (append_point : option Z) (append_bit : Z) : exec lpm_lkup_table_t :=
  match append_point with
  | None => Abort
  | Some depth =>
      let root := btrie_root table in
      let newnode := bchild (bnode_at (Z.to_nat depth) root addr 0) append_bit in
      let root' :=
        bnode_modify (Z.to_nat depth) root addr 0 (fun n => bset_child n append_bit BNull) in
      btrie_del_appended (set_btrie_root table root') newnode
  end.

(** [newnode->data = v] for the node at depth [masklen] along [addr]. *)
Definition btrie_store_data (table : lpm_lkup_table_t) (addr : list Z) (masklen : Z) (v : Z)
  : lpm_lkup_table_t :=
  set_btrie_root table
    (bnode_modify (Z.to_nat masklen) (btrie_root table) addr 0 (fun n => bset_data n v)).

Definition stat_data_incr (table : lpm_lkup_table_t) (masklen : Z) : lpm_lkup_table_t :=
  let st := stat table in
  set_stat table
    (set_data_per_masklen
       (set_data_total st (s32 (data_total st + 1)))
       (zset (data_per_masklen st) masklen (u32 (zget (data_per_masklen st) masklen + 1)))).

Definition stat_data_decr (table : lpm_lkup_table_t) (masklen : Z) : lpm_lkup_table_t :=
  let st := stat table in
  set_stat table
    (set_data_per_masklen
       (set_data_total st (s32 (data_total st - 1)))
       (zset (data_per_masklen st) masklen (u32 (zget (data_per_masklen st) masklen - 1)))).

Definition lpm_add_entry (table : option lpm_lkup_table_t) (mem : list bool)
           (addr : option (list Z)) (masklen : Z) (data : Z)
  : exec (lpm_result_t * option lpm_lkup_table_t * list bool) :=
  let ret := lpm_check_arg table addr masklen in
  if negb (lpm_result_eqb ret LPM_SUCCESS) then Ret (ret, table, mem)
  else if data =? NULL then Ret (LPM_ERR_INVALID, table, mem)
  else
    match table with
    | None => Ret (LPM_ERR_INVALID, table, mem)
    | Some t =>
        if bis_null (btrie_root t) || mis_null (hi256_table_base t)
        then Ret (LPM_ERR_INTERNAL, table, mem)
        else
          let a := addr_of addr in
          ' (out, t1, mem1) <- btrie_add_node t mem a masklen ;;
          match an_ret out with
          | LPM_ERR_RESOURCES =>
              t2 <- btrie_rollback t1 a (an_append_point out) (an_append_bit out) ;;
              Ret (LPM_ERR_RESOURCES, Some t2, mem1)
          | LPM_SUCCESS | LPM_ERR_EXISTS =>
              let already_exist := lpm_result_eqb (an_ret out) LPM_ERR_EXISTS in
              let newnode := bnode_at (Z.to_nat masklen) (btrie_root t1) a 0 in
              match newnode with
              | BNull => Abort
              | BNode d _ _ =>
                  if negb (d =? NULL) then
                    if d =? data then Ret (LPM_ERR_EXISTS, Some t1, mem1)
                    else Ret (LPM_ERR_CONFLICT, Some t1, mem1)
                  else
                    let t2 := stat_data_incr (btrie_store_data t1 a masklen data) masklen in
                    if masklen =? 0 then Ret (LPM_SUCCESS, Some t2, mem1)
                    else
                      let cnt := u8 (Z.shiftr (masklen - 1) 3 + 1) in
                      let temp_addr := copy_addr a cnt in
                      let bitpos := masklen - 1 in
                      ' (ret, t3, mem2, _) <-
                        lpm_prefix_expansion t2 mem1 temp_addr masklen bitpos
                          (bnode_at (Z.to_nat masklen) (btrie_root t2) a 0) data ;;
                      match ret with
                      | LPM_SUCCESS => Ret (ret, Some t3, mem2)
                      | LPM_ERR_RESOURCES =>
                          let t4 := stat_data_decr (btrie_store_data t3 a masklen NULL)
                                                   masklen in
                          if already_exist then Ret (ret, Some t4, mem2)
                          else
                            t5 <- btrie_rollback t4 a (an_append_point out)
                                                 (an_append_bit out) ;;
                            Ret (ret, Some t5, mem2)
                      | _ => Abort
                      end
              end
          | other => Ret (other, Some t1, mem1)
          end
    end.

Definition lpm_update_entry (table : option lpm_lkup_table_t) (mem : list bool)
           (addr : option (list Z)) (masklen : Z) (data : Z)
  : exec (lpm_result_t * option lpm_lkup_table_t * list bool) :=
  let ret := lpm_check_arg table addr masklen in
  if negb (lpm_result_eqb ret LPM_SUCCESS) then Ret (ret, table, mem)
  else if data =? NULL then Ret (LPM_ERR_INVALID, table, mem)
  else
    match table with
    | None => Ret (LPM_ERR_INVALID, table, mem)
    | Some t =>
        if bis_null (btrie_root t) || mis_null (hi256_table_base t)
        then Ret (LPM_ERR_INTERNAL, table, mem)
        else
          let a := addr_of addr in
          stored_node <- btrie_find_node (btrie_root t) a masklen ;;
          if bis_null stored_node || (bdata stored_node =? NULL)
          then Ret (LPM_ERR_NOTFOUND, table, mem)
          else
            let t1 := if bdata stored_node =? data then t
                      else btrie_store_data t a masklen data in
            if masklen =? 0 then Ret (LPM_SUCCESS, Some t1, mem)
            else
              let cnt := u8 (Z.shiftr (masklen - 1) 3 + 1) in
              let temp_addr := copy_addr a cnt in
              let bitpos := masklen - 1 in
              ' (ret, t2, mem1, _) <-
                lpm_prefix_expansion t1 mem temp_addr masklen bitpos
                  (bnode_at (Z.to_nat masklen) (btrie_root t1) a 0) data ;;
              Ret (ret, Some t2, mem1)
    end.

Definition lpm_del_default_data (table : option lpm_lkup_table_t)
  : lpm_result_t * option lpm_lkup_table_t :=
  match table with
  | None => (LPM_ERR_INVALID, None)
  | Some t =>
      if default_data t =? NULL then (LPM_ERR_NOTFOUND, table)
      else (LPM_SUCCESS, Some (set_default t NULL (repeat 0 (Z.to_nat LPM_LEVEL_MAX)) 0))
  end.

(** *** Deletion *)

(** The for loop of [zero_out_data], from level 1 on; the block [trie] is
    returned as the loop leaves it. *)
Fixpoint zero_out_loop (n : nat) (trie : mtrie_block_t) (addr : list Z) (level : Z)
         (masklen : Z) : mtrie_block_t :=
  match n with
  | O => trie
  | S n' =>
      match trie with
      | MNull => MNull
      | MBlock es =>
          let idx := byte_at addr level in
          if u32 (masklen - Z.shiftl level 3) <=? 8
          then MBlock (lpm_pattern_generate es idx (masklen - 1) NULL)
          else
            let es1 := set_entry_data es idx NULL in
            MBlock (set_entry_base es1 idx
                      (zero_out_loop n' (mbase (entry_at es idx)) addr (level + 1) masklen))
      end
  end.

Definition zero_out_data (table : lpm_lkup_table_t) (addr : list Z) (masklen : Z)
  : exec (lpm_result_t * lpm_lkup_table_t) :=
  match hi256_table_base table with
  | MNull => Abort
  | MBlock table_base =>
      let idx := byte_at addr 0 in
      if masklen <=? 8 then
        Ret (LPM_SUCCESS,
             set_hi256_table_base table
               (MBlock (lpm_pattern_generate table_base idx (masklen - 1) NULL)))
      else
        let es1 := set_entry_data table_base idx NULL in
        match mbase (entry_at table_base idx) with
        | MNull => Ret (LPM_ERR_INTERNAL, set_hi256_table_base table (MBlock es1))
        | MBlock _ as trie =>
            Ret (LPM_SUCCESS,
                 set_hi256_table_base table
                   (MBlock (set_entry_base es1 idx
                              (zero_out_loop 15 trie addr 1 masklen))))
        end
  end.

(** The search loop of [delete_trie_block] and what follows it, run on
    the block [trie] of level [level]; [n] more levels may be entered.
    The entry visited last loses its base, and the block it pointed to is
    released once all its entries are found without a base. *)
Fixpoint delete_trie_block_loop (n : nat) (table : lpm_lkup_table_t)
         (trie : list mtrie_node_t) (addr : list Z) (level : Z)
  : exec (list mtrie_node_t * lpm_lkup_table_t) :=
  let idx := byte_at addr level in
  let next := mbase (entry_at trie idx) in
  match n, next with
  | S n', MBlock es =>
      ' (es', table1) <- delete_trie_block_loop n' table es addr (level + 1) ;;
      Ret (set_entry_base trie idx (MBlock es'), table1)
  | _, MNull => Ret (set_entry_base trie idx MNull, table)
  | O, MBlock es =>
      if forallb (fun e => mis_null (mbase e)) es then
        table1 <- mtrie_free_block table next ;;
        Ret (set_entry_base trie idx MNull, table1)
      else Abort
  end.

Definition delete_trie_block (table : lpm_lkup_table_t) (addr : list Z) (bitpos : Z)
  : exec lpm_lkup_table_t :=
  if negb (BOUNDARY_BIT_POSITION bitpos) then Abort
  else
    let trie_count := Z.shiftr bitpos 3 + 1 in
    match hi256_table_base table with
    | MNull => Abort
    | MBlock es =>
        ' (es', table1) <-
          delete_trie_block_loop (Z.to_nat (trie_count - 1)) table es addr 0 ;;
        Ret (set_hi256_table_base table1 (MBlock es'))
    end.

(** [__delete_subtree] on the subtree [temp_root]; [at_root] tells
    whether [temp_root] is [table->btrie_root].  The subtree as the call
    leaves it is returned with the verdict; the btrie root of [table] is
    not read. *)
Fixpoint __delete_subtree (table : lpm_lkup_table_t) (addr : list Z)
         (temp_root : btrie_node_t) (at_root : bool) (bitpos : Z)
  : exec (Z * btrie_node_t * lpm_lkup_table_t) :=
  match temp_root with
  | BNull => Abort
  | BNode d BNull BNull =>
      if d =? NULL then Ret (1, temp_root, table) else Ret (0, temp_root, table)
  | BNode d c0 c1 =>
      ' (delete_left, c0', table1) <-
        match c0 with
        | BNull => Ret (1, BNull, table)
        | BNode _ _ _ =>
            ' (dl, sub, t1) <- __delete_subtree table addr c0 false (u32 (bitpos + 1)) ;;
            if negb (dl =? 0) then
              t2 <- btrie_destroy_subtree t1 sub ;;
              Ret (dl, BNull, t2)
            else Ret (dl, sub, t1)
        end ;;
      if delete_left =? 0 then Ret (0, BNode d c0' c1, table1)
      else
        ' (delete_right, c1', table2) <-
          match c1 with
          | BNull => Ret (1, BNull, table1)
          | BNode _ _ _ =>
              ' (dr, sub, t1) <- __delete_subtree table1 addr c1 false (u32 (bitpos + 1)) ;;
              if negb (dr =? 0) then
                t2 <- btrie_destroy_subtree t1 sub ;;
                Ret (dr, BNull, t2)
              else Ret (dr, sub, t1)
          end ;;
        if delete_right =? 0 then Ret (0, BNode d c0' c1', table2)
        else if negb at_root then
          if BOUNDARY_BIT_POSITION bitpos then
            table3 <- delete_trie_block table2 addr bitpos ;;
            Ret (1, BNode d c0' c1', table3)
          else Ret (1, BNode d c0' c1', table2)
        else Ret (0, BNode d c0' c1', table2)
  end.

Definition delete_subtree (table : lpm_lkup_table_t) (addr : list Z)
           (temp_root : btrie_node_t) (at_root : bool) (bitpos : Z)
  : exec (Z * btrie_node_t * lpm_lkup_table_t) :=
  __delete_subtree table addr temp_root at_root bitpos.

(** The for loop of [__lpm_del_entry]: the node reached, and the less
    specific data recorded on the way as (bit position, data). *)
Fixpoint del_entry_walk (n : nat) (node : btrie_node_t) (addr : list Z) (bitpos : Z)
         (masklen : Z) (last_known : option (Z * Z))
  : exec (btrie_node_t * option (Z * Z)) :=
  match n with
  | O => Ret (node, last_known)
  | S n' =>
      match node with
      | BNull => Abort
      | BNode _ _ _ =>
          bit <- bit_at_position addr bitpos ;;
          match bchild node bit with
          | BNull => Ret (BNull, last_known)
          | BNode d _ _ as child =>
              del_entry_walk n' child addr (bitpos + 1) masklen
                (if negb (d =? NULL) && negb (bitpos =? masklen - 1)
                 then Some (bitpos, d) else last_known)
          end
      end
  end.

Definition __lpm_del_entry (table : lpm_lkup_table_t) (mem : list bool)
           (addr : list Z) (masklen : Z)
  : exec (lpm_result_t * lpm_lkup_table_t * list bool) :=
  ' (node, last_known) <-
    del_entry_walk (Z.to_nat masklen) (btrie_root table) addr 0 masklen None ;;
  match node with
  | BNull => Ret (LPM_ERR_NOTFOUND, table, mem)
  | BNode d _ _ =>
      if d =? NULL then Ret (LPM_ERR_NOTFOUND, table, mem)
      else
        let bitpos := masklen - 1 in
        let t0 := btrie_store_data table addr masklen NULL in
        if negb (0 <? data_total (stat t0)) then Abort
        else
          let t1 := stat_data_decr t0 masklen in
          let node1 := bnode_at (Z.to_nat masklen) (btrie_root t1) addr 0 in
          ' (ret, t2, mem1, addr1) <-
            match last_known with
            | Some (last_known_bitpos, last_known_data) =>
                let node_hit_trie := Z.shiftr bitpos 3 in
                let last_known_hit_trie := Z.shiftr last_known_bitpos 3 in
                if node_hit_trie =? last_known_hit_trie then
                  lpm_prefix_expansion t1 mem addr masklen last_known_bitpos
                    (bnode_at (Z.to_nat (last_known_bitpos + 1)) (btrie_root t1) addr 0)
                    last_known_data
                else
                  lpm_prefix_expansion t1 mem addr masklen bitpos node1 NULL
            | None =>
                if negb (bis_null (bchild node1 0)) || negb (bis_null (bchild node1 1))
                then lpm_prefix_expansion t1 mem addr masklen bitpos node1 NULL
                else
                  ' (r, t) <- zero_out_data t1 addr masklen ;;
                  Ret (r, t, mem, addr)
            end ;;
          if negb (lpm_result_eqb ret LPM_SUCCESS) then Ret (ret, t2, mem1)
          else
            let '(depth, at_root, last_known_bitpos) :=
              match last_known with
              | Some (b, _) => (Z.to_nat (b + 1), false, b)
              | None => (O, true, u32 (-1))
              end in
            ' (_, sub, t3) <-
              delete_subtree t2 addr1 (bnode_at depth (btrie_root t2) addr 0)
                             at_root last_known_bitpos ;;
            Ret (LPM_SUCCESS,
                 set_btrie_root t3 (bnode_modify depth (btrie_root t2) addr 0 (fun _ => sub)),
                 mem1)
  end.

Definition lpm_del_entry (table : option lpm_lkup_table_t) (mem : list bool)
           (addr : option (list Z)) (masklen : Z)
  : exec (lpm_result_t * option lpm_lkup_table_t * list bool) :=
  let ret := lpm_check_arg table addr masklen in
  if negb (lpm_result_eqb ret LPM_SUCCESS) then Ret (ret, table, mem)
  else
    match table with
    | None => Ret (LPM_ERR_INVALID, table, mem)
    | Some t =>
        if bis_null (btrie_root t) || mis_null (hi256_table_base t)
        then Ret (LPM_ERR_INTERNAL, table, mem)
        else if masklen =? 0 then
          if bdata (btrie_root t) =? NULL then Ret (LPM_ERR_NOTFOUND, table, mem)
          else
            let t0 := set_btrie_root t (bset_data (btrie_root t) NULL) in
            if negb (0 <? data_total (stat t0)) then Abort
            else Ret (LPM_SUCCESS, Some (stat_data_decr t0 masklen), mem)
        else
          let cnt := u8 (Z.shiftr (masklen - 1) 3 + 1) in
          let temp_addr := copy_addr (addr_of addr) cnt in
          ' (ret, t1, mem1) <- __lpm_del_entry t mem temp_addr masklen ;;
          Ret (ret, Some t1, mem1)
    end.

(** *** Traversal *)

Definition lpm_walk_entry (W : Type) (table : option lpm_lkup_table_t)
           (walker : option (lpm_data_walker_func_t W)) (w : W)
  : exec (lpm_result_t * W) :=
  match table, walker with
  | None, _ => Ret (LPM_ERR_INVALID, w)
  | Some _, None => Ret (LPM_ERR_INVALID, w)
  | Some t, Some f =>
      match btrie_root t with
      | BNull => Ret (LPM_ERR_INTERNAL, w)
      | BNode _ _ _ =>
          ' (ret, w1) <- btrie_dfs_walk f (btrie_root t) w ;;
          if negb (default_data t =? NULL) then
            let '(rc, w2) := f w1 (default_addr t) (default_masklen t) (default_data t) in
            if negb (rc =? 0) then Ret (LPM_ERR_EXOTIC, w2) else Ret (ret, w2)
          else Ret (ret, w1)
      end
  end.

Arguments lpm_walk_entry {W} table walker w.

(** ** Sequences of calls on a live table *)

Inductive lpm_op : Type :=
| OpAdd (addr : list Z) (masklen data : Z)
| OpUpdate (addr : list Z) (masklen data : Z)
| OpDel (addr : list Z) (masklen : Z)
| OpUpdateDefault (addr : list Z) (masklen : Z)
| OpDelDefault
| OpDebug (debug : lpm_debug_t) (on : Z).

(** The table after a call is the table the pointer still points to. *)
Definition live (t : lpm_lkup_table_t) (after : option lpm_lkup_table_t) : lpm_lkup_table_t :=
  match after with
  | Some t' => t'
  | None => t
  end.

Definition apply_op (t : lpm_lkup_table_t) (mem : list bool) (op : lpm_op)
  : exec (lpm_result_t * lpm_lkup_table_t * list bool) :=
  match op with
  | OpAdd addr masklen data =>
      ' (r, t', mem') <- lpm_add_entry (Some t) mem (Some addr) masklen data ;;
      Ret (r, live t t', mem')
  | OpUpdate addr masklen data =>
      ' (r, t', mem') <- lpm_update_entry (Some t) mem (Some addr) masklen data ;;
      Ret (r, live t t', mem')
  | OpDel addr masklen =>
      ' (r, t', mem') <- lpm_del_entry (Some t) mem (Some addr) masklen ;;
      Ret (r, live t t', mem')
  | OpUpdateDefault addr masklen =>
      ' (r, t') <- lpm_update_default_data (Some t) (Some addr) masklen ;;
      Ret (r, live t t', mem)
  | OpDelDefault =>
      let '(r, t') := lpm_del_default_data (Some t) in
      Ret (r, live t t', mem)
  | OpDebug debug on =>
      let '(r, t') := lpm_debug_support (Some t) debug on in
      Ret (r, live t t', mem)
  end.

(** A sequence of calls, with the results in call order. *)
Fixpoint apply_ops (t : lpm_lkup_table_t) (mem : list bool) (ops : list lpm_op)
  : exec (list lpm_result_t * lpm_lkup_table_t * list bool) :=
  match ops with
  | [] => Ret ([], t, mem)
  | op :: ops' =>
      ' (r, t1, mem1) <- apply_op t mem op ;;
      ' (rs, t2, mem2) <- apply_ops t1 mem1 ops' ;;
      Ret (r :: rs, t2, mem2)
  end.

(** A table as [lpm_create_table] returns it when no allocation fails. *)
Definition created (nm : option string) : lpm_lkup_table_t :=
  match lpm_create_table nm [] with
  | Ret (Some t, _) => t
  | _ => mkTable EmptyString BNull MNull NULL [] 0 0 empty_stat
  end.

(** The tables that a program can hold: created by [lpm_create_table],
    then taken through any calls that return, whatever the allocator
    does. *)
Inductive reachable : lpm_lkup_table_t -> Prop :=
| reachable_create nm mem t mem' :
    lpm_create_table nm mem = Ret (Some t, mem') -> reachable t
| reachable_step t mem op r t' mem' :
    reachable t -> apply_op t mem op = Ret (r, t', mem') -> reachable t'.

(** The number of btrie nodes whose data is not null. *)
Fixpoint btrie_data_count (node : btrie_node_t) : Z :=
  match node with
  | BNull => 0
  | BNode d c0 c1 =>
      (if d =? NULL then 0 else 1) + btrie_data_count c0 + btrie_data_count c1
  end.

(** The entries that [lpm_search_table] reads for [addr], from the block
    [base] of level [level] down. *)
Fixpoint search_path (base : mtrie_block_t) (addr : list Z) (level : Z)
  : list mtrie_node_t :=
  match base with
  | MNull => []
  | MBlock es =>
      (fix pick (es : list mtrie_node_t) (i : nat) : list mtrie_node_t :=
         match es, i with
         | [], _ => []
         | MNode d b :: _, O => MNode d b :: search_path b addr (level + 1)
         | _ :: tl, S i' => pick tl i'
         end) es (Z.to_nat (byte_at addr level))
  end.

(** Structural induction on the blocks of an mtrie. *)
Section MtrieInduction.
Variable P : mtrie_block_t -> Prop.
Hypothesis HNull : P MNull.
Hypothesis HBlock : forall es, Forall (fun e => P (mbase e)) es -> P (MBlock es).

Fixpoint mtrie_block_induction (b : mtrie_block_t) : P b :=
    match b with
    | MNull => HNull
    | MBlock es =>
        HBlock es
          ((fix entries (es : list mtrie_node_t) : Forall (fun e => P (mbase e)) es :=
              match es with
              | [] => Forall_nil _
              | e :: tl =>
                  Forall_cons e
                    (match e as e0 return P (mbase e0) with
                     | MNode _ b' => mtrie_block_induction b'
                     end)
                    (entries tl)
              end) es)
    end.
End MtrieInduction.

(** ** The btrie as a set of paths *)

(** A null pointer replaced by a fresh node. *)
Definition materialize (node : btrie_node_t) : btrie_node_t :=
  match node with
  | BNull => BNode NULL BNull BNull
  | BNode _ _ _ => node
  end.

(** [bt_ensure n node addr pos]: [node] with the path of the [n] bits of
    [addr] from [pos] on made to exist below it. *)
Fixpoint bt_ensure (n : nat) (node : btrie_node_t) (addr : list Z) (pos : Z)
  : btrie_node_t :=
  let node' := materialize node in
  match n with
  | O => node'
  | S n' =>
      let bit := addr_bit addr pos in
      bset_child node' bit (bt_ensure n' (bchild node' bit) addr (pos + 1))
  end.

(** How many nodes of that path are already there. *)
Fixpoint existing (n : nat) (node : btrie_node_t) (addr : list Z) (pos : Z) : nat :=
  match n with
  | O => O
  | S n' =>
      match bchild node (addr_bit addr pos) with
      | BNull => O
      | BNode _ _ _ as c => S (existing n' c addr (pos + 1))
      end
  end.

(** A chain of [c] fresh nodes along [addr], the first one selected by
    the bit at [pos - 1] of its parent. *)
Definition fresh_chain (c : nat) (addr : list Z) (pos : Z) : btrie_node_t :=
  match c with
  | O => BNull
  | S c' => bt_ensure c' BNull addr pos
  end.

Definition incr_times (c : nat) (x : Z) : Z := Nat.iter c (fun v => s32 (v + 1)) x.

Definition in_s32 (x : Z) : Prop := -2147483648 <= x < 2147483648.
Definition in_u32 (x : Z) : Prop := 0 <= x < 4294967296.


(** What a run of [btrie_add_node_loop] leaves: the path is there down
    to some depth [m], which is the whole path unless an allocation
    failed; the nodes below the [k] that were found are counted; and the
    rollback outputs name the deepest node that was found. *)
Definition stat_after_add (s : lpm_lkup_table_stat) (allocated : nat) (failed : bool)
  : lpm_lkup_table_stat :=
  set_btrie_node_alloc_fail_stat
    (set_btrie_node_alloc_stat s (incr_times allocated (btrie_node_alloc_stat s)))
    (if failed then u32 (btrie_node_alloc_fail_stat s + 1) else btrie_node_alloc_fail_stat s).

(** ** The mtrie as a tree of 256-entry blocks *)

Definition zero_block : list mtrie_node_t := repeat mnode_zero 256.

(** The entries of a block, those of a freshly allocated block when the
    pointer is null. *)
Definition block_entries (b : mtrie_block_t) : list mtrie_node_t :=
  match b with
  | MNull => zero_block
  | MBlock es => es
  end.

(** The inner loop of [__mtrie_free_block]. *)
Fixpoint free_entries (es : list mtrie_node_t) (st : lpm_lkup_table_stat)
  : exec lpm_lkup_table_stat :=
  match es with
  | [] => Ret st
  | MNode _ b :: tl =>
      st' <- __mtrie_free_block st b ;;
      free_entries tl st'
  end.

(** Every block has [MTRIE_BLOCK_ENTRY] entries. *)
Fixpoint mtrie_wfb (b : mtrie_block_t) : bool :=
  match b with
  | MNull => true
  | MBlock es =>
      (length es =? 256)%nat &&
      (fix all (es : list mtrie_node_t) : bool :=
         match es with
         | [] => true
         | MNode _ b' :: tl => mtrie_wfb b' && all tl
         end) es
  end.

Definition mtrie_wf (b : mtrie_block_t) : Prop := mtrie_wfb b = true.

(** [write_where p data es]: the entries of [es] whose index satisfies
    [p] get [data]; bases are kept. *)
Fixpoint write_from (i : Z) (p : Z -> bool) (data : Z) (es : list mtrie_node_t)
  : list mtrie_node_t :=
  match es with
  | [] => []
  | e :: tl => (if p i then MNode data (mbase e) else e) :: write_from (i + 1) p data tl
  end.

Definition write_where (p : Z -> bool) (data : Z) (es : list mtrie_node_t)
  : list mtrie_node_t :=
  write_from 0 p data es.

(** The index range of [lpm_pattern_generate], as a test on an index. *)
Definition in_pattern (idx bitpos i : Z) : bool :=
  let mask := pattern_mask bitpos in
  (Z.land idx mask <=? i) && (i <=? u8 (Z.lor idx (Z.lnot mask))).

(** Bit [j] of the byte [b], counted from the most significant bit. *)
Definition byte_bit (b j : Z) : Z := if Z.testbit b (7 - j) then 1 else 0.

(** The bytes [a] and [b] agree on their [m] leading bits. *)
Definition same_top (m a b : Z) : bool := Z.shiftr a (8 - m) =? Z.shiftr b (8 - m).

(** [mtrie_path_update n blk addr level f]: the blocks along the bytes of
    [addr] from [level] on are made to exist, [n] levels down, and the
    entries of the last one are rewritten by [f]. *)
Fixpoint mtrie_path_update (n : nat) (blk : mtrie_block_t) (addr : list Z) (level : Z)
         (f : list mtrie_node_t -> list mtrie_node_t) : mtrie_block_t :=
  let es := block_entries blk in
  match n with
  | O => MBlock (f es)
  | S n' =>
      let idx := byte_at addr level in
      MBlock (set_entry_base es idx
                (mtrie_path_update n' (mbase (entry_at es idx)) addr (level + 1) f))
  end.

(** The number of blocks missing among the [n] blocks along the bytes of
    [addr], from [blk] at [level] down. *)
Fixpoint chain_missing (n : nat) (blk : mtrie_block_t) (addr : list Z) (level : Z) : nat :=
  match n with
  | O => O
  | S n' =>
      match blk with
      | MNull => S n'
      | MBlock es => chain_missing n' (mbase (entry_at es (byte_at addr level))) addr (level + 1)
      end
  end.

Definition count_alloc (chain : list chain_link) : nat :=
  length (filter cl_alloc chain).

(** Whether the expansion of a prefix whose last bit is bit [j] of its
    byte, from the btrie node [node] of that prefix, writes the entry of
    index [i]: no node with data lies between [node] and the end of the
    stride on the path of [i]. *)
Fixpoint unshadowed (node : btrie_node_t) (j : Z) (i : Z) {struct node} : bool :=
  if j =? 7 then true
  else
    match node with
    | BNull => true
    | BNode _ BNull BNull => true
    | BNode _ c0 c1 =>
        if byte_bit i (j + 1) =? 0 then
          match c0 with
          | BNull => true
          | BNode d _ _ => if d =? NULL then unshadowed c0 (j + 1) i else false
          end
        else
          match c1 with
          | BNull => true
          | BNode d _ _ => if d =? NULL then unshadowed c1 (j + 1) i else false
          end
    end.

Definition stride_written (node : btrie_node_t) (j : Z) (b : Z) (i : Z) : bool :=
  same_top (j + 1) i b && unshadowed node j i.

(** Exhaustive checks over small ranges. *)
Definition all_below (n : nat) (P : Z -> bool) : bool :=
  forallb P (map Z.of_nat (seq 0 n)).

(** The statistics after a block allocation failed. *)
Definition stat_mtrie_failed (s : lpm_lkup_table_stat) : lpm_lkup_table_stat :=
  set_mtrie_block_alloc_fail_stat s (u32 (mtrie_block_alloc_fail_stat s + 1)).

(** The table after a successful [lpm_gen_combinations]: the blocks of
    the chain that were missing are counted, and the mtrie is the one
    rewritten at the end of the chain. *)
Definition table_after_write (table : lpm_lkup_table_t) (addr : list Z) (k : nat)
           (F : list mtrie_node_t -> list mtrie_node_t) : lpm_lkup_table_t :=
  set_stat
    (set_hi256_table_base table (mtrie_path_update k (hi256_table_base table) addr 0 F))
    (set_mtrie_block_alloc_stat (stat table)
       (incr_times (chain_missing (S k) (hi256_table_base table) addr 0)
                   (mtrie_block_alloc_stat (stat table)))).

(** What one half of an expansion step writes: the entries below the
    child [c] reached by the bit value [bitval], unless [c] holds data. *)
Definition half_written (c : btrie_node_t) (j b bitval i : Z) : bool :=
  same_top (j + 1) i b && (byte_bit i (j + 1) =? bitval) &&
  match c with
  | BNull => true
  | BNode d _ _ => if d =? NULL then unshadowed c (j + 1) i else false
  end.

(** The three outcomes of a prefix expansion that returns: a failed
    block allocation, which is only counted; no entry to write; or the
    entries selected by [p] written at the end of the chain. *)
Definition expansion_post (table : lpm_lkup_table_t) (addr : list Z) (k : nat)
           (p : Z -> bool) (data : Z) (r : lpm_result_t) (table' : lpm_lkup_table_t)
  : Prop :=
  (r = LPM_ERR_RESOURCES /\
   chain_missing (S k) (hi256_table_base table) addr 0 <> O /\
   table' = set_stat table (stat_mtrie_failed (stat table))) \/
  (r = LPM_SUCCESS /\ table' = table /\ forall i, 0 <= i < 256 -> p i = false) \/
  (r = LPM_SUCCESS /\ table' = table_after_write table addr k (write_where p data)).

(** The statement of [expansion_spec] for one node, to be used as an
    induction hypothesis. *)
Definition expansion_spec_at (node : btrie_node_t) : Prop :=
  forall table mem addr masklen tb data r table' mem' addr',
    0 <= tb -> length addr = 16%nat ->
    mtrie_wf (hi256_table_base table) ->
    in_s32 (mtrie_block_alloc_stat (stat table)) ->
    __lpm_prefix_expansion table mem addr masklen tb node data =
      Ret (r, table', mem', addr') ->
    length addr' = 16%nat /\
    (forall l, 0 <= l -> l <> tb / 8 -> byte_at addr' l = byte_at addr l) /\
    same_top (tb mod 8 + 1) (byte_at addr' (tb / 8)) (byte_at addr (tb / 8)) = true /\
    expansion_post table addr (Z.to_nat (tb / 8))
      (stride_written node (tb mod 8) (byte_at addr (tb / 8))) data r table'.


(** ** Entries, prefixes and bindings *)

(** The block reached from [blk] along [n] bytes of [addr], from byte
    [level] on. *)
Fixpoint mtrie_block_at (n : nat) (blk : mtrie_block_t) (addr : list Z) (level : Z)
  : mtrie_block_t :=
  match n with
  | O => blk
  | S n' =>
      mtrie_block_at n' (mbase (entry_at (block_entries blk) (byte_at addr level)))
                     addr (level + 1)
  end.

(** The data held by the entry of index [i] of the block of level [n]
    on the path of [addr]; null when the block is not there. *)
Definition mtrie_data_at (blk : mtrie_block_t) (addr : list Z) (n : nat) (i : Z) : Z :=
  mdata (entry_at (block_entries (mtrie_block_at n blk addr 0)) i).

(** Bit [pos] of the prefix of [8 * (n + 1)] bits that this entry stands
    for. *)
Definition entry_bit (addr : list Z) (n : nat) (i : Z) (pos : Z) : Z :=
  if pos <? 8 * Z.of_nat n then addr_bit addr pos else byte_bit i (pos - 8 * Z.of_nat n).

(** The prefix [q/qlen] covers the entry: the addresses of the entry all
    match it. *)
Definition covers (q : list Z) (qlen : Z) (addr : list Z) (n : nat) (i : Z) : Prop :=
  qlen <= 8 * (Z.of_nat n + 1) /\
  forall pos, 0 <= pos < qlen -> addr_bit q pos = entry_bit addr n i pos.

(** [q/qlen] is strictly more specific than [p/plen]. *)
Definition more_specific (q : list Z) (qlen : Z) (p : list Z) (plen : Z) : Prop :=
  plen < qlen /\ forall pos, 0 <= pos < plen -> addr_bit q pos = addr_bit p pos.

(** [q/qlen] is bound in the btrie. *)
Definition bound (root : btrie_node_t) (q : list Z) (qlen : Z) : Prop :=
  exists d, btrie_find_data root q qlen = Ret d /\ d <> NULL.

(** The node reached from [node] by [m] bits of the byte [i], from bit
    [j] on. *)
Fixpoint bwalk (m : nat) (node : btrie_node_t) (i j : Z) : btrie_node_t :=
  match m with
  | O => node
  | S m' => bwalk m' (bchild node (byte_bit i j)) i (j + 1)
  end.

(** The table that a sequence of calls builds from a fresh one, when no
    allocation fails. *)
Definition table_after (ops : list lpm_op) : lpm_lkup_table_t :=
  match apply_ops (created None) [] ops with
  | Ret (_, t, _) => t
  | Abort => created None
  end.

(** The statistics after a failed btrie node allocation. *)
Definition stat_btrie_failed (s : lpm_lkup_table_stat) : lpm_lkup_table_stat :=
  set_btrie_node_alloc_fail_stat s (u32 (btrie_node_alloc_fail_stat s + 1)).

(** ** The walk *)

(** The address buffer after [SET_BIT_AT_POSITION]. *)
Definition addr_set_bit (addr : list Z) (pos : Z) : list Z :=
  zset addr (Z.shiftr pos 3)
       (u8 (Z.lor (byte_at addr (Z.shiftr pos 3)) (Z.shiftl 1 (7 - Z.land pos 7)))).

(** The bindings held below [node], as the calls (address, mask length,
    data) that a walk in depth-first order makes for them: the node
    first, then the sub-tree of bit 0, then the sub-tree of bit 1. *)
Fixpoint dfs_bindings (node : btrie_node_t) (addr : list Z) (bitpos : Z)
  : list (list Z * Z * Z) :=
  match node with
  | BNull => []
  | BNode d c0 c1 =>
      (if d =? NULL then [] else [(addr, bitpos, d)]) ++
      dfs_bindings c0 addr (bitpos + 1) ++
      dfs_bindings c1 (addr_set_bit addr bitpos) (bitpos + 1)
  end.

(** The visitor called on a list of bindings in turn, up to the first
    call that does not return 0; the last return value and the
    visitor's state are returned. *)
Fixpoint visit_until {W : Type} (walker : lpm_data_walker_func_t W)
         (calls : list (list Z * Z * Z)) (w : W) : Z * W :=
  match calls with
  | [] => (0, w)
  | (a, m, d) :: rest =>
      let '(rc, w1) := walker w a m d in
      if rc =? 0 then visit_until walker rest w1 else (rc, w1)
  end.

(** No node of the tree is deeper than [n] below [node]. *)
Fixpoint btrie_within (n : nat) (node : btrie_node_t) : bool :=
  match node with
  | BNull => true
  | BNode _ c0 c1 =>
      match n with
      | O => bis_null c0 && bis_null c1
      | S n' => btrie_within n' c0 && btrie_within n' c1
      end
  end.

(** The cells of an address buffer hold bytes. *)
Definition is_bytes (addr : list Z) : Prop := Forall (fun b => 0 <= b < 256) addr.

(** The default entry as a call of the visitor. *)
Definition default_binding (t : lpm_lkup_table_t) : list (list Z * Z * Z) :=
  if default_data t =? NULL then []
  else [(default_addr t, default_masklen t, default_data t)].

(** ** lpm_internal.h: the debug tests *)

Definition LPM_DEBUGGING_NORM (table : lpm_lkup_table_t) : bool :=
  negb (Z.land (debug_flag table) LPM_DEBUG_NORM =? 0).

Definition LPM_DEBUGGING_MEM (table : lpm_lkup_table_t) : bool :=
  negb (Z.land (debug_flag table) LPM_DEBUG_MEM =? 0).

Definition LPM_DEBUGGING_ALG (table : lpm_lkup_table_t) : bool :=
  negb (Z.land (debug_flag table) LPM_DEBUG_ALG =? 0).

Definition LPM_LOGGING_ON (table : lpm_lkup_table_t) : bool :=
  negb (Z.land (debug_flag table) LPM_LOGGING =? 0).

(** The four tests together: normal, memory, algorithm, logging. *)
Definition debug_tests (table : lpm_lkup_table_t) : bool * bool * bool * bool :=
  (LPM_DEBUGGING_NORM table, LPM_DEBUGGING_MEM table, LPM_DEBUGGING_ALG table,
   LPM_LOGGING_ON table).

(** The tests after a call of [lpm_debug_support] that succeeds. *)
Definition debug_tests_after (table : lpm_lkup_table_t) (debug : lpm_debug_t) (on : Z)
  : option (bool * bool * bool * bool) :=
  match lpm_debug_support (Some table) debug on with
  | (LPM_SUCCESS, Some t') => Some (debug_tests t')
  | _ => None
  end.

(** ** The table that [lpm_create_table] builds *)

Definition fresh_table (nm : option string) : lpm_lkup_table_t :=
  mkTable (match nm with
           | None => LPM_TABLE_DEFAULT_NAME
           | Some s => strncpy (LPM_TABLE_NAME_LEN - 1) s
           end)
          (BNode NULL BNull BNull) (MBlock zero_block)
          NULL (repeat 0 16) 0 0
          (mkStat 1 0 1 0 0 (repeat 0 129)).

(** ** What the mtrie writers leave alone *)

(** [t'] differs from [t] in the mtrie and the statistics at most. *)
Definition table_frame (t t' : lpm_lkup_table_t) : Prop :=
  name t' = name t /\ btrie_root t' = btrie_root t /\
  default_data t' = default_data t /\ default_addr t' = default_addr t /\
  default_masklen t' = default_masklen t /\ debug_flag t' = debug_flag t.

(** ** Pruning *)

(** [small] is [big] with some of its sub-trees cut off. *)
Fixpoint btrie_pruned (small big : btrie_node_t) : Prop :=
  match small, big with
  | BNull, _ => True
  | BNode d c0 c1, BNode d' c0' c1' => d = d' /\ btrie_pruned c0 c0' /\ btrie_pruned c1 c1'
  | BNode _ _ _, BNull => False
  end.

(** ** The entries of a search *)

(** The entry that a search for [addr] reads at depth [n] below the
    block [blk] of level [level]: the entry of the byte [level + n] of
    [addr] in the block reached by the bytes before it. *)
Definition search_entry (blk : mtrie_block_t) (addr : list Z) (level : Z) (n : nat)
  : mtrie_node_t :=
  entry_at (block_entries (mtrie_block_at n blk addr level))
           (byte_at addr (level + Z.of_nat n)).

(** ** Counting what was allocated *)

(** The number of nodes of a btrie. *)
Fixpoint btrie_size (node : btrie_node_t) : Z :=
  match node with
  | BNull => 0
  | BNode _ c0 c1 => 1 + btrie_size c0 + btrie_size c1
  end.

(** The number of blocks of an mtrie. *)
Fixpoint mtrie_size (b : mtrie_block_t) : Z :=
  match b with
  | MNull => 0
  | MBlock es =>
      1 + (fix below (es : list mtrie_node_t) : Z :=
             match es with
             | [] => 0
             | MNode _ b' :: tl => mtrie_size b' + below tl
             end) es
  end.

(** The number of blocks below the entries [es]. *)
Fixpoint entries_size (es : list mtrie_node_t) : Z :=
  match es with
  | [] => 0
  | MNode _ b' :: tl => mtrie_size b' + entries_size tl
  end.

(** The statistics with the two allocation counters lowered. *)
Definition stat_released (s : lpm_lkup_table_stat) (nodes blocks : Z) : lpm_lkup_table_stat :=
  mkStat (btrie_node_alloc_stat s - nodes) (btrie_node_alloc_fail_stat s)
         (mtrie_block_alloc_stat s - blocks) (mtrie_block_alloc_fail_stat s)
         (data_total s) (data_per_masklen s).

(** ** What every call keeps *)

(** The btrie is there, no node lies deeper than [LPM_MASKLEN_MAX], and
    the node counter tells the number of nodes, as an [int]. *)
Definition btrie_ok (root : btrie_node_t) (counter : Z) : Prop :=
  root <> BNull /\ btrie_within 128 root = true /\ counter = s32 (btrie_size root).

(** The mtrie is there, each of its blocks has [MTRIE_BLOCK_ENTRY]
    entries, and the block counter tells the number of blocks, as an
    [int]. *)
Definition mtrie_ok (base : mtrie_block_t) (counter : Z) : Prop :=
  base <> MNull /\ mtrie_wf base /\ counter = s32 (mtrie_size base).

Definition table_ok (t : lpm_lkup_table_t) : Prop :=
  btrie_ok (btrie_root t) (btrie_node_alloc_stat (stat t)) /\
  mtrie_ok (hi256_table_base t) (mtrie_block_alloc_stat (stat t)).

(** A call whose mask length is a value of its C type, [u32]. *)
Definition op_in_range (op : lpm_op) : Prop :=
  match op with
  | OpAdd _ masklen _ | OpUpdate _ masklen _ | OpDel _ masklen
  | OpUpdateDefault _ masklen => 0 <= masklen < 4294967296
  | OpDelDefault | OpDebug _ _ => True
  end.

(** ** Longest match *)

(** Among the values [f (lo + 1)], ..., [f (lo + n)], the last one that
    is not null; null when all of them are. *)
Fixpoint deepest (f : nat -> Z) (lo n : nat) : Z :=
  match n with
  | O => NULL
  | S n' => if f (lo + n)%nat =? NULL then deepest f lo n' else f (lo + n)%nat
  end.

(** The data bound to the prefix made of the first [i] bits of [q], as
    [lpm_find_entry] reads it in the btrie. *)
Definition data_at (root : btrie_node_t) (q : list Z) (i : nat) : Z :=
  bdata (bnode_at i root q 0).

(** The mtrie holds, in the entry of each level on the path of an
    address, the data of the longest prefix bound in the btrie among
    those that end within the stride of that level. *)
Definition tries_agree (root : btrie_node_t) (base : mtrie_block_t) : Prop :=
  forall (q : list Z) (l : nat),
    mtrie_data_at base q l (byte_at q (Z.of_nat l)) = deepest (data_at root q) (8 * l) 8.

(** The calls that do not delete. *)
Definition op_keeps_bindings (op : lpm_op) : Prop :=
  match op with
  | OpDel _ _ => False
  | _ => True
  end.

(** The addresses [q] and [a] have the same first [n] bits. *)
Definition bits_match (q a : list Z) (n : nat) : bool :=
  forallb (fun p => addr_bit q p =? addr_bit a p) (map Z.of_nat (seq 0 n)).

(** The addresses [q] and [a] have the same first [k] bytes. *)
Definition bytes_match (q a : list Z) (k : nat) : bool :=
  forallb (fun c => byte_at q c =? byte_at a c) (map Z.of_nat (seq 0 k)).

(** ** Counting the bindings *)

(** The number of bindings of mask length [d] below [node]: the nodes
    with data at depth [d]. *)
Fixpoint btrie_data_count_at (d : nat) (node : btrie_node_t) : Z :=
  match node with
  | BNull => 0
  | BNode x c0 c1 =>
      match d with
      | O => if x =? NULL then 0 else 1
      | S d' => btrie_data_count_at d' c0 + btrie_data_count_at d' c1
      end
  end.

(** The counters of the bindings tell what the btrie holds: the total,
    as an [int], and the number per mask length, as [u32] values. *)
Definition data_stat_ok (t : lpm_lkup_table_t) : Prop :=
  data_total (stat t) = s32 (btrie_data_count (btrie_root t)) /\
  length (data_per_masklen (stat t)) = 129%nat /\
  forall m : nat,
    (m <= 128)%nat ->
    zget (data_per_masklen (stat t)) (Z.of_nat m) =
    u32 (btrie_data_count_at m (btrie_root t)).

(** 1 for data, 0 for null. *)
Definition has_data (d : Z) : Z := if d =? NULL then 0 else 1.

(** ** Room in the block counter *)

(** The mtrie of [table] is in place, and its block counter can count
    the blocks still missing on the chain of [k + 1] blocks along [addr]
    without leaving the range of its type. *)
Definition chain_room (table : lpm_lkup_table_t) (addr : list Z) (k : nat) : Prop :=
  hi256_table_base table <> MNull /\
  mtrie_wf (hi256_table_base table) /\
  0 <= mtrie_block_alloc_stat (stat table) /\
  mtrie_block_alloc_stat (stat table) +
    Z.of_nat (chain_missing (S k) (hi256_table_base table) addr 0) < 2147483648.

(** Both tries of [table] are in place, counted, and far enough from the
    end of their counters for one more call. *)
Definition table_room (table : lpm_lkup_table_t) : Prop :=
  table_ok table /\
  btrie_size (btrie_root table) + 128 < 2147483648 /\
  mtrie_size (hi256_table_base table) + 16 < 2147483648.

(** ** The allocator during a call *)

(** Between the oracles [mem] and [mem'] every allocation request was
    answered with success. *)
Definition allocs_succeeded (mem mem' : list bool) : Prop :=
  exists used, mem = used ++ mem' /\ Forall (fun ok => ok = true) used.

(** Between [mem] and [mem'] one request failed, the last one made. *)
Definition alloc_failed (mem mem' : list bool) : Prop :=
  exists used, mem = used ++ false :: mem' /\ Forall (fun ok => ok = true) used.

(** A call returns [LPM_ERR_RESOURCES] exactly when a request of its
    own failed, and makes no request after a failed one. *)
Definition oracle_outcome (r : lpm_result_t) (mem mem' : list bool) : Prop :=
  (r = LPM_ERR_RESOURCES /\ alloc_failed mem mem') \/
  (r <> LPM_ERR_RESOURCES /\ allocs_succeeded mem mem').

(** * Properties *)

(** ** Search: the flag and the default *)

Lemma lpm_search_loop_block (es : list mtrie_node_t) (addr : list Z) (level data : Z) :
  lpm_search_loop (MBlock es) addr level data =
  let e := entry_at es (byte_at addr level) in
  lpm_search_loop (mbase e) addr (level + 1) (if mdata e =? NULL then data else mdata e).
Proof.
  unfold entry_at. cbn [lpm_search_loop].
  generalize (Z.to_nat (byte_at addr level)) as i.
  induction es as [|[d b] tl IH]; intros [|i]; cbn; try reflexivity.
  apply IH.
Qed.

Lemma search_path_block (es : list mtrie_node_t) (addr : list Z) (level : Z) :
  (Z.to_nat (byte_at addr level) < length es)%nat ->
  search_path (MBlock es) addr level =
  let e := entry_at es (byte_at addr level) in
  e :: search_path (mbase e) addr (level + 1).
Proof.
  unfold entry_at. cbn [search_path].
  generalize (Z.to_nat (byte_at addr level)) as i.
  induction es as [|[d b] tl IH]; intros [|i] Hi; cbn in *; try lia; try reflexivity.
  apply IH. lia.
Qed.

Lemma search_path_short (es : list mtrie_node_t) (addr : list Z) (level : Z) :
  (length es <= Z.to_nat (byte_at addr level))%nat ->
  search_path (MBlock es) addr level = [].
Proof.
  cbn [search_path].
  generalize (Z.to_nat (byte_at addr level)) as i.
  induction es as [|[d b] tl IH]; intros [|i] Hi; cbn in *; try lia; try reflexivity.
  apply IH. lia.
Qed.

Lemma entry_at_short (es : list mtrie_node_t) (i : Z) :
  (length es <= Z.to_nat i)%nat -> entry_at es i = mnode_zero.
Proof. intros H. unfold entry_at. now apply nth_overflow. Qed.

Lemma entry_at_Forall (Q : mtrie_node_t -> Prop) (es : list mtrie_node_t) (i : Z) :
  Forall Q es -> Q mnode_zero -> Q (entry_at es i).
Proof.
  intros H H0. unfold entry_at.
  destruct (Nat.lt_ge_cases (Z.to_nat i) (length es)) as [Hlt|Hge].
  - rewrite Forall_forall in H. apply H. now apply nth_In.
  - now rewrite nth_overflow.
Qed.

(** A search that meets no data keeps the data it started with. *)
Lemma lpm_search_loop_no_data (base : mtrie_block_t) :
  forall addr level data,
    Forall (fun e => mdata e = NULL) (search_path base addr level) ->
    lpm_search_loop base addr level data = data.
Proof.
  induction base as [|es IH] using mtrie_block_induction; intros addr level data H.
  - reflexivity.
  - rewrite lpm_search_loop_block. cbv zeta.
    destruct (Nat.lt_ge_cases (Z.to_nat (byte_at addr level)) (length es)) as [Hlt|Hge].
    + rewrite search_path_block in H by assumption. cbv zeta in H.
      inversion H as [|e l He Hl]; subst.
      rewrite He. cbn [Z.eqb NULL].
      apply (entry_at_Forall _ es (byte_at addr level) IH).
      * intros; reflexivity.
      * assumption.
    + rewrite entry_at_short by assumption. reflexivity.
Qed.

(** C7, as stated, fails: with a null table the pointed byte keeps the
    value it had (here 7), which is neither 0 nor 1. *)
Lemma search_null_table_leaves_flag :
  ~ (snd (lpm_search_table None (Some [1; 2; 3; 4]) (Some 7)) = Some 0 \/
     snd (lpm_search_table None (Some [1; 2; 3; 4]) (Some 7)) = Some 1).
Proof. cbn. intros [H|H]; discriminate H. Qed.

(** C7 (amended): with a table, an address and a flag pointer that are
    all non-null, [lpm_search_table] stores 0 or 1 through the flag
    pointer; with a null table or a null address it returns null and
    leaves the pointed byte as it was. *)
Theorem search_flag_written (t : lpm_lkup_table_t) (a : list Z) (u : Z) :
  (snd (lpm_search_table (Some t) (Some a) (Some u)) = Some 0 \/
   snd (lpm_search_table (Some t) (Some a) (Some u)) = Some 1) /\
  (forall addr, lpm_search_table None addr (Some u) = (NULL, Some u)) /\
  (forall table, lpm_search_table table None (Some u) = (NULL, Some u)).
Proof.
  split; [|split].
  - unfold lpm_search_table.
    destruct (lpm_search_loop (hi256_table_base t) a 0 NULL =? NULL); cbn; auto.
  - intros addr. reflexivity.
  - intros [t'|]; reflexivity.
Qed.

(** C9: when no entry read by the search holds data and no default data
    is installed, [lpm_search_table] returns null and still stores 1
    through the flag pointer. *)
Theorem search_nothing_found (t : lpm_lkup_table_t) (a : list Z) (u : Z) :
  Forall (fun e => mdata e = NULL) (search_path (hi256_table_base t) a 0) ->
  default_data t = NULL ->
  lpm_search_table (Some t) (Some a) (Some u) = (NULL, Some 1).
Proof.
  intros Hpath Hdef. unfold lpm_search_table.
  rewrite lpm_search_loop_no_data by assumption.
  cbn. now rewrite Hdef.
Qed.

Lemma search_nothing_found_witness :
  lpm_search_table (Some (created None)) (Some [1; 2; 3; 4]) (Some 0) = (NULL, Some 1).
Proof.
  apply (search_nothing_found (created None) [1; 2; 3; 4] 0).
  - vm_compute. repeat constructor.
  - reflexivity.
Defined.

(** C10: [lpm_del_default_data] on a live table answers NOTFOUND and
    changes nothing when no default data is installed; otherwise it
    answers SUCCESS and only clears the default slot. *)
Theorem del_default_data_spec (t : lpm_lkup_table_t) :
  (default_data t = NULL ->
   lpm_del_default_data (Some t) = (LPM_ERR_NOTFOUND, Some t)) /\
  (default_data t <> NULL ->
   exists t',
     lpm_del_default_data (Some t) = (LPM_SUCCESS, Some t') /\
     default_data t' = NULL /\
     default_masklen t' = 0 /\
     default_addr t' = repeat 0 (Z.to_nat LPM_LEVEL_MAX) /\
     btrie_root t' = btrie_root t /\
     hi256_table_base t' = hi256_table_base t /\
     stat t' = stat t /\
     name t' = name t /\
     debug_flag t' = debug_flag t).
Proof.
  unfold lpm_del_default_data. split; intros H.
  - now rewrite H.
  - destruct (Z.eqb_spec (default_data t) NULL) as [E|E]; [contradiction|].
    eexists. split; [reflexivity|]. cbn. repeat split.
Qed.

Lemma del_default_data_spec_witness :
  lpm_del_default_data (Some (created None)) = (LPM_ERR_NOTFOUND, Some (created None)) /\
  exists t',
    lpm_del_default_data (Some (set_default (created None) 5 [10; 0] 8)) =
      (LPM_SUCCESS, Some t') /\
    default_data t' = NULL.
Proof.
  split.
  - apply (proj1 (del_default_data_spec (created None))). reflexivity.
  - destruct (proj2 (del_default_data_spec (set_default (created None) 5 [10; 0] 8)))
      as [t' [H1 [H2 _]]].
    + cbn. discriminate.
    + exists t'. split; assumption.
Defined.

(** ** Concrete runs *)

(** C1, as stated, fails: the data of the zero route is kept in the
    btrie root only, so after [add (0.0.0.0/0, 100)] on a fresh table
    the search for 1.2.3.4 returns null, with the flag set to 1. *)
Lemma search_after_zero_route :
  match apply_ops (created (Some "v4"%string)) [] [OpAdd [0; 0; 0; 0] 0 100] with
  | Ret (rs, t, _) =>
      rs = [LPM_SUCCESS] /\
      lpm_search_table (Some t) (Some [1; 2; 3; 4]) (Some 0) = (NULL, Some 1) /\
      lpm_search_table (Some t) (Some [1; 2; 3; 4]) (Some 0) <> (100, Some 0)
  | Abort => False
  end.
Proof.
  vm_compute. split; [reflexivity|]. split; [reflexivity|discriminate].
Qed.

(** A failed allocation is counted, so the statistics after a failed
    call are never those before it. *)
Lemma add_failure_is_counted :
  match lpm_add_entry (Some (created None)) [false] (Some [10; 0; 0; 0]) 8 200 with
  | Ret (r, Some t', _) =>
      r = LPM_ERR_RESOURCES /\
      btrie_node_alloc_fail_stat (stat t') = 1 /\
      btrie_node_alloc_fail_stat (stat (created None)) = 0 /\
      t' <> created None
  | _ => False
  end.
Proof.
  vm_compute. split; [reflexivity|]. split; [reflexivity|]. split; [reflexivity|].
  intros H. discriminate H.
Qed.

(** C3 on the code: after seven successful calls the prefix 48.1/16 is
    bound while the mtrie block of its second byte is gone (the delete
    of 48.0/4 removed the emptied chain of 32.1/16 and released, with
    its own address, the block below entry 48).  An update or a delete
    of 48.1/16 in which the one allocation fails returns
    [LPM_ERR_RESOURCES] with the change of the btrie and of the data
    counters already made: neither function undoes it. *)
Theorem failed_update_and_delete_keep_changes :
  match apply_ops (created None) []
          [OpAdd [0; 0] 3 11; OpAdd [32; 1] 16 22; OpAdd [48; 1] 16 33; OpDel [32; 1] 16;
           OpAdd [32; 0] 3 44; OpAdd [48; 0] 4 55; OpDel [48; 0] 4] with
  | Ret (rs, t, _) =>
      rs = [LPM_SUCCESS; LPM_SUCCESS; LPM_SUCCESS; LPM_SUCCESS; LPM_SUCCESS;
            LPM_SUCCESS; LPM_SUCCESS] /\
      lpm_find_entry (Some t) (Some [48; 1]) 16 = Ret 33 /\
      data_total (stat t) = 3 /\
      zget (data_per_masklen (stat t)) 16 = 1 /\
      match lpm_update_entry (Some t) [false] (Some [48; 1]) 16 99 with
      | Ret (r, Some t', mem') =>
          r = LPM_ERR_RESOURCES /\ mem' = [] /\
          lpm_find_entry (Some t') (Some [48; 1]) 16 = Ret 99 /\
          data_total (stat t') = 3
      | _ => False
      end /\
      match lpm_del_entry (Some t) [false] (Some [48; 1]) 16 with
      | Ret (r, Some t', mem') =>
          r = LPM_ERR_RESOURCES /\ mem' = [] /\
          lpm_find_entry (Some t') (Some [48; 1]) 16 = Ret NULL /\
          data_total (stat t') = 2 /\
          zget (data_per_masklen (stat t')) 16 = 0
      | _ => False
      end
  | Abort => False
  end.
Proof.
  vm_compute. repeat split; reflexivity.
Qed.

(** C4 on the code: the second [add] of a prefix of mask length 128
    reads the bit at position 128 and stops on the assertion of
    [bit_at_position]. *)
Theorem add_twice_masklen_128 :
  match lpm_add_entry (Some (created None)) [] (Some (repeat 0 16)) 128 1 with
  | Ret (r, t, mem) =>
      r = LPM_SUCCESS /\
      lpm_add_entry t mem (Some (repeat 0 16)) 128 1 = Abort
  | Abort => False
  end.
Proof.
  vm_compute. split; reflexivity.
Qed.

(** C8 on the code: five successful calls after which [data_total] is 1
    while no btrie node holds data. *)
Theorem data_total_miscounts :
  match apply_ops (created None) []
          [OpAdd [0; 0] 3 11; OpAdd [32; 1] 16 22; OpDel [32; 1] 16;
           OpAdd [32; 0] 3 33; OpDel [0; 0] 3] with
  | Ret (rs, t, _) =>
      rs = [LPM_SUCCESS; LPM_SUCCESS; LPM_SUCCESS; LPM_SUCCESS; LPM_SUCCESS] /\
      data_total (stat t) = 1 /\
      btrie_data_count (btrie_root t) = 0
  | Abort => False
  end.
Proof.
  vm_compute. split; [reflexivity|]. split; reflexivity.
Qed.

(** ** Fixed-width counters *)

Lemma s32_in_range (x : Z) : in_s32 (s32 x).
Proof. unfold in_s32, s32. pose proof (Z.mod_pos_bound (x + 2147483648) 4294967296). lia. Qed.

Lemma s32_small (x : Z) : in_s32 x -> s32 x = x.
Proof. unfold in_s32, s32. intros H. rewrite Z.mod_small; lia. Qed.

Lemma u32_in_range (x : Z) : in_u32 (u32 x).
Proof. unfold in_u32, u32. pose proof (Z.mod_pos_bound x 4294967296). lia. Qed.

Lemma u32_small (x : Z) : in_u32 x -> u32 x = x.
Proof. unfold in_u32, u32. intros H. rewrite Z.mod_small; lia. Qed.

(** A counter that was incremented and is positive decrements back. *)
Lemma s32_incr_decr (x : Z) : in_s32 x -> 0 < s32 (x + 1) -> s32 (s32 (x + 1) - 1) = x.
Proof.
  intros Hx Hpos.
  destruct (Z.eq_dec x 2147483647) as [->|Hne].
  - vm_compute in Hpos. discriminate Hpos.
  - rewrite (s32_small (x + 1)) by (unfold in_s32 in *; lia).
    replace (x + 1 - 1) with x by lia. now apply s32_small.
Qed.



Lemma incr_times_S (c : nat) (x : Z) :
  incr_times (S c) x = s32 (incr_times c x + 1).
Proof. reflexivity. Qed.

Lemma incr_times_in_range (c : nat) (x : Z) : in_s32 x -> in_s32 (incr_times c x).
Proof.
  intros Hx. destruct c as [|c]; [exact Hx|].
  rewrite incr_times_S. apply s32_in_range.
Qed.

Lemma incr_times_shift (c : nat) (x : Z) :
  incr_times (S c) x = incr_times c (s32 (x + 1)).
Proof.
  induction c as [|c IH]; [reflexivity|].
  rewrite incr_times_S, IH. reflexivity.
Qed.

(** ** Arrays *)

Lemma upd_nth_length {A : Type} (n : nat) (l : list A) (v : A) :
  length (upd_nth n l v) = length l.
Proof.
  revert n. induction l as [|x tl IH]; intros [|n]; cbn; auto.
Qed.

Lemma nth_upd_nth_eq {A : Type} (n : nat) (l : list A) (v d : A) :
  (n < length l)%nat -> nth n (upd_nth n l v) d = v.
Proof.
  revert n. induction l as [|x tl IH]; intros [|n] H; cbn in *; try lia; auto.
  apply IH. lia.
Qed.

Lemma nth_upd_nth_neq {A : Type} (n m : nat) (l : list A) (v d : A) :
  n <> m -> nth m (upd_nth n l v) d = nth m l d.
Proof.
  revert n m. induction l as [|x tl IH]; intros [|n] [|m] H; cbn; auto; try congruence.
Qed.

Lemma upd_nth_same {A : Type} (n : nat) (l : list A) (d : A) :
  upd_nth n l (nth n l d) = l.
Proof.
  revert n. induction l as [|x tl IH]; intros [|n]; cbn; auto.
  now rewrite IH.
Qed.

Lemma upd_nth_twice {A : Type} (n : nat) (l : list A) (v w : A) :
  upd_nth n (upd_nth n l v) w = upd_nth n l w.
Proof.
  revert n. induction l as [|x tl IH]; intros [|n]; cbn; auto.
  now rewrite IH.
Qed.

Lemma upd_nth_overflow {A : Type} (n : nat) (l : list A) (v : A) :
  (length l <= n)%nat -> upd_nth n l v = l.
Proof.
  revert n. induction l as [|x tl IH]; intros [|n] H; cbn in *; auto; try lia.
  rewrite IH; auto. lia.
Qed.



(** ** Facts on bytes, checked exhaustively *)

Lemma all_below_spec (n : nat) (P : Z -> bool) :
  all_below n P = true -> forall z, 0 <= z < Z.of_nat n -> P z = true.
Proof.
  unfold all_below. rewrite forallb_forall. intros H z Hz.
  apply H. apply in_map_iff. exists (Z.to_nat z). split; [lia|].
  apply in_seq. lia.
Qed.

Lemma byte_at_range (addr : list Z) (i : Z) : 0 <= byte_at addr i < 256.
Proof. unfold byte_at, u8. apply Z.mod_pos_bound. lia. Qed.

Lemma u8_range (x : Z) : 0 <= u8 x < 256.
Proof. unfold u8. apply Z.mod_pos_bound. lia. Qed.

Lemma u8_small (x : Z) : 0 <= x < 256 -> u8 x = x.
Proof. unfold u8. intros H. now apply Z.mod_small. Qed.

Lemma shiftr3_div (pos : Z) : Z.shiftr pos 3 = pos / 8.
Proof. now rewrite Z.shiftr_div_pow2 by lia. Qed.

Lemma land7_mod (pos : Z) : Z.land pos 7 = pos mod 8.
Proof. change 7 with (Z.ones 3). now rewrite Z.land_ones by lia. Qed.

Lemma boundary_mod (pos : Z) : BOUNDARY_BIT_POSITION pos = (pos mod 8 =? 7).
Proof. unfold BOUNDARY_BIT_POSITION. now rewrite land7_mod. Qed.

Lemma byte_test_bit :
  forall b k, 0 <= b < 256 -> 0 <= k < 8 ->
    (Z.land b (Z.shiftl 1 k) =? 0) = negb (Z.testbit b k).
Proof.
  assert (H : all_below 256 (fun b => all_below 8 (fun k =>
                Bool.eqb (Z.land b (Z.shiftl 1 k) =? 0) (negb (Z.testbit b k)))) = true)
    by (vm_compute; reflexivity).
  intros b k Hb Hk.
  apply (all_below_spec 256 _ H b) in Hb. apply (all_below_spec 8 _ Hb k) in Hk.
  now apply Bool.eqb_prop in Hk.
Qed.

Lemma addr_bit_byte_bit (addr : list Z) (pos : Z) :
  0 <= pos -> addr_bit addr pos = byte_bit (byte_at addr (pos / 8)) (pos mod 8).
Proof.
  intros Hpos. unfold addr_bit, byte_bit. rewrite shiftr3_div, land7_mod.
  pose proof (Z.mod_pos_bound pos 8).
  rewrite byte_test_bit by (auto using byte_at_range; lia).
  now destruct (Z.testbit _ _).
Qed.

Lemma byte_bit_01 (b j : Z) : byte_bit b j = 0 \/ byte_bit b j = 1.
Proof. unfold byte_bit. destruct (Z.testbit _ _); auto. Qed.

Lemma pattern_mask_mod (bitpos : Z) :
  0 <= bitpos < 4294967295 -> pattern_mask bitpos = pattern_mask (bitpos mod 8).
Proof.
  intros H. unfold pattern_mask. rewrite !boundary_mod.
  rewrite Z.mod_mod by lia.
  rewrite !u32_small by (unfold in_u32; pose proof (Z.mod_pos_bound bitpos 8); lia).
  replace ((bitpos mod 8 + 1) mod 8) with ((bitpos + 1) mod 8); [reflexivity|].
  rewrite (Z.add_mod bitpos 1 8) by lia. rewrite (Z.add_mod (bitpos mod 8) 1 8) by lia.
  now rewrite Z.mod_mod by lia.
Qed.

Lemma in_pattern_mod (idx bitpos i : Z) :
  0 <= bitpos < 4294967295 -> in_pattern idx bitpos i = in_pattern idx (bitpos mod 8) i.
Proof. intros H. unfold in_pattern. now rewrite pattern_mask_mod. Qed.

(** The range written by [lpm_pattern_generate] is the set of the
    indices that share the leading bits of [idx], up to the bit
    position. *)
Lemma in_pattern_same_top :
  forall j idx i, 0 <= j < 8 -> 0 <= idx < 256 -> 0 <= i < 256 ->
    in_pattern idx j i = same_top (j + 1) i idx.
Proof.
  assert (H : all_below 8 (fun j => all_below 256 (fun idx => all_below 256 (fun i =>
                Bool.eqb (in_pattern idx j i) (same_top (j + 1) i idx)))) = true)
    by (vm_compute; reflexivity).
  intros j idx i Hj Hidx Hi.
  apply (all_below_spec 8 _ H j) in Hj. apply (all_below_spec 256 _ Hj idx) in Hidx.
  apply (all_below_spec 256 _ Hidx i) in Hi. now apply Bool.eqb_prop in Hi.
Qed.

Lemma pattern_mask_land_nonneg (idx bitpos : Z) :
  0 <= idx -> 0 <= Z.land idx (pattern_mask bitpos).
Proof. intros H. apply Z.land_nonneg. now left. Qed.

(** *** Clearing and setting one bit of a byte *)

Lemma same_top_clear_bit :
  forall j b i, 0 <= j < 7 -> 0 <= b < 256 -> 0 <= i < 256 ->
    same_top (j + 2) i (Z.land b (u8 (Z.lxor 255 (Z.shiftl 1 (7 - (j + 1)))))) =
    same_top (j + 1) i b && (byte_bit i (j + 1) =? 0).
Proof.
  assert (H : all_below 7 (fun j => all_below 256 (fun b => all_below 256 (fun i =>
                Bool.eqb
                  (same_top (j + 2) i
                     (Z.land b (u8 (Z.lxor 255 (Z.shiftl 1 (7 - (j + 1)))))))
                  (same_top (j + 1) i b && (byte_bit i (j + 1) =? 0))))) = true)
    by (vm_compute; reflexivity).
  intros j b i Hj Hb Hi.
  apply (all_below_spec 7 _ H j) in Hj. apply (all_below_spec 256 _ Hj b) in Hb.
  apply (all_below_spec 256 _ Hb i) in Hi. now apply Bool.eqb_prop in Hi.
Qed.

Lemma same_top_set_bit :
  forall j b i, 0 <= j < 7 -> 0 <= b < 256 -> 0 <= i < 256 ->
    same_top (j + 2) i (u8 (Z.lor b (Z.shiftl 1 (7 - (j + 1))))) =
    same_top (j + 1) i b && (byte_bit i (j + 1) =? 1).
Proof.
  assert (H : all_below 7 (fun j => all_below 256 (fun b => all_below 256 (fun i =>
                Bool.eqb
                  (same_top (j + 2) i (u8 (Z.lor b (Z.shiftl 1 (7 - (j + 1))))))
                  (same_top (j + 1) i b && (byte_bit i (j + 1) =? 1))))) = true)
    by (vm_compute; reflexivity).
  intros j b i Hj Hb Hi.
  apply (all_below_spec 7 _ H j) in Hj. apply (all_below_spec 256 _ Hj b) in Hb.
  apply (all_below_spec 256 _ Hb i) in Hi. now apply Bool.eqb_prop in Hi.
Qed.

Lemma lxor_255_u8 (j : Z) : 0 <= j < 8 ->
  Z.lxor 255 (Z.shiftl 1 (7 - j)) = u8 (Z.lxor 255 (Z.shiftl 1 (7 - j))).
Proof.
  assert (H : all_below 8 (fun j =>
                Z.lxor 255 (Z.shiftl 1 (7 - j)) =? u8 (Z.lxor 255 (Z.shiftl 1 (7 - j)))) = true)
    by (vm_compute; reflexivity).
  intros Hj. apply (all_below_spec 8 _ H j) in Hj. now apply Z.eqb_eq in Hj.
Qed.

Lemma same_top_refl (m a : Z) : same_top m a a = true.
Proof. unfold same_top. apply Z.eqb_refl. Qed.

Lemma same_top_trans_l (m a b i : Z) :
  same_top m a b = true -> same_top m i a = same_top m i b.
Proof. unfold same_top. intros H. apply Z.eqb_eq in H. now rewrite H. Qed.

Lemma same_top_weaken :
  forall m a b, 0 <= m < 8 -> 0 <= a < 256 -> 0 <= b < 256 ->
    same_top (m + 1) a b = true -> same_top m a b = true.
Proof.
  assert (H : all_below 8 (fun m => all_below 256 (fun a => all_below 256 (fun b =>
                implb (same_top (m + 1) a b) (same_top m a b)))) = true)
    by (vm_compute; reflexivity).
  intros m a b Hm Ha Hb.
  apply (all_below_spec 8 _ H m) in Hm. apply (all_below_spec 256 _ Hm a) in Ha.
  apply (all_below_spec 256 _ Ha b) in Hb. intros E. rewrite E in Hb. exact Hb.
Qed.

Lemma same_top_clear_self :
  forall j b, 0 <= j < 7 -> 0 <= b < 256 ->
    same_top (j + 1) (Z.land b (u8 (Z.lxor 255 (Z.shiftl 1 (7 - (j + 1)))))) b = true.
Proof.
  assert (H : all_below 7 (fun j => all_below 256 (fun b =>
                same_top (j + 1) (Z.land b (u8 (Z.lxor 255 (Z.shiftl 1 (7 - (j + 1)))))) b)) = true)
    by (vm_compute; reflexivity).
  intros j b Hj Hb.
  apply (all_below_spec 7 _ H j) in Hj. now apply (all_below_spec 256 _ Hj b) in Hb.
Qed.

Lemma same_top_set_self :
  forall j b, 0 <= j < 7 -> 0 <= b < 256 ->
    same_top (j + 1) (u8 (Z.lor b (Z.shiftl 1 (7 - (j + 1))))) b = true.
Proof.
  assert (H : all_below 7 (fun j => all_below 256 (fun b =>
                same_top (j + 1) (u8 (Z.lor b (Z.shiftl 1 (7 - (j + 1))))) b)) = true)
    by (vm_compute; reflexivity).
  intros j b Hj Hb.
  apply (all_below_spec 7 _ H j) in Hj. now apply (all_below_spec 256 _ Hj b) in Hb.
Qed.

Lemma clear_byte_range :
  forall j b, 0 <= j < 8 -> 0 <= b < 256 ->
    0 <= Z.land b (u8 (Z.lxor 255 (Z.shiftl 1 (7 - j)))) < 256.
Proof.
  assert (H : all_below 8 (fun j => all_below 256 (fun b =>
                (0 <=? Z.land b (u8 (Z.lxor 255 (Z.shiftl 1 (7 - j))))) &&
                (Z.land b (u8 (Z.lxor 255 (Z.shiftl 1 (7 - j)))) <? 256))) = true)
    by (vm_compute; reflexivity).
  intros j b Hj Hb.
  apply (all_below_spec 8 _ H j) in Hj. apply (all_below_spec 256 _ Hj b) in Hb.
  apply andb_true_iff in Hb. destruct Hb as [H1 H2].
  apply Z.leb_le in H1. apply Z.ltb_lt in H2. lia.
Qed.

(** *** Writing a bit of an address buffer *)

Lemma zget_zset_eq (l : list Z) (i v : Z) :
  0 <= i < Z.of_nat (length l) -> zget (zset l i v) i = v.
Proof. intros H. unfold zget, zset. apply nth_upd_nth_eq. lia. Qed.

Lemma zget_zset_neq (l : list Z) (i i' v : Z) :
  0 <= i -> 0 <= i' -> i <> i' -> zget (zset l i v) i' = zget l i'.
Proof. intros H1 H2 H3. unfold zget, zset. apply nth_upd_nth_neq. lia. Qed.

Lemma zset_length (l : list Z) (i v : Z) : length (zset l i v) = length l.
Proof. apply upd_nth_length. Qed.

Lemma byte_at_neg (addr : list Z) (l : Z) : l < 0 -> byte_at addr l = byte_at addr 0.
Proof. intros H. unfold byte_at, zget. now replace (Z.to_nat l) with (Z.to_nat 0) by lia. Qed.

Lemma CLEAR_BIT_AT_POSITION_spec (addr a : list Z) (pos : Z) :
  0 <= pos -> length addr = 16%nat ->
  CLEAR_BIT_AT_POSITION addr pos = Ret a ->
  pos < LPM_MASKLEN_MAX /\ length a = 16%nat /\
  (forall l, 0 <= l -> l <> pos / 8 -> byte_at a l = byte_at addr l) /\
  byte_at a (pos / 8) =
    Z.land (byte_at addr (pos / 8)) (u8 (Z.lxor 255 (Z.shiftl 1 (7 - pos mod 8)))).
Proof.
  intros Hpos Hlen Hrun. unfold CLEAR_BIT_AT_POSITION in Hrun.
  destruct (Z.ltb_spec pos LPM_MASKLEN_MAX) as [Hlt|]; [|discriminate Hrun].
  inversion Hrun; subst a; clear Hrun. rewrite shiftr3_div, land7_mod.
  assert (Hidx : 0 <= pos / 8 < 16).
  { split; [apply Z.div_pos; lia|]. apply Z.div_lt_upper_bound; [lia|].
    unfold LPM_MASKLEN_MAX, LPM_LEVEL_MAX, LPM_STRIDE in Hlt. lia. }
  split; [exact Hlt|]. split; [now rewrite zset_length|]. split.
  - intros l Hl Hne. unfold byte_at. rewrite zget_zset_neq; auto; lia.
  - unfold byte_at at 1. rewrite zget_zset_eq by lia.
    apply u8_small. apply clear_byte_range; [apply Z.mod_pos_bound; lia|apply byte_at_range].
Qed.

Lemma SET_BIT_AT_POSITION_spec (addr a : list Z) (pos : Z) :
  0 <= pos -> length addr = 16%nat ->
  SET_BIT_AT_POSITION addr pos = Ret a ->
  pos < LPM_MASKLEN_MAX /\ length a = 16%nat /\
  (forall l, 0 <= l -> l <> pos / 8 -> byte_at a l = byte_at addr l) /\
  byte_at a (pos / 8) =
    u8 (Z.lor (byte_at addr (pos / 8)) (Z.shiftl 1 (7 - pos mod 8))).
Proof.
  intros Hpos Hlen Hrun. unfold SET_BIT_AT_POSITION in Hrun.
  destruct (Z.ltb_spec pos LPM_MASKLEN_MAX) as [Hlt|]; [|discriminate Hrun].
  inversion Hrun; subst a; clear Hrun. rewrite shiftr3_div, land7_mod.
  assert (Hidx : 0 <= pos / 8 < 16).
  { split; [apply Z.div_pos; lia|]. apply Z.div_lt_upper_bound; [lia|].
    unfold LPM_MASKLEN_MAX, LPM_LEVEL_MAX, LPM_STRIDE in Hlt. lia. }
  split; [exact Hlt|]. split; [now rewrite zset_length|]. split.
  - intros l Hl Hne. unfold byte_at. rewrite zget_zset_neq; auto; lia.
  - unfold byte_at at 1. rewrite zget_zset_eq by lia.
    unfold u8. rewrite Z.mod_mod by lia. reflexivity.
Qed.

(** ** The btrie: adding a path and taking it back *)

Arguments s32 : simpl never.
Arguments u32 : simpl never.
Arguments u8 : simpl never.
Arguments addr_bit : simpl never.
Arguments byte_at : simpl never.
Arguments incr_times : simpl never.

Lemma stat_eta (s : lpm_lkup_table_stat) :
  mkStat (btrie_node_alloc_stat s) (btrie_node_alloc_fail_stat s)
         (mtrie_block_alloc_stat s) (mtrie_block_alloc_fail_stat s)
         (data_total s) (data_per_masklen s) = s.
Proof. now destruct s. Qed.

Lemma table_eta (t : lpm_lkup_table_t) :
  mkTable (name t) (btrie_root t) (hi256_table_base t) (default_data t) (default_addr t)
          (default_masklen t) (debug_flag t) (stat t) = t.
Proof. now destruct t. Qed.

Lemma bind_ret {A B : Type} (c : exec A) (k : A -> exec B) (b : B) :
  bind c k = Ret b -> exists a, c = Ret a /\ k a = Ret b.
Proof. destruct c as [a|]; cbn; [eauto|discriminate]. Qed.

Lemma bit_at_position_ret (addr : list Z) (pos b : Z) :
  bit_at_position addr pos = Ret b -> pos < LPM_MASKLEN_MAX /\ b = addr_bit addr pos.
Proof.
  unfold bit_at_position. destruct (Z.ltb_spec pos LPM_MASKLEN_MAX); [|discriminate].
  intros H0. inversion H0. auto.
Qed.

Lemma bit_at_position_ok (addr : list Z) (pos : Z) :
  pos < LPM_MASKLEN_MAX -> bit_at_position addr pos = Ret (addr_bit addr pos).
Proof.
  intros H. unfold bit_at_position. destruct (Z.ltb_spec pos LPM_MASKLEN_MAX); [reflexivity|lia].
Qed.

Lemma addr_bit_01 (addr : list Z) (pos : Z) : addr_bit addr pos = 0 \/ addr_bit addr pos = 1.
Proof. unfold addr_bit. destruct (_ =? 0); auto. Qed.

Lemma bset_child_bchild (node : btrie_node_t) (bit : Z) :
  bset_child node bit (bchild node bit) = node.
Proof. destruct node as [|d c0 c1]; cbn; [reflexivity|]. destruct (bit =? 0); reflexivity. Qed.

Lemma bchild_bset_child (node c : btrie_node_t) (bit : Z) :
  node <> BNull -> bchild (bset_child node bit c) bit = c.
Proof. destruct node as [|d c0 c1]; cbn; [congruence|]. intros _. destruct (bit =? 0) eqn:E; cbn; now rewrite E. Qed.

Lemma bset_child_twice (node c c' : btrie_node_t) (bit : Z) :
  bset_child (bset_child node bit c) bit c' = bset_child node bit c'.
Proof. destruct node as [|d c0 c1]; cbn; [reflexivity|]. destruct (bit =? 0) eqn:E; cbn; now rewrite E. Qed.

Lemma bset_child_not_null (node c : btrie_node_t) (bit : Z) :
  node <> BNull -> bset_child node bit c <> BNull.
Proof. destruct node; cbn; [congruence|]. destruct (bit =? 0); discriminate. Qed.

Lemma materialize_not_null (node : btrie_node_t) : materialize node <> BNull.
Proof. destruct node; discriminate. Qed.

Lemma materialize_id (node : btrie_node_t) : node <> BNull -> materialize node = node.
Proof. destruct node; [congruence|reflexivity]. Qed.

Lemma bt_ensure_materialize (n : nat) (node : btrie_node_t) (addr : list Z) (pos : Z) :
  bt_ensure n (materialize node) addr pos = bt_ensure n node addr pos.
Proof. destruct n; cbn; now rewrite (materialize_id _ (materialize_not_null node)). Qed.

Lemma bt_ensure_not_null (n : nat) (node : btrie_node_t) (addr : list Z) (pos : Z) :
  bt_ensure n node addr pos <> BNull.
Proof.
  destruct n; cbn.
  - apply materialize_not_null.
  - apply bset_child_not_null, materialize_not_null.
Qed.

Lemma existing_fresh (n : nat) (addr : list Z) (pos : Z) :
  existing n (BNode NULL BNull BNull) addr pos = O.
Proof. destruct n; cbn; [reflexivity|]. destruct (addr_bit addr pos =? 0); reflexivity. Qed.

Lemma btrie_alloc_node_eq (table : lpm_lkup_table_t) (mem : list bool) :
  btrie_alloc_node table mem =
  if fst (malloc mem)
  then (BNode NULL BNull BNull,
        set_stat table (set_btrie_node_alloc_stat (stat table)
                          (s32 (btrie_node_alloc_stat (stat table) + 1))),
        snd (malloc mem))
  else (BNull,
        set_stat table (set_btrie_node_alloc_fail_stat (stat table)
                          (u32 (btrie_node_alloc_fail_stat (stat table) + 1))),
        snd (malloc mem)).
Proof.
  unfold btrie_alloc_node, btrie_mem_alloc. destruct (malloc mem) as [[|] m]; reflexivity.
Qed.

Lemma stat_after_add_none (s : lpm_lkup_table_stat) : stat_after_add s 0 false = s.
Proof. now destruct s. Qed.

Lemma set_stat_same (t : lpm_lkup_table_t) : set_stat t (stat t) = t.
Proof. now destruct t. Qed.

Lemma add_node_loop_spec (n : nat) :
  forall table mem place addr pos out sub out' table' mem',
    place <> BNull ->
    btrie_add_node_loop n table mem place addr pos out = Ret (sub, out', table', mem') ->
    exists (m : nat) (failed : bool),
      let k := existing n place addr pos in
      (k <= m <= n)%nat /\
      sub = bt_ensure m place addr pos /\
      table' = set_stat table (stat_after_add (stat table) (m - k) failed) /\
      an_append_point out' =
        (if (k =? 0)%nat then an_append_point out else Some (pos + Z.of_nat k)) /\
      an_append_bit out' =
        (if (k =? 0)%nat then an_append_bit out else addr_bit addr (pos + Z.of_nat k)) /\
      (if failed
       then an_ret out' = LPM_ERR_RESOURCES /\ (m < n)%nat
       else m = n /\ an_ret out' = (if (k =? n)%nat then an_ret out else LPM_SUCCESS)).
Proof.
  induction n as [|n IH]; intros table mem place addr pos out sub out' table' mem' Hnn Hrun.
  - cbn in Hrun. inversion Hrun; subst. exists O, false. cbn.
    rewrite (materialize_id _ Hnn). repeat split; auto.
    now rewrite stat_after_add_none, set_stat_same.
  - destruct place as [|d c0 c1]; [congruence|].
    cbn [btrie_add_node_loop] in Hrun.
    apply bind_ret in Hrun. destruct Hrun as [bit [Hbit Hrun]].
    apply bit_at_position_ret in Hbit. destruct Hbit as [Hpos ->].
    cbn [existing].
    set (place := BNode d c0 c1) in *.
    destruct (bchild place (addr_bit addr pos)) as [|d' c0' c1'] eqn:Hchild.
    + rewrite btrie_alloc_node_eq in Hrun.
      destruct (fst (malloc mem)).
      * apply bind_ret in Hrun. destruct Hrun as [[[[sub1 out1] table1] mem1] [Hrec Hrun]].
        inversion Hrun; subst; clear Hrun.
        apply IH in Hrec; [|discriminate].
        destruct Hrec as [m [failed [Hkm [Hsub [Htab [Hap [Hab Hret]]]]]]].
        rewrite existing_fresh in *. cbn in Hap, Hab.
        exists (S m), failed. cbn zeta.
        split; [lia|]. split.
        { cbn [bt_ensure]. rewrite (materialize_id _ Hnn). rewrite Hchild.
          change (BNode NULL BNull BNull) with (materialize BNull) in Hsub.
          rewrite bt_ensure_materialize in Hsub. now rewrite Hsub. }
        split.
        { rewrite Htab, !Nat.sub_0_r. unfold set_stat, stat_after_add. cbn.
          rewrite incr_times_shift. reflexivity. }
        split; [exact Hap|]. split; [exact Hab|].
        destruct failed.
        -- destruct Hret as [Hr Hlt]. split; [exact Hr|lia].
        -- destruct Hret as [-> Hr]. split; [reflexivity|].
           rewrite Hr. cbn. now destruct n.
      * inversion Hrun; subst; clear Hrun.
        exists O, true. cbn zeta.
        split; [lia|]. split; [reflexivity|]. split; [reflexivity|].
        cbn. repeat split. lia.
    + apply bind_ret in Hrun. destruct Hrun as [nextbit [Hnb Hrun]].
      apply bit_at_position_ret in Hnb. destruct Hnb as [Hpos1 ->].
      apply bind_ret in Hrun. destruct Hrun as [[[[sub1 out1] table1] mem1] [Hrec Hrun]].
      inversion Hrun; subst; clear Hrun.
      apply IH in Hrec; [|discriminate].
      destruct Hrec as [m [failed [Hkm [Hsub [Htab [Hap [Hab Hret]]]]]]].
      set (k := existing n (BNode d' c0' c1') addr (pos + 1)) in *.
      exists (S m), failed. cbn zeta.
      split; [lia|]. split.
      { cbn [bt_ensure]. rewrite (materialize_id _ Hnn). rewrite Hchild. now rewrite Hsub. }
      split; [exact Htab|].
      cbn [an_append_point an_append_bit an_ret] in *.
      split.
      { rewrite Hap. destruct k; cbn [Nat.eqb]; f_equal; lia. }
      split.
      { rewrite Hab. destruct k; cbn [Nat.eqb]; f_equal; lia. }
      destruct failed.
      * destruct Hret as [Hr Hlt]. split; [exact Hr|lia].
      * destruct Hret as [-> Hr]. split; [reflexivity|]. exact Hr.
Qed.

Lemma bnode_modify_cut_ensure (addr : list Z) (n : nat) :
  forall m root pos b,
    root <> BNull ->
    (existing n root addr pos < n)%nat ->
    (existing n root addr pos <= m)%nat ->
    b = addr_bit addr (pos + Z.of_nat (existing n root addr pos)) ->
    bnode_modify (existing n root addr pos) (bt_ensure m root addr pos) addr pos
                 (fun nd => bset_child nd b BNull) = root.
Proof.
  induction n as [|n IH]; intros m root pos b Hnn Hlt Hle Hb; [cbn in Hlt; lia|].
  cbn [existing] in *.
  destruct (bchild root (addr_bit addr pos)) as [|d' c0' c1'] eqn:Hchild.
  - cbn [bnode_modify]. rewrite Z.add_0_r in Hb. subst b.
    destruct m as [|m]; cbn [bt_ensure]; rewrite (materialize_id _ Hnn).
    + rewrite <- Hchild. apply bset_child_bchild.
    + rewrite bset_child_twice. rewrite <- Hchild. apply bset_child_bchild.
  - destruct m as [|m]; [lia|].
    cbn [bt_ensure bnode_modify]. rewrite (materialize_id _ Hnn). rewrite Hchild.
    rewrite (bchild_bset_child _ _ _ Hnn).
    rewrite IH; try lia; try discriminate.
    + rewrite bset_child_twice. rewrite <- Hchild. apply bset_child_bchild.
    + rewrite Hb. f_equal. lia.
Qed.

Lemma bnode_at_cut_chain (addr : list Z) (n : nat) :
  forall m root pos,
    root <> BNull ->
    (existing n root addr pos < n)%nat ->
    (existing n root addr pos <= m)%nat ->
    bchild (bnode_at (existing n root addr pos) (bt_ensure m root addr pos) addr pos)
           (addr_bit addr (pos + Z.of_nat (existing n root addr pos))) =
    fresh_chain (m - existing n root addr pos) addr
                (pos + Z.of_nat (existing n root addr pos) + 1).
Proof.
  induction n as [|n IH]; intros m root pos Hnn Hlt Hle; [cbn in Hlt; lia|].
  cbn [existing] in *.
  destruct (bchild root (addr_bit addr pos)) as [|d' c0' c1'] eqn:Hchild.
  - cbn [bnode_at]. rewrite !Z.add_0_r, Nat.sub_0_r.
    destruct m as [|m]; cbn [bt_ensure fresh_chain]; rewrite (materialize_id _ Hnn).
    + exact Hchild.
    + rewrite (bchild_bset_child _ _ _ Hnn). now rewrite Hchild.
  - destruct m as [|m]; [lia|].
    cbn [bt_ensure bnode_at]. rewrite (materialize_id _ Hnn). rewrite Hchild.
    rewrite (bchild_bset_child _ _ _ Hnn).
    replace (pos + Z.of_nat (S (existing n (BNode d' c0' c1') addr (pos + 1))))
      with (pos + 1 + Z.of_nat (existing n (BNode d' c0' c1') addr (pos + 1))) by lia.
    rewrite IH; try lia; try discriminate.
    reflexivity.
Qed.

Lemma fresh_chain_S (c : nat) (addr : list Z) (pos : Z) :
  fresh_chain (S c) addr pos =
  bset_child (BNode NULL BNull BNull) (addr_bit addr pos) (fresh_chain c addr (pos + 1)).
Proof.
  destruct c as [|c]; cbn [fresh_chain bt_ensure materialize].
  - cbn. now destruct (addr_bit addr pos =? 0).
  - cbn [bchild]. now destruct (addr_bit addr pos =? 0).
Qed.

(** Releasing a chain of [c] appended nodes takes the node counter back
    by [c]. *)
Lemma btrie_del_appended_fresh_chain (addr : list Z) (c : nat) :
  forall T pos T' x,
    btrie_del_appended T (fresh_chain c addr pos) = Ret T' ->
    in_s32 x ->
    btrie_node_alloc_stat (stat T) = incr_times c x ->
    T' = set_stat T (set_btrie_node_alloc_stat (stat T) x).
Proof.
  induction c as [|c IH]; intros T pos T' x Hrun Hx Hstat.
  - cbn in Hrun. inversion Hrun; subst T'.
    change (incr_times 0 x) with x in Hstat. rewrite <- Hstat.
    unfold set_btrie_node_alloc_stat. now rewrite stat_eta, set_stat_same.
  - rewrite fresh_chain_S in Hrun.
    assert (Hfree : forall nd, nd <> BNull ->
              btrie_free_node T nd =
              Ret (set_stat T (set_btrie_node_alloc_stat (stat T) (incr_times c x))) \/
              btrie_free_node T nd = Abort).
    { intros nd Hnd. unfold btrie_free_node, btrie_mem_free.
      destruct nd; [congruence|]. rewrite Hstat, incr_times_S.
      destruct (Z.ltb_spec 0 (s32 (incr_times c x + 1))); [left|right; reflexivity].
      cbn. rewrite s32_incr_decr; auto using incr_times_in_range. }
    assert (Hstep : exists T1,
              T1 = set_stat T (set_btrie_node_alloc_stat (stat T) (incr_times c x)) /\
              btrie_del_appended T1 (fresh_chain c addr (pos + 1)) = Ret T').
    { destruct (addr_bit addr pos =? 0) eqn:Hb; cbn [bset_child] in Hrun; rewrite Hb in Hrun;
        cbn [btrie_del_appended] in Hrun.
      - destruct (fresh_chain c addr (pos + 1)) eqn:Hc.
        + destruct (Hfree (BNode NULL BNull BNull)) as [Hf|Hf]; try discriminate;
            rewrite Hf in Hrun; cbn in Hrun; [|discriminate].
          eexists; split; [reflexivity|exact Hrun].
        + destruct (Hfree (BNode NULL (BNode data b1 b2) BNull)) as [Hf|Hf];
            try discriminate; rewrite Hf in Hrun; cbn [bind] in Hrun; [|discriminate].
          eexists; split; [reflexivity|exact Hrun].
      - destruct (Hfree (BNode NULL BNull (fresh_chain c addr (pos + 1)))) as [Hf|Hf];
          try discriminate; rewrite Hf in Hrun; cbn [bind] in Hrun; [|discriminate].
        eexists; split; [reflexivity|exact Hrun]. }
    destruct Hstep as [T1 [HT1 Hrec]].
    apply (IH T1 (pos + 1) T' x) in Hrec; auto.
    + rewrite Hrec, HT1. reflexivity.
    + rewrite HT1. reflexivity.
Qed.

(** ** Blocks of the mtrie, entry by entry *)

Ltac zbool_case :=
  match goal with
  | |- context [?x =? ?y] => destruct (Z.eqb_spec x y)
  | |- context [?x <? ?y] => destruct (Z.ltb_spec x y)
  | |- context [?x <=? ?y] => destruct (Z.leb_spec x y)
  end.

Ltac zbool :=
  repeat zbool_case;
  cbn [andb orb negb]; try reflexivity; try lia.

Lemma entries_ext (l1 l2 : list mtrie_node_t) :
  length l1 = length l2 ->
  (forall i, 0 <= i < Z.of_nat (length l1) -> entry_at l1 i = entry_at l2 i) ->
  l1 = l2.
Proof.
  intros Hlen H. apply (nth_ext l1 l2 mnode_zero mnode_zero Hlen).
  intros n Hn. specialize (H (Z.of_nat n)). unfold entry_at in H.
  rewrite Nat2Z.id in H. apply H. lia.
Qed.

Lemma set_entry_length (es : list mtrie_node_t) (idx : Z) (e : mtrie_node_t) :
  length (set_entry es idx e) = length es.
Proof. apply upd_nth_length. Qed.

Lemma entry_at_set_entry_eq (es : list mtrie_node_t) (idx : Z) (e : mtrie_node_t) :
  0 <= idx < Z.of_nat (length es) -> entry_at (set_entry es idx e) idx = e.
Proof. intros H. unfold entry_at, set_entry. apply nth_upd_nth_eq. lia. Qed.

Lemma entry_at_set_entry_neq (es : list mtrie_node_t) (idx i : Z) (e : mtrie_node_t) :
  0 <= idx -> 0 <= i -> idx <> i -> entry_at (set_entry es idx e) i = entry_at es i.
Proof. intros H1 H2 H3. unfold entry_at, set_entry. apply nth_upd_nth_neq. lia. Qed.

Lemma write_from_length (p : Z -> bool) (data : Z) (es : list mtrie_node_t) :
  forall s, length (write_from s p data es) = length es.
Proof. induction es as [|e tl IH]; intros s; cbn; auto. Qed.

Lemma write_where_length (p : Z -> bool) (data : Z) (es : list mtrie_node_t) :
  length (write_where p data es) = length es.
Proof. apply write_from_length. Qed.

Lemma entry_at_write_from (p : Z -> bool) (data : Z) (es : list mtrie_node_t) :
  forall s i,
    0 <= i < Z.of_nat (length es) ->
    entry_at (write_from s p data es) i =
    if p (s + i) then MNode data (mbase (entry_at es i)) else entry_at es i.
Proof.
  unfold entry_at.
  induction es as [|e tl IH]; intros s i Hi; cbn [length] in Hi; [lia|].
  destruct (Z.eq_dec i 0) as [->|Hne].
  - cbn. now rewrite Z.add_0_r.
  - replace (Z.to_nat i) with (S (Z.to_nat (i - 1))) by lia.
    cbn [write_from nth]. rewrite IH by lia.
    now replace (s + 1 + (i - 1)) with (s + i) by lia.
Qed.

Lemma entry_at_write_where (p : Z -> bool) (data : Z) (es : list mtrie_node_t) (i : Z) :
  0 <= i < Z.of_nat (length es) ->
  entry_at (write_where p data es) i =
  if p i then MNode data (mbase (entry_at es i)) else entry_at es i.
Proof. intros H. unfold write_where. now rewrite entry_at_write_from. Qed.

Lemma write_where_ext (p q : Z -> bool) (data : Z) (es : list mtrie_node_t) :
  (forall i, 0 <= i < Z.of_nat (length es) -> p i = q i) ->
  write_where p data es = write_where q data es.
Proof.
  intros H. apply entries_ext.
  - now rewrite !write_where_length.
  - intros i Hi. rewrite write_where_length in Hi.
    rewrite !entry_at_write_where by assumption. now rewrite H.
Qed.

Lemma write_where_none (p : Z -> bool) (data : Z) (es : list mtrie_node_t) :
  (forall i, 0 <= i < Z.of_nat (length es) -> p i = false) ->
  write_where p data es = es.
Proof.
  intros H. apply entries_ext.
  - now rewrite write_where_length.
  - intros i Hi. rewrite write_where_length in Hi.
    rewrite entry_at_write_where by assumption. now rewrite H.
Qed.

Lemma write_where_twice (p q : Z -> bool) (data : Z) (es : list mtrie_node_t) :
  write_where q data (write_where p data es) = write_where (fun i => p i || q i) data es.
Proof.
  apply entries_ext.
  - now rewrite !write_where_length.
  - intros i Hi. rewrite !write_where_length in Hi.
    rewrite !entry_at_write_where by (rewrite ?write_where_length; assumption).
    destruct (p i), (q i); cbn; reflexivity.
Qed.

Lemma set_entry_data_write_where (es : list mtrie_node_t) (a data : Z) :
  0 <= a ->
  set_entry_data es a data = write_where (fun i => i =? a) data es.
Proof.
  intros Ha. apply entries_ext.
  - unfold set_entry_data. now rewrite set_entry_length, write_where_length.
  - intros i Hi. unfold set_entry_data in *. rewrite set_entry_length in Hi.
    rewrite entry_at_write_where by assumption.
    destruct (Z.eqb_spec i a) as [->|Hne].
    + now rewrite entry_at_set_entry_eq.
    + rewrite entry_at_set_entry_neq; auto; lia.
Qed.

Lemma pattern_loop_write_where (n : nat) :
  forall es s data,
    0 <= s ->
    pattern_loop n es s data =
    write_where (fun i => (s <=? i) && (i <? s + Z.of_nat n)) data es.
Proof.
  induction n as [|n IH]; intros es s data Hs.
  - cbn [pattern_loop]. symmetry. apply write_where_none. intros i _. zbool.
  - cbn [pattern_loop]. rewrite IH by lia.
    rewrite set_entry_data_write_where by assumption.
    rewrite write_where_twice. apply write_where_ext. intros i _. zbool.
Qed.

Lemma lpm_pattern_generate_write_where (es : list mtrie_node_t) (idx bitpos data : Z) :
  0 <= Z.land idx (pattern_mask bitpos) ->
  lpm_pattern_generate es idx bitpos data = write_where (in_pattern idx bitpos) data es.
Proof.
  intros H. unfold lpm_pattern_generate, in_pattern. cbv zeta.
  rewrite pattern_loop_write_where by assumption.
  apply write_where_ext. intros i _. zbool.
Qed.

(** *** Well-formed blocks *)

Lemma mtrie_wfb_block (es : list mtrie_node_t) :
  mtrie_wfb (MBlock es) =
  (length es =? 256)%nat && forallb (fun e => mtrie_wfb (mbase e)) es.
Proof.
  cbn [mtrie_wfb]. f_equal.
  induction es as [|[d b] tl IH]; cbn; [reflexivity|]. now rewrite IH.
Qed.

Lemma mtrie_wf_block (es : list mtrie_node_t) :
  mtrie_wf (MBlock es) <->
  length es = 256%nat /\ forall i, mtrie_wf (mbase (entry_at es i)).
Proof.
  unfold mtrie_wf. rewrite mtrie_wfb_block, andb_true_iff, Nat.eqb_eq, forallb_forall.
  split; intros [Hlen H]; split; auto.
  - intros i. unfold entry_at.
    destruct (Nat.lt_ge_cases (Z.to_nat i) (length es)) as [Hlt|Hge].
    + apply H. now apply nth_In.
    + now rewrite nth_overflow.
  - intros e He. destruct (In_nth es e mnode_zero He) as [n [Hn <-]].
    specialize (H (Z.of_nat n)). unfold entry_at in H. now rewrite Nat2Z.id in H.
Qed.

Lemma zero_block_length : length zero_block = 256%nat.
Proof. reflexivity. Qed.

Lemma entry_at_zero_block (i : Z) : entry_at zero_block i = mnode_zero.
Proof.
  unfold entry_at, zero_block.
  destruct (Nat.lt_ge_cases (Z.to_nat i) 256) as [Hlt|Hge].
  - now rewrite nth_repeat_lt.
  - apply nth_overflow. now rewrite repeat_length.
Qed.

Lemma mtrie_wf_zero_block : mtrie_wf (MBlock zero_block).
Proof. apply mtrie_wf_block. split; [reflexivity|]. intros i. now rewrite entry_at_zero_block. Qed.

Lemma mtrie_wf_block_entries (b : mtrie_block_t) :
  mtrie_wf b -> mtrie_wf (MBlock (block_entries b)).
Proof. destruct b; cbn; auto using mtrie_wf_zero_block. Qed.

Lemma mbase_entry_at_set_entry_base (es : list mtrie_node_t) (idx i : Z) (b : mtrie_block_t) :
  0 <= idx -> 0 <= i ->
  mbase (entry_at (set_entry_base es idx b) i) =
  if (i =? idx) && (idx <? Z.of_nat (length es)) then b else mbase (entry_at es i).
Proof.
  intros Hidx Hi. unfold set_entry_base.
  destruct (Z.eqb_spec i idx) as [->|Hne]; cbn [andb].
  - destruct (Z.ltb_spec idx (Z.of_nat (length es))).
    + now rewrite entry_at_set_entry_eq by lia.
    + unfold set_entry. rewrite upd_nth_overflow by lia. reflexivity.
  - rewrite entry_at_set_entry_neq; auto.
Qed.

Lemma mdata_entry_at_set_entry_base (es : list mtrie_node_t) (idx i : Z) (b : mtrie_block_t) :
  0 <= idx -> 0 <= i ->
  mdata (entry_at (set_entry_base es idx b) i) = mdata (entry_at es i).
Proof.
  intros Hidx Hi. unfold set_entry_base.
  destruct (Z.eq_dec i idx) as [->|Hne].
  - destruct (Z.ltb_spec idx (Z.of_nat (length es))).
    + now rewrite entry_at_set_entry_eq by lia.
    + unfold set_entry. rewrite upd_nth_overflow by lia. reflexivity.
  - rewrite entry_at_set_entry_neq; auto.
Qed.

Lemma set_entry_base_length (es : list mtrie_node_t) (idx : Z) (b : mtrie_block_t) :
  length (set_entry_base es idx b) = length es.
Proof. apply set_entry_length. Qed.

Lemma entry_at_neg (es : list mtrie_node_t) (i : Z) : i < 0 -> entry_at es i = entry_at es 0.
Proof. intros H. unfold entry_at. now replace (Z.to_nat i) with (Z.to_nat 0) by lia. Qed.

Lemma mtrie_wf_set_entry_base (es : list mtrie_node_t) (idx : Z) (b : mtrie_block_t) :
  0 <= idx -> mtrie_wf (MBlock es) -> mtrie_wf b ->
  mtrie_wf (MBlock (set_entry_base es idx b)).
Proof.
  intros Hidx Hes Hb. apply mtrie_wf_block in Hes. destruct Hes as [Hlen Hes].
  apply mtrie_wf_block. split; [now rewrite set_entry_base_length|].
  intros i. destruct (Z.lt_ge_cases i 0) as [Hneg|Hpos].
  - rewrite entry_at_neg by assumption.
    rewrite mbase_entry_at_set_entry_base by lia.
    destruct (_ && _); auto.
  - rewrite mbase_entry_at_set_entry_base by lia.
    destruct (_ && _); auto.
Qed.

Lemma mbase_entry_at_write_where (p : Z -> bool) (data : Z) (es : list mtrie_node_t) (i : Z) :
  mbase (entry_at (write_where p data es) i) = mbase (entry_at es i).
Proof.
  destruct (Z.lt_ge_cases i 0) as [Hneg|Hpos].
  - rewrite !(entry_at_neg _ i) by assumption.
    destruct es as [|e tl]; [reflexivity|].
    unfold write_where, entry_at. cbn. now destruct (p 0).
  - destruct (Z.lt_ge_cases i (Z.of_nat (length es))) as [Hlt|Hge].
    + rewrite entry_at_write_where by lia. now destruct (p i).
    + rewrite !entry_at_short; auto; rewrite ?write_where_length; lia.
Qed.

Lemma mtrie_wf_write_where (p : Z -> bool) (data : Z) (es : list mtrie_node_t) :
  mtrie_wf (MBlock es) -> mtrie_wf (MBlock (write_where p data es)).
Proof.
  intros Hes. apply mtrie_wf_block in Hes. destruct Hes as [Hlen Hes].
  apply mtrie_wf_block. split; [now rewrite write_where_length|].
  intros i. now rewrite mbase_entry_at_write_where.
Qed.

(** *** Allocation and release of blocks *)

Lemma mtrie_free_block_unfold (st : lpm_lkup_table_stat) (es : list mtrie_node_t) :
  __mtrie_free_block st (MBlock es) =
  (st1 <- free_entries es st ;; mtrie_mem_free st1 (MBlock es)).
Proof. reflexivity. Qed.

Lemma free_entries_no_base (es : list mtrie_node_t) (st : lpm_lkup_table_stat) :
  Forall (fun e => mbase e = MNull) es -> free_entries es st = Ret st.
Proof.
  induction 1 as [|[d b] tl Hb _ IH]; cbn; [reflexivity|].
  cbn in Hb. subst b. cbn. exact IH.
Qed.

Lemma zero_block_no_base : Forall (fun e => mbase e = MNull) zero_block.
Proof. unfold zero_block. apply Forall_forall. intros e He. apply repeat_spec in He. now subst. Qed.

Lemma mtrie_alloc_block_eq (table : lpm_lkup_table_t) (mem : list bool) :
  mtrie_alloc_block table mem =
  if fst (malloc mem)
  then (MBlock zero_block,
        set_stat table (set_mtrie_block_alloc_stat (stat table)
                          (s32 (mtrie_block_alloc_stat (stat table) + 1))),
        snd (malloc mem))
  else (MNull, set_stat table (stat_mtrie_failed (stat table)), snd (malloc mem)).
Proof.
  unfold mtrie_alloc_block, mtrie_mem_alloc. destruct (malloc mem) as [[|] m]; reflexivity.
Qed.

(** Releasing a freshly allocated block takes the block counter back by
    one. *)
Lemma mtrie_free_block_zero (table : lpm_lkup_table_t) (table' : lpm_lkup_table_t) (x : Z) :
  mtrie_free_block table (MBlock zero_block) = Ret table' ->
  in_s32 x ->
  mtrie_block_alloc_stat (stat table) = s32 (x + 1) ->
  table' = set_stat table (set_mtrie_block_alloc_stat (stat table) x).
Proof.
  unfold mtrie_free_block. rewrite mtrie_free_block_unfold.
  rewrite free_entries_no_base by apply zero_block_no_base.
  cbn [bind mtrie_mem_free]. intros Hrun Hx Hstat. rewrite Hstat in Hrun.
  destruct (Z.ltb_spec 0 (s32 (x + 1))); [|discriminate].
  cbn in Hrun. inversion Hrun. now rewrite s32_incr_decr.
Qed.

Lemma count_alloc_app (c1 c2 : list chain_link) :
  count_alloc (c1 ++ c2) = (count_alloc c1 + count_alloc c2)%nat.
Proof. unfold count_alloc. now rewrite filter_app, length_app. Qed.

Lemma trie_chain_release_spec (chain : list chain_link) :
  forall table table' x,
    trie_chain_release table chain = Ret table' ->
    Forall (fun l => cl_alloc l = true -> cl_block l = zero_block) chain ->
    in_s32 x ->
    mtrie_block_alloc_stat (stat table) = incr_times (count_alloc chain) x ->
    table' = set_stat table (set_mtrie_block_alloc_stat (stat table) x).
Proof.
  induction chain as [|l tl IH]; intros table table' x Hrun Hz Hx Hstat.
  - cbn in Hrun. inversion Hrun; subst table'.
    change (incr_times (count_alloc []) x) with x in Hstat. rewrite <- Hstat.
    unfold set_mtrie_block_alloc_stat. now rewrite stat_eta, set_stat_same.
  - cbn [trie_chain_release] in Hrun. inversion Hz as [|? ? Hl Htl]; subst.
    apply bind_ret in Hrun. destruct Hrun as [table1 [Hfree Hrun]].
    destruct (cl_alloc l) eqn:Hal.
    + rewrite (Hl eq_refl) in Hfree.
      assert (Hc : count_alloc (l :: tl) = S (count_alloc tl))
        by (unfold count_alloc; cbn; now rewrite Hal).
      rewrite Hc, incr_times_S in Hstat.
      apply (mtrie_free_block_zero _ _ (incr_times (count_alloc tl) x)) in Hfree;
        auto using incr_times_in_range.
      apply (IH table1 table' x) in Hrun; auto.
      * rewrite Hrun, Hfree. reflexivity.
      * rewrite Hfree. reflexivity.
    + inversion Hfree; subst table1.
      assert (Hc : count_alloc (l :: tl) = count_alloc tl)
        by (unfold count_alloc; cbn; now rewrite Hal).
      rewrite Hc in Hstat. now apply (IH table table' x).
Qed.

(** *** The chain of blocks of [lpm_gen_combinations] *)

Lemma trie_chain_build_step (n : nat) (table : lpm_lkup_table_t) (mem : list bool)
      (frontier : mtrie_block_t) (addr : list Z) (level : Z) (chain : list chain_link) :
  trie_chain_build (S n) table mem frontier addr level chain =
  match frontier with
  | MNull =>
      if fst (malloc mem) then
        trie_chain_build n
          (set_stat table (set_mtrie_block_alloc_stat (stat table)
                             (s32 (mtrie_block_alloc_stat (stat table) + 1))))
          (snd (malloc mem)) MNull addr (level + 1)
          (chain ++ [mkLink zero_block (byte_at addr level) true])
      else
        table2 <- trie_chain_release (set_stat table (stat_mtrie_failed (stat table))) chain ;;
        Ret (None, table2, snd (malloc mem))
  | MBlock es =>
      trie_chain_build n table mem (mbase (entry_at es (byte_at addr level))) addr (level + 1)
                       (chain ++ [mkLink es (byte_at addr level) false])
  end.
Proof.
  cbn [trie_chain_build]. destruct frontier; [|reflexivity].
  rewrite mtrie_alloc_block_eq. destruct (fst (malloc mem)); [|reflexivity].
  now rewrite entry_at_zero_block.
Qed.

(** When an allocation fails on the way, the blocks allocated before it
    are released and only the failure is counted. *)
Lemma trie_chain_build_failure (n : nat) :
  forall table mem frontier addr level chain table' mem' x,
    trie_chain_build n table mem frontier addr level chain = Ret (None, table', mem') ->
    Forall (fun l => cl_alloc l = true -> cl_block l = zero_block) chain ->
    in_s32 x ->
    mtrie_block_alloc_stat (stat table) = incr_times (count_alloc chain) x ->
    table' = set_stat table (stat_mtrie_failed (set_mtrie_block_alloc_stat (stat table) x)) /\
    chain_missing n frontier addr level <> O.
Proof.
  induction n as [|n IH]; intros table mem frontier addr level chain table' mem' x
                                 Hrun Hz Hx Hstat.
  - cbn in Hrun. discriminate Hrun.
  - rewrite trie_chain_build_step in Hrun. destruct frontier as [|es].
    + split; [|cbn; discriminate].
      destruct (fst (malloc mem)).
      * apply IH with (x := x) in Hrun.
        -- destruct Hrun as [Hrun _]. rewrite Hrun. reflexivity.
        -- apply Forall_app. split; [assumption|]. now repeat constructor.
        -- assumption.
        -- rewrite count_alloc_app. cbn [stat set_stat mtrie_block_alloc_stat
                                          set_mtrie_block_alloc_stat].
           rewrite Hstat. change (count_alloc [_]) with 1%nat.
           rewrite Nat.add_1_r. now rewrite incr_times_S.
      * apply bind_ret in Hrun. destruct Hrun as [table2 [Hrel Hrun]].
        inversion Hrun; subst; clear Hrun.
        apply trie_chain_release_spec with (x := x) in Hrel;
          [|assumption|assumption|exact Hstat].
        rewrite Hrel. reflexivity.
    + apply IH with (x := x) in Hrun.
      * destruct Hrun as [Hrun Hm]. split; [exact Hrun|exact Hm].
      * apply Forall_app. split; [assumption|]. repeat constructor. cbn. discriminate.
      * assumption.
      * rewrite count_alloc_app. change (count_alloc [_]) with 0%nat.
        now rewrite Nat.add_0_r.
Qed.

Lemma trie_chain_build_failure_missing (n : nat) :
  forall table mem frontier addr level chain table' mem',
    trie_chain_build n table mem frontier addr level chain = Ret (None, table', mem') ->
    chain_missing n frontier addr level <> O.
Proof.
  induction n as [|n IH]; intros table mem frontier addr level chain table' mem' Hrun.
  - cbn in Hrun. discriminate Hrun.
  - rewrite trie_chain_build_step in Hrun. destruct frontier as [|es]; [cbn; discriminate|].
    cbn [chain_missing]. eapply IH. exact Hrun.
Qed.

Lemma trie_chain_hook_app (c1 c2 : list chain_link) (low : mtrie_block_t) :
  trie_chain_hook (c1 ++ c2) low = trie_chain_hook c2 (trie_chain_hook c1 low).
Proof. revert low. induction c1 as [|l tl IH]; intros low; cbn; auto. Qed.

(** When the chain is built, hooking it and rewriting its lowest block
    amounts to [mtrie_path_update]; the blocks that were missing are
    counted. *)
Lemma trie_chain_build_success (n : nat) :
  forall table mem frontier addr level chain chain' table' mem',
    trie_chain_build (S n) table mem frontier addr level chain =
      Ret (Some chain', table', mem') ->
    table' = set_stat table
               (set_mtrie_block_alloc_stat (stat table)
                  (incr_times (chain_missing (S n) frontier addr level)
                              (mtrie_block_alloc_stat (stat table)))) /\
    (chain_missing (S n) frontier addr level = O -> mem' = mem) /\
    exists last uppers,
      rev chain' = last :: uppers /\
      cl_idx last = byte_at addr (level + Z.of_nat n) /\
      forall F,
        trie_chain_hook uppers (MBlock (F (cl_block last))) =
        trie_chain_hook (rev chain) (mtrie_path_update n frontier addr level F).
Proof.
  induction n as [|n IH]; intros table mem frontier addr level chain chain' table' mem' Hrun;
    rewrite trie_chain_build_step in Hrun.
  - assert (Hone : forall es flag t m,
               trie_chain_build 0 t m (mbase (entry_at es (byte_at addr level))) addr
                 (level + 1) (chain ++ [mkLink es (byte_at addr level) flag]) =
                 Ret (Some chain', table', mem') ->
               t = table' /\ m = mem' /\
               exists last uppers,
                 rev chain' = last :: uppers /\
                 cl_idx last = byte_at addr (level + Z.of_nat 0) /\
                 forall F, trie_chain_hook uppers (MBlock (F (cl_block last))) =
                           trie_chain_hook (rev chain) (MBlock (F es))).
    { intros es flag t m H. cbn in H. inversion H; subst. split; [reflexivity|].
      split; [reflexivity|]. rewrite rev_app_distr. cbn.
      eexists. eexists. split; [reflexivity|]. cbn. split; [f_equal; lia|]. reflexivity. }
    destruct frontier as [|es].
    + destruct (fst (malloc mem)); [|apply bind_ret in Hrun;
                                      destruct Hrun as [? [_ Hrun]]; discriminate Hrun].
      assert (Hz : MNull = mbase (entry_at zero_block (byte_at addr level)))
        by now rewrite entry_at_zero_block.
      rewrite Hz in Hrun. apply Hone in Hrun. destruct Hrun as [<- [<- Hrest]].
      split; [reflexivity|]. split; [cbn; discriminate|]. exact Hrest.
    + apply Hone in Hrun. destruct Hrun as [<- [<- Hrest]].
      split; [|split; [reflexivity|exact Hrest]].
      cbn [chain_missing]. change (incr_times 0 ?x) with x.
      unfold set_mtrie_block_alloc_stat. now rewrite stat_eta, set_stat_same.
  - destruct frontier as [|es].
    + destruct (fst (malloc mem)); [|apply bind_ret in Hrun;
                                      destruct Hrun as [? [_ Hrun]]; discriminate Hrun].
      apply IH in Hrun. destruct Hrun as [Htab [_ [last [uppers [Hrev [Hidx Hhook]]]]]].
      split.
      { rewrite Htab. cbn [chain_missing]. rewrite (incr_times_shift (S n)).
        reflexivity. }
      split; [cbn; discriminate|].
      exists last, uppers. split; [exact Hrev|]. split; [rewrite Hidx; f_equal; lia|].
      intros F. rewrite Hhook. rewrite rev_app_distr. cbn [rev app trie_chain_hook cl_block cl_idx].
      cbn [mtrie_path_update block_entries]. now rewrite entry_at_zero_block.
    + apply IH in Hrun. destruct Hrun as [Htab [Hmem [last [uppers [Hrev [Hidx Hhook]]]]]].
      split; [exact Htab|]. split; [exact Hmem|].
      exists last, uppers. split; [exact Hrev|]. split; [rewrite Hidx; f_equal; lia|].
      intros F. rewrite Hhook. rewrite rev_app_distr. reflexivity.
Qed.

Lemma trie_chain_build_present (n : nat) :
  forall table mem frontier addr level chain,
    chain_missing n frontier addr level = O ->
    exists chain', trie_chain_build n table mem frontier addr level chain =
                   Ret (Some chain', table, mem).
Proof.
  induction n as [|n IH]; intros table mem frontier addr level chain Hm.
  - eexists. reflexivity.
  - rewrite trie_chain_build_step. destruct frontier as [|es]; [cbn in Hm; discriminate|].
    apply IH. exact Hm.
Qed.

(** *** [lpm_gen_combinations] *)

Lemma gen_combinations_spec (table : lpm_lkup_table_t) (mem : list bool) (addr : list Z)
      (temp_bitpos data nextbit : Z) (r : lpm_result_t) (table' : lpm_lkup_table_t)
      (mem' : list bool) :
  0 <= temp_bitpos ->
  lpm_gen_combinations table mem addr temp_bitpos data nextbit = Ret (r, table', mem') ->
  let k := Z.to_nat (temp_bitpos / 8) in
  temp_bitpos < LPM_MASKLEN_MAX /\
  ((r = LPM_ERR_RESOURCES /\
    chain_missing (S k) (hi256_table_base table) addr 0 <> O /\
    (in_s32 (mtrie_block_alloc_stat (stat table)) ->
     table' = set_stat table (stat_mtrie_failed (stat table)))) \/
   (r = LPM_SUCCESS /\
    (chain_missing (S k) (hi256_table_base table) addr 0 = O -> mem' = mem) /\
    exists idx bitpos,
      combination_target (byte_at addr (temp_bitpos / 8)) temp_bitpos nextbit =
        Ret (idx, bitpos) /\
      table' = table_after_write table addr k
                 (fun es => lpm_pattern_generate es idx bitpos data))).
Proof.
  intros Hpos Hrun k. unfold lpm_gen_combinations in Hrun.
  destruct (Z.ltb_spec temp_bitpos LPM_MASKLEN_MAX) as [Hlt|]; [|discriminate Hrun].
  split; [exact Hlt|]. cbn [negb] in Hrun.
  destruct (negb _); [discriminate Hrun|].
  destruct (hi256_table_base table) as [|base] eqn:Hbase; [discriminate Hrun|].
  destruct (Z.ltb_spec temp_bitpos 8) as [Hlow|Hhigh].
  - assert (Hk : k = O) by (unfold k; rewrite Z.div_small by lia; reflexivity).
    replace (temp_bitpos / 8) with 0 by (rewrite Z.div_small; lia).
    apply bind_ret in Hrun. destruct Hrun as [[idx bitpos] [Htarget Hrun]].
    inversion Hrun; subst r table' mem'; clear Hrun.
    right. split; [reflexivity|]. split; [reflexivity|].
    exists idx, bitpos. split; [exact Htarget|].
    unfold table_after_write. rewrite Hk, Hbase. cbn [chain_missing mtrie_path_update
                                                      block_entries].
    change (incr_times 0 ?x) with x.
    unfold set_mtrie_block_alloc_stat. rewrite stat_eta.
    now destruct table.
  - assert (Hcount : Z.to_nat (Z.shiftr temp_bitpos 3 + 1) = S k).
    { rewrite shiftr3_div. unfold k. pose proof (Z.div_pos temp_bitpos 8). lia. }
    rewrite Hcount in Hrun.
    apply bind_ret in Hrun. destruct Hrun as [[[chain table1] mem1] [Hbuild Hrun]].
    destruct chain as [chain|].
    + right.
      apply trie_chain_build_success in Hbuild.
      destruct Hbuild as [Htab [Hmem [last [uppers [Hrev [Hidx Hhook]]]]]].
      rewrite Hrev in Hrun.
      apply bind_ret in Hrun. destruct Hrun as [[idx bitpos] [Htarget Hrun]].
      inversion Hrun; subst r table' mem'; clear Hrun.
      split; [reflexivity|]. split; [exact Hmem|].
      exists idx, bitpos. split.
      * replace (0 + Z.of_nat k) with (temp_bitpos / 8) in Hidx
          by (subst k; rewrite Z2Nat.id; [lia|apply Z.div_pos; lia]).
        now rewrite Hidx in Htarget.
      * rewrite (Hhook (fun es => lpm_pattern_generate es idx bitpos data)).
        cbn [rev trie_chain_hook]. unfold table_after_write. rewrite Hbase, Htab.
        now destruct table.
    + left. inversion Hrun; subst r table' mem'; clear Hrun.
      split; [reflexivity|].
      assert (Hfail : forall x, in_s32 x -> mtrie_block_alloc_stat (stat table) = x ->
                table1 = set_stat table
                           (stat_mtrie_failed (set_mtrie_block_alloc_stat (stat table) x)) /\
                chain_missing (S k) (MBlock base) addr 0 <> O).
      { intros x Hx Hstat.
        apply (trie_chain_build_failure _ _ _ _ _ _ _ _ _ x Hbuild); auto. }
      split.
      * rewrite <- Hbase. rewrite Hbase.
        eapply trie_chain_build_failure_missing. exact Hbuild.
      * intros Hx. destruct (Hfail _ Hx eq_refl) as [Ht _]. rewrite Ht.
        unfold set_mtrie_block_alloc_stat. now rewrite stat_eta.
Qed.

(** *** Algebra of [mtrie_path_update] *)

Lemma mtrie_path_update_ext (k : nat) :
  forall blk addr addr' level F G,
    mtrie_wf blk ->
    (forall l, level <= l < level + Z.of_nat k -> byte_at addr' l = byte_at addr l) ->
    (forall es, length es = 256%nat -> F es = G es) ->
    mtrie_path_update k blk addr level F = mtrie_path_update k blk addr' level G.
Proof.
  induction k as [|k IH]; intros blk addr addr' level F G Hwf Haddr HFG;
    apply mtrie_wf_block_entries in Hwf; apply mtrie_wf_block in Hwf;
    destruct Hwf as [Hlen Hsub]; cbn [mtrie_path_update].
  - now rewrite HFG.
  - rewrite (Haddr level) by lia. f_equal. f_equal.
    apply IH; auto. intros l Hl. apply Haddr. lia.
Qed.

Lemma mtrie_path_update_twice (k : nat) :
  forall blk addr level F G,
    mtrie_wf blk ->
    (forall es, length es = 256%nat -> length (F es) = 256%nat) ->
    mtrie_path_update k (mtrie_path_update k blk addr level F) addr level G =
    mtrie_path_update k blk addr level (fun es => G (F es)).
Proof.
  induction k as [|k IH]; intros blk addr level F G Hwf HF;
    apply mtrie_wf_block_entries in Hwf; apply mtrie_wf_block in Hwf;
    destruct Hwf as [Hlen Hsub]; cbn [mtrie_path_update block_entries].
  - reflexivity.
  - pose proof (byte_at_range addr level) as Hb.
    rewrite mbase_entry_at_set_entry_base by lia.
    rewrite Z.eqb_refl. cbn [andb].
    destruct (Z.ltb_spec (byte_at addr level) (Z.of_nat (length (block_entries blk))));
      [|lia].
    rewrite IH by auto. f_equal.
    unfold set_entry_base at 1 2. unfold set_entry at 1 2. rewrite upd_nth_twice. f_equal.
    fold (set_entry (block_entries blk) (byte_at addr level)
            (MNode (mdata (entry_at (block_entries blk) (byte_at addr level)))
               (mtrie_path_update k
                  (mbase (entry_at (block_entries blk) (byte_at addr level)))
                  addr (level + 1) F))).
    rewrite entry_at_set_entry_eq by lia. reflexivity.
Qed.

Lemma chain_missing_path_update (k : nat) :
  forall blk addr level F,
    mtrie_wf blk ->
    chain_missing (S k) (mtrie_path_update k blk addr level F) addr level = O.
Proof.
  induction k as [|k IH]; intros blk addr level F Hwf;
    apply mtrie_wf_block_entries in Hwf; apply mtrie_wf_block in Hwf;
    destruct Hwf as [Hlen Hsub].
  - reflexivity.
  - cbn [mtrie_path_update]. cbn [chain_missing].
    pose proof (byte_at_range addr level) as Hb.
    rewrite mbase_entry_at_set_entry_base by lia.
    rewrite Z.eqb_refl. cbn [andb].
    destruct (Z.ltb_spec (byte_at addr level) (Z.of_nat (length (block_entries blk))));
      [|lia].
    apply IH. apply Hsub.
Qed.

Lemma chain_missing_ext (k : nat) :
  forall blk addr addr' level,
    (forall l, level <= l < level + Z.of_nat k - 1 -> byte_at addr' l = byte_at addr l) ->
    chain_missing k blk addr level = chain_missing k blk addr' level.
Proof.
  induction k as [|k IH]; intros blk addr addr' level Haddr; [reflexivity|].
  cbn [chain_missing]. destruct blk as [|es]; [reflexivity|].
  destruct k as [|k]; [reflexivity|].
  rewrite (Haddr level) by lia. apply IH. intros l Hl. apply Haddr. lia.
Qed.

Lemma mtrie_path_update_id (k : nat) :
  forall blk addr level F,
    mtrie_wf blk ->
    chain_missing (S k) blk addr level = O ->
    (forall es, length es = 256%nat -> F es = es) ->
    mtrie_path_update k blk addr level F = blk.
Proof.
  induction k as [|k IH]; intros blk addr level F Hwf Hm HF;
    (destruct blk as [|es]; [cbn in Hm; discriminate|]);
    pose proof Hwf as Hwf'; apply mtrie_wf_block in Hwf'; destruct Hwf' as [Hlen Hsub];
    cbn [mtrie_path_update block_entries].
  - now rewrite HF.
  - cbn [chain_missing] in Hm. rewrite IH; auto.
    unfold set_entry_base, set_entry, entry_at.
    f_equal. destruct (nth _ es mnode_zero) eqn:E. cbn. rewrite <- E. apply upd_nth_same.
Qed.

Lemma mtrie_wf_path_update (k : nat) :
  forall blk addr level F,
    mtrie_wf blk ->
    (forall es, mtrie_wf (MBlock es) -> mtrie_wf (MBlock (F es))) ->
    mtrie_wf (mtrie_path_update k blk addr level F).
Proof.
  induction k as [|k IH]; intros blk addr level F Hwf HF;
    apply mtrie_wf_block_entries in Hwf; cbn [mtrie_path_update].
  - now apply HF.
  - pose proof (byte_at_range addr level).
    apply mtrie_wf_set_entry_base; [lia|assumption|].
    apply IH; auto. apply mtrie_wf_block in Hwf. apply Hwf.
Qed.

(** *** Algebra of [table_after_write] *)

Lemma table_after_write_ext (table : lpm_lkup_table_t) (addr addr' : list Z) (k : nat)
      (F G : list mtrie_node_t -> list mtrie_node_t) :
  mtrie_wf (hi256_table_base table) ->
  (forall l, 0 <= l < Z.of_nat k -> byte_at addr' l = byte_at addr l) ->
  (forall es, length es = 256%nat -> F es = G es) ->
  table_after_write table addr k F = table_after_write table addr' k G.
Proof.
  intros Hwf Haddr HFG. unfold table_after_write.
  rewrite (mtrie_path_update_ext k _ addr addr' 0 F G);
    [|assumption|intros l Hl; apply Haddr; lia|assumption].
  rewrite (chain_missing_ext (S k) _ addr addr' 0); [reflexivity|].
  intros l Hl. apply Haddr. lia.
Qed.

Lemma table_after_write_twice (table : lpm_lkup_table_t) (addr : list Z) (k : nat)
      (F G : list mtrie_node_t -> list mtrie_node_t) :
  mtrie_wf (hi256_table_base table) ->
  (forall es, length es = 256%nat -> length (F es) = 256%nat) ->
  table_after_write (table_after_write table addr k F) addr k G =
  table_after_write table addr k (fun es => G (F es)).
Proof.
  intros Hwf HF. unfold table_after_write.
  cbn [hi256_table_base set_stat set_hi256_table_base stat mtrie_block_alloc_stat
       set_mtrie_block_alloc_stat].
  rewrite chain_missing_path_update by assumption.
  rewrite mtrie_path_update_twice by assumption.
  change (incr_times 0 ?x) with x. reflexivity.
Qed.

Lemma table_after_write_id (table : lpm_lkup_table_t) (addr : list Z) (k : nat)
      (F : list mtrie_node_t -> list mtrie_node_t) :
  mtrie_wf (hi256_table_base table) ->
  chain_missing (S k) (hi256_table_base table) addr 0 = O ->
  (forall es, length es = 256%nat -> F es = es) ->
  table_after_write table addr k F = table.
Proof.
  intros Hwf Hm HF. unfold table_after_write.
  rewrite mtrie_path_update_id by assumption. rewrite Hm.
  change (incr_times 0 ?x) with x.
  unfold set_mtrie_block_alloc_stat. rewrite stat_eta. now destruct table.
Qed.

Lemma table_after_write_wf (table : lpm_lkup_table_t) (addr : list Z) (k : nat)
      (F : list mtrie_node_t -> list mtrie_node_t) :
  mtrie_wf (hi256_table_base table) ->
  (forall es, mtrie_wf (MBlock es) -> mtrie_wf (MBlock (F es))) ->
  mtrie_wf (hi256_table_base (table_after_write table addr k F)).
Proof. intros Hwf HF. cbn. now apply mtrie_wf_path_update. Qed.

Lemma table_after_write_present (table : lpm_lkup_table_t) (addr : list Z) (k : nat)
      (F : list mtrie_node_t -> list mtrie_node_t) :
  mtrie_wf (hi256_table_base table) ->
  chain_missing (S k) (hi256_table_base (table_after_write table addr k F)) addr 0 = O.
Proof. intros Hwf. cbn. now apply chain_missing_path_update. Qed.

Lemma table_after_write_in_range (table : lpm_lkup_table_t) (addr : list Z) (k : nat)
      (F : list mtrie_node_t -> list mtrie_node_t) :
  in_s32 (mtrie_block_alloc_stat (stat table)) ->
  in_s32 (mtrie_block_alloc_stat (stat (table_after_write table addr k F))).
Proof. intros H. cbn. now apply incr_times_in_range. Qed.

Lemma table_after_write_btrie (table : lpm_lkup_table_t) (addr : list Z) (k : nat)
      (F : list mtrie_node_t -> list mtrie_node_t) :
  btrie_root (table_after_write table addr k F) = btrie_root table.
Proof. reflexivity. Qed.

(** ** Prefix expansion *)

Lemma ret_pair_inj {A B : Type} (a a' : A) (b b' : B) :
  Ret (a, b) = Ret (a', b') -> a = a' /\ b = b'.
Proof. intros H. inversion H. auto. Qed.

Lemma combination_target_ret (b temp_bitpos nextbit idx bitpos : Z) :
  0 <= temp_bitpos -> 0 <= b < 256 ->
  combination_target b temp_bitpos nextbit = Ret (idx, bitpos) ->
  0 <= idx < 256 /\
  ((nextbit <> 0 /\ nextbit <> 1 /\ idx = b /\ bitpos = temp_bitpos) \/
   (nextbit = 0 /\ temp_bitpos mod 8 < 7 /\ bitpos = temp_bitpos + 1 /\
    idx = Z.land b (u8 (Z.lxor 255 (Z.shiftl 1 (7 - (temp_bitpos mod 8 + 1)))))) \/
   (nextbit = 1 /\ temp_bitpos mod 8 < 7 /\ bitpos = temp_bitpos + 1 /\
    idx = u8 (Z.lor b (Z.shiftl 1 (7 - (temp_bitpos mod 8 + 1)))))).
Proof.
  intros Hpos Hb Hrun. unfold combination_target in Hrun.
  pose proof (Z.mod_pos_bound temp_bitpos 8 ltac:(lia)) as Hj.
  assert (Hnext : (temp_bitpos + 1) mod 8 = temp_bitpos mod 8 + 1 \/ temp_bitpos mod 8 = 7).
  { destruct (Z.eq_dec (temp_bitpos mod 8) 7) as [E|E]; [now right|left].
    rewrite Z.add_mod by lia. rewrite (Z.mod_small 1 8) by lia.
    apply Z.mod_small. lia. }
  rewrite boundary_mod in Hrun.
  destruct (Z.eqb_spec nextbit 0) as [->|Hn0].
  - destruct (Z.eqb_spec (temp_bitpos mod 8) 7) as [E|E]; [discriminate Hrun|].
    destruct Hnext as [Hnext|]; [|lia].
    rewrite land7_mod, Hnext, lxor_255_u8 in Hrun by lia.
    apply ret_pair_inj in Hrun; destruct Hrun as [<- <-].
    split; [apply clear_byte_range; lia|].
    right. left. repeat split; lia.
  - destruct (Z.eqb_spec nextbit 1) as [->|Hn1].
    + destruct (Z.eqb_spec (temp_bitpos mod 8) 7) as [E|E]; [discriminate Hrun|].
      destruct Hnext as [Hnext|]; [|lia].
      rewrite land7_mod, Hnext in Hrun.
      apply ret_pair_inj in Hrun; destruct Hrun as [<- <-].
      split; [apply u8_range|].
      right. right. repeat split; lia.
    + apply ret_pair_inj in Hrun; destruct Hrun as [<- <-].
      split; [exact Hb|]. left. repeat split; auto.
Qed.

Lemma lpm_pattern_generate_same_top (es : list mtrie_node_t) (idx bitpos data : Z) :
  length es = 256%nat -> 0 <= idx < 256 -> 0 <= bitpos < 4294967295 ->
  lpm_pattern_generate es idx bitpos data =
  write_where (fun i => same_top (bitpos mod 8 + 1) i idx) data es.
Proof.
  intros Hlen Hidx Hpos.
  rewrite lpm_pattern_generate_write_where by (apply pattern_mask_land_nonneg; lia).
  apply write_where_ext. intros i Hi. rewrite Hlen in Hi.
  rewrite in_pattern_mod by assumption.
  apply in_pattern_same_top; try lia. apply Z.mod_pos_bound. lia.
Qed.

Lemma mod8_succ (tb : Z) : 0 <= tb -> tb mod 8 < 7 ->
  (tb + 1) mod 8 = tb mod 8 + 1 /\ (tb + 1) / 8 = tb / 8.
Proof.
  intros H0 H7. pose proof (Z.mod_pos_bound tb 8).
  pose proof (Z.div_mod tb 8).
  assert (E : tb + 1 = 8 * (tb / 8) + (tb mod 8 + 1)) by lia.
  split.
  - rewrite E. rewrite Z.add_comm, Z.mul_comm, Z.mod_add by lia. apply Z.mod_small. lia.
  - rewrite E. rewrite Z.add_comm, Z.mul_comm, Z.div_add by lia.
    rewrite Z.div_small by lia. lia.
Qed.

(** One call of [lpm_gen_combinations] falls under [expansion_post]:
    it writes the entries that share the leading bits of the byte, and
    the next bit when one is asked for. *)
Lemma gen_combinations_post (table : lpm_lkup_table_t) (mem : list bool) (addr : list Z)
      (temp_bitpos data nextbit : Z) (r : lpm_result_t) (table' : lpm_lkup_table_t)
      (mem' : list bool) :
  0 <= temp_bitpos ->
  mtrie_wf (hi256_table_base table) ->
  in_s32 (mtrie_block_alloc_stat (stat table)) ->
  lpm_gen_combinations table mem addr temp_bitpos data nextbit = Ret (r, table', mem') ->
  let j := temp_bitpos mod 8 in
  let b := byte_at addr (temp_bitpos / 8) in
  temp_bitpos < LPM_MASKLEN_MAX /\
  expansion_post table addr (Z.to_nat (temp_bitpos / 8))
    (fun i => same_top (j + 1) i b &&
              (if (nextbit =? 0) || (nextbit =? 1) then byte_bit i (j + 1) =? nextbit
               else true))
    data r table'.
Proof.
  intros Hpos Hwf Hrange Hrun j b.
  apply gen_combinations_spec in Hrun; [|assumption].
  destruct Hrun as [Hlt [[Hr [Hmiss Htab]]|[Hr [_ [idx [bitpos [Htarget Htab]]]]]]].
  - split; [exact Hlt|]. left. auto.
  - apply combination_target_ret in Htarget; [|assumption|apply byte_at_range].
    destruct Htarget as [Hidx Hcases].
    split; [exact Hlt|].
    assert (Hbig : temp_bitpos + 1 < 4294967295)
      by (unfold LPM_MASKLEN_MAX, LPM_LEVEL_MAX, LPM_STRIDE in Hlt; lia).
    right. right. split; [exact Hr|]. rewrite Htab.
    apply table_after_write_ext; auto.
    intros es Hlen.
    destruct Hcases as [[H0 [H1 [-> ->]]]|[[-> [Hj [-> Hi]]]|[-> [Hj [-> Hi]]]]].
    + rewrite lpm_pattern_generate_same_top by (auto using byte_at_range; lia).
      apply write_where_ext. intros i _.
      destruct (Z.eqb_spec nextbit 0); [contradiction|].
      destruct (Z.eqb_spec nextbit 1); [contradiction|]. cbn. now rewrite andb_true_r.
    + rewrite lpm_pattern_generate_same_top by (auto; lia).
      apply write_where_ext. intros i Hirange. rewrite Hlen in Hirange.
      destruct (mod8_succ temp_bitpos Hpos Hj) as [-> _]. cbn [Z.eqb orb].
      rewrite Hi. replace (temp_bitpos mod 8 + 1 + 1) with (temp_bitpos mod 8 + 2) by lia.
      pose proof (Z.mod_pos_bound temp_bitpos 8).
      apply same_top_clear_bit; try apply byte_at_range; lia.
    + rewrite lpm_pattern_generate_same_top by (auto; lia).
      apply write_where_ext. intros i Hirange. rewrite Hlen in Hirange.
      destruct (mod8_succ temp_bitpos Hpos Hj) as [-> _]. cbn [Z.eqb orb].
      rewrite Hi. replace (temp_bitpos mod 8 + 1 + 1) with (temp_bitpos mod 8 + 2) by lia.
      pose proof (Z.mod_pos_bound temp_bitpos 8).
      apply same_top_set_bit; try apply byte_at_range; lia.
Qed.

Lemma expansion_post_ext (table : lpm_lkup_table_t) (addr addr' : list Z) (k : nat)
      (p q : Z -> bool) (data : Z) (r : lpm_result_t) (table' : lpm_lkup_table_t) :
  mtrie_wf (hi256_table_base table) ->
  (forall l, 0 <= l < Z.of_nat k -> byte_at addr' l = byte_at addr l) ->
  (forall i, 0 <= i < 256 -> p i = q i) ->
  expansion_post table addr k p data r table' ->
  expansion_post table addr' k q data r table'.
Proof.
  intros Hwf Haddr Hpq [[Hr [Hm Ht]]|[[Hr [Ht Hp]]|[Hr Ht]]].
  - left. split; [exact Hr|]. split; [|exact Ht].
    rewrite <- (chain_missing_ext (S k) _ addr addr' 0); [exact Hm|].
    intros l Hl. apply Haddr. lia.
  - right. left. split; [exact Hr|]. split; [exact Ht|].
    intros i Hi. rewrite <- Hpq by assumption. now apply Hp.
  - right. right. split; [exact Hr|]. rewrite Ht.
    apply table_after_write_ext; auto.
    intros es Hlen. apply write_where_ext. intros i Hi. rewrite Hlen in Hi. now apply Hpq.
Qed.

Lemma expansion_post_wf (table : lpm_lkup_table_t) (addr : list Z) (k : nat)
      (p : Z -> bool) (data : Z) (r : lpm_result_t) (table' : lpm_lkup_table_t) :
  mtrie_wf (hi256_table_base table) ->
  in_s32 (mtrie_block_alloc_stat (stat table)) ->
  expansion_post table addr k p data r table' ->
  mtrie_wf (hi256_table_base table') /\
  in_s32 (mtrie_block_alloc_stat (stat table')) /\
  btrie_root table' = btrie_root table.
Proof.
  intros Hwf Hrange [[Hr [Hm Ht]]|[[Hr [Ht Hp]]|[Hr Ht]]]; subst table'.
  - split; [exact Hwf|split; [exact Hrange|reflexivity]].
  - split; [exact Hwf|split; [exact Hrange|reflexivity]].
  - split; [|split].
    + apply table_after_write_wf; auto. intros es. apply mtrie_wf_write_where.
    + now apply table_after_write_in_range.
    + reflexivity.
Qed.

(** Two expansions in a row along the same chain write the union of
    their entries; once the first one has written, the chain is there
    and the second one cannot fail. *)
Lemma expansion_post_seq (table : lpm_lkup_table_t) (addr : list Z) (k : nat)
      (p1 p2 : Z -> bool) (data : Z) (r : lpm_result_t) (table1 table2 : lpm_lkup_table_t) :
  mtrie_wf (hi256_table_base table) ->
  expansion_post table addr k p1 data LPM_SUCCESS table1 ->
  expansion_post table1 addr k p2 data r table2 ->
  expansion_post table addr k (fun i => p1 i || p2 i) data r table2.
Proof.
  intros Hwf [[Hr [Hm Ht]]|[[_ [Ht Hp]]|[_ Ht]]] H2; [discriminate Hr| |]; subst table1.
  - apply (expansion_post_ext table addr addr k p2); auto.
    intros i Hi. now rewrite Hp.
  - destruct H2 as [[Hr [Hm Ht]]|[[Hr [Ht Hp]]|[Hr Ht]]].
    + exfalso. apply Hm. now apply table_after_write_present.
    + right. right. split; [exact Hr|]. rewrite Ht.
      apply table_after_write_ext; auto.
      intros es Hlen. apply write_where_ext. intros i Hi. rewrite Hlen in Hi.
      rewrite Hp by assumption. now rewrite orb_false_r.
    + right. right. split; [exact Hr|]. rewrite Ht.
      rewrite table_after_write_twice; auto.
      * apply table_after_write_ext; auto.
        intros es Hlen. apply write_where_twice.
      * intros es Hlen. now rewrite write_where_length.
Qed.

Lemma expansion_unfold (table : lpm_lkup_table_t) (mem : list bool) (addr : list Z)
      (masklen temp_bitpos : Z) (temp_root : btrie_node_t) (data : Z) :
  __lpm_prefix_expansion table mem addr masklen temp_bitpos temp_root data =
  let direct :=
    ' (r, t, m) <- lpm_gen_combinations table mem addr temp_bitpos data (-1) ;;
    Ret (r, t, m, addr) in
  if BOUNDARY_BIT_POSITION temp_bitpos then direct
  else
    match temp_root with
    | BNull => Abort
    | BNode _ BNull BNull => direct
    | BNode _ c0 c1 =>
        ' (ret, table1, mem1, addr1) <-
          match c0 with
          | BNode d0 _ _ =>
              if d0 =? NULL then
                a <- CLEAR_BIT_AT_POSITION addr (temp_bitpos + 1) ;;
                __lpm_prefix_expansion table mem a masklen (temp_bitpos + 1) c0 data
              else Ret (LPM_SUCCESS, table, mem, addr)
          | BNull =>
              ' (r, t, m) <- lpm_gen_combinations table mem addr temp_bitpos data 0 ;;
              Ret (r, t, m, addr)
          end ;;
        if negb (lpm_result_eqb ret LPM_SUCCESS) then Ret (ret, table1, mem1, addr1)
        else
          ' (ret', table2, mem2, addr2) <-
            match c1 with
            | BNode d1 _ _ =>
                if d1 =? NULL then
                  a <- SET_BIT_AT_POSITION addr1 (temp_bitpos + 1) ;;
                  __lpm_prefix_expansion table1 mem1 a masklen (temp_bitpos + 1) c1 data
                else Ret (LPM_SUCCESS, table1, mem1, addr1)
            | BNull =>
                ' (r, t, m) <- lpm_gen_combinations table1 mem1 addr1 temp_bitpos data 1 ;;
                Ret (r, t, m, addr1)
            end ;;
          if negb (lpm_result_eqb ret' LPM_SUCCESS) then Ret (ret', table2, mem2, addr2)
          else Ret (LPM_SUCCESS, table2, mem2, addr2)
    end.
Proof. destruct temp_root; reflexivity. Qed.

Lemma stride_written_direct (node : btrie_node_t) (j b i : Z) :
  j = 7 \/ (exists d, node = BNode d BNull BNull) ->
  stride_written node j b i = same_top (j + 1) i b && true.
Proof.
  intros H. unfold stride_written. f_equal.
  destruct H as [->|[d ->]].
  - now destruct node.
  - cbn. now destruct (j =? 7).
Qed.

Lemma stride_written_halves (d : Z) (c0 c1 : btrie_node_t) (j b i : Z) :
  0 <= j < 7 -> (c0 <> BNull \/ c1 <> BNull) ->
  stride_written (BNode d c0 c1) j b i =
  half_written c0 j b 0 i || half_written c1 j b 1 i.
Proof.
  intros Hj Hc. unfold stride_written, half_written.
  destruct (same_top (j + 1) i b); cbn [andb orb]; [|reflexivity].
  cbn [unshadowed]. destruct (Z.eqb_spec j 7); [lia|].
  assert (Hu : (if byte_bit i (j + 1) =? 0
                then match c0 with
                     | BNull => true
                     | BNode d0 _ _ => if d0 =? NULL then unshadowed c0 (j + 1) i else false
                     end
                else match c1 with
                     | BNull => true
                     | BNode d1 _ _ => if d1 =? NULL then unshadowed c1 (j + 1) i else false
                     end) =
               (byte_bit i (j + 1) =? 0) &&
               match c0 with
               | BNull => true
               | BNode d0 _ _ => if d0 =? NULL then unshadowed c0 (j + 1) i else false
               end
               || (byte_bit i (j + 1) =? 1) &&
                  match c1 with
                  | BNull => true
                  | BNode d1 _ _ => if d1 =? NULL then unshadowed c1 (j + 1) i else false
                  end).
  { destruct (byte_bit_01 i (j + 1)) as [E|E]; rewrite E; cbn.
    - now rewrite orb_false_r.
    - reflexivity. }
  destruct c0 as [|d0 c00 c01]; destruct c1 as [|d1 c10 c11]; try exact Hu.
  destruct Hc; congruence.
Qed.

Lemma half_written_skip (d : Z) (x y : btrie_node_t) (j b bv : Z)
      (table : lpm_lkup_table_t) (addr : list Z) (k : nat) (data : Z) :
  d <> NULL ->
  expansion_post table addr k (half_written (BNode d x y) j b bv) data LPM_SUCCESS table.
Proof.
  intros Hd. right. left. split; [reflexivity|]. split; [reflexivity|].
  intros i _. unfold half_written. destruct (Z.eqb_spec d NULL); [contradiction|].
  now rewrite andb_false_r.
Qed.

Lemma half_written_same_top (c : btrie_node_t) (j b b' bv i : Z) :
  same_top (j + 1) b' b = true ->
  half_written c j b' bv i = half_written c j b bv i.
Proof. intros H. unfold half_written. now rewrite (same_top_trans_l _ _ _ _ H). Qed.

Lemma half_written_gen (table : lpm_lkup_table_t) (mem : list bool) (addr : list Z)
      (tb data bv : Z) (r : lpm_result_t) (table' : lpm_lkup_table_t) (mem' : list bool) :
  0 <= tb -> bv = 0 \/ bv = 1 ->
  mtrie_wf (hi256_table_base table) ->
  in_s32 (mtrie_block_alloc_stat (stat table)) ->
  lpm_gen_combinations table mem addr tb data bv = Ret (r, table', mem') ->
  tb < LPM_MASKLEN_MAX /\
  expansion_post table addr (Z.to_nat (tb / 8))
    (half_written BNull (tb mod 8) (byte_at addr (tb / 8)) bv) data r table'.
Proof.
  intros Hpos Hbv Hwf Hrange Hrun.
  apply gen_combinations_post in Hrun; auto. destruct Hrun as [Hlt Hpost].
  split; [exact Hlt|].
  refine (expansion_post_ext table addr addr _ _ _ _ _ _ Hwf _ _ Hpost).
  - reflexivity.
  - intros i _. unfold half_written. rewrite andb_true_r.
    destruct Hbv as [->| ->]; reflexivity.
Qed.

(** The half of an expansion step that descends into a child without
    data, once the bit of the child has been written into the address. *)
Lemma half_written_rec (c : btrie_node_t) (table : lpm_lkup_table_t) (addr a addr1 : list Z)
      (tb data bv : Z) (r : lpm_result_t) (table1 : lpm_lkup_table_t) :
  0 <= tb -> tb mod 8 < 7 ->
  (exists x y, c = BNode NULL x y) ->
  mtrie_wf (hi256_table_base table) ->
  (forall l, 0 <= l -> l <> tb / 8 -> byte_at a l = byte_at addr l) ->
  (forall i, 0 <= i < 256 ->
     same_top (tb mod 8 + 2) i (byte_at a (tb / 8)) =
     same_top (tb mod 8 + 1) i (byte_at addr (tb / 8)) && (byte_bit i (tb mod 8 + 1) =? bv)) ->
  same_top (tb mod 8 + 1) (byte_at a (tb / 8)) (byte_at addr (tb / 8)) = true ->
  (forall l, 0 <= l -> l <> (tb + 1) / 8 -> byte_at addr1 l = byte_at a l) ->
  same_top ((tb + 1) mod 8 + 1) (byte_at addr1 ((tb + 1) / 8)) (byte_at a ((tb + 1) / 8)) = true ->
  expansion_post table a (Z.to_nat ((tb + 1) / 8))
    (stride_written c ((tb + 1) mod 8) (byte_at a ((tb + 1) / 8))) data r table1 ->
  (forall l, 0 <= l -> l <> tb / 8 -> byte_at addr1 l = byte_at addr l) /\
  same_top (tb mod 8 + 1) (byte_at addr1 (tb / 8)) (byte_at addr (tb / 8)) = true /\
  expansion_post table addr (Z.to_nat (tb / 8))
    (half_written c (tb mod 8) (byte_at addr (tb / 8)) bv) data r table1.
Proof.
  intros Hpos Hj [x [y ->]] Hwf Ha Hbit Hself Ha1 Htop1 Hpost.
  destruct (mod8_succ tb Hpos Hj) as [Hmod Hdiv]. rewrite Hmod, Hdiv in *.
  pose proof (Z.mod_pos_bound tb 8 ltac:(lia)) as Hjr.
  split; [|split].
  - intros l Hl Hne. rewrite Ha1 by assumption. now apply Ha.
  - rewrite <- (same_top_trans_l _ _ _ _ Hself).
    apply same_top_weaken; try apply byte_at_range; try lia.
    replace (tb mod 8 + 1 + 1) with (tb mod 8 + 2) in * by lia.
    replace (tb mod 8 + 1 + 1) with (tb mod 8 + 2) in Htop1 by lia.
    exact Htop1.
  - refine (expansion_post_ext table a addr _ _ _ _ _ _ Hwf _ _ Hpost).
    + intros l Hl. symmetry. apply Ha; [lia|].
      pose proof (Z.div_pos tb 8 Hpos ltac:(lia)). lia.
    + intros i Hi. unfold stride_written, half_written. cbn [Z.eqb NULL].
      replace (tb mod 8 + 1 + 1) with (tb mod 8 + 2) by lia.
      now rewrite Hbit.
Qed.

Lemma expansion_direct (node : btrie_node_t) (table : lpm_lkup_table_t) (mem : list bool)
      (addr : list Z) (tb data : Z) (r : lpm_result_t) (table' : lpm_lkup_table_t)
      (mem' : list bool) (addr' : list Z) :
  0 <= tb ->
  mtrie_wf (hi256_table_base table) ->
  in_s32 (mtrie_block_alloc_stat (stat table)) ->
  tb mod 8 = 7 \/ (exists d, node = BNode d BNull BNull) ->
  (' (r, t, m) <- lpm_gen_combinations table mem addr tb data (-1) ;; Ret (r, t, m, addr)) =
    Ret (r, table', mem', addr') ->
  addr' = addr /\
  expansion_post table addr (Z.to_nat (tb / 8))
    (stride_written node (tb mod 8) (byte_at addr (tb / 8))) data r table'.
Proof.
  intros Hpos Hwf Hrange Hdirect Hrun.
  apply bind_ret in Hrun. destruct Hrun as [[[r0 t0] m0] [Hgen Hrun]].
  inversion Hrun; subst r0 t0 m0 addr'; clear Hrun.
  apply gen_combinations_post in Hgen; auto. destruct Hgen as [Hlt Hpost].
  split; [reflexivity|].
  refine (expansion_post_ext table addr addr _ _ _ _ _ _ Hwf _ _ Hpost).
  - reflexivity.
  - intros i _. now rewrite stride_written_direct.
Qed.

Lemma expansion_post_result (table : lpm_lkup_table_t) (addr : list Z) (k : nat)
      (p : Z -> bool) (data : Z) (r : lpm_result_t) (table' : lpm_lkup_table_t) :
  expansion_post table addr k p data r table' ->
  r = LPM_SUCCESS \/ r = LPM_ERR_RESOURCES.
Proof. intros [[Hr _]|[[Hr _]|[Hr _]]]; auto. Qed.

Lemma expansion_post_failure (table : lpm_lkup_table_t) (addr : list Z) (k : nat)
      (p q : Z -> bool) (data : Z) (table' : lpm_lkup_table_t) :
  expansion_post table addr k p data LPM_ERR_RESOURCES table' ->
  expansion_post table addr k q data LPM_ERR_RESOURCES table'.
Proof. intros [H|[[Hr _]|[Hr _]]]; [now left|discriminate Hr|discriminate Hr]. Qed.

Lemma expansion_half (c : btrie_node_t) (bv : Z)
      (op : list Z -> Z -> exec (list Z)) :
  expansion_spec_at c ->
  (op = CLEAR_BIT_AT_POSITION /\ bv = 0) \/ (op = SET_BIT_AT_POSITION /\ bv = 1) ->
  forall table mem addr masklen tb data ret table1 mem1 addr1,
    0 <= tb -> tb mod 8 < 7 -> length addr = 16%nat ->
    mtrie_wf (hi256_table_base table) ->
    in_s32 (mtrie_block_alloc_stat (stat table)) ->
    match c with
    | BNode d0 _ _ =>
        if d0 =? NULL then
          a <- op addr (tb + 1) ;;
          __lpm_prefix_expansion table mem a masklen (tb + 1) c data
        else Ret (LPM_SUCCESS, table, mem, addr)
    | BNull =>
        ' (r, t, m) <- lpm_gen_combinations table mem addr tb data bv ;;
        Ret (r, t, m, addr)
    end = Ret (ret, table1, mem1, addr1) ->
    length addr1 = 16%nat /\
    (forall l, 0 <= l -> l <> tb / 8 -> byte_at addr1 l = byte_at addr l) /\
    same_top (tb mod 8 + 1) (byte_at addr1 (tb / 8)) (byte_at addr (tb / 8)) = true /\
    expansion_post table addr (Z.to_nat (tb / 8))
      (half_written c (tb mod 8) (byte_at addr (tb / 8)) bv) data ret table1.
Proof.
  intros IH Hop table mem addr masklen tb data ret table1 mem1 addr1
         Hpos Hj Hlen Hwf Hrange Hrun.
  pose proof (Z.mod_pos_bound tb 8 ltac:(lia)) as Hjr.
  destruct (mod8_succ tb Hpos Hj) as [Hmod Hdiv].
  destruct c as [|d0 x y].
  - apply bind_ret in Hrun. destruct Hrun as [[[r0 t0] m0] [Hgen Hrun]].
    inversion Hrun; subst r0 t0 m0 addr1; clear Hrun.
    apply half_written_gen in Hgen; auto; [|destruct Hop as [[_ ->]|[_ ->]]; auto].
    destruct Hgen as [_ Hpost].
    repeat split; auto using same_top_refl.
  - destruct (Z.eqb_spec d0 NULL) as [->|Hd0].
    + apply bind_ret in Hrun. destruct Hrun as [a [Hop_run Hrec]].
      assert (Ha : length a = 16%nat /\
                   (forall l, 0 <= l -> l <> tb / 8 -> byte_at a l = byte_at addr l) /\
                   (forall i, 0 <= i < 256 ->
                      same_top (tb mod 8 + 2) i (byte_at a (tb / 8)) =
                      same_top (tb mod 8 + 1) i (byte_at addr (tb / 8)) &&
                      (byte_bit i (tb mod 8 + 1) =? bv)) /\
                   same_top (tb mod 8 + 1) (byte_at a (tb / 8)) (byte_at addr (tb / 8)) = true).
      { destruct Hop as [[-> ->]|[-> ->]].
        - apply CLEAR_BIT_AT_POSITION_spec in Hop_run; [|lia|assumption].
          destruct Hop_run as [_ [Hla [Hother Hbyte]]].
          rewrite Hdiv, Hmod in *. rewrite Hbyte.
          split; [exact Hla|]. split; [exact Hother|]. split.
          + intros i Hi. apply same_top_clear_bit; try apply byte_at_range; lia.
          + apply same_top_clear_self; try apply byte_at_range; lia.
        - apply SET_BIT_AT_POSITION_spec in Hop_run; [|lia|assumption].
          destruct Hop_run as [_ [Hla [Hother Hbyte]]].
          rewrite Hdiv, Hmod in *. rewrite Hbyte.
          split; [exact Hla|]. split; [exact Hother|]. split.
          + intros i Hi. apply same_top_set_bit; try apply byte_at_range; lia.
          + apply same_top_set_self; try apply byte_at_range; lia. }
      destruct Ha as [Hla [Hother [Hbit Hself]]].
      apply IH in Hrec; auto; [|lia].
      destruct Hrec as [Hl1 [Hother1 [Htop1 Hpost]]].
      split; [exact Hl1|].
      apply (half_written_rec (BNode NULL x y) table addr a addr1 tb data bv ret table1);
        eauto.
    + inversion Hrun; subst ret table1 mem1 addr1; clear Hrun.
      split; [exact Hlen|]. split; [reflexivity|]. split; [apply same_top_refl|].
      now apply half_written_skip.
Qed.

(** What [__lpm_prefix_expansion] does: it counts a failed allocation
    and writes nothing, or it writes the data into the entries of the
    prefix that no data below its node shadows, and into those only.
    The address buffer keeps its other bytes and the leading bits of the
    byte at work. *)
Lemma expansion_spec (node : btrie_node_t) : expansion_spec_at node.
Proof.
  induction node as [|d c0 IH0 c1 IH1];
    intros table mem addr masklen tb data r table' mem' addr' Hpos Hlen Hwf Hrange Hrun;
    rewrite expansion_unfold in Hrun; cbv zeta in Hrun; rewrite boundary_mod in Hrun;
    pose proof (Z.mod_pos_bound tb 8 ltac:(lia)) as Hjr.
  - destruct (Z.eqb_spec (tb mod 8) 7) as [Hb|Hb]; [|discriminate Hrun].
    apply (expansion_direct BNull) in Hrun; auto.
    destruct Hrun as [-> Hpost].
    repeat split; auto using same_top_refl.
  - assert (Hdirect : tb mod 8 = 7 \/ (exists d', BNode d c0 c1 = BNode d' BNull BNull) ->
              (' (r, t, m) <- lpm_gen_combinations table mem addr tb data (-1) ;;
               Ret (r, t, m, addr)) = Ret (r, table', mem', addr') ->
              length addr' = 16%nat /\
              (forall l, 0 <= l -> l <> tb / 8 -> byte_at addr' l = byte_at addr l) /\
              same_top (tb mod 8 + 1) (byte_at addr' (tb / 8)) (byte_at addr (tb / 8)) = true /\
              expansion_post table addr (Z.to_nat (tb / 8))
                (stride_written (BNode d c0 c1) (tb mod 8) (byte_at addr (tb / 8)))
                data r table').
    { intros Hd Hr. apply (expansion_direct (BNode d c0 c1)) in Hr; auto.
      destruct Hr as [-> Hpost]. repeat split; auto using same_top_refl. }
    destruct (Z.eqb_spec (tb mod 8) 7) as [Hb|Hb]; [now apply Hdirect; auto|].
    assert (Hj : tb mod 8 < 7) by lia.
    assert (Hsome : c0 <> BNull \/ c1 <> BNull ->
              (' (ret, table1, mem1, addr1) <-
                 match c0 with
                 | BNode d0 _ _ =>
                     if d0 =? NULL then
                       a <- CLEAR_BIT_AT_POSITION addr (tb + 1) ;;
                       __lpm_prefix_expansion table mem a masklen (tb + 1) c0 data
                     else Ret (LPM_SUCCESS, table, mem, addr)
                 | BNull =>
                     ' (r, t, m) <- lpm_gen_combinations table mem addr tb data 0 ;;
                     Ret (r, t, m, addr)
                 end ;;
               if negb (lpm_result_eqb ret LPM_SUCCESS) then Ret (ret, table1, mem1, addr1)
               else
                 ' (ret', table2, mem2, addr2) <-
                   match c1 with
                   | BNode d1 _ _ =>
                       if d1 =? NULL then
                         a <- SET_BIT_AT_POSITION addr1 (tb + 1) ;;
                         __lpm_prefix_expansion table1 mem1 a masklen (tb + 1) c1 data
                       else Ret (LPM_SUCCESS, table1, mem1, addr1)
                   | BNull =>
                       ' (r, t, m) <- lpm_gen_combinations table1 mem1 addr1 tb data 1 ;;
                       Ret (r, t, m, addr1)
                   end ;;
                 if negb (lpm_result_eqb ret' LPM_SUCCESS)
                 then Ret (ret', table2, mem2, addr2)
                 else Ret (LPM_SUCCESS, table2, mem2, addr2)) =
                Ret (r, table', mem', addr') ->
              length addr' = 16%nat /\
              (forall l, 0 <= l -> l <> tb / 8 -> byte_at addr' l = byte_at addr l) /\
              same_top (tb mod 8 + 1) (byte_at addr' (tb / 8)) (byte_at addr (tb / 8)) = true /\
              expansion_post table addr (Z.to_nat (tb / 8))
                (stride_written (BNode d c0 c1) (tb mod 8) (byte_at addr (tb / 8)))
                data r table').
    { intros Hc Hr. clear Hrun Hdirect.
      apply bind_ret in Hr. destruct Hr as [[[[ret table1] mem1] addr1] [Hleft Hr]].
      apply (expansion_half c0 0 CLEAR_BIT_AT_POSITION IH0) in Hleft; auto.
      destruct Hleft as [Hl1 [Hother1 [Htop1 Hpost1]]].
      destruct (expansion_post_result _ _ _ _ _ _ _ Hpost1) as [->| ->]; cbn in Hr.
      - apply bind_ret in Hr. destruct Hr as [[[[ret' table2] mem2] addr2] [Hright Hr]].
        assert (Hr' : r = ret' /\ table' = table2 /\ addr' = addr2)
          by (destruct (negb (lpm_result_eqb ret' LPM_SUCCESS)) eqn:E;
              [inversion Hr; auto|
               inversion Hr; subst; repeat split; auto; now destruct ret']).
        destruct Hr' as [-> [-> ->]]. clear Hr.
        destruct (expansion_post_wf _ _ _ _ _ _ _ Hwf Hrange Hpost1) as [Hwf1 [Hrange1 _]].
        apply (expansion_half c1 1 SET_BIT_AT_POSITION IH1) in Hright; auto.
        destruct Hright as [Hl2 [Hother2 [Htop2 Hpost2]]].
        split; [exact Hl2|]. split; [|split].
        + intros l Hl Hne. rewrite Hother2 by assumption. now apply Hother1.
        + rewrite <- (same_top_trans_l _ _ _ _ Htop1). exact Htop2.
        + assert (Hpost2' : expansion_post table1 addr (Z.to_nat (tb / 8))
                              (half_written c1 (tb mod 8) (byte_at addr (tb / 8)) 1)
                              data ret' table2).
          { refine (expansion_post_ext table1 addr1 addr _ _ _ _ _ _ Hwf1 _ _ Hpost2).
            - intros l Hl. symmetry. apply Hother1; [lia|].
              pose proof (Z.div_pos tb 8 Hpos ltac:(lia)). lia.
            - intros i _. now apply half_written_same_top. }
          pose proof (expansion_post_seq _ _ _ _ _ _ _ _ _ Hwf Hpost1 Hpost2') as Hseq.
          refine (expansion_post_ext table addr addr _ _ _ _ _ _ Hwf _ _ Hseq).
          * reflexivity.
          * intros i _. symmetry. apply stride_written_halves; auto. lia.
      - inversion Hr; subst r table' mem' addr'; clear Hr.
        split; [exact Hl1|]. split; [exact Hother1|]. split; [exact Htop1|].
        eapply expansion_post_failure. exact Hpost1. }
    destruct c0 as [|d0 c00 c01]; [destruct c1 as [|d1 c10 c11]|].
    + apply Hdirect; eauto.
    + apply Hsome; [right; discriminate|exact Hrun].
    + apply Hsome; [left; discriminate|exact Hrun].
Qed.

(** ** C2: what an expansion leaves alone *)

Lemma btrie_find_node_loop_bnode_at (n : nat) :
  forall node addr pos r,
    btrie_find_node_loop n node addr pos = Ret r -> r = bnode_at n node addr pos.
Proof.
  induction n as [|n IH]; intros node addr pos r Hrun; cbn in Hrun.
  - now inversion Hrun.
  - destruct node as [|d c0 c1].
    + inversion Hrun; subst r. clear. cbn [bnode_at bchild].
      generalize (pos + 1). induction n; intros; cbn; auto.
    + apply bind_ret in Hrun. destruct Hrun as [bit [Hbit Hrun]].
      apply bit_at_position_ret in Hbit. destruct Hbit as [_ ->].
      apply IH in Hrun. exact Hrun.
Qed.

Lemma bound_bnode_at (root : btrie_node_t) (q : list Z) (qlen : Z) :
  bound root q qlen -> bdata (bnode_at (Z.to_nat qlen) root q 0) <> NULL.
Proof.
  intros [d [Hfind Hd]]. unfold btrie_find_data, btrie_find_node in Hfind.
  apply bind_ret in Hfind. destruct Hfind as [node [Hnode Hret]].
  apply btrie_find_node_loop_bnode_at in Hnode. inversion Hret; subst. exact Hd.
Qed.

Lemma bnode_at_ext (n : nat) :
  forall node a a' pos,
    (forall p, pos <= p < pos + Z.of_nat n -> addr_bit a p = addr_bit a' p) ->
    bnode_at n node a pos = bnode_at n node a' pos.
Proof.
  induction n as [|n IH]; intros node a a' pos H; [reflexivity|].
  cbn [bnode_at]. rewrite (H pos) by lia. apply IH. intros p Hp. apply H. lia.
Qed.

Lemma bnode_at_add (n m : nat) :
  forall node a pos,
    bnode_at (n + m) node a pos = bnode_at m (bnode_at n node a pos) a (pos + Z.of_nat n).
Proof.
  induction n as [|n IH]; intros node a pos.
  - cbn. now rewrite Z.add_0_r.
  - cbn [Nat.add bnode_at]. rewrite IH. f_equal. lia.
Qed.

Lemma bnode_at_null (n : nat) (a : list Z) (pos : Z) : bnode_at n BNull a pos = BNull.
Proof. revert pos. induction n; intros; cbn; auto. Qed.

Lemma bwalk_null (m : nat) (i j : Z) : bwalk m BNull i j = BNull.
Proof. revert j. induction m; intros; cbn; auto. Qed.

Lemma bnode_at_bwalk (m : nat) :
  forall node q pos i j,
    (forall t, 0 <= t < Z.of_nat m -> addr_bit q (pos + t) = byte_bit i (j + t)) ->
    bnode_at m node q pos = bwalk m node i j.
Proof.
  induction m as [|m IH]; intros node q pos i j H; [reflexivity|].
  cbn [bnode_at bwalk]. specialize (H 0 ltac:(lia)) as H0. rewrite !Z.add_0_r in H0.
  rewrite H0. apply IH. intros t Ht.
  replace (pos + 1 + t) with (pos + (t + 1)) by lia.
  replace (j + 1 + t) with (j + (t + 1)) by lia. apply H. lia.
Qed.

(** Data met on the path of [i] before the end of the stride shadows
    the entry. *)
Lemma unshadowed_false (m : nat) :
  forall node j i,
    0 <= j -> j + Z.of_nat (S m) <= 7 ->
    bdata (bwalk (S m) node i (j + 1)) <> NULL ->
    unshadowed node j i = false.
Proof.
  induction m as [|m IH]; intros node j i Hj Hm Hdata;
    (destruct node as [|d c0 c1]; [rewrite bwalk_null in Hdata; now cbn in Hdata|]);
    cbn [unshadowed]; (destruct (Z.eqb_spec j 7); [lia|]);
    cbn [bwalk bchild] in Hdata.
  - destruct (byte_bit i (j + 1) =? 0).
    + destruct c0 as [|d0 x y]; [now cbn in Hdata|].
      cbn in Hdata. destruct (Z.eqb_spec d0 NULL); [contradiction|].
      now destruct c1.
    + destruct c1 as [|d1 x y]; [now cbn in Hdata|].
      cbn in Hdata. destruct (Z.eqb_spec d1 NULL); [contradiction|].
      now destruct c0.
  - assert (Hrec : forall c, bdata (bwalk (S m) c i (j + 1 + 1)) <> NULL ->
              match c with
              | BNull => true
              | BNode d' _ _ => if d' =? NULL then unshadowed c (j + 1) i else false
              end = false).
    { intros c Hc. destruct c as [|d' x y]; [rewrite bwalk_null in Hc; now cbn in Hc|].
      destruct (d' =? NULL); [|reflexivity]. apply IH; auto; lia. }
    destruct (byte_bit i (j + 1) =? 0).
    + apply Hrec in Hdata. destruct c0 as [|d0 x y]; [discriminate Hdata|].
      now destruct c1.
    + apply Hrec in Hdata. destruct c1 as [|d1 x y]; [discriminate Hdata|].
      now destruct c0.
Qed.

(** *** Reading an entry after a write along a chain *)

Lemma block_entries_length (blk : mtrie_block_t) :
  mtrie_wf blk -> length (block_entries blk) = 256%nat.
Proof. intros H. apply mtrie_wf_block_entries in H. apply mtrie_wf_block in H. apply H. Qed.

Lemma mtrie_block_at_null (n : nat) (addr : list Z) (level : Z) :
  mtrie_block_at n MNull addr level = MNull.
Proof.
  revert level. induction n as [|n IH]; intros level; [reflexivity|].
  cbn [mtrie_block_at block_entries]. rewrite entry_at_zero_block. apply IH.
Qed.

Lemma mtrie_block_at_entries_null_base (n : nat) (es : list mtrie_node_t) (addr : list Z)
      (level : Z) :
  (forall x, mbase (entry_at es x) = MNull) ->
  block_entries (mtrie_block_at (S n) (MBlock es) addr level) = zero_block.
Proof.
  intros H. cbn [mtrie_block_at block_entries]. rewrite H.
  now rewrite mtrie_block_at_null.
Qed.

(** Below, [same_path] says that the first bytes of two addresses lead
    to the same block. *)
Lemma mtrie_data_at_path_update (k : nat) :
  forall (n : nat) blk addr e level F i,
    mtrie_wf blk ->
    0 <= i ->
    (forall es x, mbase (entry_at (F es) x) = mbase (entry_at es x)) ->
    (n = k ->
     (forall l, level <= l < level + Z.of_nat k -> byte_at e l = byte_at addr l) ->
     forall es, length es = 256%nat -> mdata (entry_at (F es) i) = mdata (entry_at es i)) ->
    mdata (entry_at (block_entries
                       (mtrie_block_at n (mtrie_path_update k blk addr level F) e level)) i) =
    mdata (entry_at (block_entries (mtrie_block_at n blk e level)) i).
Proof.
  induction k as [|k IH]; intros n blk addr e level F i Hwf Hi Hbase Hdata;
    pose proof (block_entries_length blk Hwf) as Hlen;
    pose proof (mtrie_wf_block_entries blk Hwf) as Hwfb;
    apply mtrie_wf_block in Hwfb; destruct Hwfb as [_ Hsub].
  - cbn [mtrie_path_update]. destruct n as [|n].
    + cbn [mtrie_block_at block_entries]. apply Hdata; [reflexivity| |exact Hlen].
      intros l Hl. lia.
    + cbn [mtrie_block_at block_entries]. now rewrite Hbase.
  - cbn [mtrie_path_update]. destruct n as [|n].
    + cbn [mtrie_block_at block_entries].
      pose proof (byte_at_range addr level).
      now rewrite mdata_entry_at_set_entry_base by lia.
    + cbn [mtrie_block_at block_entries].
      pose proof (byte_at_range addr level). pose proof (byte_at_range e level).
      rewrite mbase_entry_at_set_entry_base by lia.
      destruct (Z.eqb_spec (byte_at e level) (byte_at addr level)) as [E|E]; cbn [andb].
      * destruct (Z.ltb_spec (byte_at addr level) (Z.of_nat (length (block_entries blk))));
          [|lia].
        rewrite E. apply IH; auto.
        intros Hn Hpath es Hes. apply Hdata; [lia| |exact Hes].
        intros l Hl. destruct (Z.eq_dec l level) as [->|Hne]; [exact E|].
        apply Hpath. lia.
      * reflexivity.
Qed.

(** C2: an expansion of the prefix [addr/(tb + 1)], seeded with the
    btrie node of that prefix, leaves the data of every mtrie entry that
    a strictly more specific prefix bound in the btrie covers as it was.
    This is the expansion that add, update and delete run. *)
Theorem expansion_spares_more_specific
        (table : lpm_lkup_table_t) (mem : list bool) (addr addr0 : list Z)
        (masklen tb data : Z) (r : lpm_result_t) (table' : lpm_lkup_table_t)
        (mem' : list bool) (addr' : list Z)
        (q : list Z) (qlen : Z) (e : list Z) (n : nat) (i : Z) :
  0 <= tb -> length addr = 16%nat ->
  mtrie_wf (hi256_table_base table) ->
  in_s32 (mtrie_block_alloc_stat (stat table)) ->
  (forall pos, 0 <= pos <= tb -> addr_bit addr0 pos = addr_bit addr pos) ->
  lpm_prefix_expansion table mem addr masklen tb
    (bnode_at (Z.to_nat (tb + 1)) (btrie_root table) addr0 0) data =
    Ret (r, table', mem', addr') ->
  0 <= i < 256 ->
  more_specific q qlen addr (tb + 1) ->
  bound (btrie_root table) q qlen ->
  covers q qlen e n i ->
  mtrie_data_at (hi256_table_base table') e n i =
  mtrie_data_at (hi256_table_base table) e n i /\
  btrie_root table' = btrie_root table.
Proof.
  intros Hpos Hlen Hwf Hrange Haddr0 Hrun Hi [Hlonger Hext] Hbound [Hshort Hcov].
  unfold lpm_prefix_expansion in Hrun.
  apply expansion_spec in Hrun; auto.
  destruct Hrun as [_ [_ [_ Hpost]]].
  destruct (expansion_post_wf _ _ _ _ _ _ _ Hwf Hrange Hpost) as [_ [_ Hroot]].
  split; [|exact Hroot].
  destruct Hpost as [[_ [_ ->]]|[[_ [-> _]]|[_ ->]]]; try reflexivity.
  unfold mtrie_data_at, table_after_write.
  cbn [hi256_table_base set_stat set_hi256_table_base].
  apply mtrie_data_at_path_update; auto; [lia|apply mbase_entry_at_write_where|].
  intros Hn Hpath es Hes.
  rewrite entry_at_write_where by (rewrite Hes; lia).
  assert (Hsh : unshadowed (bnode_at (Z.to_nat (tb + 1)) (btrie_root table) addr0 0)
                           (tb mod 8) i = false).
  { pose proof (Z.mod_pos_bound tb 8 ltac:(lia)) as Hj.
    pose proof (Z.div_mod tb 8 ltac:(lia)) as Hdm.
    assert (Hk : Z.of_nat n = tb / 8)
      by (rewrite Hn, Z2Nat.id; [reflexivity|apply Z.div_pos; lia]).
    assert (Hm : exists m, Z.to_nat qlen = (Z.to_nat (tb + 1) + S m)%nat).
    { exists (Z.to_nat (qlen - (tb + 1)) - 1)%nat. lia. }
    destruct Hm as [m Hm].
    apply (unshadowed_false m); [lia|lia|].
    apply bound_bnode_at in Hbound. rewrite Hm, bnode_at_add in Hbound.
    rewrite Z.add_0_l, Z2Nat.id in Hbound by lia.
    rewrite (bnode_at_ext (Z.to_nat (tb + 1)) (btrie_root table) q addr0 0) in Hbound.
    - rewrite (bnode_at_bwalk _ _ _ _ i (tb mod 8 + 1)) in Hbound; [exact Hbound|].
      intros t Ht. rewrite Hcov by lia. unfold entry_bit.
      destruct (Z.ltb_spec (tb + 1 + t) (8 * Z.of_nat n)); [lia|].
      f_equal. lia.
    - intros p Hp. rewrite Hext by lia. symmetry. apply Haddr0. lia. }
  unfold stride_written. rewrite Hsh. now rewrite andb_false_r.
Qed.

Lemma expansion_spares_more_specific_witness :
  match lpm_prefix_expansion (table_after [OpAdd [128] 2 7]) [] (128 :: repeat 0 15) 1 0
          (bnode_at 1 (btrie_root (table_after [OpAdd [128] 2 7])) [128] 0) 9 with
  | Ret (_, table', _, _) =>
      mtrie_data_at (hi256_table_base table') [] 0 129 =
      mtrie_data_at (hi256_table_base (table_after [OpAdd [128] 2 7])) [] 0 129 /\
      btrie_root table' = btrie_root (table_after [OpAdd [128] 2 7])
  | Abort => False
  end.
Proof.
  destruct (lpm_prefix_expansion (table_after [OpAdd [128] 2 7]) [] (128 :: repeat 0 15) 1 0
              (bnode_at 1 (btrie_root (table_after [OpAdd [128] 2 7])) [128] 0) 9)
    as [[[[r table'] mem'] addr']|] eqn:E.
  - apply (expansion_spares_more_specific
             (table_after [OpAdd [128] 2 7]) [] (128 :: repeat 0 15) [128] 1 0 9
             r table' mem' addr' [128] 2 [] 0 129).
    + lia.
    + reflexivity.
    + vm_compute. reflexivity.
    + vm_compute. split; [discriminate|reflexivity].
    + intros pos Hpos. assert (pos = 0) by lia. subst pos. reflexivity.
    + exact E.
    + lia.
    + split; [lia|]. intros pos Hpos. assert (pos = 0) by lia. subst pos. reflexivity.
    + exists 7. split; [vm_compute; reflexivity|discriminate].
    + split; [lia|]. intros pos Hpos.
      assert (Hc : pos = 0 \/ pos = 1) by lia. destruct Hc as [->| ->]; reflexivity.
  - vm_compute in E. discriminate E.
Defined.

(** * The rollback of [lpm_add_entry] *)


Lemma bnode_modify_compose (n : nat) :
  forall node addr pos f g,
    bnode_modify n (bnode_modify n node addr pos f) addr pos g =
    bnode_modify n node addr pos (fun nd => g (f nd)).
Proof.
  induction n as [|n IH]; intros node addr pos f g; [reflexivity|].
  cbn [bnode_modify].
  destruct node as [|d c0 c1]; [reflexivity|].
  rewrite bchild_bset_child by discriminate.
  rewrite IH. apply bset_child_twice.
Qed.

Lemma bnode_modify_id (n : nat) :
  forall node addr pos f,
    f (bnode_at n node addr pos) = bnode_at n node addr pos ->
    bnode_modify n node addr pos f = node.
Proof.
  induction n as [|n IH]; intros node addr pos f Hf; [exact Hf|].
  cbn [bnode_modify bnode_at] in *.
  rewrite IH by exact Hf. apply bset_child_bchild.
Qed.


Lemma btrie_add_node_spec (t : lpm_lkup_table_t) (mem : list bool) (a : list Z) (masklen : Z)
      (out : add_node_out) (t1 : lpm_lkup_table_t) (mem1 : list bool) :
  btrie_root t <> BNull ->
  btrie_add_node t mem a masklen = Ret (out, t1, mem1) ->
  exists (m : nat) (failed : bool),
    let n := Z.to_nat masklen in
    let k := existing n (btrie_root t) a 0 in
    (k <= m <= n)%nat /\
    t1 = set_btrie_root (set_stat t (stat_after_add (stat t) (m - k) failed))
                        (bt_ensure m (btrie_root t) a 0) /\
    ((0 < n)%nat ->
     an_append_point out = Some (Z.of_nat k) /\ an_append_bit out = addr_bit a (Z.of_nat k)) /\
    (if failed
     then an_ret out = LPM_ERR_RESOURCES /\ (m < n)%nat
     else m = n /\ an_ret out = (if (k =? n)%nat then LPM_ERR_EXISTS else LPM_SUCCESS)).
Proof.
  intros Hnn Hrun. unfold btrie_add_node in Hrun.
  destruct (hi256_table_base t); [discriminate|].
  apply bind_ret in Hrun. destruct Hrun as [out0 [Hout0 Hrun]].
  apply bind_ret in Hrun. destruct Hrun as [[[[root out1] table1] mem2] [Hloop Hrun]].
  inversion Hrun; subst; clear Hrun.
  apply add_node_loop_spec in Hloop; [|exact Hnn].
  destruct Hloop as [m [failed [Hkm [Hsub [Htab [Hap [Hab Hret]]]]]]].
  exists m, failed. cbn zeta.
  split; [exact Hkm|]. split; [now rewrite Hsub, Htab|].
  assert (Hr0 : an_ret out0 = LPM_ERR_EXISTS).
  { destruct (0 <? masklen).
    - apply bind_ret in Hout0. destruct Hout0 as [b [_ Hout0]]. now inversion Hout0.
    - now inversion Hout0. }
  split.
  - intros Hn. rewrite Hap, Hab. cbn [Z.add].
    destruct (Nat.eqb_spec (existing (Z.to_nat masklen) (btrie_root t) a 0) 0) as [Hk|Hk];
      [|split; reflexivity].
    rewrite Hk. cbn [Z.of_nat].
    destruct (Z.ltb_spec 0 masklen) as [Hml|Hml]; [|lia].
    apply bind_ret in Hout0. destruct Hout0 as [b [Hb Hout0]].
    apply bit_at_position_ret in Hb. destruct Hb as [_ ->].
    now inversion Hout0.
  - destruct failed; [exact Hret|]. now rewrite Hr0 in Hret.
Qed.

Lemma btrie_rollback_spec (T : lpm_lkup_table_t) (a : list Z) (n m : nat)
      (root : btrie_node_t) (x : Z) (T' : lpm_lkup_table_t) :
  root <> BNull ->
  (existing n root a 0 < n)%nat ->
  (existing n root a 0 <= m)%nat ->
  btrie_root T = bt_ensure m root a 0 ->
  btrie_node_alloc_stat (stat T) = incr_times (m - existing n root a 0) x ->
  in_s32 x ->
  btrie_rollback T a (Some (Z.of_nat (existing n root a 0)))
                 (addr_bit a (Z.of_nat (existing n root a 0))) = Ret T' ->
  T' = set_stat (set_btrie_root T root) (set_btrie_node_alloc_stat (stat T) x).
Proof.
  intros Hnn Hlt Hle Hroot Hstat Hx Hrun.
  unfold btrie_rollback in Hrun. rewrite Nat2Z.id, Hroot in Hrun.
  change (Z.of_nat (existing n root a 0)) with (0 + Z.of_nat (existing n root a 0)) in Hrun.
  rewrite (bnode_at_cut_chain a n m root 0 Hnn Hlt Hle) in Hrun.
  rewrite (bnode_modify_cut_ensure a n m root 0 _ Hnn Hlt Hle eq_refl) in Hrun.
  apply (btrie_del_appended_fresh_chain _ _ _ _ _ x) in Hrun; [|exact Hx|].
  - rewrite Hrun. now destruct T.
  - destruct T. exact Hstat.
Qed.

Lemma check_arg_codes (table : option lpm_lkup_table_t) (addr : option (list Z)) (masklen : Z) :
  lpm_check_arg table addr masklen = LPM_SUCCESS \/
  lpm_check_arg table addr masklen = LPM_ERR_INVALID.
Proof.
  unfold lpm_check_arg. destruct table; auto.
  destruct (LPM_MASKLEN_MAX <? masklen); auto.
  destruct addr; auto. destruct (0 <? masklen); auto.
Qed.

Lemma copy_addr_length (addr : list Z) (cnt : Z) : length (copy_addr addr cnt) = 16%nat.
Proof. unfold copy_addr. now rewrite length_map, length_seq. Qed.






(** * The walk *)

Lemma clear_bit_unset :
  forall b j, 0 <= b < 256 -> 0 <= j < 8 -> byte_bit b j = 0 ->
    Z.land b (u8 (Z.lxor 255 (Z.shiftl 1 (7 - j)))) = b.
Proof.
  assert (H : all_below 256 (fun b => all_below 8 (fun j =>
                implb (byte_bit b j =? 0)
                      (Z.land b (u8 (Z.lxor 255 (Z.shiftl 1 (7 - j)))) =? b))) = true)
    by (vm_compute; reflexivity).
  intros b j Hb Hj H0.
  apply (all_below_spec 256 _ H b) in Hb. apply (all_below_spec 8 _ Hb j) in Hj.
  rewrite H0 in Hj. cbn in Hj. now apply Z.eqb_eq in Hj.
Qed.

Lemma clear_bit_set :
  forall b j, 0 <= b < 256 -> 0 <= j < 8 -> byte_bit b j = 0 ->
    Z.land (u8 (Z.lor b (Z.shiftl 1 (7 - j)))) (u8 (Z.lxor 255 (Z.shiftl 1 (7 - j)))) = b.
Proof.
  assert (H : all_below 256 (fun b => all_below 8 (fun j =>
                implb (byte_bit b j =? 0)
                      (Z.land (u8 (Z.lor b (Z.shiftl 1 (7 - j))))
                              (u8 (Z.lxor 255 (Z.shiftl 1 (7 - j)))) =? b))) = true)
    by (vm_compute; reflexivity).
  intros b j Hb Hj H0.
  apply (all_below_spec 256 _ H b) in Hb. apply (all_below_spec 8 _ Hb j) in Hj.
  rewrite H0 in Hj. cbn in Hj. now apply Z.eqb_eq in Hj.
Qed.

Lemma byte_bit_set_bit :
  forall b j j', 0 <= b < 256 -> 0 <= j < 8 -> 0 <= j' < 8 ->
    byte_bit (u8 (Z.lor b (Z.shiftl 1 (7 - j)))) j' = if j' =? j then 1 else byte_bit b j'.
Proof.
  assert (H : all_below 256 (fun b => all_below 8 (fun j => all_below 8 (fun j' =>
                byte_bit (u8 (Z.lor b (Z.shiftl 1 (7 - j)))) j' =?
                (if j' =? j then 1 else byte_bit b j')))) = true)
    by (vm_compute; reflexivity).
  intros b j j' Hb Hj Hj'.
  apply (all_below_spec 256 _ H b) in Hb. apply (all_below_spec 8 _ Hb j) in Hj.
  apply (all_below_spec 8 _ Hj j') in Hj'. now apply Z.eqb_eq in Hj'.
Qed.

Lemma is_bytes_byte_at (addr : list Z) (i : Z) : is_bytes addr -> byte_at addr i = zget addr i.
Proof.
  intros Hb. unfold byte_at, zget. apply u8_small.
  destruct (Nat.lt_ge_cases (Z.to_nat i) (length addr)) as [Hlt|Hge].
  - unfold is_bytes in Hb. rewrite Forall_forall in Hb. apply Hb. now apply nth_In.
  - rewrite nth_overflow by exact Hge. lia.
Qed.

Lemma byte_at_zset_eq (l : list Z) (i v : Z) :
  0 <= i < Z.of_nat (length l) -> byte_at (zset l i v) i = u8 v.
Proof. intros Hi. unfold byte_at. now rewrite zget_zset_eq. Qed.

Lemma byte_at_zset_neq (l : list Z) (i i' v : Z) :
  0 <= i -> 0 <= i' -> i <> i' -> byte_at (zset l i v) i' = byte_at l i'.
Proof. intros Hi Hi' Hne. unfold byte_at. now rewrite zget_zset_neq. Qed.

Lemma is_bytes_zset (addr : list Z) (i v : Z) :
  is_bytes addr -> 0 <= v < 256 -> is_bytes (zset addr i v).
Proof.
  unfold is_bytes, zset. intros Hb Hv. generalize (Z.to_nat i) as n.
  induction Hb as [|x l Hx Hl IH]; intros [|n]; cbn; constructor; auto.
Qed.

Lemma is_bytes_set_bit (addr : list Z) (pos : Z) :
  is_bytes addr -> is_bytes (addr_set_bit addr pos).
Proof. intros Hb. apply is_bytes_zset; [exact Hb|apply u8_range]. Qed.

Lemma addr_set_bit_length (addr : list Z) (pos : Z) :
  length (addr_set_bit addr pos) = length addr.
Proof. apply zset_length. Qed.

Lemma SET_BIT_AT_POSITION_ret (addr : list Z) (pos : Z) :
  pos < 128 -> SET_BIT_AT_POSITION addr pos = Ret (addr_set_bit addr pos).
Proof.
  intros Hpos. unfold SET_BIT_AT_POSITION.
  destruct (Z.ltb_spec pos LPM_MASKLEN_MAX) as [_|H]; [reflexivity|].
  change LPM_MASKLEN_MAX with 128 in H. lia.
Qed.

Lemma CLEAR_BIT_AT_POSITION_unset (addr : list Z) (pos : Z) :
  0 <= pos < 128 -> is_bytes addr -> addr_bit addr pos = 0 ->
  CLEAR_BIT_AT_POSITION addr pos = Ret addr.
Proof.
  intros Hpos Hb Hbit. unfold CLEAR_BIT_AT_POSITION.
  destruct (Z.ltb_spec pos LPM_MASKLEN_MAX) as [_|H];
    [|change LPM_MASKLEN_MAX with 128 in H; lia].
  rewrite addr_bit_byte_bit in Hbit by lia.
  rewrite shiftr3_div, land7_mod.
  rewrite clear_bit_unset; [|apply byte_at_range|apply Z.mod_pos_bound; lia|exact Hbit].
  rewrite is_bytes_byte_at by exact Hb. unfold zset, zget. now rewrite upd_nth_same.
Qed.

Lemma CLEAR_BIT_AT_POSITION_set (addr : list Z) (pos : Z) :
  0 <= pos < 128 -> length addr = 16%nat -> is_bytes addr -> addr_bit addr pos = 0 ->
  CLEAR_BIT_AT_POSITION (addr_set_bit addr pos) pos = Ret addr.
Proof.
  intros Hpos Hlen Hb Hbit. unfold CLEAR_BIT_AT_POSITION.
  destruct (Z.ltb_spec pos LPM_MASKLEN_MAX) as [_|H];
    [|change LPM_MASKLEN_MAX with 128 in H; lia].
  rewrite addr_bit_byte_bit in Hbit by lia.
  unfold addr_set_bit. rewrite !shiftr3_div, !land7_mod.
  assert (Hi : 0 <= pos / 8 < Z.of_nat (length addr)).
  { rewrite Hlen. split; [apply Z.div_pos; lia|]. apply Z.div_lt_upper_bound; lia. }
  rewrite byte_at_zset_eq by exact Hi.
  rewrite (u8_small (u8 _)) by apply u8_range.
  rewrite clear_bit_set; [|apply byte_at_range|apply Z.mod_pos_bound; lia|exact Hbit].
  rewrite is_bytes_byte_at by exact Hb. unfold zset, zget.
  now rewrite upd_nth_twice, upd_nth_same.
Qed.

Lemma addr_bit_set_bit (addr : list Z) (pos pos' : Z) :
  0 <= pos < 128 -> 0 <= pos' -> length addr = 16%nat ->
  addr_bit (addr_set_bit addr pos) pos' = if pos' =? pos then 1 else addr_bit addr pos'.
Proof.
  intros Hpos Hpos' Hlen.
  rewrite !addr_bit_byte_bit by lia.
  unfold addr_set_bit. rewrite shiftr3_div, land7_mod.
  assert (Hi : 0 <= pos / 8 < Z.of_nat (length addr)).
  { rewrite Hlen. split; [apply Z.div_pos; lia|]. apply Z.div_lt_upper_bound; lia. }
  pose proof (Z.mod_pos_bound pos 8 ltac:(lia)) as Hm.
  pose proof (Z.mod_pos_bound pos' 8 ltac:(lia)) as Hm'.
  destruct (Z.eq_dec (pos' / 8) (pos / 8)) as [He|Hne].
  - rewrite He. rewrite byte_at_zset_eq by exact Hi.
    rewrite (u8_small (u8 _)) by apply u8_range.
    rewrite byte_bit_set_bit by (auto using byte_at_range).
    destruct (Z.eqb_spec (pos' mod 8) (pos mod 8)) as [Hmm|Hmm];
      destruct (Z.eqb_spec pos' pos) as [Hpp|Hpp]; try reflexivity.
    + exfalso. apply Hpp.
      rewrite (Z.div_mod pos' 8), (Z.div_mod pos 8) by lia. lia.
    + subst pos'. congruence.
  - rewrite byte_at_zset_neq; [|apply Hi|apply Z.div_pos; lia|congruence].
    destruct (Z.eqb_spec pos' pos) as [Hpp|_]; [subst; congruence|reflexivity].
Qed.

Lemma visit_until_app {W : Type} (f : lpm_data_walker_func_t W)
      (l1 l2 : list (list Z * Z * Z)) (w : W) :
  visit_until f (l1 ++ l2) w =
  (if fst (visit_until f l1 w) =? 0
   then visit_until f l2 (snd (visit_until f l1 w))
   else visit_until f l1 w).
Proof.
  revert w. induction l1 as [|[[a m] d] l1 IH]; intros w; [reflexivity|].
  cbn [app visit_until]. destruct (f w a m d) as [rc w1].
  destruct (Z.eqb_spec rc 0) as [->|Hrc].
  - apply IH.
  - cbn [fst]. destruct (Z.eqb_spec rc 0); [contradiction|reflexivity].
Qed.

Lemma btrie_within_child (n : nat) (d : Z) (c0 c1 : btrie_node_t) :
  btrie_within n (BNode d c0 c1) = true ->
  (c0 <> BNull \/ c1 <> BNull) ->
  exists n', n = S n' /\ btrie_within n' c0 = true /\ btrie_within n' c1 = true.
Proof.
  intros Hw Hc. destruct n as [|n']; cbn in Hw; apply andb_true_iff in Hw.
  - destruct Hw as [H0 H1]. destruct c0, c1; cbn in *; try discriminate.
    destruct Hc; congruence.
  - exists n'. tauto.
Qed.

Lemma btrie_node_eq_null (c0 c1 : btrie_node_t) :
  (c0 = BNull /\ c1 = BNull) \/ (c0 <> BNull \/ c1 <> BNull).
Proof. destruct c0, c1; auto; right; try (left; discriminate); right; discriminate. Qed.

(** The depth-first walk calls the visitor on the bindings in order, up
    to the first call that does not return 0, and hands the address
    buffer back as it received it. *)
Lemma dfs_walk_spec {W : Type} (f : lpm_data_walker_func_t W) (node : btrie_node_t) :
  forall n addr bitpos w,
    node <> BNull -> btrie_within n node = true ->
    0 <= bitpos -> bitpos + Z.of_nat n <= 128 ->
    length addr = 16%nat -> is_bytes addr ->
    (forall pos, bitpos <= pos < 128 -> addr_bit addr pos = 0) ->
    __btrie_dfs_walk f node addr bitpos w =
    Ret (if fst (visit_until f (dfs_bindings node addr bitpos) w) =? 0
         then LPM_SUCCESS else LPM_ERR_EXOTIC,
         addr, snd (visit_until f (dfs_bindings node addr bitpos) w)).
Proof.
  induction node as [|d c0 IH0 c1 IH1];
    intros n addr bitpos w Hnn Hwithin Hpos Hdepth Hlen Hbytes Hzero; [congruence|].
  cbn [__btrie_dfs_walk dfs_bindings].
  rewrite visit_until_app.
  assert (Hhead :
    visit_until f (if d =? NULL then [] else [(addr, bitpos, d)]) w =
    (let '(rc, w1) := if d =? NULL then (0, w) else f w addr bitpos d in
     if rc =? 0 then (0, w1) else (rc, w1))).
  { destruct (d =? NULL); [reflexivity|]. cbn. now destruct (f w addr bitpos d). }
  rewrite Hhead. clear Hhead.
  destruct (if d =? NULL then (0, w) else f w addr bitpos d) as [rc w1].
  destruct (Z.eqb_spec rc 0) as [->|Hrc]; cbn [negb fst snd].
  2:{ apply Z.eqb_neq in Hrc. rewrite !Hrc. cbn [fst snd]. now rewrite Hrc. }
  cbn [fst snd Z.eqb].
  rewrite visit_until_app.
  assert (H0 :
    match c0 with
    | BNull => Ret (LPM_SUCCESS, addr, w1)
    | BNode _ _ _ =>
        a <- CLEAR_BIT_AT_POSITION addr bitpos ;; __btrie_dfs_walk f c0 a (bitpos + 1) w1
    end =
    Ret (if fst (visit_until f (dfs_bindings c0 addr (bitpos + 1)) w1) =? 0
         then LPM_SUCCESS else LPM_ERR_EXOTIC,
         addr, snd (visit_until f (dfs_bindings c0 addr (bitpos + 1)) w1))).
  { destruct c0 as [|d0 c00 c01]; [reflexivity|].
    destruct (btrie_within_child _ _ _ _ Hwithin) as [n' [-> [Hw0 _]]];
      [left; discriminate|].
    rewrite CLEAR_BIT_AT_POSITION_unset; [|lia|exact Hbytes|apply Hzero; lia].
    cbn [bind]. apply (IH0 n'); auto; try lia; try discriminate.
    intros pos Hp. apply Hzero. lia. }
  rewrite H0. clear H0. cbn [bind].
  destruct (fst (visit_until f (dfs_bindings c0 addr (bitpos + 1)) w1) =? 0) eqn:E0;
    cbn [negb lpm_result_eqb]; [|now rewrite E0].
  destruct c1 as [|d1 c10 c11]; [reflexivity|].
  destruct (btrie_within_child _ _ _ _ Hwithin) as [n' [-> [_ Hw1]]];
    [right; discriminate|].
  rewrite SET_BIT_AT_POSITION_ret by lia. cbn [bind].
  rewrite (IH1 n'); auto; try lia; try discriminate.
  - cbn [bind].
    rewrite CLEAR_BIT_AT_POSITION_set; [|lia|exact Hlen|exact Hbytes|apply Hzero; lia].
    reflexivity.
  - now rewrite addr_set_bit_length.
  - now apply is_bytes_set_bit.
  - intros pos Hp. rewrite addr_bit_set_bit by (try lia; exact Hlen).
    destruct (Z.eqb_spec pos bitpos); [lia|]. apply Hzero. lia.
Qed.

(** *** The list of bindings *)

(** Every call of the list is for a node that holds the data, at the
    depth of the mask length along the address of the call; the address
    continues that of the walk and is zero from the mask length on. *)
Lemma dfs_bindings_sound (node : btrie_node_t) :
  forall n addr bitpos a m d,
    btrie_within n node = true ->
    0 <= bitpos -> bitpos + Z.of_nat n <= 128 ->
    length addr = 16%nat -> is_bytes addr ->
    (forall pos, bitpos <= pos < 128 -> addr_bit addr pos = 0) ->
    In (a, m, d) (dfs_bindings node addr bitpos) ->
    exists k : nat,
      (k <= n)%nat /\ m = bitpos + Z.of_nat k /\
      length a = 16%nat /\ is_bytes a /\
      (forall pos, 0 <= pos < bitpos -> addr_bit a pos = addr_bit addr pos) /\
      (forall pos, m <= pos < 128 -> addr_bit a pos = 0) /\
      d <> NULL /\ bdata (bnode_at k node a bitpos) = d.
Proof.
  induction node as [|d0 c0 IH0 c1 IH1];
    intros n addr bitpos a m d Hwithin Hpos Hdepth Hlen Hbytes Hzero Hin; [destruct Hin|].
  cbn [dfs_bindings] in Hin. apply in_app_or in Hin. destruct Hin as [Hin|Hin].
  - destruct (Z.eqb_spec d0 NULL) as [|Hd]; [destruct Hin|].
    destruct Hin as [Heq|[]]. inversion Heq; subst a m d; clear Heq.
    exists O. cbn. repeat split; auto; try lia;
      try (intros pos Hp; apply Hzero; lia).
  - assert (Hne : c0 <> BNull \/ c1 <> BNull).
    { apply in_app_or in Hin. destruct Hin as [Hin|Hin]; [left|right];
        intros ->; destruct Hin. }
    destruct (btrie_within_child _ _ _ _ Hwithin Hne) as [n' [-> [Hw0 Hw1]]].
    apply in_app_or in Hin. destruct Hin as [Hin|Hin].
    + apply (IH0 n') in Hin; auto; try lia; [|intros pos Hp; apply Hzero; lia].
      destruct Hin as [k [Hk [Hm [Hla [Hba [Hpre [Hz [Hd Hnode]]]]]]]].
      exists (S k). split; [lia|]. split; [lia|]. split; [exact Hla|]. split; [exact Hba|].
      split; [intros pos Hp; apply Hpre; lia|]. split; [exact Hz|]. split; [exact Hd|].
      cbn [bnode_at]. rewrite (Hpre bitpos) by lia. rewrite (Hzero bitpos) by lia.
      exact Hnode.
    + apply (IH1 n') in Hin; auto; try lia.
      * destruct Hin as [k [Hk [Hm [Hla [Hba [Hpre [Hz [Hd Hnode]]]]]]]].
        exists (S k). split; [lia|]. split; [lia|]. split; [exact Hla|].
        split; [exact Hba|].
        split.
        { intros pos Hp. rewrite Hpre by lia.
          rewrite addr_bit_set_bit by (try lia; exact Hlen).
          destruct (Z.eqb_spec pos bitpos); [lia|reflexivity]. }
        split; [exact Hz|]. split; [exact Hd|].
        cbn [bnode_at]. rewrite (Hpre bitpos) by lia.
        rewrite addr_bit_set_bit by (try lia; exact Hlen).
        rewrite Z.eqb_refl. exact Hnode.
      * now rewrite addr_set_bit_length.
      * now apply is_bytes_set_bit.
      * intros pos Hp. rewrite addr_bit_set_bit by (try lia; exact Hlen).
        destruct (Z.eqb_spec pos bitpos); [lia|]. apply Hzero. lia.
Qed.

(** Every node that holds data has its call in the list. *)
Lemma dfs_bindings_complete (node : btrie_node_t) :
  forall n addr bitpos q k,
    btrie_within n node = true ->
    0 <= bitpos -> bitpos + Z.of_nat n <= 128 ->
    length addr = 16%nat -> is_bytes addr ->
    (forall pos, bitpos <= pos < 128 -> addr_bit addr pos = 0) ->
    bdata (bnode_at k node q bitpos) <> NULL ->
    exists a,
      In (a, bitpos + Z.of_nat k, bdata (bnode_at k node q bitpos))
         (dfs_bindings node addr bitpos) /\
      (forall pos, bitpos <= pos < bitpos + Z.of_nat k -> addr_bit a pos = addr_bit q pos).
Proof.
  induction node as [|d0 c0 IH0 c1 IH1];
    intros n addr bitpos q k Hwithin Hpos Hdepth Hlen Hbytes Hzero Hdata.
  - rewrite bnode_at_null in Hdata. now cbn in Hdata.
  - destruct k as [|k].
    + cbn in Hdata |- *. exists addr. split; [|intros; lia].
      apply in_or_app. left.
      destruct (Z.eqb_spec d0 NULL) as [|_]; [contradiction|].
      left. f_equal. f_equal. lia.
    + cbn [bnode_at] in Hdata |- *.
      assert (Hne : c0 <> BNull \/ c1 <> BNull).
      { destruct c0, c1; try (left; discriminate); try (right; discriminate).
        cbn in Hdata. destruct (addr_bit q bitpos =? 0);
          rewrite bnode_at_null in Hdata; now cbn in Hdata. }
      destruct (btrie_within_child _ _ _ _ Hwithin Hne) as [n' [-> [Hw0 Hw1]]].
      cbn [bchild] in Hdata |- *.
      destruct (Z.eqb_spec (addr_bit q bitpos) 0) as [Hq|Hq].
      * destruct (IH0 n' addr (bitpos + 1) q k) as [a [Hin Hbits]]; auto; try lia.
        { intros pos Hp. apply Hzero. lia. }
        exists a. split.
        { cbn [dfs_bindings]. apply in_or_app. right. apply in_or_app. left.
          replace (bitpos + Z.of_nat (S k)) with (bitpos + 1 + Z.of_nat k) by lia.
          exact Hin. }
        intros pos Hp. destruct (Z.eq_dec pos bitpos) as [->|Hne'].
        -- apply (dfs_bindings_sound c0 n') in Hin; auto; try lia;
             [|intros pos Hp'; apply Hzero; lia].
           destruct Hin as [k' [_ [_ [_ [_ [Hpre _]]]]]].
           rewrite Hpre by lia. rewrite Hzero by lia. now rewrite Hq.
        -- apply Hbits. lia.
      * assert (Hq1 : addr_bit q bitpos = 1) by (destruct (addr_bit_01 q bitpos); lia).
        destruct (IH1 n' (addr_set_bit addr bitpos) (bitpos + 1) q k) as [a [Hin Hbits]];
          auto; try lia.
        { now rewrite addr_set_bit_length. }
        { now apply is_bytes_set_bit. }
        { intros pos Hp. rewrite addr_bit_set_bit by (try lia; exact Hlen).
          destruct (Z.eqb_spec pos bitpos); [lia|]. apply Hzero. lia. }
        exists a. split.
        { cbn [dfs_bindings]. apply in_or_app. right. apply in_or_app. right.
          replace (bitpos + Z.of_nat (S k)) with (bitpos + 1 + Z.of_nat k) by lia.
          exact Hin. }
        intros pos Hp. destruct (Z.eq_dec pos bitpos) as [->|Hne'].
        -- apply (dfs_bindings_sound c1 n') in Hin; auto; try lia.
           ++ destruct Hin as [k' [_ [_ [_ [_ [Hpre _]]]]]].
              rewrite Hpre by lia.
              rewrite addr_bit_set_bit by (try lia; exact Hlen).
              now rewrite Z.eqb_refl, Hq1.
           ++ now rewrite addr_set_bit_length.
           ++ now apply is_bytes_set_bit.
           ++ intros pos Hp'. rewrite addr_bit_set_bit by (try lia; exact Hlen).
              destruct (Z.eqb_spec pos bitpos); [lia|]. apply Hzero. lia.
        -- apply Hbits. lia.
Qed.

Lemma byte_bits_inj :
  forall b b', 0 <= b < 256 -> 0 <= b' < 256 ->
    (forall j, 0 <= j < 8 -> byte_bit b j = byte_bit b' j) -> b = b'.
Proof.
  assert (H : all_below 256 (fun b => all_below 256 (fun b' =>
                implb (all_below 8 (fun j => byte_bit b j =? byte_bit b' j)) (b =? b')))
              = true) by (vm_compute; reflexivity).
  intros b b' Hb Hb' Hbits.
  apply (all_below_spec 256 _ H b) in Hb. apply (all_below_spec 256 _ Hb b') in Hb'.
  assert (Hall : all_below 8 (fun j => byte_bit b j =? byte_bit b' j) = true).
  { unfold all_below. apply forallb_forall. intros x Hx.
    apply in_map_iff in Hx. destruct Hx as [i [<- Hi]]. apply in_seq in Hi.
    apply Z.eqb_eq. apply Hbits. lia. }
  rewrite Hall in Hb'. now apply Z.eqb_eq in Hb'.
Qed.

(** An address buffer is determined by its bits. *)
Lemma addr_bits_inj (a a' : list Z) :
  length a = 16%nat -> length a' = 16%nat -> is_bytes a -> is_bytes a' ->
  (forall pos, 0 <= pos < 128 -> addr_bit a pos = addr_bit a' pos) -> a = a'.
Proof.
  intros Hl Hl' Hb Hb' Hbits.
  apply (nth_ext a a' 0 0); [congruence|].
  intros i Hi. rewrite Hl in Hi.
  pose proof (is_bytes_byte_at a (Z.of_nat i) Hb) as E.
  pose proof (is_bytes_byte_at a' (Z.of_nat i) Hb') as E'.
  unfold zget in E, E'. rewrite Nat2Z.id in E, E'. rewrite <- E, <- E'.
  apply byte_bits_inj; try apply byte_at_range.
  intros j Hj.
  specialize (Hbits (8 * Z.of_nat i + j) ltac:(lia)).
  rewrite !addr_bit_byte_bit in Hbits by lia.
  replace ((8 * Z.of_nat i + j) / 8) with (Z.of_nat i) in Hbits
    by (apply (Z.div_unique _ 8 _ j); lia).
  replace ((8 * Z.of_nat i + j) mod 8) with j in Hbits
    by (apply (Z.mod_unique _ 8 (Z.of_nat i) j); lia).
  exact Hbits.
Qed.

(** No two calls of the list are for the same prefix. *)
Lemma dfs_bindings_nodup (node : btrie_node_t) :
  forall n addr bitpos,
    btrie_within n node = true ->
    0 <= bitpos -> bitpos + Z.of_nat n <= 128 ->
    length addr = 16%nat -> is_bytes addr ->
    (forall pos, bitpos <= pos < 128 -> addr_bit addr pos = 0) ->
    NoDup (map fst (dfs_bindings node addr bitpos)).
Proof.
  induction node as [|d0 c0 IH0 c1 IH1];
    intros n addr bitpos Hwithin Hpos Hdepth Hlen Hbytes Hzero; [constructor|].
  cbn [dfs_bindings]. rewrite !map_app.
  destruct (btrie_node_eq_null c0 c1) as [[-> ->]|Hne].
  { cbn. destruct (d0 =? NULL); cbn; repeat constructor. intros []. }
  destruct (btrie_within_child _ _ _ _ Hwithin Hne) as [n' [-> [Hw0 Hw1]]].
  assert (Hlen1 : length (addr_set_bit addr bitpos) = 16%nat)
    by now rewrite addr_set_bit_length.
  assert (Hbytes1 : is_bytes (addr_set_bit addr bitpos)) by now apply is_bytes_set_bit.
  assert (Hzero0 : forall pos, bitpos + 1 <= pos < 128 -> addr_bit addr pos = 0)
    by (intros pos Hp; apply Hzero; lia).
  assert (Hzero1 : forall pos, bitpos + 1 <= pos < 128 ->
                               addr_bit (addr_set_bit addr bitpos) pos = 0).
  { intros pos Hp. rewrite addr_bit_set_bit by (try lia; exact Hlen).
    destruct (Z.eqb_spec pos bitpos); [lia|]. apply Hzero. lia. }
  assert (Hsub0 : forall a m, In (a, m) (map fst (dfs_bindings c0 addr (bitpos + 1))) ->
                              bitpos + 1 <= m /\ addr_bit a bitpos = 0).
  { intros a m Hin. apply in_map_iff in Hin. destruct Hin as [[[a' m'] d] [Heq Hin]].
    cbn in Heq. inversion Heq; subst a' m'; clear Heq.
    apply (dfs_bindings_sound c0 n') in Hin; auto; try lia.
    destruct Hin as [k [_ [Hm [_ [_ [Hpre _]]]]]].
    split; [lia|]. rewrite Hpre by lia. apply Hzero. lia. }
  assert (Hsub1 : forall a m,
             In (a, m) (map fst (dfs_bindings c1 (addr_set_bit addr bitpos) (bitpos + 1))) ->
             bitpos + 1 <= m /\ addr_bit a bitpos = 1).
  { intros a m Hin. apply in_map_iff in Hin. destruct Hin as [[[a' m'] d] [Heq Hin]].
    cbn in Heq. inversion Heq; subst a' m'; clear Heq.
    apply (dfs_bindings_sound c1 n') in Hin; auto; try lia.
    destruct Hin as [k [_ [Hm [_ [_ [Hpre _]]]]]].
    split; [lia|]. rewrite Hpre by lia.
    rewrite addr_bit_set_bit by (try lia; exact Hlen). now rewrite Z.eqb_refl. }
  apply NoDup_app.
  - destruct (d0 =? NULL); cbn; repeat constructor. intros [].
  - apply NoDup_app.
    + apply (IH0 n'); auto; lia.
    + apply (IH1 n'); auto; lia.
    + intros [a m] H0 H1. apply Hsub0 in H0. apply Hsub1 in H1. lia.
  - intros [a m] Hhead Hrest.
    destruct (d0 =? NULL); [destruct Hhead|].
    destruct Hhead as [Heq|[]]. cbn in Heq. inversion Heq; subst a m; clear Heq.
    apply in_app_or in Hrest. destruct Hrest as [H|H]; [apply Hsub0 in H|apply Hsub1 in H];
      lia.
Qed.

(** C6, as stated, fails: a visitor that does not return 0 ends the walk
    of the btrie, and the bindings that follow are not visited.  Here
    the table holds two bindings, and the visitor is called once. *)
Lemma walk_stops_at_first_error :
  match lpm_walk_entry (Some (table_after [OpAdd [0] 1 5; OpAdd [128] 1 6]))
          (Some (fun (w : list (list Z * Z * Z)) a m d => (1, w ++ [(a, m, d)]))) [] with
  | Ret (r, w) =>
      r = LPM_ERR_EXOTIC /\ w = [(repeat 0 16, 1, 5)] /\
      btrie_find_data (btrie_root (table_after [OpAdd [0] 1 5; OpAdd [128] 1 6])) [128] 1 =
      Ret 6
  | Abort => False
  end.
Proof. vm_compute. repeat split. Qed.

Lemma is_bytes_zero (n : nat) : is_bytes (repeat 0 n).
Proof. unfold is_bytes. induction n; cbn; constructor; auto. lia. Qed.

Lemma byte_at_zero (n : nat) (i : Z) : byte_at (repeat 0 n) i = 0.
Proof.
  unfold byte_at, zget. now rewrite nth_repeat.
Qed.

Lemma addr_bit_zero (n : nat) (pos : Z) : addr_bit (repeat 0 n) pos = 0.
Proof. unfold addr_bit. now rewrite byte_at_zero. Qed.

(** C6, as the code has it: the walk calls the visitor on the bindings
    of the btrie in depth-first order, each one once, until a call does
    not return 0, which ends the walk of the btrie; then, in any case,
    once on the default entry when there is one.  The result is
    [LPM_ERR_EXOTIC] as soon as a call did not return 0.  The bindings
    are those of the nodes that hold data, no prefix twice, and the
    address of a call has its bits from the mask length on equal to 0. *)
Theorem walk_entry_spec {W : Type} (t : lpm_lkup_table_t) (f : lpm_data_walker_func_t W)
        (w : W) :
  btrie_root t <> BNull ->
  btrie_within 128 (btrie_root t) = true ->
  let calls := dfs_bindings (btrie_root t) (repeat 0 16) 0 in
  let r1 := visit_until f calls w in
  let r2 := visit_until f (default_binding t) (snd r1) in
  lpm_walk_entry (Some t) (Some f) w =
    Ret (if (fst r1 =? 0) && (fst r2 =? 0) then LPM_SUCCESS else LPM_ERR_EXOTIC, snd r2) /\
  NoDup (map fst calls) /\
  (forall a m d,
      In (a, m, d) calls <->
      (0 <= m <= 128 /\ length a = 16%nat /\ is_bytes a /\
       (forall pos, m <= pos < 128 -> addr_bit a pos = 0) /\
       d <> NULL /\ bdata (bnode_at (Z.to_nat m) (btrie_root t) a 0) = d)).
Proof.
  intros Hroot Hwithin calls r1 r2.
  assert (Hzero : forall pos, 0 <= pos < 128 -> addr_bit (repeat 0 16) pos = 0)
    by (intros; apply addr_bit_zero).
  split; [|split].
  - unfold lpm_walk_entry, btrie_dfs_walk.
    destruct (btrie_root t) as [|rd rc0 rc1] eqn:Hr; [congruence|].
    change (Z.to_nat LPM_LEVEL_MAX) with 16%nat.
    rewrite (dfs_walk_spec f (BNode rd rc0 rc1) 128 (repeat 0 16) 0 w);
      auto using is_bytes_zero; try lia.
    cbn [bind]. fold calls. fold r1.
    subst r2. unfold default_binding.
    destruct (default_data t =? NULL); cbn [negb visit_until].
    + cbn [fst snd Z.eqb]. now rewrite andb_true_r.
    + destruct (f (snd r1) (default_addr t) (default_masklen t) (default_data t))
        as [rc w2].
      destruct (Z.eqb_spec rc 0) as [->|Hrc]; cbn [negb fst snd].
      * cbn [Z.eqb]. now rewrite andb_true_r.
      * apply Z.eqb_neq in Hrc. rewrite Hrc. now rewrite andb_false_r.
  - apply (dfs_bindings_nodup _ 128); auto using is_bytes_zero; lia.
  - intros a m d. split.
    + intros Hin.
      apply (dfs_bindings_sound _ 128) in Hin; auto using is_bytes_zero; try lia.
      destruct Hin as [k [Hk [Hm [Hla [Hba [_ [Hz [Hd Hnode]]]]]]]].
      subst m. cbn [Z.add]. rewrite Nat2Z.id. repeat split; auto; lia.
    + intros [Hm [Hla [Hba [Hz [Hd Hnode]]]]].
      assert (Hdata : bdata (bnode_at (Z.to_nat m) (btrie_root t) a 0) <> NULL)
        by congruence.
      destruct (dfs_bindings_complete (btrie_root t) 128 (repeat 0 16) 0 a (Z.to_nat m))
        as [a' [Hin Hbits]]; auto using is_bytes_zero; try lia.
      rewrite Hnode in Hin. cbn [Z.add] in Hin, Hbits. rewrite Z2Nat.id in Hin, Hbits by lia.
      replace a with a'; [exact Hin|].
      pose proof Hin as Hs.
      apply (dfs_bindings_sound _ 128) in Hs; auto using is_bytes_zero; try lia.
      destruct Hs as [k [_ [_ [Hla' [Hba' [_ [Hz' _]]]]]]].
      apply addr_bits_inj; auto.
      intros pos Hp. destruct (Z.lt_ge_cases pos m) as [Hlt|Hge].
      * apply Hbits. lia.
      * rewrite Hz, Hz' by lia. reflexivity.
Qed.

Lemma walk_entry_spec_witness :
  lpm_walk_entry (Some (table_after [OpAdd [10] 8 1; OpAdd [10; 1] 16 2]))
                 (Some (fun (w : list (list Z * Z * Z)) a m d => (0, w ++ [(a, m, d)])))
                 [] =
  Ret (LPM_SUCCESS,
       [(10 :: repeat 0 15, 8, 1); (10 :: 1 :: repeat 0 14, 16, 2)]).
Proof.
  assert (Hroot : btrie_root (table_after [OpAdd [10] 8 1; OpAdd [10; 1] 16 2]) <> BNull)
    by (vm_compute; discriminate).
  assert (Hdepth : btrie_within 128
                     (btrie_root (table_after [OpAdd [10] 8 1; OpAdd [10; 1] 16 2])) = true)
    by (vm_compute; reflexivity).
  pose proof (walk_entry_spec (table_after [OpAdd [10] 8 1; OpAdd [10; 1] 16 2])
                (fun (w : list (list Z * Z * Z)) a m d => (0, w ++ [(a, m, d)])) []
                Hroot Hdepth) as H.
  cbv zeta in H. destruct H as [H _].
  vm_compute in H. vm_compute. exact H.
Defined.

(** * Further properties of the code *)

(** ** The debug switch *)

Lemma debug_test_bit (f k : Z) :
  0 <= k -> negb (Z.land f (Z.shiftl 1 k) =? 0) = Z.testbit f k.
Proof.
  intros Hk. rewrite Z.shiftl_1_l.
  destruct (Z.testbit f k) eqn:Hb.
  - destruct (Z.eqb_spec (Z.land f (2 ^ k)) 0) as [H0|]; [|reflexivity].
    assert (Hc : Z.testbit (Z.land f (2 ^ k)) k = true)
      by (rewrite Z.land_spec, Hb, Z.pow2_bits_true; auto).
    rewrite H0, Z.bits_0 in Hc. discriminate.
  - replace (Z.land f (2 ^ k)) with 0; [reflexivity|].
    symmetry. apply Z.bits_inj'. intros i Hi.
    rewrite Z.land_spec, Z.bits_0, Z.pow2_bits_eqb by lia.
    destruct (Z.eqb_spec k i) as [->|]; [now rewrite Hb|apply andb_false_r].
Qed.

Lemma debug_mask_bit (k : Z) : 0 <= k < 64 -> Z.testbit LPM_DEBUG_MASK k = true.
Proof.
  intros Hk. change LPM_DEBUG_MASK with (Z.ones 64). apply Z.ones_spec_low. lia.
Qed.

Lemma debug_tests_bits (t : lpm_lkup_table_t) :
  debug_tests t =
  (Z.testbit (debug_flag t) 0, Z.testbit (debug_flag t) 1, Z.testbit (debug_flag t) 2,
   Z.testbit (debug_flag t) 3).
Proof.
  unfold debug_tests, LPM_DEBUGGING_NORM, LPM_DEBUGGING_MEM, LPM_DEBUGGING_ALG,
    LPM_LOGGING_ON, LPM_DEBUG_NORM, LPM_DEBUG_MEM, LPM_DEBUG_ALG, LPM_LOGGING.
  now rewrite !debug_test_bit by lia.
Qed.

(** [lpm_debug_support] switches the test of its option on or off and
    leaves the three other tests as they were; [DEBUG_ALL] switches the
    four of them.  An option outside the enumeration, or a value of [on]
    other than 0 and 1, is refused and nothing changes.  Only the debug
    flag of the table is written. *)
Theorem debug_support_switches (t : lpm_lkup_table_t) :
  (let '(n, m, a, l) := debug_tests t in
     debug_tests_after t DEBUG_NORMAL 1 = Some (true, m, a, l) /\
     debug_tests_after t DEBUG_NORMAL 0 = Some (false, m, a, l) /\
     debug_tests_after t DEBUG_MEMORY 1 = Some (n, true, a, l) /\
     debug_tests_after t DEBUG_MEMORY 0 = Some (n, false, a, l) /\
     debug_tests_after t DEBUG_ALGORITHM 1 = Some (n, m, true, l) /\
     debug_tests_after t DEBUG_ALGORITHM 0 = Some (n, m, false, l) /\
     debug_tests_after t LOGGING 1 = Some (n, m, a, true) /\
     debug_tests_after t LOGGING 0 = Some (n, m, a, false) /\
     debug_tests_after t DEBUG_ALL 1 = Some (true, true, true, true) /\
     debug_tests_after t DEBUG_ALL 0 = Some (false, false, false, false)) /\
  (forall v on, lpm_debug_support (Some t) (DEBUG_UNKNOWN v) on = (LPM_ERR_INVALID, Some t)) /\
  (forall debug on, on <> 0 -> on <> 1 ->
     lpm_debug_support (Some t) debug on = (LPM_ERR_INVALID, Some t)) /\
  (forall debug on r t', lpm_debug_support (Some t) debug on = (r, Some t') ->
     t' = set_debug_flag t (debug_flag t')) /\
  (forall debug on, lpm_debug_support None debug on = (LPM_ERR_INVALID, None)).
Proof.
  split; [|split; [|split; [|split]]].
  - destruct (debug_tests t) as [[[n m] a] l] eqn:Ht. rewrite debug_tests_bits in Ht.
    unfold debug_tests_after. cbn [lpm_debug_support Z.eqb Pos.eqb].
    rewrite !debug_tests_bits. cbn [debug_flag set_debug_flag].
    unfold LPM_DEBUG_NORM, LPM_DEBUG_MEM, LPM_DEBUG_ALG, LPM_LOGGING.
    rewrite !Z.lor_spec, !Z.land_spec, !Z.lxor_spec, !debug_mask_bit by lia.
    rewrite !Z.shiftl_1_l, !Z.pow2_bits_eqb by lia.
    revert Ht.
    generalize (Z.testbit (debug_flag t) 0), (Z.testbit (debug_flag t) 1),
      (Z.testbit (debug_flag t) 2), (Z.testbit (debug_flag t) 3).
    intros b0 b1 b2 b3 Ht. inversion Ht; subst; clear Ht.
    cbn. rewrite !orb_false_r, !andb_true_r, !andb_false_r, ?orb_true_r.
    repeat split; reflexivity.
  - intros v on. unfold lpm_debug_support.
    destruct (on =? 1); [reflexivity|]. now destruct (on =? 0).
  - intros debug on H0 H1. unfold lpm_debug_support.
    destruct (Z.eqb_spec on 1); [contradiction|].
    destruct (Z.eqb_spec on 0); [contradiction|reflexivity].
  - intros debug on r t' H. unfold lpm_debug_support in H.
    destruct t as [nm root base dd da dm dbg st].
    destruct (on =? 1); [|destruct (on =? 0)]; try destruct debug;
      inversion H; subst; reflexivity.
  - reflexivity.
Qed.

(** ** The bit helpers of lpm_internal.h *)

Lemma byte_bit_clear_bit :
  forall b j j', 0 <= b < 256 -> 0 <= j < 8 -> 0 <= j' < 8 ->
    byte_bit (Z.land b (u8 (Z.lxor 255 (Z.shiftl 1 (7 - j))))) j' =
    if j' =? j then 0 else byte_bit b j'.
Proof.
  assert (H : all_below 256 (fun b => all_below 8 (fun j => all_below 8 (fun j' =>
                byte_bit (Z.land b (u8 (Z.lxor 255 (Z.shiftl 1 (7 - j))))) j' =?
                (if j' =? j then 0 else byte_bit b j')))) = true)
    by (vm_compute; reflexivity).
  intros b j j' Hb Hj Hj'.
  apply (all_below_spec 256 _ H b) in Hb. apply (all_below_spec 8 _ Hb j) in Hj.
  apply (all_below_spec 8 _ Hj j') in Hj'. now apply Z.eqb_eq in Hj'.
Qed.

Lemma bit_index_split (pos pos' : Z) :
  0 <= pos -> 0 <= pos' -> pos' / 8 = pos / 8 -> pos' mod 8 = pos mod 8 -> pos' = pos.
Proof.
  intros Hp Hp' Hd Hm.
  rewrite (Z.div_mod pos' 8), (Z.div_mod pos 8) by lia. lia.
Qed.

Lemma addr_bit_clear_bit (addr a : list Z) (pos pos' : Z) :
  0 <= pos < 128 -> 0 <= pos' -> length addr = 16%nat ->
  CLEAR_BIT_AT_POSITION addr pos = Ret a ->
  addr_bit a pos' = if pos' =? pos then 0 else addr_bit addr pos'.
Proof.
  intros Hpos Hpos' Hlen Hrun.
  destruct (CLEAR_BIT_AT_POSITION_spec addr a pos ltac:(lia) Hlen Hrun)
    as [_ [Hla [Hoth Hbyte]]].
  rewrite !addr_bit_byte_bit by lia.
  pose proof (Z.mod_pos_bound pos 8 ltac:(lia)) as Hm.
  pose proof (Z.mod_pos_bound pos' 8 ltac:(lia)) as Hm'.
  destruct (Z.eq_dec (pos' / 8) (pos / 8)) as [He|Hne].
  - rewrite He, Hbyte.
    rewrite byte_bit_clear_bit by (auto using byte_at_range).
    destruct (Z.eqb_spec (pos' mod 8) (pos mod 8)) as [Hmm|Hmm];
      destruct (Z.eqb_spec pos' pos) as [Hpp|Hpp]; try reflexivity.
    + exfalso. apply Hpp. apply bit_index_split; lia.
    + subst pos'. congruence.
  - rewrite Hoth by (try apply Z.div_pos; lia).
    destruct (Z.eqb_spec pos' pos) as [Hpp|_]; [subst; congruence|reflexivity].
Qed.

(** Setting or clearing the bit at [pos] and reading the bit at [pos']
    back: the bit written is read as 1 after a set and as 0 after a
    clear, every other bit is read as before, and the buffer keeps its
    16 bytes. *)
Theorem bit_write_then_read (addr : list Z) (pos pos' : Z) :
  0 <= pos < 128 -> 0 <= pos' < 128 -> length addr = 16%nat ->
  (exists a, SET_BIT_AT_POSITION addr pos = Ret a /\ length a = 16%nat /\
             bit_at_position a pos' =
             if pos' =? pos then Ret 1 else bit_at_position addr pos') /\
  (exists a, CLEAR_BIT_AT_POSITION addr pos = Ret a /\ length a = 16%nat /\
             bit_at_position a pos' =
             if pos' =? pos then Ret 0 else bit_at_position addr pos').
Proof.
  intros Hpos Hpos' Hlen.
  assert (Hread : forall x, bit_at_position x pos' = Ret (addr_bit x pos')).
  { intros x. unfold bit_at_position.
    destruct (Z.ltb_spec pos' LPM_MASKLEN_MAX) as [_|H]; [reflexivity|].
    change LPM_MASKLEN_MAX with 128 in H. lia. }
  split.
  - exists (addr_set_bit addr pos).
    split; [apply SET_BIT_AT_POSITION_ret; lia|].
    split; [now rewrite addr_set_bit_length|].
    rewrite !Hread, addr_bit_set_bit by (try lia; exact Hlen).
    now destruct (pos' =? pos).
  - destruct (CLEAR_BIT_AT_POSITION addr pos) as [a|] eqn:Hc.
    + exists a. split; [reflexivity|].
      destruct (CLEAR_BIT_AT_POSITION_spec addr a pos ltac:(lia) Hlen Hc) as [_ [Hla _]].
      split; [exact Hla|].
      rewrite !Hread, (addr_bit_clear_bit addr a pos pos') by (try lia; auto).
      now destruct (pos' =? pos).
    + unfold CLEAR_BIT_AT_POSITION in Hc.
      destruct (Z.ltb_spec pos LPM_MASKLEN_MAX) as [_|H]; [discriminate|].
      change LPM_MASKLEN_MAX with 128 in H. lia.
Qed.

Lemma bit_write_then_read_witness :
  (exists a, SET_BIT_AT_POSITION (repeat 0 16) 9 = Ret a /\ length a = 16%nat /\
             bit_at_position a 9 = Ret 1) /\
  (exists a, CLEAR_BIT_AT_POSITION (repeat 0 16) 9 = Ret a /\ length a = 16%nat /\
             bit_at_position a 9 = Ret 0).
Proof.
  apply (bit_write_then_read (repeat 0 16) 9 9); [lia|lia|reflexivity].
Defined.

(** ** Argument checks of the public functions *)

(** The public functions refuse their arguments before they read or
    write the table: a null table, a mask length above 128, a null
    address with a mask length above 0, and, for add and update, null
    data.  The answer is [LPM_ERR_INVALID] (null for [lpm_find_entry]),
    the table is left as it was and no memory is requested. *)
Theorem invalid_arguments_rejected (t : lpm_lkup_table_t) (mem : list bool)
        (addr : option (list Z)) (masklen data : Z) :
  (LPM_MASKLEN_MAX < masklen \/ (addr = None /\ 0 < masklen) ->
   lpm_add_entry (Some t) mem addr masklen data = Ret (LPM_ERR_INVALID, Some t, mem) /\
   lpm_update_entry (Some t) mem addr masklen data = Ret (LPM_ERR_INVALID, Some t, mem) /\
   lpm_del_entry (Some t) mem addr masklen = Ret (LPM_ERR_INVALID, Some t, mem) /\
   lpm_update_default_data (Some t) addr masklen = Ret (LPM_ERR_INVALID, Some t) /\
   lpm_find_entry (Some t) addr masklen = Ret NULL) /\
  (lpm_add_entry (Some t) mem addr masklen NULL = Ret (LPM_ERR_INVALID, Some t, mem) /\
   lpm_update_entry (Some t) mem addr masklen NULL = Ret (LPM_ERR_INVALID, Some t, mem)) /\
  (lpm_add_entry None mem addr masklen data = Ret (LPM_ERR_INVALID, None, mem) /\
   lpm_update_entry None mem addr masklen data = Ret (LPM_ERR_INVALID, None, mem) /\
   lpm_del_entry None mem addr masklen = Ret (LPM_ERR_INVALID, None, mem) /\
   lpm_update_default_data None addr masklen = Ret (LPM_ERR_INVALID, None) /\
   lpm_find_entry None addr masklen = Ret NULL /\
   lpm_del_default_data None = (LPM_ERR_INVALID, None) /\
   lpm_destroy_table None = Ret (LPM_ERR_INVALID, None)).
Proof.
  split; [|split].
  - intros Hbad.
    assert (Harg : lpm_check_arg (Some t) addr masklen = LPM_ERR_INVALID).
    { unfold lpm_check_arg. destruct Hbad as [Hm|[-> Hm]].
      - destruct (Z.ltb_spec LPM_MASKLEN_MAX masklen); [reflexivity|lia].
      - destruct (LPM_MASKLEN_MAX <? masklen); [reflexivity|].
        destruct (Z.ltb_spec 0 masklen); [reflexivity|lia]. }
    unfold lpm_add_entry, lpm_update_entry, lpm_del_entry, lpm_update_default_data,
      lpm_find_entry.
    rewrite Harg. cbn [negb lpm_result_eqb]. repeat split.
  - unfold lpm_add_entry, lpm_update_entry.
    destruct (check_arg_codes (Some t) addr masklen) as [-> | ->];
      cbn [negb lpm_result_eqb Z.eqb NULL]; split; reflexivity.
  - repeat split.
Qed.

Lemma invalid_arguments_rejected_witness :
  lpm_add_entry (Some (created None)) [] (Some [10; 0; 0; 0]) 129 7 =
    Ret (LPM_ERR_INVALID, Some (created None), []) /\
  lpm_del_entry (Some (created None)) [] None 8 =
    Ret (LPM_ERR_INVALID, Some (created None), []).
Proof.
  split.
  - apply (proj1 (invalid_arguments_rejected (created None) [] (Some [10; 0; 0; 0]) 129 7)).
    left. reflexivity.
  - apply (proj1 (invalid_arguments_rejected (created None) [] None 8 0)).
    right. split; reflexivity.
Defined.

(** ** Creation *)

Lemma strncpy_length (n : nat) (s : string) :
  String.length (strncpy n s) = Nat.min n (String.length s).
Proof.
  revert s. induction n as [|n IH]; intros [|c s]; cbn; auto.
Qed.

(** [lpm_create_table] makes three requests to the allocator, for the
    control block, the btrie root and the first mtrie block, and stops at
    the first that fails, answering null.  When the three succeed the
    table holds a root without data or children, one block of 256 empty
    entries, no default entry, the counters of one node and one block,
    and a name of at most 31 characters. *)
Theorem create_table_result (nm : option string) (mem : list bool) :
  lpm_create_table nm mem =
    Ret (if nth 0 mem true && nth 1 mem true && nth 2 mem true
         then Some (fresh_table nm) else None,
         skipn (if nth 0 mem true then if nth 1 mem true then 3 else 2 else 1) mem) /\
  (String.length (name (fresh_table nm)) <= 31)%nat.
Proof.
  split.
  - destruct mem as [|[|] [|[|] [|[|] rest]]]; destruct nm; reflexivity.
  - destruct nm as [s|]; cbn [name fresh_table].
    + rewrite strncpy_length. apply Nat.le_min_l.
    + cbn. lia.
Qed.

(** A table as [lpm_create_table] returns it binds nothing: an exact
    find and a search answer null (the search with the default flag
    set), update, delete and the default operations answer NOTFOUND and
    leave the table as it is, and a walk calls the visitor not once. *)
Theorem fresh_table_is_empty (nm : option string) (mem : list bool) (a : list Z)
        (masklen data u : Z) :
  lpm_find_entry (Some (fresh_table nm)) (Some a) masklen = Ret NULL /\
  lpm_search_table (Some (fresh_table nm)) (Some a) (Some u) = (NULL, Some 1) /\
  (data <> NULL -> masklen <= LPM_MASKLEN_MAX ->
   lpm_update_entry (Some (fresh_table nm)) mem (Some a) masklen data =
     Ret (LPM_ERR_NOTFOUND, Some (fresh_table nm), mem)) /\
  (masklen <= LPM_MASKLEN_MAX ->
   lpm_del_entry (Some (fresh_table nm)) mem (Some a) masklen =
     Ret (LPM_ERR_NOTFOUND, Some (fresh_table nm), mem)) /\
  (masklen <= LPM_MASKLEN_MAX ->
   lpm_update_default_data (Some (fresh_table nm)) (Some a) masklen =
     Ret (LPM_ERR_NOTFOUND, Some (fresh_table nm))) /\
  lpm_del_default_data (Some (fresh_table nm)) = (LPM_ERR_NOTFOUND, Some (fresh_table nm)) /\
  (forall (W : Type) (f : lpm_data_walker_func_t W) (w : W),
      lpm_walk_entry (Some (fresh_table nm)) (Some f) w = Ret (LPM_SUCCESS, w)).
Proof.
  assert (Hfind : forall n pos,
             node <- btrie_find_node_loop n (BNode NULL BNull BNull) a pos ;;
             Ret (bdata node) = Ret NULL \/ (n <> O /\ 128 <= pos)).
  { intros [|n] pos; [left; reflexivity|].
    destruct (Z.lt_ge_cases pos 128) as [Hlt|Hge]; [left|right; split; [discriminate|lia]].
    cbn [btrie_find_node_loop]. unfold bit_at_position.
    destruct (Z.ltb_spec pos LPM_MASKLEN_MAX) as [_|H];
      [|change LPM_MASKLEN_MAX with 128 in H; lia].
    cbn [bind bchild]. destruct (addr_bit a pos =? 0); destruct n; reflexivity. }
  assert (Hcheck : masklen <= LPM_MASKLEN_MAX ->
                   lpm_check_arg (Some (fresh_table nm)) (Some a) masklen = LPM_SUCCESS).
  { intros Hm. unfold lpm_check_arg.
    destruct (Z.ltb_spec LPM_MASKLEN_MAX masklen); [lia|reflexivity]. }
  assert (Hnode : forall n,
             btrie_find_node_loop n (BNode NULL BNull BNull) a 0 = Ret BNull \/
             btrie_find_node_loop n (BNode NULL BNull BNull) a 0 =
               Ret (BNode NULL BNull BNull)).
  { intros [|n]; [right; reflexivity|left].
    cbn [btrie_find_node_loop]. unfold bit_at_position.
    change (0 <? LPM_MASKLEN_MAX) with true. cbn [bind bchild].
    destruct (addr_bit a 0 =? 0); destruct n; reflexivity. }
  split; [|split; [|split; [|split; [|split; [|split]]]]].
  - unfold lpm_find_entry.
    destruct (lpm_result_eqb (lpm_check_arg (Some (fresh_table nm)) (Some a) masklen)
                             LPM_SUCCESS); [|reflexivity].
    cbn [negb fresh_table btrie_root]. unfold btrie_find_data, btrie_find_node.
    destruct (Hfind (Z.to_nat masklen) 0) as [H|[_ H]]; [exact H|lia].
  - unfold lpm_search_table. cbn [fresh_table hi256_table_base default_data].
    rewrite lpm_search_loop_no_data; [reflexivity|].
    unfold zero_block.
    destruct (Nat.lt_ge_cases (Z.to_nat (byte_at a 0)) (length (repeat mnode_zero 256)))
      as [Hlt|Hge].
    + rewrite search_path_block by exact Hlt. cbv zeta.
      unfold entry_at. rewrite nth_repeat. cbn. repeat constructor.
    + rewrite search_path_short by exact Hge. constructor.
  - intros Hd Hm. unfold lpm_update_entry. rewrite (Hcheck Hm).
    cbn [negb lpm_result_eqb].
    destruct (Z.eqb_spec data NULL); [contradiction|].
    cbn [fresh_table btrie_root hi256_table_base bis_null mis_null orb addr_of].
    unfold btrie_find_node.
    destruct (Hnode (Z.to_nat masklen)) as [-> | ->]; reflexivity.
  - intros Hm. unfold lpm_del_entry. rewrite (Hcheck Hm).
    cbn [negb lpm_result_eqb fresh_table btrie_root hi256_table_base bis_null mis_null orb
         addr_of].
    destruct (Z.eqb_spec masklen 0) as [->|Hm0]; [reflexivity|].
    unfold __lpm_del_entry. cbn [btrie_root].
    destruct (Z.to_nat masklen) as [|n]; [reflexivity|].
    cbn [del_entry_walk]. unfold bit_at_position.
    change (0 <? LPM_MASKLEN_MAX) with true. cbn [bind bchild btrie_root fresh_table].
    match goal with
    | |- context [addr_bit ?x 0 =? 0] => destruct (addr_bit x 0 =? 0)
    end; reflexivity.
  - intros Hm. unfold lpm_update_default_data. rewrite (Hcheck Hm).
    cbn [negb lpm_result_eqb fresh_table btrie_root addr_of].
    unfold btrie_find_data, btrie_find_node.
    destruct (Hfind (Z.to_nat masklen) 0) as [H|[_ H]]; [|lia]. destruct (btrie_find_node_loop _ _ _ _) as [node|]; [|discriminate].
    cbn [bind] in H |- *. inversion H as [Hd]. now rewrite Hd.
  - reflexivity.
  - intros W f w. reflexivity.
Qed.

Lemma fresh_table_is_empty_witness :
  lpm_update_entry (Some (fresh_table None)) [] (Some [10; 0; 0; 0]) 8 5 =
    Ret (LPM_ERR_NOTFOUND, Some (fresh_table None), []) /\
  lpm_del_entry (Some (fresh_table None)) [] (Some [10; 0; 0; 0]) 8 =
    Ret (LPM_ERR_NOTFOUND, Some (fresh_table None), []) /\
  lpm_update_default_data (Some (fresh_table None)) (Some [10; 0; 0; 0]) 8 =
    Ret (LPM_ERR_NOTFOUND, Some (fresh_table None)).
Proof.
  pose proof (fresh_table_is_empty None [] [10; 0; 0; 0] 8 5 0) as [_ [_ [Hu [Hd [Hdef _]]]]].
  split; [|split].
  - apply Hu; [discriminate|unfold LPM_MASKLEN_MAX, LPM_LEVEL_MAX, LPM_STRIDE; lia].
  - apply Hd. unfold LPM_MASKLEN_MAX, LPM_LEVEL_MAX, LPM_STRIDE. lia.
  - apply Hdef. unfold LPM_MASKLEN_MAX, LPM_LEVEL_MAX, LPM_STRIDE. lia.
Defined.

(** ** The mtrie writers and the rest of the table *)

Lemma table_frame_refl (t : lpm_lkup_table_t) : table_frame t t.
Proof. repeat split. Qed.

Lemma table_frame_trans (t1 t2 t3 : lpm_lkup_table_t) :
  table_frame t1 t2 -> table_frame t2 t3 -> table_frame t1 t3.
Proof.
  unfold table_frame. intros [A1 [A2 [A3 [A4 [A5 A6]]]]] [B1 [B2 [B3 [B4 [B5 B6]]]]].
  repeat split; congruence.
Qed.

Lemma table_frame_set_stat (t : lpm_lkup_table_t) (s : lpm_lkup_table_stat) :
  table_frame t (set_stat t s).
Proof. repeat split. Qed.

Lemma table_frame_set_hi256 (t : lpm_lkup_table_t) (b : mtrie_block_t) :
  table_frame t (set_hi256_table_base t b).
Proof. repeat split. Qed.

Lemma mtrie_alloc_block_frame (t : lpm_lkup_table_t) (mem : list bool) :
  table_frame t (snd (fst (mtrie_alloc_block t mem))).
Proof.
  unfold mtrie_alloc_block, mtrie_mem_alloc.
  destruct (malloc mem) as [[|] mem']; cbn; apply table_frame_set_stat.
Qed.

Lemma mtrie_free_block_frame (t : lpm_lkup_table_t) (b : mtrie_block_t)
      (t' : lpm_lkup_table_t) :
  mtrie_free_block t b = Ret t' -> table_frame t t'.
Proof.
  unfold mtrie_free_block. intros H.
  apply bind_ret in H. destruct H as [st [_ H]]. inversion H; subst.
  apply table_frame_set_stat.
Qed.

Lemma trie_chain_release_frame (chain : list chain_link) :
  forall t t', trie_chain_release t chain = Ret t' -> table_frame t t'.
Proof.
  induction chain as [|l tl IH]; intros t t' H; cbn in H.
  - inversion H. apply table_frame_refl.
  - apply bind_ret in H. destruct H as [t1 [H1 H]].
    apply (table_frame_trans t t1 t'); [|now apply IH].
    destruct (cl_alloc l).
    + now apply mtrie_free_block_frame in H1.
    + inversion H1. apply table_frame_refl.
Qed.

Lemma trie_chain_build_frame (n : nat) :
  forall t mem frontier addr level chain r t' mem',
    trie_chain_build n t mem frontier addr level chain = Ret (r, t', mem') ->
    table_frame t t'.
Proof.
  induction n as [|n IH]; intros t mem frontier addr level chain r t' mem' H;
    cbn [trie_chain_build] in H.
  - inversion H. apply table_frame_refl.
  - destruct frontier as [|es].
    + pose proof (mtrie_alloc_block_frame t mem) as Hf.
      destruct (mtrie_alloc_block t mem) as [[nw t1] mem1]. cbn [fst snd] in Hf.
      apply (table_frame_trans t t1 t'); [exact Hf|].
      destruct nw as [|es].
      * apply bind_ret in H. destruct H as [t2 [H2 H]]. inversion H; subst.
        now apply trie_chain_release_frame in H2.
      * now apply IH in H.
    + now apply IH in H.
Qed.

Lemma lpm_gen_combinations_frame (t : lpm_lkup_table_t) (mem : list bool) (addr : list Z)
      (temp_bitpos data nextbit : Z) (r : lpm_result_t) (t' : lpm_lkup_table_t)
      (mem' : list bool) :
  lpm_gen_combinations t mem addr temp_bitpos data nextbit = Ret (r, t', mem') ->
  table_frame t t'.
Proof.
  unfold lpm_gen_combinations. intros H.
  destruct (negb (temp_bitpos <? LPM_MASKLEN_MAX)); [discriminate|].
  destruct (negb ((nextbit =? -1) || (nextbit =? 0) || (nextbit =? 1))); [discriminate|].
  destruct (hi256_table_base t) as [|base]; [discriminate|].
  destruct (temp_bitpos <? 8).
  - apply bind_ret in H. destruct H as [[idx bitpos] [_ H]]. inversion H; subst.
    apply table_frame_set_hi256.
  - apply bind_ret in H. destruct H as [[[chain t1] mem1] [Hb H]].
    apply trie_chain_build_frame in Hb.
    destruct chain as [chain|].
    + destruct (rev chain) as [|last uppers]; [discriminate|].
      apply bind_ret in H. destruct H as [[idx bitpos] [_ H]]. inversion H; subst.
      apply (table_frame_trans t t1); [exact Hb|apply table_frame_set_hi256].
    + inversion H; subst. exact Hb.
Qed.

Lemma expansion_frame (node : btrie_node_t) :
  forall t mem addr masklen tb data r t' mem' addr',
    __lpm_prefix_expansion t mem addr masklen tb node data = Ret (r, t', mem', addr') ->
    table_frame t t'.
Proof.
  induction node as [|d c0 IH0 c1 IH1];
    intros t mem addr masklen tb data r t' mem' addr' H;
    rewrite expansion_unfold in H; cbv zeta in H.
  - destruct (BOUNDARY_BIT_POSITION tb); [|discriminate].
    apply bind_ret in H. destruct H as [[[r1 t1] m1] [Hg H]]. inversion H; subst.
    now apply lpm_gen_combinations_frame in Hg.
  - assert (Hdirect : forall x,
               ' (r, t, m) <- lpm_gen_combinations t mem addr tb data x ;;
               Ret (r, t, m, addr) = Ret (r, t', mem', addr') -> table_frame t t').
    { intros x Hx. apply bind_ret in Hx. destruct Hx as [[[r1 t1] m1] [Hg Hx]].
      inversion Hx; subst. now apply lpm_gen_combinations_frame in Hg. }
    destruct (BOUNDARY_BIT_POSITION tb); [now apply (Hdirect (-1))|].
    assert (Hsteps :
      forall t1 mem1 addr1 ret,
        match c0 with
        | BNode d0 _ _ =>
            if d0 =? NULL then
              a <- CLEAR_BIT_AT_POSITION addr (tb + 1) ;;
              __lpm_prefix_expansion t mem a masklen (tb + 1) c0 data
            else Ret (LPM_SUCCESS, t, mem, addr)
        | BNull =>
            ' (r, t, m) <- lpm_gen_combinations t mem addr tb data 0 ;; Ret (r, t, m, addr)
        end = Ret (ret, t1, mem1, addr1) -> table_frame t t1).
    { intros t1 mem1 addr1 ret Hs. destruct c0 as [|d0 c00 c01].
      - apply bind_ret in Hs. destruct Hs as [[[r1 t2] m1] [Hg Hs]].
        inversion Hs; subst. now apply lpm_gen_combinations_frame in Hg.
      - destruct (d0 =? NULL).
        + apply bind_ret in Hs. destruct Hs as [a [_ Hs]]. now apply IH0 in Hs.
        + inversion Hs. apply table_frame_refl. }
    assert (Hsteps1 :
      forall t1 mem1 addr1 t2 mem2 addr2 ret,
        match c1 with
        | BNode d1 _ _ =>
            if d1 =? NULL then
              a <- SET_BIT_AT_POSITION addr1 (tb + 1) ;;
              __lpm_prefix_expansion t1 mem1 a masklen (tb + 1) c1 data
            else Ret (LPM_SUCCESS, t1, mem1, addr1)
        | BNull =>
            ' (r, t, m) <- lpm_gen_combinations t1 mem1 addr1 tb data 1 ;;
            Ret (r, t, m, addr1)
        end = Ret (ret, t2, mem2, addr2) -> table_frame t1 t2).
    { intros t1 mem1 addr1 t2 mem2 addr2 ret Hs. destruct c1 as [|d1 c10 c11].
      - apply bind_ret in Hs. destruct Hs as [[[r1 t3] m1] [Hg Hs]].
        inversion Hs; subst. now apply lpm_gen_combinations_frame in Hg.
      - destruct (d1 =? NULL).
        + apply bind_ret in Hs. destruct Hs as [a [_ Hs]]. now apply IH1 in Hs.
        + inversion Hs. apply table_frame_refl. }
    destruct c0 as [|d0 c00 c01]; destruct c1 as [|d1 c10 c11];
      try (now apply (Hdirect (-1)));
      (apply bind_ret in H; destruct H as [[[[ret t1] mem1] addr1] [H0 H]];
       apply Hsteps in H0;
       destruct (negb (lpm_result_eqb ret LPM_SUCCESS));
       [inversion H; subst; exact H0|];
       apply bind_ret in H; destruct H as [[[[ret' t2] mem2] addr2] [H1 H]];
       apply Hsteps1 in H1;
       apply (table_frame_trans t t1 t'); [exact H0|];
       destruct (negb (lpm_result_eqb ret' LPM_SUCCESS)); inversion H; subst; exact H1).
Qed.

(** ** Exact find after add and update *)

Lemma bchild_eqb (node : btrie_node_t) (b b' : Z) :
  (b =? 0) = (b' =? 0) -> bchild node b = bchild node b'.
Proof. intros H. destruct node; cbn; [reflexivity|]. now rewrite H. Qed.

Lemma bchild_bset_child_other (node c : btrie_node_t) (bit bit' : Z) :
  (bit =? 0) <> (bit' =? 0) -> bchild (bset_child node bit c) bit' = bchild node bit'.
Proof.
  intros H. destruct node as [|d c0 c1]; cbn; [reflexivity|].
  destruct (bit =? 0) eqn:E1, (bit' =? 0) eqn:E2; cbn; rewrite ?E2; congruence.
Qed.

Lemma addr_bit_eqb (a q : list Z) (pos : Z) :
  (addr_bit q pos =? 0) = (addr_bit a pos =? 0) -> addr_bit q pos = addr_bit a pos.
Proof.
  intros H. destruct (addr_bit_01 q pos) as [Hq|Hq], (addr_bit_01 a pos) as [Ha|Ha];
    rewrite Hq, Ha in H |- *; try reflexivity; discriminate H.
Qed.

Lemma bdata_bset_child (node c : btrie_node_t) (bit : Z) :
  bdata (bset_child node bit c) = bdata node.
Proof. destruct node; cbn; [reflexivity|]. now destruct (bit =? 0). Qed.

Lemma bchild_bset_data (node : btrie_node_t) (v bit : Z) :
  bchild (bset_data node v) bit = bchild node bit.
Proof. now destruct node. Qed.

Lemma btrie_find_node_loop_ret (n : nat) :
  forall node a pos,
    0 <= pos -> pos + Z.of_nat n <= 128 ->
    btrie_find_node_loop n node a pos = Ret (bnode_at n node a pos).
Proof.
  induction n as [|n IH]; intros node a pos Hpos Hn; [reflexivity|].
  cbn [btrie_find_node_loop]. destruct node as [|d c0 c1].
  - now rewrite bnode_at_null.
  - rewrite bit_at_position_ok by (change LPM_MASKLEN_MAX with 128; lia).
    cbn [bind bnode_at]. apply IH; lia.
Qed.

Lemma find_entry_ret (t : lpm_lkup_table_t) (q : list Z) (qlen : Z) :
  qlen <= 128 ->
  lpm_find_entry (Some t) (Some q) qlen =
  Ret (bdata (bnode_at (Z.to_nat qlen) (btrie_root t) q 0)).
Proof.
  intros Hq. unfold lpm_find_entry, lpm_check_arg.
  destruct (Z.ltb_spec LPM_MASKLEN_MAX qlen) as [H|_];
    [change LPM_MASKLEN_MAX with 128 in H; lia|].
  cbn [negb lpm_result_eqb addr_of].
  destruct (btrie_root t) as [|d c0 c1] eqn:Hr; [now rewrite bnode_at_null|].
  unfold btrie_find_data, btrie_find_node.
  rewrite btrie_find_node_loop_ret by lia. reflexivity.
Qed.

Lemma bdata_bnode_at_materialize (k : nat) (R : btrie_node_t) (q : list Z) (pos : Z) :
  bdata (bnode_at k (materialize R) q pos) = bdata (bnode_at k R q pos).
Proof.
  destruct R as [|d c0 c1]; [|reflexivity].
  destruct k as [|k]; [reflexivity|].
  cbn [materialize bnode_at bchild]. rewrite !bnode_at_null.
  destruct (addr_bit q pos =? 0); now rewrite bnode_at_null.
Qed.

(** The nodes that [btrie_add_node] creates hold no data. *)
Lemma bdata_bnode_at_ensure (n : nat) :
  forall k R a q pos,
    bdata (bnode_at k (bt_ensure n R a pos) q pos) = bdata (bnode_at k R q pos).
Proof.
  induction n as [|n IH]; intros k R a q pos.
  - apply bdata_bnode_at_materialize.
  - cbn [bt_ensure]. rewrite <- (bdata_bnode_at_materialize k R q pos).
    set (R' := materialize R).
    destruct k as [|k]; [apply bdata_bset_child|].
    cbn [bnode_at].
    destruct (Bool.bool_dec (addr_bit a pos =? 0) (addr_bit q pos =? 0)) as [He|Hne].
    + rewrite <- (bchild_eqb (bset_child _ _ _) _ _ He), <- (bchild_eqb R' _ _ He).
      rewrite bchild_bset_child by apply materialize_not_null.
      apply IH.
    + now rewrite bchild_bset_child_other.
Qed.

Lemma bnode_at_modify_same (n : nat) :
  forall R a pos f,
    bnode_at n R a pos <> BNull ->
    bnode_at n (bnode_modify n R a pos f) a pos = f (bnode_at n R a pos).
Proof.
  induction n as [|n IH]; intros R a pos f Hnn; [reflexivity|].
  cbn [bnode_at bnode_modify] in *.
  destruct R as [|d c0 c1]; [now rewrite bnode_at_null in Hnn|].
  rewrite bchild_bset_child by discriminate. now apply IH.
Qed.

(** Storing data in the node of one prefix leaves the data of every
    other prefix as it was. *)
Lemma bdata_bnode_at_modify_other (a q : list Z) (v : Z) (n : nat) :
  forall k R pos,
    (k <> n \/
     exists p, pos <= p < pos + Z.of_nat n /\ addr_bit q p <> addr_bit a p) ->
    bdata (bnode_at k (bnode_modify n R a pos (fun nd => bset_data nd v)) q pos) =
    bdata (bnode_at k R q pos).
Proof.
  induction n as [|n IH]; intros k R pos Hdiff.
  - cbn [bnode_modify]. destruct k as [|k].
    + destruct Hdiff as [H|[p [Hp _]]]; [congruence|lia].
    + cbn [bnode_at]. now rewrite bchild_bset_data.
  - cbn [bnode_modify]. destruct k as [|k]; [apply bdata_bset_child|].
    cbn [bnode_at].
    destruct R as [|d c0 c1]; [reflexivity|].
    destruct (Bool.bool_dec (addr_bit a pos =? 0) (addr_bit q pos =? 0)) as [He|Hne].
    + rewrite <- (bchild_eqb (bset_child _ _ _) _ _ He),
        <- (bchild_eqb (BNode d c0 c1) _ _ He).
      rewrite bchild_bset_child by discriminate.
      apply IH. destruct Hdiff as [H|[p [Hp Hbit]]]; [left; lia|].
      right. exists p. split; [|exact Hbit].
      destruct (Z.eq_dec p pos) as [->|]; [|lia].
      exfalso. apply Hbit. apply addr_bit_eqb. now rewrite He.
    + now rewrite bchild_bset_child_other.
Qed.

Lemma check_arg_success (t : lpm_lkup_table_t) (addr : option (list Z)) (masklen : Z) :
  lpm_check_arg (Some t) addr masklen = LPM_SUCCESS -> masklen <= 128.
Proof.
  unfold lpm_check_arg.
  destruct (Z.ltb_spec LPM_MASKLEN_MAX masklen) as [|H]; [discriminate|].
  intros _. exact H.
Qed.

(** What a successful [lpm_add_entry] does to the btrie: the path of the
    prefix is made to exist and the data is stored in its node, which
    held none. *)
Lemma add_entry_success_btrie (t : lpm_lkup_table_t) (mem : list bool) (a : list Z)
      (masklen data : Z) (t' : option lpm_lkup_table_t) (mem' : list bool) :
  lpm_add_entry (Some t) mem (Some a) masklen data = Ret (LPM_SUCCESS, t', mem') ->
  exists t1,
    t' = Some t1 /\ masklen <= 128 /\ data <> NULL /\ btrie_root t <> BNull /\
    bdata (bnode_at (Z.to_nat masklen) (btrie_root t) a 0) = NULL /\
    btrie_root t1 =
      bnode_modify (Z.to_nat masklen) (bt_ensure (Z.to_nat masklen) (btrie_root t) a 0) a 0
                   (fun nd => bset_data nd data) /\
    bnode_at (Z.to_nat masklen) (bt_ensure (Z.to_nat masklen) (btrie_root t) a 0) a 0
      <> BNull /\
    name t1 = name t /\ default_data t1 = default_data t /\
    default_addr t1 = default_addr t /\ default_masklen t1 = default_masklen t /\
    debug_flag t1 = debug_flag t.
Proof.
  intros Hrun. unfold lpm_add_entry in Hrun.
  destruct (check_arg_codes (Some t) (Some a) masklen) as [Harg|Harg]; rewrite Harg in Hrun;
    cbn [negb lpm_result_eqb] in Hrun; [|discriminate Hrun].
  apply check_arg_success in Harg.
  destruct (Z.eqb_spec data NULL) as [|Hdata]; [discriminate Hrun|].
  destruct (btrie_root t) as [|rd rc0 rc1] eqn:Hroot; [discriminate Hrun|].
  cbn [bis_null orb] in Hrun.
  destruct (mis_null (hi256_table_base t)); [discriminate Hrun|].
  apply bind_ret in Hrun. destruct Hrun as [[[out t1] mem1] [Hadd Hrun]].
  apply btrie_add_node_spec in Hadd; [|rewrite Hroot; discriminate].
  rewrite Hroot in Hadd. set (root := BNode rd rc0 rc1) in *.
  destruct Hadd as [m [failed [Hkm [Ht1 [Hap Hret]]]]].
  cbn [addr_of] in *. set (n := Z.to_nat masklen) in *.
  destruct failed.
  { destruct Hret as [Hr _]. rewrite Hr in Hrun.
    apply bind_ret in Hrun. destruct Hrun as [t2 [_ Hrun]]. discriminate Hrun. }
  destruct Hret as [-> Hr]. clear Hap.
  assert (Hbody :
    match bnode_at n (btrie_root t1) a 0 with
    | BNull => Abort
    | BNode d _ _ =>
        if negb (d =? NULL) then
          if d =? data then Ret (LPM_ERR_EXISTS, Some t1, mem1)
          else Ret (LPM_ERR_CONFLICT, Some t1, mem1)
        else
          let t2 := stat_data_incr (btrie_store_data t1 a masklen data) masklen in
          if masklen =? 0 then Ret (LPM_SUCCESS, Some t2, mem1)
          else
            ' (ret, t3, mem2, _) <-
              lpm_prefix_expansion t2 mem1
                (copy_addr a (u8 (Z.shiftr (masklen - 1) 3 + 1))) masklen (masklen - 1)
                (bnode_at n (btrie_root t2) a 0) data ;;
            match ret with
            | LPM_SUCCESS => Ret (ret, Some t3, mem2)
            | _ => Ret (LPM_ERR_RESOURCES, Some t3, mem2)
            end
    end = Ret (LPM_SUCCESS, t', mem')).
  { destruct (an_ret out); try discriminate Hrun;
      try (destruct (existing n root a 0 =? n)%nat; discriminate Hr);
      (destruct (bnode_at n (btrie_root t1) a 0) as [|d c0 c1]; [discriminate Hrun|];
       destruct (negb (d =? NULL)); [exact Hrun|];
       cbv zeta in Hrun |- *;
       destruct (masklen =? 0); [exact Hrun|];
       apply bind_ret in Hrun; destruct Hrun as [[[[ret t3] mem2] addr3] [Hexp Hrun]];
       rewrite Hexp; cbn [bind];
       destruct ret; try discriminate Hrun;
       try (exfalso; cbn [lpm_result_eqb] in Hrun;
            first [discriminate Hrun
                  |apply bind_ret in Hrun; destruct Hrun as [t5 [_ Hrun]];
                   discriminate Hrun]);
       exact Hrun). }
  clear Hrun Hr.
  assert (Hroot1 : btrie_root t1 = bt_ensure n root a 0) by (rewrite Ht1; now destruct t).
  rewrite Hroot1 in Hbody.
  destruct (bnode_at n (bt_ensure n root a 0) a 0) as [|d c0 c1] eqn:Hnode;
    [discriminate Hbody|].
  destruct (Z.eqb_spec d NULL) as [Hd|Hd]; cbn [negb] in Hbody;
    [|destruct (d =? data); discriminate Hbody].
  cbv zeta in Hbody.
  assert (Hprev : bdata (bnode_at n root a 0) = NULL).
  { rewrite <- (bdata_bnode_at_ensure n n root a a 0), Hnode. exact Hd. }
  assert (Hframe1 : name t1 = name t /\ default_data t1 = default_data t /\
                    default_addr t1 = default_addr t /\
                    default_masklen t1 = default_masklen t /\ debug_flag t1 = debug_flag t)
    by (rewrite Ht1; destruct t; repeat split).
  set (t2 := stat_data_incr (btrie_store_data t1 a masklen data) masklen) in *.
  assert (Hroot2 : btrie_root t2 =
                   bnode_modify n (bt_ensure n root a 0) a 0 (fun nd => bset_data nd data)).
  { subst t2. unfold stat_data_incr, btrie_store_data. cbn [btrie_root set_stat set_btrie_root].
    now rewrite Hroot1. }
  assert (Hframe2 : name t2 = name t /\ default_data t2 = default_data t /\
                    default_addr t2 = default_addr t /\
                    default_masklen t2 = default_masklen t /\ debug_flag t2 = debug_flag t).
  { subst t2. destruct t1. exact Hframe1. }
  destruct (masklen =? 0).
  - inversion Hbody; subst t' mem'. exists t2.
    repeat split; try tauto; try discriminate; auto.
  - apply bind_ret in Hbody. destruct Hbody as [[[[ret t3] mem2] addr3] [Hexp Hbody]].
    destruct ret; try discriminate Hbody. inversion Hbody; subst t' mem'.
    apply expansion_frame in Hexp.
    destruct Hexp as [F1 [F2 [F3 [F4 [F5 F6]]]]].
    exists t3. repeat split; try discriminate; auto; try congruence;
      try (destruct Hframe2 as [G1 [G2 [G3 [G4 G5]]]]; congruence).
Qed.

Lemma bnode_modify_data_not_null (n : nat) (R : btrie_node_t) (a : list Z) (pos v : Z) :
  R <> BNull -> bnode_modify n R a pos (fun nd => bset_data nd v) <> BNull.
Proof.
  intros HR. destruct n as [|n]; cbn [bnode_modify].
  - destruct R; [congruence|discriminate].
  - now apply bset_child_not_null.
Qed.

(** After a successful [lpm_add_entry] an exact find of the prefix
    answers the data that was added, where it answered null before, and
    an exact find of any other prefix answers what it answered before. *)
Theorem add_then_find (t : lpm_lkup_table_t) (mem : list bool) (a : list Z)
        (masklen data : Z) (t' : lpm_lkup_table_t) (mem' : list bool) :
  0 <= masklen ->
  lpm_add_entry (Some t) mem (Some a) masklen data = Ret (LPM_SUCCESS, Some t', mem') ->
  lpm_find_entry (Some t') (Some a) masklen = Ret data /\
  lpm_find_entry (Some t) (Some a) masklen = Ret NULL /\
  forall q qlen,
    0 <= qlen <= 128 ->
    (qlen <> masklen \/
     exists pos, 0 <= pos < masklen /\ addr_bit q pos <> addr_bit a pos) ->
    lpm_find_entry (Some t') (Some q) qlen = lpm_find_entry (Some t) (Some q) qlen.
Proof.
  intros Hml Hrun. apply add_entry_success_btrie in Hrun.
  destruct Hrun as [t1 [Heq [Hmax [Hdata [Hroot [Hprev [Hroot1 [Hnode _]]]]]]]].
  inversion Heq; subst t1; clear Heq.
  assert (Hroot' : btrie_root t' <> BNull).
  { rewrite Hroot1. apply bnode_modify_data_not_null, bt_ensure_not_null. }
  split; [|split].
  - rewrite find_entry_ret by lia. rewrite Hroot1.
    rewrite bnode_at_modify_same by exact Hnode.
    destruct (bnode_at _ (bt_ensure _ _ _ _) _ _); [congruence|reflexivity].
  - rewrite find_entry_ret by lia. now rewrite Hprev.
  - intros q qlen Hq Hdiff. rewrite !find_entry_ret by lia.
    rewrite Hroot1, bdata_bnode_at_modify_other, bdata_bnode_at_ensure; [reflexivity|].
    destruct Hdiff as [Hne|[pos [Hpos Hbit]]]; [left; lia|].
    right. exists pos. split; [lia|exact Hbit].
Qed.

Lemma add_then_find_witness :
  match lpm_add_entry (Some (fresh_table None)) [] (Some [10; 1]) 16 7 with
  | Ret (LPM_SUCCESS, Some t', _) =>
      lpm_find_entry (Some t') (Some [10; 1]) 16 = Ret 7 /\
      lpm_find_entry (Some (fresh_table None)) (Some [10; 1]) 16 = Ret NULL
  | _ => False
  end.
Proof.
  destruct (lpm_add_entry (Some (fresh_table None)) [] (Some [10; 1]) 16 7)
    as [[[r [t'|]] mem']|] eqn:E;
    try (vm_compute in E; discriminate E).
  destruct r; try (vm_compute in E; discriminate E).
  pose proof (add_then_find (fresh_table None) [] [10; 1] 16 7 t' mem' ltac:(lia) E)
    as [H1 [H2 _]].
  split; assumption.
Defined.

Lemma bnode_at_existing (n : nat) :
  forall R a pos, bnode_at n R a pos <> BNull -> existing n R a pos = n.
Proof.
  induction n as [|n IH]; intros R a pos H; [reflexivity|].
  cbn [bnode_at existing] in *.
  destruct (bchild R (addr_bit a pos)) as [|d c0 c1] eqn:Hc.
  - now rewrite bnode_at_null in H.
  - f_equal. now apply IH.
Qed.

(** On a path that is there already [btrie_add_node] allocates nothing
    and changes nothing. *)
Lemma add_node_loop_existing (n : nat) :
  forall table mem place a pos out,
    place <> BNull -> existing n place a pos = n ->
    0 <= pos -> pos + Z.of_nat n < 128 ->
    exists out',
      btrie_add_node_loop n table mem place a pos out = Ret (place, out', table, mem) /\
      an_ret out' = an_ret out.
Proof.
  induction n as [|n IH]; intros table mem place a pos out Hnn Hex Hpos Hlt.
  - exists out. split; reflexivity.
  - destruct place as [|d c0 c1]; [congruence|].
    cbn [btrie_add_node_loop existing] in *.
    rewrite bit_at_position_ok by (change LPM_MASKLEN_MAX with 128; lia).
    cbn [bind].
    set (place := BNode d c0 c1) in *.
    destruct (bchild place (addr_bit a pos)) as [|d' c0' c1'] eqn:Hc; [discriminate|].
    rewrite bit_at_position_ok by (change LPM_MASKLEN_MAX with 128; lia).
    cbn [bind].
    destruct (IH table mem (BNode d' c0' c1') a (pos + 1)
                 (mkAddOut (an_ret out) (Some (pos + 1)) (addr_bit a (pos + 1))))
      as [out' [Hrun Hret]]; [discriminate|congruence|lia|lia|].
    rewrite Hrun. cbn [bind]. exists out'. split; [|exact Hret].
    rewrite <- Hc. now rewrite bset_child_bchild.
Qed.

(** Adding a prefix that is bound, of mask length below 128: the answer
    is EXISTS when the data is the data bound and CONFLICT when it is
    not; the table is left as it is and no memory is requested. *)
Theorem add_bound_prefix (t : lpm_lkup_table_t) (mem : list bool) (a : list Z)
        (masklen data d : Z) :
  hi256_table_base t <> MNull ->
  0 <= masklen < 128 -> data <> NULL ->
  lpm_find_entry (Some t) (Some a) masklen = Ret d -> d <> NULL ->
  lpm_add_entry (Some t) mem (Some a) masklen data =
    Ret (if d =? data then LPM_ERR_EXISTS else LPM_ERR_CONFLICT, Some t, mem).
Proof.
  intros Hbase Hml Hdata Hfind Hd.
  assert (Hroot : btrie_root t <> BNull).
  { intros Hr. unfold lpm_find_entry in Hfind. rewrite Hr in Hfind.
    destruct (negb _) in Hfind; inversion Hfind; congruence. }
  rewrite find_entry_ret in Hfind by (auto; lia). inversion Hfind as [Hd']; clear Hfind.
  set (n := Z.to_nat masklen) in *.
  assert (Hnode : bnode_at n (btrie_root t) a 0 <> BNull).
  { intros Hn. rewrite Hn in Hd'. cbn in Hd'. congruence. }
  unfold lpm_add_entry, lpm_check_arg.
  destruct (Z.ltb_spec LPM_MASKLEN_MAX masklen) as [H|_];
    [change LPM_MASKLEN_MAX with 128 in H; lia|].
  cbn [negb lpm_result_eqb addr_of].
  destruct (Z.eqb_spec data NULL); [contradiction|].
  destruct (btrie_root t) as [|rd rc0 rc1] eqn:Hr; [congruence|].
  destruct (hi256_table_base t) as [|es] eqn:Hb; [congruence|].
  cbn [bis_null mis_null orb].
  unfold btrie_add_node. rewrite Hb, Hr.
  set (root := BNode rd rc0 rc1) in *.
  set (out0 := if 0 <? masklen
               then bit0 <- bit_at_position a 0 ;; Ret (mkAddOut LPM_ERR_EXISTS (Some 0) bit0)
               else Ret (mkAddOut LPM_ERR_EXISTS None 0)).
  assert (Hout0 : exists o, out0 = Ret o /\ an_ret o = LPM_ERR_EXISTS).
  { subst out0. destruct (0 <? masklen).
    - rewrite bit_at_position_ok by (change LPM_MASKLEN_MAX with 128; lia).
      eexists. split; reflexivity.
    - eexists. split; reflexivity. }
  destruct Hout0 as [o [-> Ho]]. cbn [bind].
  destruct (add_node_loop_existing n t mem root a 0 o) as [out' [Hrun Hret]];
    [discriminate|now apply bnode_at_existing|lia|lia|].
  fold n. rewrite Hrun. cbn [bind]. rewrite Hret, Ho.
  assert (Hsame : set_btrie_root t root = t) by (rewrite <- Hr; now destruct t).
  rewrite Hsame, Hr. fold root. fold n.
  destruct (bnode_at n root a 0) as [|d0 c0 c1]; [congruence|].
  cbn [bdata] in Hd'. subst d0.
  destruct (Z.eqb_spec d NULL); [contradiction|]. cbn [negb bdata].
  now destruct (d =? data).
Qed.

Lemma add_bound_prefix_witness :
  lpm_add_entry (Some (table_after [OpAdd [10] 8 7])) [] (Some [10]) 8 7 =
    Ret (LPM_ERR_EXISTS, Some (table_after [OpAdd [10] 8 7]), []) /\
  lpm_add_entry (Some (table_after [OpAdd [10] 8 7])) [] (Some [10]) 8 9 =
    Ret (LPM_ERR_CONFLICT, Some (table_after [OpAdd [10] 8 7]), []).
Proof.
  split.
  - apply (add_bound_prefix (table_after [OpAdd [10] 8 7]) [] [10] 8 7 7);
      try (vm_compute; congruence); try lia; try reflexivity; discriminate.
  - apply (add_bound_prefix (table_after [OpAdd [10] 8 7]) [] [10] 8 9 7);
      try (vm_compute; congruence); try lia; try reflexivity; discriminate.
Defined.

(** ** Update *)

Lemma find_entry_root (t : lpm_lkup_table_t) (a : list Z) (masklen d : Z) :
  lpm_find_entry (Some t) (Some a) masklen = Ret d -> d <> NULL -> btrie_root t <> BNull.
Proof.
  intros Hfind Hd Hr. unfold lpm_find_entry in Hfind. rewrite Hr in Hfind.
  destruct (negb _) in Hfind; inversion Hfind; congruence.
Qed.

(** Updating a prefix that is not bound answers NOTFOUND and changes
    nothing. *)
Theorem update_unbound_prefix (t : lpm_lkup_table_t) (mem : list bool) (a : list Z)
        (masklen data : Z) :
  btrie_root t <> BNull -> hi256_table_base t <> MNull ->
  masklen <= 128 -> data <> NULL ->
  lpm_find_entry (Some t) (Some a) masklen = Ret NULL ->
  lpm_update_entry (Some t) mem (Some a) masklen data = Ret (LPM_ERR_NOTFOUND, Some t, mem).
Proof.
  intros Hroot Hbase Hml Hdata Hfind.
  rewrite find_entry_ret in Hfind by (auto; lia). inversion Hfind as [Hd]; clear Hfind.
  unfold lpm_update_entry, lpm_check_arg.
  destruct (Z.ltb_spec LPM_MASKLEN_MAX masklen) as [H|_];
    [change LPM_MASKLEN_MAX with 128 in H; lia|].
  cbn [negb lpm_result_eqb addr_of].
  destruct (Z.eqb_spec data NULL); [contradiction|].
  destruct (btrie_root t) as [|rd rc0 rc1] eqn:Hr; [congruence|].
  destruct (hi256_table_base t) as [|es] eqn:Hb; [congruence|].
  cbn [bis_null mis_null orb]. unfold btrie_find_node.
  rewrite btrie_find_node_loop_ret by lia. cbn [bind].
  rewrite Hd. cbn [Z.eqb NULL]. now rewrite orb_true_r.
Qed.

Lemma update_unbound_prefix_witness :
  lpm_update_entry (Some (table_after [OpAdd [10] 8 7])) [] (Some [10; 1]) 16 9 =
    Ret (LPM_ERR_NOTFOUND, Some (table_after [OpAdd [10] 8 7]), []).
Proof.
  apply (update_unbound_prefix (table_after [OpAdd [10] 8 7]) [] [10; 1] 16 9);
    try (vm_compute; congruence); try lia; try reflexivity; discriminate.
Defined.

(** An update that went as far as the mtrie, whether the expansion then
    succeeded or ran out of memory, has stored the new data in the
    btrie: an exact find of the prefix answers it, the prefix was bound
    before, and an exact find of any other prefix answers as before. *)
Theorem update_then_find (t : lpm_lkup_table_t) (mem : list bool) (a : list Z)
        (masklen data : Z) (r : lpm_result_t) (t' : lpm_lkup_table_t) (mem' : list bool) :
  0 <= masklen ->
  lpm_update_entry (Some t) mem (Some a) masklen data = Ret (r, Some t', mem') ->
  r = LPM_SUCCESS \/ r = LPM_ERR_RESOURCES ->
  lpm_find_entry (Some t') (Some a) masklen = Ret data /\
  (exists d, lpm_find_entry (Some t) (Some a) masklen = Ret d /\ d <> NULL) /\
  forall q qlen,
    0 <= qlen <= 128 ->
    (qlen <> masklen \/
     exists pos, 0 <= pos < masklen /\ addr_bit q pos <> addr_bit a pos) ->
    lpm_find_entry (Some t') (Some q) qlen = lpm_find_entry (Some t) (Some q) qlen.
Proof.
  intros Hml Hrun Hr. unfold lpm_update_entry in Hrun.
  destruct (check_arg_codes (Some t) (Some a) masklen) as [Harg|Harg]; rewrite Harg in Hrun;
    cbn [negb lpm_result_eqb] in Hrun;
    [|inversion Hrun; subst; destruct Hr; discriminate].
  apply check_arg_success in Harg.
  destruct (Z.eqb_spec data NULL) as [|Hdata];
    [inversion Hrun; subst; destruct Hr; discriminate|].
  destruct (btrie_root t) as [|rd rc0 rc1] eqn:Hroot;
    [inversion Hrun; subst; destruct Hr; discriminate|].
  cbn [bis_null orb] in Hrun.
  destruct (mis_null (hi256_table_base t));
    [inversion Hrun; subst; destruct Hr; discriminate|].
  cbn [addr_of] in Hrun. unfold btrie_find_node in Hrun.
  rewrite btrie_find_node_loop_ret in Hrun by lia. cbn [bind] in Hrun.
  set (root := BNode rd rc0 rc1) in *. set (n := Z.to_nat masklen) in *.
  destruct (bnode_at n root a 0) as [|d c0 c1] eqn:Hnode;
    [inversion Hrun; subst; destruct Hr; discriminate|].
  cbn [bis_null bdata orb] in Hrun.
  destruct (Z.eqb_spec d NULL) as [|Hd];
    [inversion Hrun; subst; destruct Hr; discriminate|].
  set (t1 := if d =? data then t else btrie_store_data t a masklen data) in *.
  assert (Hroot1 : btrie_root t1 = bnode_modify n root a 0 (fun nd => bset_data nd data)).
  { subst t1. destruct (Z.eqb_spec d data) as [->|_].
    - rewrite Hroot. symmetry. apply bnode_modify_id. now rewrite Hnode.
    - unfold btrie_store_data. cbn [btrie_root set_btrie_root]. now rewrite Hroot. }
  assert (Hroot' : btrie_root t' = btrie_root t1).
  { destruct (masklen =? 0).
    - now inversion Hrun.
    - apply bind_ret in Hrun. destruct Hrun as [[[[ret t2] mem1] addr1] [Hexp Hrun]].
      inversion Hrun; subst. apply expansion_frame in Hexp. apply Hexp. }
  assert (Hnn : btrie_root t <> BNull) by (rewrite Hroot; discriminate).
  assert (Hnn' : btrie_root t' <> BNull).
  { rewrite Hroot', Hroot1. now apply bnode_modify_data_not_null. }
  split; [|split].
  - rewrite find_entry_ret by lia. fold n. rewrite Hroot', Hroot1.
    rewrite bnode_at_modify_same by (rewrite Hnode; discriminate).
    now rewrite Hnode.
  - exists d. split; [|exact Hd].
    rewrite find_entry_ret by lia. fold n. now rewrite Hroot, Hnode.
  - intros q qlen Hq Hdiff. rewrite !find_entry_ret by lia.
    rewrite Hroot', Hroot1, Hroot. f_equal. apply bdata_bnode_at_modify_other.
    destruct Hdiff as [Hne|[pos [Hpos Hbit]]]; [left; subst n; lia|].
    right. exists pos. split; [subst n; lia|exact Hbit].
Qed.

Lemma update_then_find_witness :
  match lpm_update_entry (Some (table_after [OpAdd [10] 8 7])) [] (Some [10]) 8 9 with
  | Ret (LPM_SUCCESS, Some t', _) => lpm_find_entry (Some t') (Some [10]) 8 = Ret 9
  | _ => False
  end.
Proof.
  destruct (lpm_update_entry (Some (table_after [OpAdd [10] 8 7])) [] (Some [10]) 8 9)
    as [[[r [t'|]] mem']|] eqn:E;
    try (vm_compute in E; discriminate E).
  destruct r; try (vm_compute in E; discriminate E).
  apply (update_then_find (table_after [OpAdd [10] 8 7]) [] [10] 8 9 LPM_SUCCESS t' mem'
           ltac:(lia) E).
  left. reflexivity.
Defined.

(** ** Delete *)

Lemma zget_copy_addr (a : list Z) (cnt i : Z) :
  0 <= i < cnt -> i < 16 -> zget (copy_addr a cnt) i = byte_at a i.
Proof.
  intros Hi H16. unfold zget, copy_addr.
  change (Z.to_nat LPM_LEVEL_MAX) with 16%nat.
  set (f := fun i : nat => if Z.of_nat i <? cnt then byte_at a (Z.of_nat i) else 0).
  rewrite (nth_indep _ 0 (f O)) by (rewrite length_map, length_seq; lia).
  rewrite map_nth, seq_nth by lia. subst f. cbn [Nat.add]. rewrite Z2Nat.id by lia.
  destruct (Z.ltb_spec i cnt); [reflexivity|lia].
Qed.

Lemma byte_at_copy_addr (a : list Z) (cnt i : Z) :
  0 <= i < cnt -> i < 16 -> byte_at (copy_addr a cnt) i = byte_at a i.
Proof.
  intros Hi H16. unfold byte_at at 1. rewrite zget_copy_addr by lia.
  apply u8_small, byte_at_range.
Qed.

Lemma addr_bit_copy_addr (a : list Z) (masklen pos : Z) :
  masklen <= 128 -> 0 <= pos < masklen ->
  addr_bit (copy_addr a (u8 (Z.shiftr (masklen - 1) 3 + 1))) pos = addr_bit a pos.
Proof.
  intros Hm Hpos. unfold addr_bit. rewrite !shiftr3_div.
  assert (Hd : 0 <= pos / 8 <= (masklen - 1) / 8).
  { split; [apply Z.div_pos; lia|apply Z.div_le_mono; lia]. }
  assert (Hc : (masklen - 1) / 8 < 16) by (apply Z.div_lt_upper_bound; lia).
  rewrite u8_small by lia.
  rewrite byte_at_copy_addr by lia. reflexivity.
Qed.

Lemma del_entry_walk_node (n : nat) :
  forall node addr pos masklen lk,
    node <> BNull -> 0 <= pos -> pos + Z.of_nat n <= 128 ->
    exists lk',
      del_entry_walk n node addr pos masklen lk = Ret (bnode_at n node addr pos, lk').
Proof.
  induction n as [|n IH]; intros node addr pos masklen lk Hnn Hpos Hn.
  - exists lk. reflexivity.
  - destruct node as [|d c0 c1]; [congruence|].
    cbn [del_entry_walk bnode_at].
    rewrite bit_at_position_ok by (change LPM_MASKLEN_MAX with 128; lia).
    cbn [bind].
    destruct (bchild (BNode d c0 c1) (addr_bit addr pos)) as [|d' c0' c1'].
    + exists lk. now rewrite bnode_at_null.
    + apply IH; [discriminate|lia|lia].
Qed.

(** Deleting a prefix that is not bound answers NOTFOUND and changes
    nothing. *)
Theorem del_unbound_prefix (t : lpm_lkup_table_t) (mem : list bool) (a : list Z)
        (masklen : Z) :
  btrie_root t <> BNull -> hi256_table_base t <> MNull ->
  0 <= masklen <= 128 ->
  lpm_find_entry (Some t) (Some a) masklen = Ret NULL ->
  lpm_del_entry (Some t) mem (Some a) masklen = Ret (LPM_ERR_NOTFOUND, Some t, mem).
Proof.
  intros Hroot Hbase Hml Hfind.
  rewrite find_entry_ret in Hfind by lia. inversion Hfind as [Hd]; clear Hfind.
  unfold lpm_del_entry, lpm_check_arg.
  destruct (Z.ltb_spec LPM_MASKLEN_MAX masklen) as [H|_];
    [change LPM_MASKLEN_MAX with 128 in H; lia|].
  cbn [negb lpm_result_eqb addr_of].
  destruct (btrie_root t) as [|rd rc0 rc1] eqn:Hr; [congruence|].
  destruct (hi256_table_base t) as [|es] eqn:Hb; [congruence|].
  cbn [bis_null mis_null orb].
  destruct (Z.eqb_spec masklen 0) as [->|Hm0].
  - cbn in Hd. cbn [bdata]. rewrite Hd. reflexivity.
  - unfold __lpm_del_entry. rewrite Hr.
    set (temp := copy_addr a (u8 (Z.shiftr (masklen - 1) 3 + 1))).
    destruct (del_entry_walk_node (Z.to_nat masklen) (BNode rd rc0 rc1) temp 0 masklen None)
      as [lk' Hwalk]; [discriminate|lia|lia|].
    rewrite Hwalk. cbn [bind].
    rewrite (bnode_at_ext _ _ temp a 0).
    + destruct (bnode_at _ _ a 0) as [|d c0 c1]; [reflexivity|].
      cbn in Hd. now rewrite Hd.
    + intros p Hp. apply addr_bit_copy_addr; lia.
Qed.

Lemma del_unbound_prefix_witness :
  lpm_del_entry (Some (table_after [OpAdd [10] 8 7])) [] (Some [10; 1]) 16 =
    Ret (LPM_ERR_NOTFOUND, Some (table_after [OpAdd [10] 8 7]), []).
Proof.
  apply (del_unbound_prefix (table_after [OpAdd [10] 8 7]) [] [10; 1] 16);
    try (vm_compute; congruence); try lia; try reflexivity; discriminate.
Defined.

Lemma btrie_pruned_refl (R : btrie_node_t) : btrie_pruned R R.
Proof. induction R as [|d c0 IH0 c1 IH1]; cbn; auto. Qed.

Lemma btrie_pruned_bdata (s : btrie_node_t) :
  forall b, btrie_pruned s b ->
  forall k q pos,
    bdata (bnode_at k s q pos) = bdata (bnode_at k b q pos) \/
    bdata (bnode_at k s q pos) = NULL.
Proof.
  induction s as [|d c0 IH0 c1 IH1]; intros b Hp k q pos.
  - right. now rewrite bnode_at_null.
  - destruct b as [|d' c0' c1']; [destruct Hp|]. destruct Hp as [-> [H0 H1]].
    destruct k as [|k]; [left; reflexivity|].
    cbn [bnode_at bchild]. destruct (addr_bit q pos =? 0); auto.
Qed.

Lemma btrie_pruned_modify (n : nat) :
  forall R a pos sub,
    btrie_pruned sub (bnode_at n R a pos) ->
    btrie_pruned (bnode_modify n R a pos (fun _ => sub)) R.
Proof.
  induction n as [|n IH]; intros R a pos sub Hp; [exact Hp|].
  cbn [bnode_modify bnode_at] in *.
  destruct R as [|d c0 c1]; [exact I|].
  cbn [bset_child bchild] in *.
  destruct (addr_bit a pos =? 0); cbn; repeat split;
    auto using btrie_pruned_refl.
Qed.

Lemma bnode_modify_ext (n : nat) :
  forall R a a' pos f,
    (forall p, pos <= p < pos + Z.of_nat n -> addr_bit a p = addr_bit a' p) ->
    bnode_modify n R a pos f = bnode_modify n R a' pos f.
Proof.
  induction n as [|n IH]; intros R a a' pos f H; [reflexivity|].
  cbn [bnode_modify]. rewrite (H pos) by lia.
  rewrite (IH _ a a'); [reflexivity|]. intros p Hp. apply H. lia.
Qed.

(** Clearing the data of one node changes no other data. *)
Lemma bdata_bnode_at_modify_null (a q : list Z) (n : nat) :
  forall k R pos,
    bdata (bnode_at k (bnode_modify n R a pos (fun nd => bset_data nd NULL)) q pos) =
      bdata (bnode_at k R q pos) \/
    bdata (bnode_at k (bnode_modify n R a pos (fun nd => bset_data nd NULL)) q pos) = NULL.
Proof.
  induction n as [|n IH]; intros k R pos.
  - cbn [bnode_modify]. destruct k as [|k].
    + right. now destruct R.
    + left. cbn [bnode_at]. now rewrite bchild_bset_data.
  - cbn [bnode_modify]. destruct k as [|k]; [left; apply bdata_bset_child|].
    cbn [bnode_at].
    destruct R as [|d c0 c1]; [left; reflexivity|].
    destruct (Bool.bool_dec (addr_bit a pos =? 0) (addr_bit q pos =? 0)) as [He|Hne].
    + rewrite <- (bchild_eqb (bset_child _ _ _) _ _ He),
        <- (bchild_eqb (BNode d c0 c1) _ _ He).
      rewrite bchild_bset_child by discriminate. apply IH.
    + left. now rewrite bchild_bset_child_other.
Qed.

Lemma delete_subtree_unfold (table : lpm_lkup_table_t) (addr : list Z)
      (temp_root : btrie_node_t) (at_root : bool) (bitpos : Z) :
  __delete_subtree table addr temp_root at_root bitpos =
  match temp_root with
  | BNull => Abort
  | BNode d c0 c1 =>
      if bis_null c0 && bis_null c1 then
        if d =? NULL then Ret (1, temp_root, table) else Ret (0, temp_root, table)
      else
        ' (delete_left, c0', table1) <-
          match c0 with
          | BNull => Ret (1, BNull, table)
          | BNode _ _ _ =>
              ' (dl, sub, t1) <- __delete_subtree table addr c0 false (u32 (bitpos + 1)) ;;
              if negb (dl =? 0) then
                t2 <- btrie_destroy_subtree t1 sub ;;
                Ret (dl, BNull, t2)
              else Ret (dl, sub, t1)
          end ;;
        if delete_left =? 0 then Ret (0, BNode d c0' c1, table1)
        else
          ' (delete_right, c1', table2) <-
            match c1 with
            | BNull => Ret (1, BNull, table1)
            | BNode _ _ _ =>
                ' (dr, sub, t1) <-
                  __delete_subtree table1 addr c1 false (u32 (bitpos + 1)) ;;
                if negb (dr =? 0) then
                  t2 <- btrie_destroy_subtree t1 sub ;;
                  Ret (dr, BNull, t2)
                else Ret (dr, sub, t1)
            end ;;
          if delete_right =? 0 then Ret (0, BNode d c0' c1', table2)
          else if negb at_root then
            if BOUNDARY_BIT_POSITION bitpos then
              table3 <- delete_trie_block table2 addr bitpos ;;
              Ret (1, BNode d c0' c1', table3)
            else Ret (1, BNode d c0' c1', table2)
          else Ret (0, BNode d c0' c1', table2)
  end.
Proof. destruct temp_root as [|d [|d0 c00 c01] [|d1 c10 c11]]; reflexivity. Qed.

(** [__delete_subtree] only cuts sub-trees off. *)
Lemma delete_subtree_pruned (temp_root : btrie_node_t) :
  forall table addr at_root bitpos v sub table',
    __delete_subtree table addr temp_root at_root bitpos = Ret (v, sub, table') ->
    btrie_pruned sub temp_root.
Proof.
  induction temp_root as [|d c0 IH0 c1 IH1];
    intros table addr at_root bitpos v sub table' H;
    rewrite delete_subtree_unfold in H; [discriminate|].
  destruct (bis_null c0 && bis_null c1).
  { destruct (d =? NULL); inversion H; subst; apply btrie_pruned_refl. }
  apply bind_ret in H. destruct H as [[[dl c0'] table1] [Hleft H]].
  assert (H0 : btrie_pruned c0' c0).
  { destruct c0 as [|d0 c00 c01]; [inversion Hleft; exact I|].
    apply bind_ret in Hleft. destruct Hleft as [[[dl' sub'] t1] [Hrec Hleft]].
    apply IH0 in Hrec.
    destruct (negb (dl' =? 0)).
    - apply bind_ret in Hleft. destruct Hleft as [t2 [_ Hleft]]. inversion Hleft. exact I.
    - inversion Hleft; subst. exact Hrec. }
  destruct (dl =? 0).
  { inversion H; subst. cbn. auto using btrie_pruned_refl. }
  apply bind_ret in H. destruct H as [[[dr c1'] table2] [Hright H]].
  assert (H1 : btrie_pruned c1' c1).
  { destruct c1 as [|d1 c10 c11]; [inversion Hright; exact I|].
    apply bind_ret in Hright. destruct Hright as [[[dr' sub'] t1] [Hrec Hright]].
    apply IH1 in Hrec.
    destruct (negb (dr' =? 0)).
    - apply bind_ret in Hright. destruct Hright as [t2 [_ Hright]]. inversion Hright.
      exact I.
    - inversion Hright; subst. exact Hrec. }
  assert (Hres : btrie_pruned (BNode d c0' c1') (BNode d c0 c1)) by (cbn; auto).
  destruct (dr =? 0); [inversion H; subst; exact Hres|].
  destruct (negb at_root); [|inversion H; subst; exact Hres].
  destruct (BOUNDARY_BIT_POSITION bitpos); [|inversion H; subst; exact Hres].
  apply bind_ret in H. destruct H as [t3 [_ H]]. inversion H; subst. exact Hres.
Qed.

Lemma zero_out_data_btrie (t : lpm_lkup_table_t) (addr : list Z) (masklen : Z)
      (r : lpm_result_t) (t' : lpm_lkup_table_t) :
  zero_out_data t addr masklen = Ret (r, t') -> table_frame t t'.
Proof.
  unfold zero_out_data. intros H.
  destruct (hi256_table_base t) as [|es]; [discriminate|].
  destruct (masklen <=? 8); [inversion H; apply table_frame_set_hi256|].
  destruct (mbase (entry_at es (byte_at addr 0)));
    inversion H; apply table_frame_set_hi256.
Qed.

(** What a successful [__lpm_del_entry] does to the btrie: the node of
    the prefix held data, the data is cleared, and sub-trees are cut
    off. *)
Lemma del_entry_btrie (t : lpm_lkup_table_t) (mem : list bool) (addr : list Z)
      (masklen : Z) (t' : lpm_lkup_table_t) (mem' : list bool) :
  btrie_root t <> BNull -> 0 <= masklen <= 128 ->
  __lpm_del_entry t mem addr masklen = Ret (LPM_SUCCESS, t', mem') ->
  bdata (bnode_at (Z.to_nat masklen) (btrie_root t) addr 0) <> NULL /\
  btrie_pruned (btrie_root t')
    (bnode_modify (Z.to_nat masklen) (btrie_root t) addr 0 (fun nd => bset_data nd NULL)).
Proof.
  intros Hroot Hml Hrun. unfold __lpm_del_entry in Hrun.
  destruct (del_entry_walk_node (Z.to_nat masklen) (btrie_root t) addr 0 masklen None)
    as [lk Hwalk]; [exact Hroot|lia|lia|].
  rewrite Hwalk in Hrun. cbn [bind] in Hrun.
  set (n := Z.to_nat masklen) in *.
  destruct (bnode_at n (btrie_root t) addr 0) as [|d c0 c1] eqn:Hnode; [discriminate Hrun|].
  destruct (Z.eqb_spec d NULL) as [|Hd]; [discriminate Hrun|].
  split; [exact Hd|].
  set (t0 := btrie_store_data t addr masklen NULL) in *.
  destruct (negb (0 <? data_total (stat t0))); [discriminate Hrun|].
  set (t1 := stat_data_decr t0 masklen) in *.
  assert (Hroot1 : btrie_root t1 =
                   bnode_modify n (btrie_root t) addr 0 (fun nd => bset_data nd NULL))
    by reflexivity.
  apply bind_ret in Hrun. destruct Hrun as [[[[ret t2] mem1] addr1] [Hexp Hrun]].
  assert (Hroot2 : btrie_root t2 = btrie_root t1).
  { destruct lk as [[lb ld]|].
    - destruct (_ =? _) in Hexp; apply expansion_frame in Hexp; apply Hexp.
    - destruct (negb _ || negb _) in Hexp.
      + apply expansion_frame in Hexp. apply Hexp.
      + apply bind_ret in Hexp. destruct Hexp as [[r0 t00] [Hz Hexp]].
        inversion Hexp; subst. apply zero_out_data_btrie in Hz. apply Hz. }
  destruct ret; cbn [negb lpm_result_eqb] in Hrun; try discriminate Hrun.
  destruct (match lk with
            | Some (b, _) => (Z.to_nat (b + 1), false, b)
            | None => (O, true, u32 (-1))
            end) as [[depth at_root] lkb].
  apply bind_ret in Hrun. destruct Hrun as [[[v sub] t3] [Hdel Hrun]].
  inversion Hrun; subst t' mem'; clear Hrun.
  cbn [btrie_root set_btrie_root].
  unfold delete_subtree in Hdel. apply delete_subtree_pruned in Hdel.
  rewrite Hroot2, Hroot1 in *.
  now apply btrie_pruned_modify.
Qed.

(** After a successful [lpm_del_entry] an exact find of the prefix
    answers null, where it answered data before; an exact find of any
    prefix answers what it answered before, or null: a delete creates no
    binding. *)
Theorem del_then_find (t : lpm_lkup_table_t) (mem : list bool) (a : list Z)
        (masklen : Z) (t' : lpm_lkup_table_t) (mem' : list bool) :
  0 <= masklen ->
  lpm_del_entry (Some t) mem (Some a) masklen = Ret (LPM_SUCCESS, Some t', mem') ->
  lpm_find_entry (Some t') (Some a) masklen = Ret NULL /\
  (exists d, lpm_find_entry (Some t) (Some a) masklen = Ret d /\ d <> NULL) /\
  forall q qlen,
    qlen <= 128 ->
    lpm_find_entry (Some t') (Some q) qlen = lpm_find_entry (Some t) (Some q) qlen \/
    lpm_find_entry (Some t') (Some q) qlen = Ret NULL.
Proof.
  intros Hml Hrun. unfold lpm_del_entry in Hrun.
  destruct (check_arg_codes (Some t) (Some a) masklen) as [Harg|Harg]; rewrite Harg in Hrun;
    cbn [negb lpm_result_eqb] in Hrun; [|discriminate Hrun].
  apply check_arg_success in Harg.
  destruct (btrie_root t) as [|rd rc0 rc1] eqn:Hroot; [discriminate Hrun|].
  cbn [bis_null orb] in Hrun.
  destruct (mis_null (hi256_table_base t)); [discriminate Hrun|].
  set (root := BNode rd rc0 rc1) in *. set (n := Z.to_nat masklen) in *.
  assert (Hmain :
    bdata (bnode_at n root a 0) <> NULL /\
    btrie_pruned (btrie_root t')
                 (bnode_modify n root a 0 (fun nd => bset_data nd NULL))).
  { destruct (Z.eqb_spec masklen 0) as [Hm0|Hm0].
    - subst n. rewrite Hm0. cbn [Z.to_nat bnode_at bnode_modify].
      cbn [bdata root] in Hrun |- *.
      destruct (Z.eqb_spec rd NULL) as [|Hd]; [discriminate Hrun|].
      split; [exact Hd|].
      destruct (negb _) in Hrun; [discriminate Hrun|].
      inversion Hrun; subst t' mem'. apply btrie_pruned_refl.
    - cbn [addr_of] in Hrun.
      apply bind_ret in Hrun. destruct Hrun as [[[ret t1] mem1] [Hdel Hrun]].
      inversion Hrun; subst ret t1 mem1; clear Hrun.
      apply del_entry_btrie in Hdel; [|rewrite Hroot; discriminate|lia].
      rewrite Hroot in Hdel. fold root n in Hdel.
      set (temp := copy_addr a (u8 (Z.shiftr (masklen - 1) 3 + 1))) in *.
      assert (Hbits : forall p, 0 <= p < 0 + Z.of_nat n -> addr_bit temp p = addr_bit a p).
      { intros p Hp. apply addr_bit_copy_addr; subst n; lia. }
      rewrite (bnode_at_ext n root temp a 0 Hbits),
        (bnode_modify_ext n root temp a 0 _ Hbits) in Hdel.
      exact Hdel. }
  destruct Hmain as [Hd Hpruned].
  assert (Hprop : forall q k,
             bdata (bnode_at k (btrie_root t') q 0) = bdata (bnode_at k root q 0) \/
             bdata (bnode_at k (btrie_root t') q 0) = NULL).
  { intros q k.
    destruct (btrie_pruned_bdata _ _ Hpruned k q 0) as [H|H]; [|right; exact H].
    destruct (bdata_bnode_at_modify_null a q n k root 0) as [H'|H'];
      [left|right]; congruence. }
  split; [|split].
  - rewrite find_entry_ret by lia. fold n.
    destruct (btrie_pruned_bdata _ _ Hpruned n a 0) as [H|H]; [|now rewrite H].
    rewrite H. rewrite bnode_at_modify_same.
    + destruct (bnode_at n root a 0); reflexivity.
    + intros Hn. rewrite Hn in Hd. now cbn in Hd.
  - exists (bdata (bnode_at n root a 0)). split; [|exact Hd].
    rewrite find_entry_ret by lia. now rewrite Hroot.
  - intros q qlen Hq. rewrite !find_entry_ret by lia. rewrite Hroot. fold root.
    destruct (Hprop q (Z.to_nat qlen)) as [H|H]; [left|right]; now rewrite H.
Qed.

Lemma del_then_find_witness :
  match lpm_del_entry (Some (table_after [OpAdd [10] 8 7; OpAdd [10; 1] 16 9])) []
                      (Some [10; 1]) 16 with
  | Ret (LPM_SUCCESS, Some t', _) =>
      lpm_find_entry (Some t') (Some [10; 1]) 16 = Ret NULL
  | _ => False
  end.
Proof.
  destruct (lpm_del_entry (Some (table_after [OpAdd [10] 8 7; OpAdd [10; 1] 16 9])) []
                          (Some [10; 1]) 16)
    as [[[r [t'|]] mem']|] eqn:E;
    try (vm_compute in E; discriminate E).
  destruct r; try (vm_compute in E; discriminate E).
  apply (del_then_find (table_after [OpAdd [10] 8 7; OpAdd [10; 1] 16 9]) [] [10; 1] 16
           t' mem' ltac:(lia) E).
Defined.

(** ** The default entry *)

Lemma byte_bit_mask_top :
  forall b k j, 0 <= b < 256 -> 0 <= k < 8 -> 0 <= j < 8 ->
    byte_bit (u8 (Z.land b (Z.lxor 255 (Z.shiftl 1 (7 - k) - 1)))) j =
    if j <=? k then byte_bit b j else 0.
Proof.
  assert (H : all_below 256 (fun b => all_below 8 (fun k => all_below 8 (fun j =>
                byte_bit (u8 (Z.land b (Z.lxor 255 (Z.shiftl 1 (7 - k) - 1)))) j =?
                (if j <=? k then byte_bit b j else 0)))) = true)
    by (vm_compute; reflexivity).
  intros b k j Hb Hk Hj.
  apply (all_below_spec 256 _ H b) in Hb. apply (all_below_spec 8 _ Hb k) in Hk.
  apply (all_below_spec 8 _ Hk j) in Hj. now apply Z.eqb_eq in Hj.
Qed.

Lemma byte_at_copy_addr_high (a : list Z) (cnt i : Z) :
  0 <= cnt -> cnt <= i -> byte_at (copy_addr a cnt) i = 0.
Proof.
  intros Hc Hi. unfold byte_at, zget, copy_addr.
  change (Z.to_nat LPM_LEVEL_MAX) with 16%nat.
  destruct (Nat.lt_ge_cases (Z.to_nat i) 16) as [Hlt|Hge].
  - set (f := fun i : nat => if Z.of_nat i <? cnt then byte_at a (Z.of_nat i) else 0).
    rewrite (nth_indep _ 0 (f O)) by (rewrite length_map, length_seq; lia).
    rewrite map_nth, seq_nth by lia. subst f. cbn [Nat.add]. rewrite Z2Nat.id by lia.
    destruct (Z.ltb_spec i cnt); [lia|reflexivity].
  - rewrite nth_overflow by (rewrite length_map, length_seq; lia). reflexivity.
Qed.

(** The address that [lpm_update_default_data] stores: the first
    [masklen] bits of [addr], the rest 0. *)
Lemma default_addr_bits (a : list Z) (masklen pos : Z) :
  0 < masklen <= 128 -> 0 <= pos < 128 ->
  let cnt := Z.shiftr (masklen - 1) 3 + 1 in
  let copied := copy_addr a cnt in
  let mask := Z.lxor 255 (Z.shiftl 1 (7 - Z.land (masklen - 1) 7) - 1) in
  addr_bit (zset copied (cnt - 1) (Z.land (zget copied (cnt - 1)) mask)) pos =
  if pos <? masklen then addr_bit a pos else 0.
Proof.
  intros Hm Hpos. cbv zeta. rewrite shiftr3_div, land7_mod.
  set (c := (masklen - 1) / 8).
  assert (Hc : 0 <= c < 16).
  { subst c. split; [apply Z.div_pos; lia|apply Z.div_lt_upper_bound; lia]. }
  replace (c + 1 - 1) with c by lia.
  pose proof (Z.mod_pos_bound (masklen - 1) 8 ltac:(lia)) as Hk.
  pose proof (Z.mod_pos_bound pos 8 ltac:(lia)) as Hj.
  pose proof (Z.div_mod (masklen - 1) 8 ltac:(lia)) as Em.
  pose proof (Z.div_mod pos 8 ltac:(lia)) as Ep.
  fold c in Em.
  assert (Hp8 : 0 <= pos / 8) by (apply Z.div_pos; lia).
  rewrite !addr_bit_byte_bit by lia.
  assert (Hzc : zget (copy_addr a (c + 1)) c = byte_at a c)
    by (apply zget_copy_addr; lia).
  destruct (Z.eq_dec (pos / 8) c) as [He|Hne].
  - rewrite He, byte_at_zset_eq by (rewrite copy_addr_length; lia).
    rewrite Hzc, byte_bit_mask_top by (auto using byte_at_range).
    destruct (Z.leb_spec (pos mod 8) ((masklen - 1) mod 8));
      destruct (Z.ltb_spec pos masklen); try reflexivity; lia.
  - rewrite byte_at_zset_neq by lia.
    destruct (Z.ltb_spec pos masklen).
    + rewrite byte_at_copy_addr by lia. reflexivity.
    + rewrite byte_at_copy_addr_high by lia. unfold byte_bit. now rewrite Z.bits_0.
Qed.

(** [lpm_update_default_data] answers NOTFOUND and changes nothing when
    the prefix is not bound.  When it is bound, the default entry
    becomes its data, its mask length and its address cut to the mask
    length (the bits from the mask length on are 0); the btrie, the
    mtrie, the statistics, the name and the debug flag stay. *)
Theorem update_default_data_spec (t : lpm_lkup_table_t) (a : list Z) (masklen : Z) :
  btrie_root t <> BNull -> 0 <= masklen <= 128 ->
  (lpm_find_entry (Some t) (Some a) masklen = Ret NULL ->
   lpm_update_default_data (Some t) (Some a) masklen = Ret (LPM_ERR_NOTFOUND, Some t)) /\
  (forall d,
      lpm_find_entry (Some t) (Some a) masklen = Ret d -> d <> NULL ->
      exists t',
        lpm_update_default_data (Some t) (Some a) masklen = Ret (LPM_SUCCESS, Some t') /\
        default_data t' = d /\ default_masklen t' = masklen /\
        length (default_addr t') = 16%nat /\
        (forall pos, 0 <= pos < 128 ->
           addr_bit (default_addr t') pos = if pos <? masklen then addr_bit a pos else 0) /\
        btrie_root t' = btrie_root t /\ hi256_table_base t' = hi256_table_base t /\
        stat t' = stat t /\ name t' = name t /\ debug_flag t' = debug_flag t).
Proof.
  intros Hroot Hml.
  assert (Hrun : forall d,
             lpm_find_entry (Some t) (Some a) masklen = Ret d ->
             lpm_update_default_data (Some t) (Some a) masklen =
             if d =? NULL then Ret (LPM_ERR_NOTFOUND, Some t)
             else Ret (LPM_SUCCESS,
                       Some (set_default t d
                               (if 0 <? masklen
                                then
                                  let cnt := Z.shiftr (masklen - 1) 3 + 1 in
                                  let copied := copy_addr a cnt in
                                  let mask :=
                                    Z.lxor 255
                                      (Z.shiftl 1 (7 - Z.land (masklen - 1) 7) - 1) in
                                  zset copied (cnt - 1) (Z.land (zget copied (cnt - 1)) mask)
                                else repeat 0 (Z.to_nat LPM_LEVEL_MAX))
                               masklen))).
  { intros d Hfind. rewrite find_entry_ret in Hfind by lia. inversion Hfind as [Hd].
    unfold lpm_update_default_data, lpm_check_arg.
    destruct (Z.ltb_spec LPM_MASKLEN_MAX masklen) as [H|_];
      [change LPM_MASKLEN_MAX with 128 in H; lia|].
    cbn [negb lpm_result_eqb addr_of].
    destruct (btrie_root t) as [|rd rc0 rc1] eqn:Hr; [congruence|].
    unfold btrie_find_data, btrie_find_node.
    rewrite btrie_find_node_loop_ret by lia. cbn [bind]. reflexivity. }
  split.
  - intros Hfind. now rewrite (Hrun NULL Hfind).
  - intros d Hfind Hd. rewrite (Hrun d Hfind).
    destruct (Z.eqb_spec d NULL); [contradiction|].
    eexists. split; [reflexivity|].
    cbn [default_data default_masklen default_addr set_default btrie_root hi256_table_base
         stat name debug_flag].
    repeat split.
    + destruct (0 <? masklen); [|reflexivity].
      cbv zeta. now rewrite zset_length, copy_addr_length.
    + intros pos Hpos. destruct (Z.ltb_spec 0 masklen) as [Hpos0|Hz].
      * apply default_addr_bits; lia.
      * change (Z.to_nat LPM_LEVEL_MAX) with 16%nat. rewrite addr_bit_zero.
        destruct (Z.ltb_spec pos masklen); [lia|reflexivity].
Qed.

Lemma update_default_data_spec_witness :
  exists t',
    lpm_update_default_data (Some (table_after [OpAdd [10; 255] 12 7])) (Some [10; 255]) 12 =
      Ret (LPM_SUCCESS, Some t') /\
    default_data t' = 7 /\ default_masklen t' = 12 /\
    addr_bit (default_addr t') 11 = addr_bit [10; 255] 11 /\
    addr_bit (default_addr t') 12 = 0.
Proof.
  destruct (proj2 (update_default_data_spec (table_after [OpAdd [10; 255] 12 7])
                     [10; 255] 12 ltac:(vm_compute; discriminate) ltac:(lia)) 7)
    as [t' [Hrun [Hd [Hm [_ [Hbits _]]]]]];
    [reflexivity|discriminate|].
  exists t'. split; [exact Hrun|]. split; [exact Hd|]. split; [exact Hm|].
  split; [apply (Hbits 11); lia|apply (Hbits 12); lia].
Defined.

(** ** Search *)

Lemma search_entry_null (addr : list Z) (level : Z) (n : nat) :
  search_entry MNull addr level n = mnode_zero.
Proof.
  unfold search_entry. rewrite mtrie_block_at_null. cbn [block_entries].
  apply entry_at_zero_block.
Qed.

Lemma search_entry_S (es : list mtrie_node_t) (addr : list Z) (level : Z) (n : nat) :
  search_entry (MBlock es) addr level (S n) =
  search_entry (mbase (entry_at es (byte_at addr level))) addr (level + 1) n.
Proof.
  unfold search_entry. cbn [mtrie_block_at block_entries].
  replace (level + Z.of_nat (S n)) with (level + 1 + Z.of_nat n) by lia. reflexivity.
Qed.

Lemma search_entry_O (es : list mtrie_node_t) (addr : list Z) (level : Z) :
  search_entry (MBlock es) addr level O = entry_at es (byte_at addr level).
Proof. unfold search_entry. cbn. now rewrite Z.add_0_r. Qed.

(** The loop of [lpm_search_table] ends with the data of the deepest
    entry on the path of the address that holds data, or with the data
    it started with when no entry holds any. *)
Lemma lpm_search_loop_deepest (addr : list Z) (base : mtrie_block_t) :
  forall level data,
    (forall n,
        mdata (search_entry base addr level n) <> NULL ->
        (forall n', (n < n')%nat -> mdata (search_entry base addr level n') = NULL) ->
        lpm_search_loop base addr level data = mdata (search_entry base addr level n)) /\
    ((forall n, mdata (search_entry base addr level n) = NULL) ->
     lpm_search_loop base addr level data = data).
Proof.
  induction base as [|es IH] using mtrie_block_induction; intros level data.
  - split.
    + intros n Hn. rewrite search_entry_null in Hn. now cbn in Hn.
    + reflexivity.
  - rewrite lpm_search_loop_block. cbv zeta.
    set (e0 := entry_at es (byte_at addr level)).
    assert (IH0 : forall level data,
               (forall n,
                   mdata (search_entry (mbase e0) addr level n) <> NULL ->
                   (forall n', (n < n')%nat ->
                               mdata (search_entry (mbase e0) addr level n') = NULL) ->
                   lpm_search_loop (mbase e0) addr level data =
                   mdata (search_entry (mbase e0) addr level n)) /\
               ((forall n, mdata (search_entry (mbase e0) addr level n) = NULL) ->
                lpm_search_loop (mbase e0) addr level data = data)).
    { subst e0. apply (entry_at_Forall _ es (byte_at addr level) IH).
      intros level' data'. cbn [mbase mnode_zero]. split.
      - intros n Hn. rewrite search_entry_null in Hn. now cbn in Hn.
      - reflexivity. }
    split.
    + intros [|n] Hn Hdeeper.
      * rewrite search_entry_O in Hn |- *. fold e0 in Hn |- *.
        destruct (Z.eqb_spec (mdata e0) NULL); [contradiction|].
        apply (proj2 (IH0 (level + 1) (mdata e0))).
        intros m. unfold e0. rewrite <- search_entry_S. apply Hdeeper. lia.
      * rewrite search_entry_S in Hn |- *. fold e0 in Hn |- *.
        apply (proj1 (IH0 (level + 1) _)); [exact Hn|].
        intros m Hm. unfold e0. rewrite <- search_entry_S. apply Hdeeper. lia.
    + intros Hall.
      pose proof (Hall O) as H0. rewrite search_entry_O in H0. fold e0 in H0.
      rewrite H0. cbn [Z.eqb NULL].
      apply (proj2 (IH0 (level + 1) data)).
      intros m. unfold e0. rewrite <- search_entry_S. apply Hall.
Qed.

(** [lpm_search_table] answers the data of the deepest entry that holds
    data among the entries on the path of the address, one in each
    block, with the default flag cleared; when none of them holds data
    it answers the default data, null or not, with the flag set. *)
Theorem search_deepest_entry (t : lpm_lkup_table_t) (a : list Z) (u : Z) :
  (forall n,
      mdata (search_entry (hi256_table_base t) a 0 n) <> NULL ->
      (forall n', (n < n')%nat -> mdata (search_entry (hi256_table_base t) a 0 n') = NULL) ->
      lpm_search_table (Some t) (Some a) (Some u) =
        (mdata (search_entry (hi256_table_base t) a 0 n), Some 0)) /\
  ((forall n, mdata (search_entry (hi256_table_base t) a 0 n) = NULL) ->
   lpm_search_table (Some t) (Some a) (Some u) = (default_data t, Some 1)).
Proof.
  destruct (lpm_search_loop_deepest a (hi256_table_base t) 0 NULL) as [H1 H2].
  unfold lpm_search_table. split.
  - intros n Hn Hdeeper. rewrite (H1 n Hn Hdeeper).
    destruct (Z.eqb_spec (mdata (search_entry (hi256_table_base t) a 0 n)) NULL);
      [contradiction|reflexivity].
  - intros Hall. now rewrite (H2 Hall).
Qed.

Lemma search_deepest_entry_witness :
  lpm_search_table (Some (table_after [OpAdd [10] 8 7; OpAdd [10; 1] 16 9]))
                   (Some [10; 1; 2; 3]) (Some 5) = (9, Some 0) /\
  lpm_search_table (Some (table_after [OpAdd [10] 8 7; OpAdd [10; 1] 16 9]))
                   (Some [11; 1; 2; 3]) (Some 5) = (NULL, Some 1).
Proof.
  split.
  - apply (proj1 (search_deepest_entry (table_after [OpAdd [10] 8 7; OpAdd [10; 1] 16 9])
                    [10; 1; 2; 3] 5) 1%nat).
    + vm_compute. discriminate.
    + intros [|[|n']] Hn; try lia.
      unfold search_entry.
      replace (mtrie_block_at (S (S n')) _ _ _) with MNull.
      * cbn [block_entries]. now rewrite entry_at_zero_block.
      * symmetry.
        change (S (S n')) with (2 + n')%nat.
        assert (H2 : mtrie_block_at 2
                       (hi256_table_base
                          (table_after [OpAdd [10] 8 7; OpAdd [10; 1] 16 9]))
                       [10; 1; 2; 3] 0 = MNull) by (vm_compute; reflexivity).
        revert H2. generalize (hi256_table_base
                                 (table_after [OpAdd [10] 8 7; OpAdd [10; 1] 16 9])).
        intros b H2. cbn [Nat.add mtrie_block_at] in *. rewrite H2.
        apply mtrie_block_at_null.
  - apply (proj2 (search_deepest_entry (table_after [OpAdd [10] 8 7; OpAdd [10; 1] 16 9])
                    [11; 1; 2; 3] 5)).
    intros [|n].
    + vm_compute. reflexivity.
    + unfold search_entry.
      replace (mtrie_block_at (S n) _ _ _) with MNull.
      * cbn [block_entries]. now rewrite entry_at_zero_block.
      * symmetry.
        assert (H1 : mtrie_block_at 1
                       (hi256_table_base
                          (table_after [OpAdd [10] 8 7; OpAdd [10; 1] 16 9]))
                       [11; 1; 2; 3] 0 = MNull) by (vm_compute; reflexivity).
        revert H1. generalize (hi256_table_base
                                 (table_after [OpAdd [10] 8 7; OpAdd [10; 1] 16 9])).
        intros b H1. cbn [mtrie_block_at] in *. rewrite H1.
        apply mtrie_block_at_null.
Defined.

(** ** Writing the mtrie *)

(** [lpm_pattern_generate] writes the data into the entries whose index
    has the leading bits of [idx], up to the bit of [bitpos] in its
    byte; these entries keep their pointer to the block below, and the
    other entries and the length of the block stay. *)
Theorem pattern_generate_range (es : list mtrie_node_t) (idx bitpos data i : Z) :
  length es = 256%nat -> 0 <= idx < 256 -> 0 <= bitpos < 128 -> 0 <= i < 256 ->
  length (lpm_pattern_generate es idx bitpos data) = 256%nat /\
  entry_at (lpm_pattern_generate es idx bitpos data) i =
    if same_top (bitpos mod 8 + 1) i idx
    then MNode data (mbase (entry_at es i))
    else entry_at es i.
Proof.
  intros Hlen Hidx Hbit Hi.
  rewrite lpm_pattern_generate_write_where by (apply pattern_mask_land_nonneg; lia).
  split; [now rewrite write_where_length|].
  rewrite entry_at_write_where by (rewrite Hlen; lia).
  rewrite in_pattern_mod by lia.
  rewrite in_pattern_same_top by (try apply Z.mod_pos_bound; lia).
  reflexivity.
Qed.

Lemma pattern_generate_range_witness :
  entry_at (lpm_pattern_generate zero_block 10 5 7) 11 = MNode 7 MNull /\
  entry_at (lpm_pattern_generate zero_block 10 5 7) 12 = mnode_zero.
Proof.
  pose proof (pattern_generate_range zero_block 10 5 7 11
                eq_refl ltac:(lia) ltac:(lia) ltac:(lia)) as [_ H11].
  pose proof (pattern_generate_range zero_block 10 5 7 12
                eq_refl ltac:(lia) ltac:(lia) ltac:(lia)) as [_ H12].
  split; [exact H11|exact H12].
Defined.

Lemma mtrie_wf_block_at (n : nat) :
  forall blk addr level, mtrie_wf blk -> mtrie_wf (mtrie_block_at n blk addr level).
Proof.
  induction n as [|n IH]; intros blk addr level Hwf; [exact Hwf|].
  cbn [mtrie_block_at]. apply IH.
  apply mtrie_wf_block_entries in Hwf. apply mtrie_wf_block in Hwf. apply Hwf.
Qed.

Lemma mtrie_block_at_path_update_same (k : nat) :
  forall blk addr level F,
    mtrie_wf blk ->
    mtrie_block_at k (mtrie_path_update k blk addr level F) addr level =
    MBlock (F (block_entries (mtrie_block_at k blk addr level))).
Proof.
  induction k as [|k IH]; intros blk addr level F Hwf; [reflexivity|].
  pose proof (block_entries_length blk Hwf) as Hlen.
  pose proof (mtrie_wf_block_entries blk Hwf) as Hwfb.
  apply mtrie_wf_block in Hwfb. destruct Hwfb as [_ Hsub].
  cbn [mtrie_path_update mtrie_block_at block_entries].
  pose proof (byte_at_range addr level).
  rewrite mbase_entry_at_set_entry_base by lia.
  rewrite Z.eqb_refl. cbn [andb].
  destruct (Z.ltb_spec (byte_at addr level) (Z.of_nat (length (block_entries blk))));
    [|lia].
  apply IH. apply Hsub.
Qed.

(** An expansion answers SUCCESS or RESOURCES.  It answers RESOURCES
    only when a block is missing on the chain of the address, and then
    the table is as before the call, blocks and entries and block
    counter, but for the failure counter, which is one higher. *)
Theorem expansion_failure_restores (table : lpm_lkup_table_t) (mem : list bool)
        (addr : list Z) (masklen tb : Z) (node : btrie_node_t) (data : Z)
        (r : lpm_result_t) (table' : lpm_lkup_table_t) (mem' : list bool) (addr' : list Z) :
  0 <= tb -> length addr = 16%nat -> mtrie_wf (hi256_table_base table) ->
  in_s32 (mtrie_block_alloc_stat (stat table)) ->
  lpm_prefix_expansion table mem addr masklen tb node data = Ret (r, table', mem', addr') ->
  (r = LPM_SUCCESS \/ r = LPM_ERR_RESOURCES) /\
  (r = LPM_ERR_RESOURCES ->
   table' = set_stat table (stat_mtrie_failed (stat table)) /\
   chain_missing (S (Z.to_nat (tb / 8))) (hi256_table_base table) addr 0 <> O) /\
  mtrie_wf (hi256_table_base table') /\
  table_frame table table'.
Proof.
  intros Htb Hlen Hwf Hrange Hrun. unfold lpm_prefix_expansion in Hrun.
  pose proof (expansion_frame _ _ _ _ _ _ _ _ _ _ _ Hrun) as Hframe.
  apply expansion_spec in Hrun; auto.
  destruct Hrun as [_ [_ [_ Hpost]]].
  pose proof (expansion_post_wf _ _ _ _ _ _ _ Hwf Hrange Hpost) as [Hwf' _].
  split; [|split; [|split]]; auto.
  - destruct Hpost as [[Hr _]|[[Hr _]|[Hr _]]]; auto.
  - intros Hr. destruct Hpost as [[_ [Hm Ht]]|[[Hr' _]|[Hr' _]]]; [|congruence|congruence].
    split; assumption.
Qed.

Lemma expansion_failure_restores_witness :
  match lpm_prefix_expansion (fresh_table None) [false] (10 :: 1 :: repeat 0 14) 16 15
          (BNode 7 BNull BNull) 7 with
  | Ret (r, table', _, _) =>
      r = LPM_ERR_RESOURCES /\
      table' = set_stat (fresh_table None) (stat_mtrie_failed (stat (fresh_table None)))
  | Abort => False
  end.
Proof.
  destruct (lpm_prefix_expansion (fresh_table None) [false] (10 :: 1 :: repeat 0 14) 16 15
              (BNode 7 BNull BNull) 7) as [[[[r table'] mem'] addr']|] eqn:E.
  - destruct (expansion_failure_restores (fresh_table None) [false] (10 :: 1 :: repeat 0 14)
                16 15 (BNode 7 BNull BNull) 7 r table' mem' addr')
      as [_ [Hfail _]].
    + lia.
    + reflexivity.
    + vm_compute. reflexivity.
    + vm_compute. split; [discriminate|reflexivity].
    + exact E.
    + assert (Hr : r = LPM_ERR_RESOURCES) by (vm_compute in E; congruence).
      split; [exact Hr|]. apply Hfail. exact Hr.
  - vm_compute in E. discriminate E.
Defined.

(** A successful expansion of the prefix of [tb + 1] bits of [addr]
    from the btrie node of that prefix: in the block of the last byte
    of the prefix, the entries that share the leading bits of that byte
    and are not under a node that holds data get the data, and the other
    entries of the block keep theirs. *)
Theorem expansion_writes (table : lpm_lkup_table_t) (mem : list bool)
        (addr : list Z) (masklen tb : Z) (node : btrie_node_t) (data : Z)
        (table' : lpm_lkup_table_t) (mem' : list bool) (addr' : list Z) (i : Z) :
  0 <= tb -> length addr = 16%nat -> mtrie_wf (hi256_table_base table) ->
  in_s32 (mtrie_block_alloc_stat (stat table)) ->
  lpm_prefix_expansion table mem addr masklen tb node data =
    Ret (LPM_SUCCESS, table', mem', addr') ->
  0 <= i < 256 ->
  mtrie_data_at (hi256_table_base table') addr (Z.to_nat (tb / 8)) i =
    if stride_written node (tb mod 8) (byte_at addr (tb / 8)) i
    then data
    else mtrie_data_at (hi256_table_base table) addr (Z.to_nat (tb / 8)) i.
Proof.
  intros Htb Hlen Hwf Hrange Hrun Hi. unfold lpm_prefix_expansion in Hrun.
  apply expansion_spec in Hrun; auto.
  destruct Hrun as [_ [_ [_ Hpost]]].
  destruct Hpost as [[Hr _]|[[_ [-> Hnone]]|[_ ->]]]; [discriminate Hr| |].
  - now rewrite (Hnone i Hi).
  - unfold mtrie_data_at, table_after_write.
    cbn [hi256_table_base set_stat set_hi256_table_base].
    rewrite mtrie_block_at_path_update_same by exact Hwf.
    cbn [block_entries].
    rewrite entry_at_write_where.
    + now destruct (stride_written _ _ _ _).
    + rewrite block_entries_length; [lia|]. now apply mtrie_wf_block_at.
Qed.

Lemma expansion_writes_witness :
  match lpm_prefix_expansion (fresh_table None) [] (10 :: repeat 0 15) 6 5
          (BNode 7 BNull BNull) 7 with
  | Ret (LPM_SUCCESS, table', _, _) =>
      mtrie_data_at (hi256_table_base table') (10 :: repeat 0 15) 0 11 = 7 /\
      mtrie_data_at (hi256_table_base table') (10 :: repeat 0 15) 0 12 = NULL
  | _ => False
  end.
Proof.
  destruct (lpm_prefix_expansion (fresh_table None) [] (10 :: repeat 0 15) 6 5
              (BNode 7 BNull BNull) 7) as [[[[r table'] mem'] addr']|] eqn:E;
    [|vm_compute in E; discriminate E].
  destruct r; try (vm_compute in E; discriminate E).
  split.
  - apply (expansion_writes (fresh_table None) [] (10 :: repeat 0 15) 6 5
             (BNode 7 BNull BNull) 7 table' mem' addr' 11);
      try lia; try reflexivity; try exact E.
    vm_compute. split; [discriminate|reflexivity].
  - apply (expansion_writes (fresh_table None) [] (10 :: repeat 0 15) 6 5
             (BNode 7 BNull BNull) 7 table' mem' addr' 12);
      try lia; try reflexivity; try exact E.
    vm_compute. split; [discriminate|reflexivity].
Defined.

(** *** Destroying the tries *)

Lemma btrie_size_nonneg (node : btrie_node_t) : 0 <= btrie_size node.
Proof. induction node as [|d c0 IH0 c1 IH1]; cbn [btrie_size]; lia. Qed.

Lemma mtrie_size_block (es : list mtrie_node_t) :
  mtrie_size (MBlock es) = 1 + entries_size es.
Proof.
  reflexivity.
Qed.

Lemma mtrie_size_nonneg (b : mtrie_block_t) : 0 <= mtrie_size b.
Proof.
  induction b as [|es IH] using mtrie_block_induction.
  - cbn. lia.
  - rewrite mtrie_size_block.
    enough (0 <= entries_size es) by lia.
    induction IH as [|[d b] tl Hb _ IHtl]; cbn [entries_size mbase] in *; lia.
Qed.

Lemma entries_size_nonneg (es : list mtrie_node_t) : 0 <= entries_size es.
Proof.
  induction es as [|[d b] tl IH]; cbn [entries_size]; [lia|].
  pose proof (mtrie_size_nonneg b). lia.
Qed.

Lemma stat_released_zero (s : lpm_lkup_table_stat) : stat_released s 0 0 = s.
Proof. destruct s. unfold stat_released. cbn. rewrite !Z.sub_0_r. reflexivity. Qed.

(** The nodes of a sub-tree are freed one by one, the children before
    the node; the first free that finds the counter at 0 stops the
    program. *)
Lemma btrie_destroy_subtree_spec (node : btrie_node_t) :
  forall t : lpm_lkup_table_t,
    0 <= btrie_node_alloc_stat (stat t) < 2147483648 ->
    __btrie_destroy_subtree t node =
    if btrie_size node <=? btrie_node_alloc_stat (stat t)
    then Ret (set_stat t (stat_released (stat t) (btrie_size node) 0))
    else Abort.
Proof.
  induction node as [|d c0 IH0 c1 IH1]; intros t Hc.
  - cbn [__btrie_destroy_subtree btrie_size].
    destruct (Z.leb_spec 0 (btrie_node_alloc_stat (stat t))) as [_|H]; [|lia].
    rewrite stat_released_zero, set_stat_same. reflexivity.
  - cbn [__btrie_destroy_subtree btrie_size].
    pose proof (btrie_size_nonneg c0) as H0. pose proof (btrie_size_nonneg c1) as H1.
    rewrite (IH0 t Hc).
    set (s0 := btrie_size c0) in *. set (s1 := btrie_size c1) in *.
    destruct t as [nm br hb dd da dm df [a b c e f g]].
    cbn [stat btrie_node_alloc_stat] in *.
    destruct (Z.leb_spec s0 a) as [L0|L0]; cbn [bind].
    + rewrite IH1 by (cbn [stat set_stat stat_released btrie_node_alloc_stat]; lia).
      cbn [stat set_stat stat_released btrie_node_alloc_stat btrie_node_alloc_fail_stat
           mtrie_block_alloc_stat mtrie_block_alloc_fail_stat data_total data_per_masklen].
      fold s1.
      destruct (Z.leb_spec s1 (a - s0)) as [L1|L1]; cbn [bind].
      * unfold btrie_free_node, btrie_mem_free.
        cbn [stat set_stat btrie_node_alloc_stat set_btrie_node_alloc_stat stat_released
             btrie_node_alloc_fail_stat mtrie_block_alloc_stat mtrie_block_alloc_fail_stat
             data_total data_per_masklen name btrie_root hi256_table_base default_data
             default_addr default_masklen debug_flag].
        destruct (Z.ltb_spec 0 (a - s0 - s1)) as [L2|L2]; cbn [bind].
        -- destruct (Z.leb_spec (1 + s0 + s1) a) as [_|L3]; [|lia].
           rewrite s32_small by (unfold in_s32; lia). unfold set_stat, stat_released.
           cbn [stat btrie_node_alloc_stat btrie_node_alloc_fail_stat
                mtrie_block_alloc_stat mtrie_block_alloc_fail_stat data_total
                data_per_masklen name btrie_root hi256_table_base default_data
                default_addr default_masklen debug_flag].
           rewrite ?Z.sub_0_r.
           replace (a - s0 - s1 - 1) with (a - (1 + s0 + s1)) by lia.
           reflexivity.
        -- destruct (Z.leb_spec (1 + s0 + s1) a) as [L3|_]; [lia|].
           reflexivity.
      * destruct (Z.leb_spec (1 + s0 + s1) a) as [L3|_]; [lia|].
        reflexivity.
    + destruct (Z.leb_spec (1 + s0 + s1) a) as [L3|_]; [lia|].
      reflexivity.
Qed.

Lemma stat_released_twice (s : lpm_lkup_table_stat) (n1 b1 n2 b2 : Z) :
  stat_released (stat_released s n1 b1) n2 b2 = stat_released s (n1 + n2) (b1 + b2).
Proof.
  destruct s as [a b c e f g]. unfold stat_released.
  cbn [btrie_node_alloc_stat btrie_node_alloc_fail_stat mtrie_block_alloc_stat
       mtrie_block_alloc_fail_stat data_total data_per_masklen].
  replace (a - n1 - n2) with (a - (n1 + n2)) by lia.
  replace (c - b1 - b2) with (c - (b1 + b2)) by lia.
  reflexivity.
Qed.

Lemma mtrie_mem_free_block (st : lpm_lkup_table_stat) (es : list mtrie_node_t) :
  0 <= mtrie_block_alloc_stat st < 2147483648 ->
  mtrie_mem_free st (MBlock es) =
  if 1 <=? mtrie_block_alloc_stat st then Ret (stat_released st 0 1) else Abort.
Proof.
  intros Hc. destruct st as [a b c e f g]. unfold mtrie_mem_free, stat_released.
  cbn [btrie_node_alloc_stat btrie_node_alloc_fail_stat mtrie_block_alloc_stat
       mtrie_block_alloc_fail_stat data_total data_per_masklen
       set_mtrie_block_alloc_stat] in *.
  destruct (Z.ltb_spec 0 c) as [L|L]; destruct (Z.leb_spec 1 c) as [L'|L']; try lia.
  - rewrite s32_small by (unfold in_s32; lia). rewrite Z.sub_0_r. reflexivity.
  - reflexivity.
Qed.

Lemma stat_released_blocks (s : lpm_lkup_table_stat) (n b : Z) :
  mtrie_block_alloc_stat (stat_released s n b) = mtrie_block_alloc_stat s - b.
Proof. reflexivity. Qed.

(** The blocks of an mtrie are freed one by one, those below a block
    before the block; the first free that finds the counter at 0 stops
    the program. *)
Lemma mtrie_free_block_spec (base : mtrie_block_t) :
  forall st : lpm_lkup_table_stat,
    0 <= mtrie_block_alloc_stat st < 2147483648 ->
    __mtrie_free_block st base =
    if mtrie_size base <=? mtrie_block_alloc_stat st
    then Ret (stat_released st 0 (mtrie_size base))
    else Abort.
Proof.
  induction base as [|es IH] using mtrie_block_induction; intros st Hc.
  - cbn [__mtrie_free_block mtrie_size].
    destruct (Z.leb_spec 0 (mtrie_block_alloc_stat st)) as [_|H]; [|lia].
    rewrite stat_released_zero. reflexivity.
  - rewrite mtrie_free_block_unfold, mtrie_size_block.
    assert (Hes : forall st : lpm_lkup_table_stat,
               0 <= mtrie_block_alloc_stat st < 2147483648 ->
               free_entries es st =
               if entries_size es <=? mtrie_block_alloc_stat st
               then Ret (stat_released st 0 (entries_size es))
               else Abort).
    { clear st Hc.
      induction IH as [|[d b] tl Hb _ IHtl]; intros st Hc.
      - cbn [free_entries entries_size].
        destruct (Z.leb_spec 0 (mtrie_block_alloc_stat st)) as [_|H]; [|lia].
        rewrite stat_released_zero. reflexivity.
      - cbn [free_entries entries_size mbase] in *.
        pose proof (mtrie_size_nonneg b) as H0.
        pose proof (entries_size_nonneg tl) as H1.
        rewrite (Hb st Hc).
        set (s0 := mtrie_size b) in *. set (s1 := entries_size tl) in *.
        destruct (Z.leb_spec s0 (mtrie_block_alloc_stat st)) as [L0|L0]; cbn [bind].
        + rewrite IHtl by (rewrite stat_released_blocks; lia).
          rewrite stat_released_blocks, stat_released_twice.
          destruct (Z.leb_spec s1 (mtrie_block_alloc_stat st - s0)) as [L1|L1];
            destruct (Z.leb_spec (s0 + s1) (mtrie_block_alloc_stat st)) as [L2|L2];
            try lia; reflexivity.
        + destruct (Z.leb_spec (s0 + s1) (mtrie_block_alloc_stat st)) as [L2|L2];
            try lia; reflexivity. }
    pose proof (entries_size_nonneg es) as H1.
    rewrite (Hes st Hc).
    set (s1 := entries_size es) in *.
    destruct (Z.leb_spec s1 (mtrie_block_alloc_stat st)) as [L0|L0]; cbn [bind].
    + rewrite mtrie_mem_free_block by (rewrite stat_released_blocks; lia).
      rewrite stat_released_blocks, stat_released_twice.
      destruct (Z.leb_spec 1 (mtrie_block_alloc_stat st - s1)) as [L1|L1];
        destruct (Z.leb_spec (1 + s1) (mtrie_block_alloc_stat st)) as [L2|L2];
        try lia; [|reflexivity].
      replace (s1 + 1) with (1 + s1) by lia. reflexivity.
    + destruct (Z.leb_spec (1 + s1) (mtrie_block_alloc_stat st)) as [L2|L2];
        try lia; reflexivity.
Qed.

(** [btrie_destroy] frees every node of the btrie and [mtrie_destroy]
    every block of the mtrie, lowering the allocation counter by one for
    each; the pointer of the table is reset, nothing else is written.
    A counter lower than the number of nodes (blocks) stops the program
    at the failed assertion of the free that finds it at 0.
    [lpm_destroy_table] runs both and returns SUCCESS, or INVALID for a
    null table. *)
Theorem destroy_releases_all (t : lpm_lkup_table_t) :
  0 <= btrie_node_alloc_stat (stat t) < 2147483648 ->
  0 <= mtrie_block_alloc_stat (stat t) < 2147483648 ->
  mtrie_wf (hi256_table_base t) ->
  let nodes := btrie_size (btrie_root t) in
  let blocks := mtrie_size (hi256_table_base t) in
  btrie_destroy t =
    (if nodes <=? btrie_node_alloc_stat (stat t)
     then Ret (set_btrie_root (set_stat t (stat_released (stat t) nodes 0)) BNull)
     else Abort) /\
  mtrie_destroy t =
    (if blocks <=? mtrie_block_alloc_stat (stat t)
     then Ret (set_hi256_table_base (set_stat t (stat_released (stat t) 0 blocks)) MNull)
     else Abort) /\
  lpm_destroy_table (Some t) =
    (if (blocks <=? mtrie_block_alloc_stat (stat t)) &&
        (nodes <=? btrie_node_alloc_stat (stat t))
     then Ret (LPM_SUCCESS, None)
     else Abort) /\
  lpm_destroy_table None = Ret (LPM_ERR_INVALID, None).
Proof.
  intros Hb Hm _ nodes blocks.
  assert (Eb : forall u : lpm_lkup_table_t,
             btrie_root u = btrie_root t ->
             btrie_node_alloc_stat (stat u) = btrie_node_alloc_stat (stat t) ->
             btrie_destroy u =
             if nodes <=? btrie_node_alloc_stat (stat t)
             then Ret (set_btrie_root (set_stat u (stat_released (stat u) nodes 0)) BNull)
             else Abort).
  { intros u Hr Hc. unfold btrie_destroy, btrie_destroy_subtree.
    rewrite btrie_destroy_subtree_spec by (rewrite Hc; exact Hb).
    rewrite Hr, Hc. fold nodes.
    destruct (nodes <=? btrie_node_alloc_stat (stat t)); reflexivity. }
  assert (Em : mtrie_destroy t =
               if blocks <=? mtrie_block_alloc_stat (stat t)
               then Ret (set_hi256_table_base
                           (set_stat t (stat_released (stat t) 0 blocks)) MNull)
               else Abort).
  { unfold mtrie_destroy, mtrie_free_block.
    rewrite mtrie_free_block_spec by exact Hm. fold blocks.
    destruct (blocks <=? mtrie_block_alloc_stat (stat t)); reflexivity. }
  split; [apply Eb; reflexivity|]. split; [exact Em|]. split; [|reflexivity].
  unfold lpm_destroy_table. rewrite Em.
  destruct (blocks <=? mtrie_block_alloc_stat (stat t)); cbn [bind andb]; [|reflexivity].
  rewrite Eb; [|reflexivity|exact (Z.sub_0_r _)].
  destruct (nodes <=? btrie_node_alloc_stat (stat t)); reflexivity.
Qed.

Lemma destroy_releases_all_witness :
  btrie_destroy (table_after [OpAdd [10; 1] 16 5; OpAdd [10; 2] 12 6]) =
    Ret (set_btrie_root
           (set_stat (table_after [OpAdd [10; 1] 16 5; OpAdd [10; 2] 12 6])
                     (mkStat 0 0 2 0 2
                             (data_per_masklen
                                (stat (table_after [OpAdd [10; 1] 16 5; OpAdd [10; 2] 12 6])))))
           BNull) /\
  lpm_destroy_table (Some (table_after [OpAdd [10; 1] 16 5; OpAdd [10; 2] 12 6])) =
    Ret (LPM_SUCCESS, None).
Proof.
  assert (Hb : 0 <= btrie_node_alloc_stat
                      (stat (table_after [OpAdd [10; 1] 16 5; OpAdd [10; 2] 12 6]))
               < 2147483648) by (vm_compute; split; [discriminate|reflexivity]).
  assert (Hm : 0 <= mtrie_block_alloc_stat
                      (stat (table_after [OpAdd [10; 1] 16 5; OpAdd [10; 2] 12 6]))
               < 2147483648) by (vm_compute; split; [discriminate|reflexivity]).
  assert (Hw : mtrie_wf (hi256_table_base
                           (table_after [OpAdd [10; 1] 16 5; OpAdd [10; 2] 12 6])))
    by (vm_compute; reflexivity).
  pose proof (destroy_releases_all _ Hb Hm Hw) as H. cbv zeta in H.
  destruct H as [H1 [_ [H3 _]]].
  split.
  - rewrite H1. vm_compute. reflexivity.
  - rewrite H3. vm_compute. reflexivity.
Defined.

(** *** Counting through the calls *)

Lemma s32_add_l (a b : Z) : s32 (s32 a + b) = s32 (a + b).
Proof.
  unfold s32.
  replace ((a + 2147483648) mod 4294967296 - 2147483648 + b + 2147483648)
    with ((a + 2147483648) mod 4294967296 + b) by lia.
  rewrite Zplus_mod_idemp_l. f_equal. f_equal. lia.
Qed.

Lemma s32_sub_l (a b : Z) : s32 (s32 a - b) = s32 (a - b).
Proof. replace (s32 a - b) with (s32 a + - b) by lia. rewrite s32_add_l. reflexivity. Qed.

Lemma incr_times_s32 (c : nat) (x : Z) :
  incr_times c (s32 x) = s32 (x + Z.of_nat c).
Proof.
  induction c as [|c IH].
  - unfold incr_times. cbn [Nat.iter Z.of_nat]. now rewrite Z.add_0_r.
  - rewrite incr_times_S, IH, s32_add_l.
    replace (x + Z.of_nat c + 1) with (x + Z.of_nat (S c)) by lia. reflexivity.
Qed.

Lemma existing_le (n : nat) :
  forall m node addr pos,
    (existing n node addr pos <= m <= n)%nat ->
    existing m node addr pos = existing n node addr pos.
Proof.
  induction n as [|n IH]; intros m node addr pos H.
  - cbn [existing] in *. replace m with O by lia. reflexivity.
  - cbn [existing] in *.
    destruct (bchild node (addr_bit addr pos)) as [|d c0 c1] eqn:Ec.
    + destruct m; cbn [existing]; [reflexivity|]. rewrite Ec. reflexivity.
    + destruct m as [|m]; [lia|]. cbn [existing]. rewrite Ec.
      f_equal. apply IH. lia.
Qed.

Lemma btrie_size_bset_child (node c : btrie_node_t) (bit : Z) :
  node <> BNull ->
  btrie_size (bset_child node bit c) =
  btrie_size node - btrie_size (bchild node bit) + btrie_size c.
Proof.
  destruct node as [|d c0 c1]; [intros H; now destruct H|]. intros _.
  unfold bset_child, bchild. destruct (bit =? 0); cbn [btrie_size]; lia.
Qed.

Lemma btrie_size_bt_ensure (m : nat) :
  forall node addr pos,
    btrie_size (bt_ensure m node addr pos) =
    match node with
    | BNull => Z.of_nat (S m)
    | BNode _ _ _ => btrie_size node + Z.of_nat (m - existing m node addr pos)
    end.
Proof.
  induction m as [|m IH]; intros node addr pos.
  - cbn [bt_ensure]. destruct node; cbn [materialize btrie_size existing Nat.sub]; lia.
  - cbn [bt_ensure].
    rewrite btrie_size_bset_child by apply materialize_not_null.
    rewrite IH.
    destruct node as [|d c0 c1]; cbn [materialize].
    + cbn [bchild]. destruct (addr_bit addr pos =? 0); cbn [btrie_size]; lia.
    + cbn [existing].
      destruct (bchild (BNode d c0 c1) (addr_bit addr pos)) as [|d' c0' c1'] eqn:Ec.
      * cbn [btrie_size]. lia.
      * cbn [btrie_size]. replace (S m - S (existing m (BNode d' c0' c1') addr (pos + 1)))%nat
          with (m - existing m (BNode d' c0' c1') addr (pos + 1))%nat by lia.
        set (x := btrie_size (BNode d c0 c1)). cbn [btrie_size]. lia.
Qed.

Lemma btrie_within_null (n : nat) : btrie_within n BNull = true.
Proof. destruct n; reflexivity. Qed.

Lemma btrie_within_bset_child (n : nat) (node c : btrie_node_t) (bit : Z) :
  btrie_within (S n) node = true -> btrie_within n c = true ->
  btrie_within (S n) (bset_child node bit c) = true.
Proof.
  destruct node as [|d c0 c1]; [intros _ _; reflexivity|].
  cbn [btrie_within bset_child]. intros H Hc. apply andb_prop in H. destruct H as [H0 H1].
  destruct (bit =? 0); cbn [btrie_within]; rewrite ?H0, ?H1, ?Hc; reflexivity.
Qed.

Lemma btrie_within_bchild (n : nat) (node : btrie_node_t) (bit : Z) :
  btrie_within (S n) node = true -> btrie_within n (bchild node bit) = true.
Proof.
  destruct node as [|d c0 c1]; [intros _; apply btrie_within_null|].
  cbn [btrie_within bchild]. intros H. apply andb_prop in H. destruct H as [H0 H1].
  destruct (bit =? 0); assumption.
Qed.

Lemma btrie_within_materialize (n : nat) (node : btrie_node_t) :
  btrie_within n node = true -> btrie_within n (materialize node) = true.
Proof.
  destruct node; [|exact (fun H => H)]. intros _.
  destruct n; cbn [materialize btrie_within]; [reflexivity|].
  now rewrite btrie_within_null.
Qed.

Lemma btrie_within_bt_ensure (m : nat) :
  forall d node addr pos,
    (m <= d)%nat -> btrie_within d node = true ->
    btrie_within d (bt_ensure m node addr pos) = true.
Proof.
  induction m as [|m IH]; intros d node addr pos Hm Hw.
  - cbn [bt_ensure]. now apply btrie_within_materialize.
  - cbn [bt_ensure]. destruct d as [|d]; [lia|].
    apply btrie_within_bset_child.
    + now apply btrie_within_materialize.
    + apply IH; [lia|]. apply btrie_within_bchild. now apply btrie_within_materialize.
Qed.

Lemma btrie_within_pruned (small : btrie_node_t) :
  forall big d, btrie_pruned small big -> btrie_within d big = true ->
                btrie_within d small = true.
Proof.
  induction small as [|x c0 IH0 c1 IH1]; intros big d Hp Hw; [apply btrie_within_null|].
  destruct big as [|x' c0' c1']; [destruct Hp|].
  cbn [btrie_pruned] in Hp. destruct Hp as [_ [Hp0 Hp1]].
  destruct d as [|d]; cbn [btrie_within] in *.
  - apply andb_prop in Hw. destruct Hw as [H0 H1].
    destruct c0'; [|discriminate H0]. destruct c1'; [|discriminate H1].
    destruct c0; [|destruct Hp0]. destruct c1; [|destruct Hp1]. reflexivity.
  - apply andb_prop in Hw. destruct Hw as [H0 H1].
    rewrite (IH0 _ _ Hp0 H0), (IH1 _ _ Hp1 H1). reflexivity.
Qed.

Lemma btrie_size_modify_data (n : nat) (v : Z) :
  forall node addr pos,
    btrie_size (bnode_modify n node addr pos (fun nd => bset_data nd v)) = btrie_size node.
Proof.
  induction n as [|n IH]; intros node addr pos.
  - cbn [bnode_modify]. destruct node; reflexivity.
  - cbn [bnode_modify]. destruct node as [|d c0 c1]; [reflexivity|].
    rewrite btrie_size_bset_child by discriminate. rewrite IH. lia.
Qed.

Lemma btrie_within_modify_data (n : nat) (v : Z) :
  forall d node addr pos,
    btrie_within d node = true ->
    btrie_within d (bnode_modify n node addr pos (fun nd => bset_data nd v)) = true.
Proof.
  induction n as [|n IH]; intros d node addr pos Hw.
  - cbn [bnode_modify]. destruct node; [apply btrie_within_null|].
    destruct d; exact Hw.
  - cbn [bnode_modify]. destruct node as [|x c0 c1]; [apply btrie_within_null|].
    destruct d as [|d].
    + cbn [btrie_within] in Hw. apply andb_prop in Hw. destruct Hw as [H0 H1].
      destruct c0; [|discriminate H0]. destruct c1; [|discriminate H1].
      cbn [bchild]. destruct (addr_bit addr pos =? 0);
        (replace (bnode_modify n BNull addr (pos + 1) (fun nd => bset_data nd v)) with BNull;
         [cbn [bset_child]; destruct (addr_bit addr pos =? 0); reflexivity|]);
        clear; revert pos; induction n; intros pos; reflexivity.
    + apply btrie_within_bset_child; [exact Hw|].
      apply IH. now apply btrie_within_bchild.
Qed.

Lemma bnode_modify_not_null (n : nat) (f : btrie_node_t -> btrie_node_t) :
  forall node addr pos,
    node <> BNull -> (forall nd, nd <> BNull -> f nd <> BNull) ->
    bnode_modify n node addr pos f <> BNull.
Proof.
  destruct n as [|n]; intros node addr pos Hn Hf.
  - cbn [bnode_modify]. now apply Hf.
  - cbn [bnode_modify]. now apply bset_child_not_null.
Qed.

(** Replacing the sub-tree at the end of a path that is there. *)
Lemma btrie_size_modify_sub (n : nat) (sub : btrie_node_t) :
  forall node addr pos,
    bnode_at n node addr pos <> BNull ->
    btrie_size (bnode_modify n node addr pos (fun _ => sub)) =
    btrie_size node - btrie_size (bnode_at n node addr pos) + btrie_size sub.
Proof.
  induction n as [|n IH]; intros node addr pos Hat.
  - cbn [bnode_modify bnode_at]. lia.
  - cbn [bnode_modify bnode_at] in *.
    destruct node as [|d c0 c1].
    + exfalso. apply Hat. clear. cbn [bchild]. generalize (pos + 1).
      induction n; intros p; [reflexivity|]. cbn [bnode_at bchild]. apply IHn.
    + rewrite btrie_size_bset_child by discriminate.
      rewrite IH by exact Hat. lia.
Qed.

Lemma entries_size_upd_nth (n : nat) :
  forall (es : list mtrie_node_t) (e : mtrie_node_t),
    (n < length es)%nat ->
    entries_size (upd_nth n es e) =
    entries_size es - mtrie_size (mbase (nth n es mnode_zero)) + mtrie_size (mbase e).
Proof.
  induction n as [|n IH]; intros es e Hn.
  - destruct es as [|[d b] tl]; [cbn in Hn; lia|].
    destruct e as [d' b']. cbn [upd_nth entries_size nth mbase]. lia.
  - destruct es as [|[d b] tl]; [cbn in Hn; lia|].
    cbn [upd_nth entries_size nth]. rewrite IH by (cbn in Hn; lia). lia.
Qed.

Lemma entries_size_set_entry_base (es : list mtrie_node_t) (idx : Z) (b : mtrie_block_t) :
  (Z.to_nat idx < length es)%nat ->
  entries_size (set_entry_base es idx b) =
  entries_size es - mtrie_size (mbase (entry_at es idx)) + mtrie_size b.
Proof.
  intros H. unfold set_entry_base, set_entry, entry_at.
  rewrite entries_size_upd_nth by exact H. reflexivity.
Qed.

Lemma entries_size_set_entry_data (es : list mtrie_node_t) (idx d : Z) :
  entries_size (set_entry_data es idx d) = entries_size es.
Proof.
  unfold set_entry_data, set_entry, entry_at.
  destruct (Nat.lt_ge_cases (Z.to_nat idx) (length es)) as [H|H].
  - rewrite entries_size_upd_nth by exact H. cbn [mbase]. lia.
  - rewrite upd_nth_overflow by exact H. reflexivity.
Qed.

Lemma entries_size_pattern_loop (n : nat) :
  forall es s d, entries_size (pattern_loop n es s d) = entries_size es.
Proof.
  induction n as [|n IH]; intros es s d; [reflexivity|].
  cbn [pattern_loop]. rewrite IH. apply entries_size_set_entry_data.
Qed.

Lemma entries_size_pattern_generate (es : list mtrie_node_t) (idx bitpos d : Z) :
  entries_size (lpm_pattern_generate es idx bitpos d) = entries_size es.
Proof. unfold lpm_pattern_generate. apply entries_size_pattern_loop. Qed.

Lemma entries_size_write_from (p : Z -> bool) (d : Z) (es : list mtrie_node_t) :
  forall s, entries_size (write_from s p d es) = entries_size es.
Proof.
  induction es as [|[x b] tl IH]; intros s; [reflexivity|].
  cbn [write_from entries_size mbase]. rewrite IH. destruct (p s); reflexivity.
Qed.

Lemma entries_size_write_where (p : Z -> bool) (d : Z) (es : list mtrie_node_t) :
  entries_size (write_where p d es) = entries_size es.
Proof. apply entries_size_write_from. Qed.

Lemma entries_size_zero_block : entries_size zero_block = 0.
Proof. reflexivity. Qed.

Lemma mtrie_wf_set_entry_data (es : list mtrie_node_t) (idx d : Z) :
  mtrie_wf (MBlock es) -> mtrie_wf (MBlock (set_entry_data es idx d)).
Proof.
  intros H. apply mtrie_wf_block in H. destruct H as [Hl Hb].
  apply mtrie_wf_block. unfold set_entry_data, set_entry. split.
  - rewrite upd_nth_length. exact Hl.
  - intros i. unfold entry_at.
    destruct (Nat.eq_dec (Z.to_nat idx) (Z.to_nat i)) as [E|E].
    + destruct (Nat.lt_ge_cases (Z.to_nat idx) (length es)) as [L|L].
      * rewrite <- E, nth_upd_nth_eq by exact L. cbn [mbase]. apply (Hb idx).
      * rewrite upd_nth_overflow by exact L. apply (Hb i).
    + rewrite nth_upd_nth_neq by exact E. apply (Hb i).
Qed.

Lemma mtrie_wf_pattern_loop (n : nat) :
  forall es s d, mtrie_wf (MBlock es) -> mtrie_wf (MBlock (pattern_loop n es s d)).
Proof.
  induction n as [|n IH]; intros es s d H; [exact H|].
  cbn [pattern_loop]. apply IH. now apply mtrie_wf_set_entry_data.
Qed.

Lemma mtrie_wf_pattern_generate (es : list mtrie_node_t) (idx bitpos d : Z) :
  mtrie_wf (MBlock es) -> mtrie_wf (MBlock (lpm_pattern_generate es idx bitpos d)).
Proof. unfold lpm_pattern_generate. apply mtrie_wf_pattern_loop. Qed.

Lemma byte_at_lt_length (addr : list Z) (i : Z) (es : list mtrie_node_t) :
  length es = 256%nat -> (Z.to_nat (byte_at addr i) < length es)%nat.
Proof. intros H. pose proof (byte_at_range addr i). lia. Qed.

(** The blocks that a chain makes to exist are the blocks missing on it. *)
Lemma mtrie_size_path_update (k : nat) (F : list mtrie_node_t -> list mtrie_node_t) :
  (forall es, length es = 256%nat -> entries_size (F es) = entries_size es) ->
  forall blk addr level,
    mtrie_wf blk ->
    mtrie_size (mtrie_path_update k blk addr level F) =
    mtrie_size blk + Z.of_nat (chain_missing (S k) blk addr level).
Proof.
  intros HF. induction k as [|k IH]; intros blk addr level Hwf.
  - cbn [mtrie_path_update]. rewrite mtrie_size_block.
    destruct blk as [|es].
    + cbn [block_entries]. rewrite HF by apply zero_block_length.
      cbn [chain_missing mtrie_size]. rewrite entries_size_zero_block. lia.
    + cbn [block_entries]. apply mtrie_wf_block in Hwf. destruct Hwf as [Hl _].
      rewrite HF by exact Hl. rewrite mtrie_size_block. cbn [chain_missing]. lia.
  - cbn [mtrie_path_update]. rewrite mtrie_size_block.
    pose proof (mtrie_wf_block_entries _ Hwf) as Hwe.
    apply mtrie_wf_block in Hwe. destruct Hwe as [Hl Hb].
    rewrite entries_size_set_entry_base by (now apply byte_at_lt_length).
    rewrite IH by apply Hb.
    destruct blk as [|es]; cbn [block_entries] in *.
    + rewrite entry_at_zero_block. cbn [mbase mnode_zero].
      rewrite entries_size_zero_block.
      change (chain_missing (S k) MNull addr (level + 1)) with (S k).
      change (chain_missing (S (S k)) MNull addr level) with (S (S k)).
      cbn [mtrie_size]. lia.
    + rewrite mtrie_size_block.
      change (chain_missing (S (S k)) (MBlock es) addr level)
        with (chain_missing (S k) (mbase (entry_at es (byte_at addr level))) addr (level + 1)).
      lia.
Qed.

Lemma mtrie_path_update_not_null (k : nat) (blk : mtrie_block_t) (addr : list Z) (level : Z)
      (F : list mtrie_node_t -> list mtrie_node_t) :
  mtrie_path_update k blk addr level F <> MNull.
Proof. destruct k; discriminate. Qed.

(** A prefix expansion keeps the mtrie and its counter in step, and
    leaves the btrie and its counter alone. *)
Lemma expansion_post_ok (table : lpm_lkup_table_t) (addr : list Z) (k : nat)
      (p : Z -> bool) (data : Z) (r : lpm_result_t) (table' : lpm_lkup_table_t) :
  mtrie_ok (hi256_table_base table) (mtrie_block_alloc_stat (stat table)) ->
  expansion_post table addr k p data r table' ->
  mtrie_ok (hi256_table_base table') (mtrie_block_alloc_stat (stat table')) /\
  btrie_root table' = btrie_root table /\
  btrie_node_alloc_stat (stat table') = btrie_node_alloc_stat (stat table).
Proof.
  intros [Hn [Hwf Hc]] [[_ [_ ->]]|[[_ [-> _]]|[_ ->]]].
  - split; [|split; reflexivity]. split; [exact Hn|]. split; [exact Hwf|exact Hc].
  - split; [|split; reflexivity]. split; [exact Hn|]. split; [exact Hwf|exact Hc].
  - split; [|split; reflexivity].
    unfold table_after_write.
    cbn [hi256_table_base set_stat set_hi256_table_base stat mtrie_block_alloc_stat
         set_mtrie_block_alloc_stat].
    split; [apply mtrie_path_update_not_null|]. split.
    + apply mtrie_wf_path_update; [exact Hwf|]. intros es. apply mtrie_wf_write_where.
    + rewrite mtrie_size_path_update;
        [|intros es _; apply entries_size_write_where|exact Hwf].
      rewrite Hc. apply incr_times_s32.
Qed.

(** *** Deleting *)

Lemma counter_eq_iff (c n : Z) : in_s32 c -> (c = s32 n <-> s32 (c - n) = 0).
Proof.
  intros Hc. split.
  - intros ->. rewrite s32_sub_l. replace (n - n) with 0 by lia. reflexivity.
  - intros H. rewrite <- (s32_small c Hc) at 1.
    replace c with (c - n + n) at 1 by lia.
    rewrite <- s32_add_l, H. reflexivity.
Qed.

Lemma zero_out_loop_ok (n : nat) :
  forall trie addr level masklen,
    mtrie_wf trie ->
    mtrie_wf (zero_out_loop n trie addr level masklen) /\
    mtrie_size (zero_out_loop n trie addr level masklen) = mtrie_size trie.
Proof.
  induction n as [|n IH]; intros trie addr level masklen Hwf; [now split|].
  cbn [zero_out_loop]. destruct trie as [|es]; [now split|].
  destruct (u32 (masklen - Z.shiftl level 3) <=? 8).
  - split; [now apply mtrie_wf_pattern_generate|].
    rewrite !mtrie_size_block, entries_size_pattern_generate. reflexivity.
  - pose proof (mtrie_wf_set_entry_data es (byte_at addr level) NULL Hwf) as Hwf1.
    assert (Hsub : mtrie_wf (mbase (entry_at es (byte_at addr level)))).
    { apply mtrie_wf_block in Hwf. apply Hwf. }
    destruct (IH (mbase (entry_at es (byte_at addr level))) addr (level + 1) masklen Hsub)
      as [Hw Hs].
    split.
    + apply mtrie_wf_set_entry_base; [apply byte_at_range|exact Hwf1|exact Hw].
    + rewrite !mtrie_size_block.
      apply mtrie_wf_block in Hwf1. destruct Hwf1 as [Hl1 _].
      rewrite entries_size_set_entry_base by (now apply byte_at_lt_length).
      rewrite Hs, entries_size_set_entry_data.
      replace (mbase (entry_at (set_entry_data es (byte_at addr level) NULL)
                               (byte_at addr level)))
        with (mbase (entry_at es (byte_at addr level))); [lia|].
      unfold set_entry_data, set_entry, entry_at.
      apply mtrie_wf_block in Hwf. destruct Hwf as [Hl _].
      rewrite nth_upd_nth_eq by (now apply byte_at_lt_length). reflexivity.
Qed.

Lemma mbase_entry_at_set_entry_data (es : list mtrie_node_t) (idx d i : Z) :
  mbase (entry_at (set_entry_data es idx d) i) = mbase (entry_at es i).
Proof.
  unfold set_entry_data, set_entry, entry_at.
  destruct (Nat.eq_dec (Z.to_nat idx) (Z.to_nat i)) as [E|E].
  - destruct (Nat.lt_ge_cases (Z.to_nat idx) (length es)) as [L|L].
    + rewrite <- E, nth_upd_nth_eq by exact L. reflexivity.
    + rewrite upd_nth_overflow by exact L. reflexivity.
  - rewrite nth_upd_nth_neq by exact E. reflexivity.
Qed.

(** [zero_out_data] writes data only: the blocks stay as they are. *)
Lemma zero_out_data_ok (t : lpm_lkup_table_t) (addr : list Z) (masklen : Z)
      (r : lpm_result_t) (t' : lpm_lkup_table_t) :
  zero_out_data t addr masklen = Ret (r, t') ->
  mtrie_ok (hi256_table_base t) (mtrie_block_alloc_stat (stat t)) ->
  mtrie_ok (hi256_table_base t') (mtrie_block_alloc_stat (stat t')) /\
  btrie_root t' = btrie_root t /\ stat t' = stat t.
Proof.
  unfold zero_out_data. intros Hrun [Hn [Hwf Hc]].
  destruct (hi256_table_base t) as [|es] eqn:Eb; [discriminate Hrun|].
  destruct (masklen <=? 8).
  - inversion Hrun; subst r t'; clear Hrun.
    cbn [hi256_table_base set_hi256_table_base stat btrie_root].
    split; [|split; reflexivity]. split; [discriminate|]. split.
    + now apply mtrie_wf_pattern_generate.
    + rewrite Hc, !mtrie_size_block, entries_size_pattern_generate. reflexivity.
  - pose proof (mtrie_wf_set_entry_data es (byte_at addr 0) NULL Hwf) as Hwf1.
    destruct (mbase (entry_at es (byte_at addr 0))) as [|sub] eqn:Es.
    + inversion Hrun; subst r t'; clear Hrun.
      cbn [hi256_table_base set_hi256_table_base stat btrie_root].
      split; [|split; reflexivity]. split; [discriminate|]. split; [exact Hwf1|].
      rewrite Hc, !mtrie_size_block, entries_size_set_entry_data. reflexivity.
    + apply ret_pair_inj in Hrun. destruct Hrun as [<- <-].
      cbn [hi256_table_base set_hi256_table_base stat btrie_root].
      split; [|split; reflexivity]. split; [discriminate|].
      assert (Hsub : mtrie_wf (MBlock sub)).
      { rewrite <- Es. apply mtrie_wf_block in Hwf. apply Hwf. }
      destruct (zero_out_loop_ok 15 (MBlock sub) addr 1 masklen Hsub) as [Hw Hs].
      split.
      * apply mtrie_wf_set_entry_base; [apply byte_at_range|exact Hwf1|exact Hw].
      * rewrite Hc, !mtrie_size_block.
        apply mtrie_wf_block in Hwf1. destruct Hwf1 as [Hl1 _].
        rewrite entries_size_set_entry_base by (now apply byte_at_lt_length).
        rewrite Hs, entries_size_set_entry_data, mbase_entry_at_set_entry_data, Es.
        f_equal. lia.
Qed.

Lemma entries_size_no_base (es : list mtrie_node_t) :
  forallb (fun e => mis_null (mbase e)) es = true -> entries_size es = 0.
Proof.
  induction es as [|[d b] tl IH]; [reflexivity|].
  cbn [forallb mbase entries_size]. intros H. apply andb_prop in H. destruct H as [Hb Ht].
  destruct b; [|discriminate Hb]. rewrite (IH Ht). reflexivity.
Qed.

Lemma forallb_no_base (es : list mtrie_node_t) :
  forallb (fun e => mis_null (mbase e)) es = true ->
  Forall (fun e => mbase e = MNull) es.
Proof.
  induction es as [|[d b] tl IH]; [constructor|].
  cbn [forallb mbase]. intros H. apply andb_prop in H. destruct H as [Hb Ht].
  constructor; [|now apply IH]. destruct b; [reflexivity|discriminate Hb].
Qed.

(** Freeing a block that has no block below it. *)
Lemma mtrie_free_block_leaf (table : lpm_lkup_table_t) (es : list mtrie_node_t)
      (table' : lpm_lkup_table_t) :
  forallb (fun e => mis_null (mbase e)) es = true ->
  mtrie_free_block table (MBlock es) = Ret table' ->
  table' = set_stat table
             (set_mtrie_block_alloc_stat (stat table)
                (s32 (mtrie_block_alloc_stat (stat table) - 1))).
Proof.
  intros Hnb. unfold mtrie_free_block. rewrite mtrie_free_block_unfold.
  rewrite free_entries_no_base by (now apply forallb_no_base).
  cbn [bind mtrie_mem_free].
  destruct (0 <? mtrie_block_alloc_stat (stat table)); [|discriminate].
  cbn [bind]. intros H. inversion H. reflexivity.
Qed.

(** The loop of [delete_trie_block] takes at most one block out of the
    tree, a block without blocks below it, and counts it. *)
Lemma delete_trie_block_loop_ok (n : nat) :
  forall table trie addr level es' table',
    delete_trie_block_loop n table trie addr level = Ret (es', table') ->
    mtrie_wf (MBlock trie) ->
    mtrie_wf (MBlock es') /\
    (exists c : Z,
        table' = set_stat table (set_mtrie_block_alloc_stat (stat table) c) /\
        (c = mtrie_block_alloc_stat (stat table) \/
         c = s32 (mtrie_block_alloc_stat (stat table) - 1)) /\
        s32 (c - entries_size es') =
        s32 (mtrie_block_alloc_stat (stat table) - entries_size trie)).
Proof.
  induction n as [|n IH]; intros table trie addr level es' table' Hrun Hwf.
  - cbn [delete_trie_block_loop] in Hrun.
    pose proof (proj1 (mtrie_wf_block trie) Hwf) as [Hl Hb].
    destruct (mbase (entry_at trie (byte_at addr level))) as [|es] eqn:Enext.
    + inversion Hrun; subst es' table'; clear Hrun. split.
      * apply mtrie_wf_set_entry_base; [apply byte_at_range|exact Hwf|reflexivity].
      * exists (mtrie_block_alloc_stat (stat table)). split; [|split; [now left|]].
        -- destruct table as [? ? ? ? ? ? ? []]; reflexivity.
        -- rewrite entries_size_set_entry_base by (now apply byte_at_lt_length).
           rewrite Enext. cbn [mtrie_size]. f_equal. lia.
    + destruct (forallb (fun e => mis_null (mbase e)) es) eqn:Hnb; [|discriminate Hrun].
      apply bind_ret in Hrun. destruct Hrun as [table1 [Hfree Hrun]].
      inversion Hrun; subst es' table'; clear Hrun.
      apply mtrie_free_block_leaf in Hfree; [|exact Hnb]. split.
      * apply mtrie_wf_set_entry_base; [apply byte_at_range|exact Hwf|reflexivity].
      * exists (s32 (mtrie_block_alloc_stat (stat table) - 1)).
        split; [exact Hfree|]. split; [now right|].
        rewrite entries_size_set_entry_base by (now apply byte_at_lt_length).
        rewrite Enext, mtrie_size_block, (entries_size_no_base _ Hnb).
        cbn [mtrie_size]. rewrite s32_sub_l. f_equal. lia.
  - cbn [delete_trie_block_loop] in Hrun.
    pose proof (proj1 (mtrie_wf_block trie) Hwf) as [Hl Hb].
    destruct (mbase (entry_at trie (byte_at addr level))) as [|es] eqn:Enext.
    + inversion Hrun; subst es' table'; clear Hrun. split.
      * apply mtrie_wf_set_entry_base; [apply byte_at_range|exact Hwf|reflexivity].
      * exists (mtrie_block_alloc_stat (stat table)). split; [|split; [now left|]].
        -- destruct table as [? ? ? ? ? ? ? []]; reflexivity.
        -- rewrite entries_size_set_entry_base by (now apply byte_at_lt_length).
           rewrite Enext. cbn [mtrie_size]. f_equal. lia.
    + apply bind_ret in Hrun. destruct Hrun as [[es1 table1] [Hrec Hrun]].
      inversion Hrun; subst es' table'; clear Hrun.
      assert (Hsub : mtrie_wf (MBlock es)) by (rewrite <- Enext; apply Hb).
      destruct (IH _ _ _ _ _ _ Hrec Hsub) as [Hw [c [Ht [Hc Hs]]]].
      split.
      * apply mtrie_wf_set_entry_base; [apply byte_at_range|exact Hwf|exact Hw].
      * exists c. split; [exact Ht|]. split; [exact Hc|].
        rewrite entries_size_set_entry_base by (now apply byte_at_lt_length).
        rewrite Enext, !mtrie_size_block.
        replace (c - (entries_size trie - (1 + entries_size es) + (1 + entries_size es1)))
          with ((c - entries_size es1) + (entries_size es - entries_size trie)) by lia.
        rewrite <- s32_add_l, Hs, s32_add_l. f_equal. lia.
Qed.

Lemma delete_trie_block_ok (table : lpm_lkup_table_t) (addr : list Z) (bitpos : Z)
      (table' : lpm_lkup_table_t) :
  delete_trie_block table addr bitpos = Ret table' ->
  mtrie_ok (hi256_table_base table) (mtrie_block_alloc_stat (stat table)) ->
  mtrie_ok (hi256_table_base table') (mtrie_block_alloc_stat (stat table')) /\
  btrie_root table' = btrie_root table /\
  btrie_node_alloc_stat (stat table') = btrie_node_alloc_stat (stat table).
Proof.
  unfold delete_trie_block. intros Hrun [Hn [Hwf Hc]].
  destruct (negb (BOUNDARY_BIT_POSITION bitpos)); [discriminate Hrun|].
  destruct (hi256_table_base table) as [|es] eqn:Eb; [discriminate Hrun|].
  apply bind_ret in Hrun. destruct Hrun as [[es' table1] [Hloop Hrun]].
  inversion Hrun; subst table'; clear Hrun.
  destruct (delete_trie_block_loop_ok _ _ _ _ _ _ _ Hloop Hwf) as [Hw [c [Ht [_ Hs]]]].
  subst table1.
  cbn [hi256_table_base set_hi256_table_base set_stat stat btrie_root
       mtrie_block_alloc_stat set_mtrie_block_alloc_stat btrie_node_alloc_stat].
  split; [|split; reflexivity]. split; [discriminate|]. split; [exact Hw|].
  destruct (delete_trie_block_loop_ok _ _ _ _ _ _ _ Hloop Hwf) as [_ [c' [Ht' [Hc' _]]]].
  assert (c' = c).
  { apply (f_equal (fun t => mtrie_block_alloc_stat (stat t))) in Ht'.
    cbn [set_stat stat mtrie_block_alloc_stat set_mtrie_block_alloc_stat] in Ht'.
    symmetry. exact Ht'. }
  subst c'.
  assert (Hin : in_s32 c) by (destruct Hc' as [->| ->]; [rewrite Hc|]; apply s32_in_range).
  apply counter_eq_iff; [exact Hin|].
  rewrite mtrie_size_block.
  replace (c - (1 + entries_size es')) with (c - entries_size es' - 1) by lia.
  rewrite <- s32_sub_l, Hs, s32_sub_l.
  replace (mtrie_block_alloc_stat (stat table) - entries_size es - 1)
    with (mtrie_block_alloc_stat (stat table) - (1 + entries_size es)) by lia.
  rewrite <- mtrie_size_block.
  apply counter_eq_iff; [rewrite Hc; apply s32_in_range|exact Hc].
Qed.

Lemma set_btrie_counter_same (t : lpm_lkup_table_t) :
  set_stat t (set_btrie_node_alloc_stat (stat t) (btrie_node_alloc_stat (stat t))) = t.
Proof. destruct t as [? ? ? ? ? ? ? []]. reflexivity. Qed.

(** Destroying a sub-tree counts each of its nodes. *)
Lemma btrie_destroy_subtree_counts (node : btrie_node_t) :
  forall t t' : lpm_lkup_table_t,
    __btrie_destroy_subtree t node = Ret t' ->
    in_s32 (btrie_node_alloc_stat (stat t)) ->
    t' = set_stat t (set_btrie_node_alloc_stat (stat t)
                       (s32 (btrie_node_alloc_stat (stat t) - btrie_size node))).
Proof.
  induction node as [|d c0 IH0 c1 IH1]; intros t t' Hrun Hc.
  - cbn [__btrie_destroy_subtree btrie_size] in *. inversion Hrun; subst t'.
    rewrite Z.sub_0_r, (s32_small _ Hc), set_btrie_counter_same. reflexivity.
  - cbn [__btrie_destroy_subtree] in Hrun.
    apply bind_ret in Hrun. destruct Hrun as [t1 [H0 Hrun]].
    apply bind_ret in Hrun. destruct Hrun as [t2 [H1 Hrun]].
    apply IH0 in H0; [|exact Hc]. subst t1.
    apply IH1 in H1; [|apply s32_in_range]. subst t2.
    unfold btrie_free_node, btrie_mem_free in Hrun.
    cbn [stat set_stat btrie_node_alloc_stat set_btrie_node_alloc_stat] in Hrun.
    destruct (0 <? _); [|discriminate Hrun].
    cbn [bind] in Hrun. inversion Hrun; clear Hrun.
    rewrite !s32_sub_l. cbn [btrie_size].
    set (s0 := btrie_size c0). set (s1 := btrie_size c1).
    replace (btrie_node_alloc_stat (stat t) - s0 - s1 - 1)
      with (btrie_node_alloc_stat (stat t) - (1 + s0 + s1)) by lia.
    destruct t as [? ? ? ? ? ? ? []]. reflexivity.
Qed.

(** [__delete_subtree] cuts sub-trees off and takes blocks out, counting
    each node and each block; the node it is called on stays. *)
Lemma delete_subtree_ok (temp_root : btrie_node_t) :
  forall table addr at_root bitpos v sub table',
    __delete_subtree table addr temp_root at_root bitpos = Ret (v, sub, table') ->
    mtrie_ok (hi256_table_base table) (mtrie_block_alloc_stat (stat table)) ->
    in_s32 (btrie_node_alloc_stat (stat table)) ->
    mtrie_ok (hi256_table_base table') (mtrie_block_alloc_stat (stat table')) /\
    btrie_root table' = btrie_root table /\
    btrie_node_alloc_stat (stat table') =
      s32 (btrie_node_alloc_stat (stat table) - (btrie_size temp_root - btrie_size sub)) /\
    sub <> BNull.
Proof.
  induction temp_root as [|d c0 IH0 c1 IH1];
    intros table addr at_root bitpos v sub table' Hrun Hm Hc.
  { rewrite delete_subtree_unfold in Hrun. discriminate Hrun. }
  assert (Hstep :
    forall c : btrie_node_t,
      (forall table addr at_root bitpos v sub table',
          __delete_subtree table addr c at_root bitpos = Ret (v, sub, table') ->
          mtrie_ok (hi256_table_base table) (mtrie_block_alloc_stat (stat table)) ->
          in_s32 (btrie_node_alloc_stat (stat table)) ->
          mtrie_ok (hi256_table_base table') (mtrie_block_alloc_stat (stat table')) /\
          btrie_root table' = btrie_root table /\
          btrie_node_alloc_stat (stat table') =
            s32 (btrie_node_alloc_stat (stat table) - (btrie_size c - btrie_size sub)) /\
          sub <> BNull) ->
      forall (T : lpm_lkup_table_t) (dv : Z) (c' : btrie_node_t) (T1 : lpm_lkup_table_t),
        match c with
        | BNull => Ret (1, BNull, T)
        | BNode _ _ _ =>
            ' (dl, sub, t1) <- __delete_subtree T addr c false (u32 (bitpos + 1)) ;;
            if negb (dl =? 0) then
              t2 <- btrie_destroy_subtree t1 sub ;;
              Ret (dl, BNull, t2)
            else Ret (dl, sub, t1)
        end = Ret (dv, c', T1) ->
        mtrie_ok (hi256_table_base T) (mtrie_block_alloc_stat (stat T)) ->
        in_s32 (btrie_node_alloc_stat (stat T)) ->
        mtrie_ok (hi256_table_base T1) (mtrie_block_alloc_stat (stat T1)) /\
        btrie_root T1 = btrie_root T /\
        btrie_node_alloc_stat (stat T1) =
          s32 (btrie_node_alloc_stat (stat T) - (btrie_size c - btrie_size c'))).
  { intros c IH T dv c' T1 Hs HmT HcT.
    destruct c as [|x y z].
    - inversion Hs; subst dv c' T1. split; [exact HmT|]. split; [reflexivity|].
      change (btrie_size BNull - btrie_size BNull) with 0.
      rewrite Z.sub_0_r. symmetry. now apply s32_small.
    - apply bind_ret in Hs. destruct Hs as [[[dl sub0] t1] [Hrec Hs]].
      destruct (IH _ _ _ _ _ _ _ Hrec HmT HcT) as [Hm1 [Hr1 [Hc1 Hn1]]].
      destruct (negb (dl =? 0)).
      + apply bind_ret in Hs. destruct Hs as [t2 [Hd Hs]].
        inversion Hs; subst dv c' T1; clear Hs.
        unfold btrie_destroy_subtree in Hd.
        apply btrie_destroy_subtree_counts in Hd; [|rewrite Hc1; apply s32_in_range].
        subst t2.
        cbn [hi256_table_base set_stat stat mtrie_block_alloc_stat
             set_btrie_node_alloc_stat btrie_root btrie_node_alloc_stat].
        split; [exact Hm1|]. split; [exact Hr1|].
        rewrite Hc1, s32_sub_l. f_equal.
        set (s := btrie_size (BNode x y z)). cbn [btrie_size]. lia.
      + inversion Hs; subst dv c' T1; clear Hs.
        split; [exact Hm1|]. split; [exact Hr1|exact Hc1]. }
  rewrite delete_subtree_unfold in Hrun.
  destruct (bis_null c0 && bis_null c1).
  { assert (Hsame : sub = BNode d c0 c1 /\ table' = table).
    { destruct (d =? NULL); inversion Hrun; now split. }
    destruct Hsame as [-> ->].
    split; [exact Hm|]. split; [reflexivity|]. split; [|discriminate].
    rewrite Z.sub_diag, Z.sub_0_r. symmetry. now apply s32_small. }
  apply bind_ret in Hrun. destruct Hrun as [[[dl c0'] table1] [Hleft Hrun]].
  destruct (Hstep c0 IH0 _ _ _ _ Hleft Hm Hc) as [Hm1 [Hr1 Hc1]].
  destruct (dl =? 0).
  { inversion Hrun; subst v sub table'; clear Hrun.
    split; [exact Hm1|]. split; [exact Hr1|]. split; [|discriminate].
    rewrite Hc1. f_equal. cbn [btrie_size]. lia. }
  apply bind_ret in Hrun. destruct Hrun as [[[dr c1'] table2] [Hright Hrun]].
  assert (Hin1 : in_s32 (btrie_node_alloc_stat (stat table1)))
    by (rewrite Hc1; apply s32_in_range).
  destruct (Hstep c1 IH1 _ _ _ _ Hright Hm1 Hin1) as [Hm2 [Hr2 Hc2]].
  assert (Hcount : btrie_node_alloc_stat (stat table2) =
                   s32 (btrie_node_alloc_stat (stat table) -
                        (btrie_size (BNode d c0 c1) - btrie_size (BNode d c0' c1')))).
  { rewrite Hc2, Hc1, s32_sub_l. f_equal. cbn [btrie_size]. lia. }
  assert (Hroot : btrie_root table2 = btrie_root table) by (now rewrite Hr2).
  destruct (dr =? 0).
  { inversion Hrun; subst v sub table'; clear Hrun.
    split; [exact Hm2|]. split; [exact Hroot|]. split; [exact Hcount|discriminate]. }
  destruct (negb at_root).
  - destruct (BOUNDARY_BIT_POSITION bitpos).
    + apply bind_ret in Hrun. destruct Hrun as [table3 [Hblk Hrun]].
      inversion Hrun; subst v sub table'; clear Hrun.
      destruct (delete_trie_block_ok _ _ _ _ Hblk Hm2) as [Hm3 [Hr3 Hc3]].
      split; [exact Hm3|]. split; [now rewrite Hr3|].
      split; [now rewrite Hc3|discriminate].
    + inversion Hrun; subst v sub table'; clear Hrun.
      split; [exact Hm2|]. split; [exact Hroot|]. split; [exact Hcount|discriminate].
  - inversion Hrun; subst v sub table'; clear Hrun.
    split; [exact Hm2|]. split; [exact Hroot|]. split; [exact Hcount|discriminate].
Qed.

Lemma del_entry_walk_last (n : nat) :
  forall node addr pos masklen lk node' b d,
    del_entry_walk n node addr pos masklen lk = Ret (node', Some (b, d)) ->
    lk = Some (b, d) \/ pos <= b.
Proof.
  induction n as [|n IH]; intros node addr pos masklen lk node' b d Hrun.
  - inversion Hrun. now left.
  - cbn [del_entry_walk] in Hrun. destruct node as [|x c0 c1]; [discriminate Hrun|].
    apply bind_ret in Hrun. destruct Hrun as [bit [_ Hrun]].
    destruct (bchild (BNode x c0 c1) bit) as [|x' c0' c1'].
    + inversion Hrun. now left.
    + apply IH in Hrun. destruct Hrun as [Hlk|Hle]; [|right; lia].
      destruct (negb (x' =? NULL) && negb (pos =? masklen - 1)).
      * inversion Hlk. right. lia.
      * now left.
Qed.

Lemma btrie_ok_store_data (root : btrie_node_t) (c : Z) (n : nat) (addr : list Z) (v : Z) :
  btrie_ok root c ->
  btrie_ok (bnode_modify n root addr 0 (fun nd => bset_data nd v)) c.
Proof.
  intros [Hn [Hw Hc]]. split; [|split].
  - apply bnode_modify_not_null; [exact Hn|].
    intros nd Hnd. destruct nd; [congruence|discriminate].
  - now apply btrie_within_modify_data.
  - now rewrite btrie_size_modify_data.
Qed.

(** The mtrie side of a table after a prefix expansion. *)
Lemma prefix_expansion_ok (t : lpm_lkup_table_t) (mem : list bool) (addr : list Z)
      (masklen tb : Z) (node : btrie_node_t) (data : Z) (r : lpm_result_t)
      (t' : lpm_lkup_table_t) (mem' : list bool) (addr' : list Z) :
  0 <= tb -> length addr = 16%nat ->
  mtrie_ok (hi256_table_base t) (mtrie_block_alloc_stat (stat t)) ->
  lpm_prefix_expansion t mem addr masklen tb node data = Ret (r, t', mem', addr') ->
  (r = LPM_SUCCESS \/ r = LPM_ERR_RESOURCES) /\
  mtrie_ok (hi256_table_base t') (mtrie_block_alloc_stat (stat t')) /\
  btrie_root t' = btrie_root t /\
  btrie_node_alloc_stat (stat t') = btrie_node_alloc_stat (stat t).
Proof.
  intros Htb Hlen Hm Hrun. unfold lpm_prefix_expansion in Hrun.
  apply expansion_spec in Hrun;
    [|exact Htb|exact Hlen|apply Hm
     |destruct Hm as [_ [_ ->]]; apply s32_in_range].
  destruct Hrun as [_ [_ [_ Hpost]]].
  split; [exact (expansion_post_result _ _ _ _ _ _ _ Hpost)|].
  exact (expansion_post_ok _ _ _ _ _ _ _ Hm Hpost).
Qed.

(** [__lpm_del_entry] keeps the tries and their counters in step. *)
Lemma del_entry_ok (t : lpm_lkup_table_t) (mem : list bool) (addr : list Z)
      (masklen : Z) (r : lpm_result_t) (t' : lpm_lkup_table_t) (mem' : list bool) :
  1 <= masklen <= 128 -> length addr = 16%nat ->
  __lpm_del_entry t mem addr masklen = Ret (r, t', mem') ->
  table_ok t -> table_ok t'.
Proof.
  intros Hml Hlen Hrun [Hb Hm]. unfold __lpm_del_entry in Hrun.
  apply bind_ret in Hrun. destruct Hrun as [[node lk] [Hwalk Hrun]].
  destruct node as [|d c0 c1]; [inversion Hrun; subst; now split|].
  destruct (d =? NULL); [inversion Hrun; subst; now split|].
  set (t0 := btrie_store_data t addr masklen NULL) in *.
  destruct (negb (0 <? data_total (stat t0))); [discriminate Hrun|].
  set (t1 := stat_data_decr t0 masklen) in *.
  assert (Hb1 : btrie_ok (btrie_root t1) (btrie_node_alloc_stat (stat t1))).
  { exact (btrie_ok_store_data _ _ (Z.to_nat masklen) addr NULL Hb). }
  assert (Hm1 : mtrie_ok (hi256_table_base t1) (mtrie_block_alloc_stat (stat t1)))
    by exact Hm.
  apply bind_ret in Hrun. destruct Hrun as [[[[ret t2] mem1] addr1] [Hexp Hrun]].
  assert (H2 : mtrie_ok (hi256_table_base t2) (mtrie_block_alloc_stat (stat t2)) /\
               btrie_root t2 = btrie_root t1 /\
               btrie_node_alloc_stat (stat t2) = btrie_node_alloc_stat (stat t1)).
  { destruct lk as [[lb ld]|].
    - assert (Hlb : 0 <= lb).
      { apply del_entry_walk_last in Hwalk. destruct Hwalk as [H|H]; [discriminate H|exact H]. }
      destruct (_ =? _) in Hexp;
        apply prefix_expansion_ok in Hexp; try apply Hexp; try assumption; lia.
    - destruct (negb _ || negb _) in Hexp.
      + apply prefix_expansion_ok in Hexp; try apply Hexp; try assumption; lia.
      + apply bind_ret in Hexp. destruct Hexp as [[r0 t00] [Hz Hexp]].
        inversion Hexp; subst. apply zero_out_data_ok in Hz; [|exact Hm1].
        destruct Hz as [Hz1 [Hz2 Hz3]]. split; [exact Hz1|]. split; [exact Hz2|].
        now rewrite Hz3. }
  destruct H2 as [Hm2 [Hr2 Hc2]].
  assert (Hb2 : btrie_ok (btrie_root t2) (btrie_node_alloc_stat (stat t2)))
    by (rewrite Hr2, Hc2; exact Hb1).
  destruct (negb (lpm_result_eqb ret LPM_SUCCESS)).
  { inversion Hrun; subst r t' mem'. now split. }
  destruct (match lk with
            | Some (b, _) => (Z.to_nat (b + 1), false, b)
            | None => (O, true, u32 (-1))
            end) as [[depth at_root] lkb].
  apply bind_ret in Hrun. destruct Hrun as [[[v sub] t3] [Hdel Hrun]].
  inversion Hrun; subst r t' mem'; clear Hrun.
  unfold delete_subtree in Hdel.
  pose proof (delete_subtree_pruned _ _ _ _ _ _ _ _ Hdel) as Hpr.
  assert (Htarget : bnode_at depth (btrie_root t2) addr 0 <> BNull).
  { intros E. rewrite E, delete_subtree_unfold in Hdel. discriminate Hdel. }
  destruct Hb2 as [Hn2 [Hw2 Hcb2]].
  apply delete_subtree_ok in Hdel; [|exact Hm2|rewrite Hcb2; apply s32_in_range].
  destruct Hdel as [Hm3 [Hr3 [Hc3 Hsub]]].
  split; [|exact Hm3].
  cbn [btrie_root set_btrie_root stat].
  split; [|split].
  - apply bnode_modify_not_null; [exact Hn2|]. intros nd _. exact Hsub.
  - apply (btrie_within_pruned _ (btrie_root t2)); [|exact Hw2].
    now apply btrie_pruned_modify.
  - rewrite btrie_size_modify_sub by exact Htarget.
    rewrite Hc3, Hcb2, s32_sub_l. f_equal. lia.
Qed.

(** *** The public calls *)

Lemma table_ok_ext (t t' : lpm_lkup_table_t) :
  btrie_root t' = btrie_root t -> hi256_table_base t' = hi256_table_base t ->
  stat t' = stat t -> table_ok t -> table_ok t'.
Proof. unfold table_ok. intros -> -> ->. exact (fun H => H). Qed.

Lemma del_entry_call_ok (t : lpm_lkup_table_t) (mem : list bool) (addr : option (list Z))
      (masklen : Z) (r : lpm_result_t) (t' : option lpm_lkup_table_t) (mem' : list bool) :
  0 <= masklen ->
  lpm_del_entry (Some t) mem addr masklen = Ret (r, t', mem') ->
  table_ok t -> table_ok (live t t').
Proof.
  intros Hml Hrun Hok. unfold lpm_del_entry in Hrun.
  destruct (check_arg_codes (Some t) addr masklen) as [Harg|Harg]; rewrite Harg in Hrun;
    cbn [negb lpm_result_eqb] in Hrun; [|inversion Hrun; subst; exact Hok].
  apply check_arg_success in Harg.
  destruct (bis_null (btrie_root t) || mis_null (hi256_table_base t));
    [inversion Hrun; subst; exact Hok|].
  destruct (Z.eqb_spec masklen 0) as [Hm0|Hm0].
  - destruct (bdata (btrie_root t) =? NULL); [inversion Hrun; subst; exact Hok|].
    destruct (negb _) in Hrun; [discriminate Hrun|].
    inversion Hrun; subst r t' mem'; clear Hrun.
    destruct Hok as [Hb Hm]. split; [|exact Hm].
    exact (btrie_ok_store_data _ _ O [] NULL Hb).
  - apply bind_ret in Hrun. destruct Hrun as [[[ret t1] mem1] [Hdel Hrun]].
    inversion Hrun; subst r t' mem'; clear Hrun.
    cbn [live].
    assert (Hrange : 1 <= masklen <= 128) by lia.
    exact (del_entry_ok _ _ _ _ _ _ _ Hrange (copy_addr_length _ _) Hdel Hok).
Qed.

Lemma update_entry_call_ok (t : lpm_lkup_table_t) (mem : list bool)
      (addr : option (list Z)) (masklen data : Z) (r : lpm_result_t)
      (t' : option lpm_lkup_table_t) (mem' : list bool) :
  0 <= masklen ->
  lpm_update_entry (Some t) mem addr masklen data = Ret (r, t', mem') ->
  table_ok t -> table_ok (live t t').
Proof.
  intros Hml Hrun Hok. unfold lpm_update_entry in Hrun.
  destruct (check_arg_codes (Some t) addr masklen) as [Harg|Harg]; rewrite Harg in Hrun;
    cbn [negb lpm_result_eqb] in Hrun; [|inversion Hrun; subst; exact Hok].
  destruct (data =? NULL); [inversion Hrun; subst; exact Hok|].
  destruct (bis_null (btrie_root t) || mis_null (hi256_table_base t));
    [inversion Hrun; subst; exact Hok|].
  apply bind_ret in Hrun. destruct Hrun as [stored [_ Hrun]].
  destruct (bis_null stored || (bdata stored =? NULL));
    [inversion Hrun; subst; exact Hok|].
  set (t1 := if bdata stored =? data then t
             else btrie_store_data t (addr_of addr) masklen data) in *.
  assert (Hok1 : table_ok t1).
  { subst t1. destruct (bdata stored =? data); [exact Hok|].
    destruct Hok as [Hb Hm]. split; [|exact Hm].
    exact (btrie_ok_store_data _ _ (Z.to_nat masklen) (addr_of addr) data Hb). }
  destruct (Z.eqb_spec masklen 0) as [Hm0|Hm0]; [inversion Hrun; subst; exact Hok1|].
  apply bind_ret in Hrun. destruct Hrun as [[[[ret t2] mem1] addr1] [Hexp Hrun]].
  inversion Hrun; subst r t' mem'; clear Hrun.
  destruct Hok1 as [Hb1 Hm1].
  apply prefix_expansion_ok in Hexp; [|lia|apply copy_addr_length|exact Hm1].
  destruct Hexp as [_ [Hm2 [Hr2 Hc2]]].
  cbn [live]. split; [|exact Hm2]. rewrite Hr2, Hc2. exact Hb1.
Qed.

Lemma btrie_ok_add_node (root : btrie_node_t) (c : Z) (n m : nat) (a : list Z) :
  btrie_ok root c -> (existing n root a 0 <= m <= n)%nat -> (n <= 128)%nat ->
  btrie_ok (bt_ensure m root a 0) (incr_times (m - existing n root a 0) c).
Proof.
  intros [Hn [Hw Hc]] Hm Hn128. split; [|split].
  - apply bt_ensure_not_null.
  - apply btrie_within_bt_ensure; [lia|exact Hw].
  - rewrite btrie_size_bt_ensure. destruct root as [|d c0 c1]; [congruence|].
    rewrite (existing_le n m) by exact Hm.
    rewrite Hc. apply incr_times_s32.
Qed.

Lemma add_entry_call_ok (t : lpm_lkup_table_t) (mem : list bool)
      (addr : option (list Z)) (masklen data : Z) (r : lpm_result_t)
      (t' : option lpm_lkup_table_t) (mem' : list bool) :
  0 <= masklen ->
  lpm_add_entry (Some t) mem addr masklen data = Ret (r, t', mem') ->
  table_ok t -> table_ok (live t t').
Proof.
  intros Hml Hrun Hok. unfold lpm_add_entry in Hrun.
  destruct (check_arg_codes (Some t) addr masklen) as [Harg|Harg]; rewrite Harg in Hrun;
    cbn [negb lpm_result_eqb] in Hrun; [|inversion Hrun; subst; exact Hok].
  apply check_arg_success in Harg.
  destruct (data =? NULL); [inversion Hrun; subst; exact Hok|].
  destruct (bis_null (btrie_root t) || mis_null (hi256_table_base t));
    [inversion Hrun; subst; exact Hok|].
  apply bind_ret in Hrun. destruct Hrun as [[[out t1] mem1] [Hadd Hrun]].
  destruct Hok as [Hb Hm].
  pose proof Hb as [Hroot [Hwithin Hcount]].
  apply btrie_add_node_spec in Hadd; [|exact Hroot].
  destruct Hadd as [m [failed [Hkm [Ht1 [Hap Hret]]]]].
  set (a := addr_of addr) in *. set (n := Z.to_nat masklen) in *.
  set (root := btrie_root t) in *.
  set (k := existing n root a 0) in *.
  assert (Hn128 : (n <= 128)%nat) by (subst n; lia).
  assert (Hb1 : btrie_ok (btrie_root t1) (btrie_node_alloc_stat (stat t1))).
  { rewrite Ht1. cbn [btrie_root set_btrie_root stat set_stat stat_after_add
                      btrie_node_alloc_stat set_btrie_node_alloc_fail_stat
                      set_btrie_node_alloc_stat].
    now apply btrie_ok_add_node. }
  assert (Hm1 : mtrie_ok (hi256_table_base t1) (mtrie_block_alloc_stat (stat t1))).
  { rewrite Ht1. exact Hm. }
  assert (Hx : in_s32 (btrie_node_alloc_stat (stat t)))
    by (rewrite Hcount; apply s32_in_range).
  assert (Hrollback :
    forall T T' : lpm_lkup_table_t,
      (k < n)%nat -> (k <= m)%nat ->
      btrie_root T = bt_ensure m root a 0 ->
      btrie_node_alloc_stat (stat T) = incr_times (m - k) (btrie_node_alloc_stat (stat t)) ->
      mtrie_ok (hi256_table_base T) (mtrie_block_alloc_stat (stat T)) ->
      btrie_rollback T a (an_append_point out) (an_append_bit out) = Ret T' ->
      table_ok T').
  { intros T T' Hkn Hkm' HrT HcT HmT Hrb.
    destruct Hap as [Hp Hbit]; [lia|]. rewrite Hp, Hbit in Hrb.
    apply (btrie_rollback_spec T a n m root (btrie_node_alloc_stat (stat t))) in Hrb;
      [|exact Hroot|exact Hkn|exact Hkm'|exact HrT|exact HcT|exact Hx].
    subst T'. split; [exact Hb|exact HmT]. }
  destruct failed.
  - destruct Hret as [Hr Hlt]. rewrite Hr in Hrun.
    apply bind_ret in Hrun. destruct Hrun as [t2 [Hrb Hrun]].
    inversion Hrun; subst r t' mem'; clear Hrun. cbn [live].
    apply (Hrollback t1 t2); [lia|lia|now rewrite Ht1|now rewrite Ht1|exact Hm1|exact Hrb].
  - destruct Hret as [-> Hr].
    assert (Hstore : forall (T : lpm_lkup_table_t) (v : Z),
               btrie_ok (btrie_root T) (btrie_node_alloc_stat (stat T)) ->
               btrie_ok (btrie_root (btrie_store_data T a masklen v))
                        (btrie_node_alloc_stat (stat T))).
    { intros T v HT. exact (btrie_ok_store_data _ _ n a v HT). }
    assert (Hundo : forall T3 : lpm_lkup_table_t,
               bdata (bnode_at n (btrie_root t1) a 0) = NULL ->
               btrie_root T3 =
                 btrie_root (stat_data_incr (btrie_store_data t1 a masklen data) masklen) ->
               btrie_root (stat_data_decr (btrie_store_data T3 a masklen NULL) masklen) =
               bt_ensure n root a 0).
    { intros T3 Hd0 HT3.
      cbn [btrie_root stat_data_decr set_stat btrie_store_data set_btrie_root].
      rewrite HT3.
      cbn [btrie_root stat_data_incr set_stat btrie_store_data set_btrie_root].
      rewrite bnode_modify_compose. fold n.
      rewrite Ht1. cbn [btrie_root set_btrie_root].
      apply bnode_modify_id.
      rewrite Ht1 in Hd0. cbn [btrie_root set_btrie_root] in Hd0.
      destruct (bnode_at n (bt_ensure n root a 0) a 0) as [|d c0 c1]; [reflexivity|].
      cbn [bdata] in Hd0. cbn [bset_data]. now rewrite Hd0. }
    destruct (Nat.eqb_spec k n) as [Hkn|Hkn]; rewrite Hr in Hrun;
      cbn [lpm_result_eqb] in Hrun;
      (destruct (bnode_at n (btrie_root t1) a 0) as [|d c0 c1] eqn:Hnode;
       [discriminate Hrun|]);
      (destruct (Z.eqb_spec d NULL) as [Hd|Hd]; cbn [negb] in Hrun;
       [|destruct (d =? data); inversion Hrun; subst; now split]);
      (destruct (Z.eqb_spec masklen 0) as [Hm0|Hm0];
       [inversion Hrun; subst r t' mem'; cbn [live]; split; [|exact Hm1];
        apply (Hstore t1 data Hb1)|]);
      apply bind_ret in Hrun; destruct Hrun as [[[[r3 t3] mem2] addr3] [Hexp Hrun]];
      (apply prefix_expansion_ok in Hexp; [|lia|apply copy_addr_length|exact Hm1]);
      destruct Hexp as [Hr3 [Hm3 [Hroot3 Hc3]]];
      (destruct Hr3 as [-> | ->];
       [inversion Hrun; subst r t' mem'; cbn [live]; split; [|exact Hm3];
        rewrite Hroot3, Hc3; apply (Hstore t1 data Hb1)|]);
      assert (Hroot4 := Hundo t3 Hd Hroot3).
    + inversion Hrun; subst r t' mem'; clear Hrun. cbn [live].
      split; [|exact Hm3]. rewrite Hroot4.
      cbn [stat stat_data_decr set_stat btrie_node_alloc_stat
           set_data_per_masklen set_data_total btrie_store_data set_btrie_root].
      rewrite Hc3.
      cbn [stat stat_data_incr set_stat btrie_node_alloc_stat
           set_data_per_masklen set_data_total btrie_store_data set_btrie_root].
      rewrite Ht1.
      cbn [stat set_stat set_btrie_root stat_after_add btrie_node_alloc_stat
           set_btrie_node_alloc_fail_stat set_btrie_node_alloc_stat].
      apply btrie_ok_add_node; [exact Hb|exact Hkm|exact Hn128].
    + apply bind_ret in Hrun. destruct Hrun as [t5 [Hrb Hrun]].
      inversion Hrun; subst r t' mem'; clear Hrun. cbn [live].
      apply (Hrollback _ t5 ltac:(lia) ltac:(lia) Hroot4); [|exact Hm3|exact Hrb].
      cbn [stat stat_data_decr set_stat btrie_node_alloc_stat
           set_data_per_masklen set_data_total btrie_store_data set_btrie_root].
      rewrite Hc3.
      cbn [stat stat_data_incr set_stat btrie_node_alloc_stat
           set_data_per_masklen set_data_total btrie_store_data set_btrie_root].
      rewrite Ht1. reflexivity.
Qed.

Lemma create_table_fresh (nm : option string) (mem : list bool) (t : lpm_lkup_table_t)
      (mem' : list bool) :
  lpm_create_table nm mem = Ret (Some t, mem') -> t = fresh_table nm.
Proof.
  intros H.
  destruct mem as [|[|] [|[|] [|[|] rest]]]; destruct nm; cbv in H;
    first [discriminate H | (inversion H; reflexivity)].
Qed.

Lemma fresh_table_ok (nm : option string) : table_ok (fresh_table nm).
Proof.
  split.
  - split; [discriminate|]. split; reflexivity.
  - split; [discriminate|]. split; [apply mtrie_wf_zero_block|reflexivity].
Qed.

Lemma apply_op_ok (t : lpm_lkup_table_t) (mem : list bool) (op : lpm_op)
      (r : lpm_result_t) (t' : lpm_lkup_table_t) (mem' : list bool) :
  op_in_range op -> apply_op t mem op = Ret (r, t', mem') -> table_ok t -> table_ok t'.
Proof.
  intros Hop Hrun Hok. destruct op as [a m d|a m d|a m|a m| |dbg on];
    cbn [apply_op op_in_range] in *.
  - apply bind_ret in Hrun. destruct Hrun as [[[r0 t0] mem0] [Hcall Hrun]].
    inversion Hrun; subst. apply (add_entry_call_ok _ _ _ _ _ _ _ _ (proj1 Hop) Hcall Hok).
  - apply bind_ret in Hrun. destruct Hrun as [[[r0 t0] mem0] [Hcall Hrun]].
    inversion Hrun; subst.
    apply (update_entry_call_ok _ _ _ _ _ _ _ _ (proj1 Hop) Hcall Hok).
  - apply bind_ret in Hrun. destruct Hrun as [[[r0 t0] mem0] [Hcall Hrun]].
    inversion Hrun; subst. apply (del_entry_call_ok _ _ _ _ _ _ _ (proj1 Hop) Hcall Hok).
  - apply bind_ret in Hrun. destruct Hrun as [[r0 t0] [Hcall Hrun]].
    inversion Hrun; subst; clear Hrun.
    unfold lpm_update_default_data in Hcall.
    destruct (negb _) in Hcall; [inversion Hcall; subst; exact Hok|].
    destruct (btrie_root t) as [|rd rc0 rc1] eqn:Hroot; [inversion Hcall; subst; exact Hok|].
    apply bind_ret in Hcall. destruct Hcall as [dd [_ Hcall]].
    destruct (dd =? NULL); inversion Hcall; subst; exact Hok.
  - unfold lpm_del_default_data in Hrun.
    destruct (default_data t =? NULL); inversion Hrun; subst; exact Hok.
  - unfold lpm_debug_support in Hrun.
    destruct (on =? 1); [|destruct (on =? 0)];
      first [ destruct dbg; inversion Hrun; subst; exact Hok
            | inversion Hrun; subst; exact Hok ].
Qed.

Lemma apply_ops_ok (ops : list lpm_op) :
  forall t mem rs t' mem',
    Forall op_in_range ops ->
    apply_ops t mem ops = Ret (rs, t', mem') -> table_ok t -> table_ok t'.
Proof.
  induction ops as [|op ops IH]; intros t mem rs t' mem' Hops Hrun Hok.
  - inversion Hrun; subst. exact Hok.
  - cbn [apply_ops] in Hrun.
    apply bind_ret in Hrun. destruct Hrun as [[[r1 t1] mem1] [Hop Hrun]].
    apply bind_ret in Hrun. destruct Hrun as [[[rs2 t2] mem2] [Hrest Hrun]].
    inversion Hrun; subst; clear Hrun.
    inversion Hops as [|x l Hx Hl]; subst.
    apply (IH _ _ _ _ _ Hl Hrest). exact (apply_op_ok _ _ _ _ _ _ Hx Hop Hok).
Qed.

(** Whatever calls a table has been through since [lpm_create_table]
    returned it, and whatever the allocator answered: the btrie root and
    the first mtrie block are there, no btrie node lies deeper than 128
    levels, every mtrie block has 256 entries, and the two allocation
    counters tell the number of btrie nodes and of mtrie blocks (as
    [int] values). *)
Theorem calls_keep_table_ok (nm : option string) (mem0 mem1 mem mem' : list bool)
        (t0 t : lpm_lkup_table_t) (ops : list lpm_op) (rs : list lpm_result_t) :
  lpm_create_table nm mem0 = Ret (Some t0, mem1) ->
  Forall op_in_range ops ->
  apply_ops t0 mem ops = Ret (rs, t, mem') ->
  btrie_root t <> BNull /\ btrie_within 128 (btrie_root t) = true /\
  btrie_node_alloc_stat (stat t) = s32 (btrie_size (btrie_root t)) /\
  hi256_table_base t <> MNull /\ mtrie_wf (hi256_table_base t) /\
  mtrie_block_alloc_stat (stat t) = s32 (mtrie_size (hi256_table_base t)).
Proof.
  intros Hcreate Hops Hrun.
  apply create_table_fresh in Hcreate. subst t0.
  pose proof (apply_ops_ok _ _ _ _ _ _ Hops Hrun (fresh_table_ok nm)) as [Hb Hm].
  destruct Hb as [H1 [H2 H3]]. destruct Hm as [H4 [H5 H6]].
  repeat split; assumption.
Qed.

Lemma calls_keep_table_ok_witness :
  btrie_root (table_after [OpAdd [10; 1] 16 5; OpAdd [10; 2] 12 6; OpDel [10; 1] 16])
    <> BNull /\
  btrie_node_alloc_stat
    (stat (table_after [OpAdd [10; 1] 16 5; OpAdd [10; 2] 12 6; OpDel [10; 1] 16])) =
  s32 (btrie_size
         (btrie_root (table_after [OpAdd [10; 1] 16 5; OpAdd [10; 2] 12 6; OpDel [10; 1] 16]))) /\
  mtrie_block_alloc_stat
    (stat (table_after [OpAdd [10; 1] 16 5; OpAdd [10; 2] 12 6; OpDel [10; 1] 16])) =
  s32 (mtrie_size
         (hi256_table_base
            (table_after [OpAdd [10; 1] 16 5; OpAdd [10; 2] 12 6; OpDel [10; 1] 16]))).
Proof.
  assert (Hcreate : lpm_create_table None [] = Ret (Some (created None), []))
    by (vm_compute; reflexivity).
  assert (Hops : Forall op_in_range
                        [OpAdd [10; 1] 16 5; OpAdd [10; 2] 12 6; OpDel [10; 1] 16]).
  { repeat constructor; cbn; lia. }
  assert (Hrun : apply_ops (created None) []
                           [OpAdd [10; 1] 16 5; OpAdd [10; 2] 12 6; OpDel [10; 1] 16] =
                 Ret ([LPM_SUCCESS; LPM_SUCCESS; LPM_SUCCESS],
                      table_after [OpAdd [10; 1] 16 5; OpAdd [10; 2] 12 6; OpDel [10; 1] 16],
                      [])).
  { vm_compute. reflexivity. }
  pose proof (calls_keep_table_ok None [] [] [] [] (created None) _ _ _ Hcreate Hops Hrun)
    as [H1 [_ [H3 [_ [_ H6]]]]].
  split; [exact H1|]. split; [exact H3|exact H6].
Defined.

(** A table that went through any calls since its creation, and holds
    fewer than 2^31 nodes and blocks, is destroyed without a failed
    assertion, and every node and block that was allocated is freed:
    [mtrie_destroy] then [btrie_destroy] leave both counters at 0 and
    both pointers null. *)
Theorem destroy_after_calls (nm : option string) (mem0 mem1 mem mem' : list bool)
        (t0 t : lpm_lkup_table_t) (ops : list lpm_op) (rs : list lpm_result_t) :
  lpm_create_table nm mem0 = Ret (Some t0, mem1) ->
  Forall op_in_range ops ->
  apply_ops t0 mem ops = Ret (rs, t, mem') ->
  btrie_size (btrie_root t) < 2147483648 ->
  mtrie_size (hi256_table_base t) < 2147483648 ->
  lpm_destroy_table (Some t) = Ret (LPM_SUCCESS, None) /\
  exists t1 t2 : lpm_lkup_table_t,
    mtrie_destroy t = Ret t1 /\ btrie_destroy t1 = Ret t2 /\
    btrie_root t2 = BNull /\ hi256_table_base t2 = MNull /\
    btrie_node_alloc_stat (stat t2) = 0 /\ mtrie_block_alloc_stat (stat t2) = 0.
Proof.
  intros Hcreate Hops Hrun Hnodes Hblocks.
  apply create_table_fresh in Hcreate. subst t0.
  pose proof (apply_ops_ok _ _ _ _ _ _ Hops Hrun (fresh_table_ok nm)) as [Hb Hm].
  destruct Hb as [_ [_ Hcb]]. destruct Hm as [_ [_ Hcm]].
  pose proof (btrie_size_nonneg (btrie_root t)) as Hn0.
  pose proof (mtrie_size_nonneg (hi256_table_base t)) as Hm0.
  rewrite s32_small in Hcb by (unfold in_s32; lia).
  rewrite s32_small in Hcm by (unfold in_s32; lia).
  assert (Em : mtrie_destroy t =
               Ret (set_hi256_table_base
                      (set_stat t (stat_released (stat t) 0 (mtrie_size (hi256_table_base t))))
                      MNull)).
  { unfold mtrie_destroy, mtrie_free_block.
    rewrite mtrie_free_block_spec by (rewrite Hcm; lia).
    rewrite Hcm, Z.leb_refl. reflexivity. }
  set (t1 := set_hi256_table_base
               (set_stat t (stat_released (stat t) 0 (mtrie_size (hi256_table_base t))))
               MNull) in *.
  assert (Eb : btrie_destroy t1 =
               Ret (set_btrie_root
                      (set_stat t1 (stat_released (stat t1) (btrie_size (btrie_root t)) 0))
                      BNull)).
  { unfold btrie_destroy, btrie_destroy_subtree.
    assert (Hc1 : btrie_node_alloc_stat (stat t1) = btrie_size (btrie_root t)).
    { subst t1. cbn [stat set_hi256_table_base set_stat stat_released btrie_node_alloc_stat].
      rewrite Hcb. apply Z.sub_0_r. }
    rewrite btrie_destroy_subtree_spec by (rewrite Hc1; lia).
    change (btrie_root t1) with (btrie_root t).
    rewrite Hc1, Z.leb_refl. reflexivity. }
  split.
  - unfold lpm_destroy_table. rewrite Em. cbn [bind]. rewrite Eb. reflexivity.
  - exists t1. eexists. split; [exact Em|]. split; [exact Eb|].
    split; [reflexivity|]. split; [reflexivity|].
    subst t1.
    cbn [stat set_btrie_root set_hi256_table_base set_stat stat_released
         btrie_node_alloc_stat mtrie_block_alloc_stat].
    rewrite Hcb, Hcm. split; lia.
Qed.

Lemma destroy_after_calls_witness :
  lpm_destroy_table
    (Some (table_after [OpAdd [10; 1] 16 5; OpAdd [10; 2] 12 6; OpDel [10; 1] 16])) =
  Ret (LPM_SUCCESS, None).
Proof.
  assert (Hcreate : lpm_create_table None [] = Ret (Some (created None), []))
    by (vm_compute; reflexivity).
  assert (Hops : Forall op_in_range
                        [OpAdd [10; 1] 16 5; OpAdd [10; 2] 12 6; OpDel [10; 1] 16]).
  { repeat constructor; cbn; lia. }
  assert (Hrun : apply_ops (created None) []
                           [OpAdd [10; 1] 16 5; OpAdd [10; 2] 12 6; OpDel [10; 1] 16] =
                 Ret ([LPM_SUCCESS; LPM_SUCCESS; LPM_SUCCESS],
                      table_after [OpAdd [10; 1] 16 5; OpAdd [10; 2] 12 6; OpDel [10; 1] 16],
                      [])).
  { vm_compute. reflexivity. }
  assert (Hn : btrie_size
                 (btrie_root
                    (table_after [OpAdd [10; 1] 16 5; OpAdd [10; 2] 12 6; OpDel [10; 1] 16]))
               < 2147483648) by (vm_compute; reflexivity).
  assert (Hm : mtrie_size
                 (hi256_table_base
                    (table_after [OpAdd [10; 1] 16 5; OpAdd [10; 2] 12 6; OpDel [10; 1] 16]))
               < 2147483648) by (vm_compute; reflexivity).
  exact (proj1 (destroy_after_calls None [] [] [] [] (created None) _ _ _
                                    Hcreate Hops Hrun Hn Hm)).
Defined.

(** *** Longest match *)

Lemma deepest_ext (f g : nat -> Z) (lo n : nat) :
  (forall i, (lo < i <= lo + n)%nat -> f i = g i) ->
  deepest f lo n = deepest g lo n.
Proof.
  induction n as [|n IH]; intros H; [reflexivity|].
  cbn [deepest]. rewrite (H (lo + S n)%nat) by lia.
  rewrite IH; [reflexivity|]. intros i Hi. apply H. lia.
Qed.

Lemma deepest_null (f : nat -> Z) (lo n : nat) :
  (forall i, (lo < i <= lo + n)%nat -> f i = NULL) -> deepest f lo n = NULL.
Proof.
  induction n as [|n IH]; intros H; [reflexivity|].
  cbn [deepest]. rewrite (H (lo + S n)%nat) by lia. cbn [Z.eqb NULL].
  apply IH. intros i Hi. apply H. lia.
Qed.

(** The value found is one of the values, the last that is not null. *)
Lemma deepest_found (f : nat -> Z) (lo n : nat) :
  deepest f lo n <> NULL ->
  exists m, (lo < m <= lo + n)%nat /\ deepest f lo n = f m /\
            forall i, (m < i <= lo + n)%nat -> f i = NULL.
Proof.
  induction n as [|n IH]; cbn [deepest]; intros H; [congruence|].
  destruct (Z.eqb_spec (f (lo + S n)%nat) NULL) as [E|E].
  - destruct (IH H) as [m [Hm [Hd Hz]]]. exists m. split; [lia|]. split; [exact Hd|].
    intros i Hi. destruct (Nat.eq_dec i (lo + S n)) as [->|Hne]; [exact E|].
    apply Hz. lia.
  - exists (lo + S n)%nat. split; [lia|]. split; [reflexivity|]. intros i Hi. lia.
Qed.

Lemma deepest_all_null (f : nat -> Z) (lo n : nat) :
  deepest f lo n = NULL -> forall i, (lo < i <= lo + n)%nat -> f i = NULL.
Proof.
  induction n as [|n IH]; cbn [deepest]; intros H i Hi; [lia|].
  destruct (Z.eqb_spec (f (lo + S n)%nat) NULL) as [E|E]; [|congruence].
  destruct (Nat.eq_dec i (lo + S n)) as [->|Hne]; [exact E|].
  apply IH; [exact H|lia].
Qed.

Lemma deepest_at (f : nat -> Z) (lo n m : nat) :
  (lo < m <= lo + n)%nat -> f m <> NULL ->
  (forall i, (m < i <= lo + n)%nat -> f i = NULL) ->
  deepest f lo n = f m.
Proof.
  induction n as [|n IH]; intros Hm Hf Hz; [lia|].
  cbn [deepest]. destruct (Nat.eq_dec m (lo + S n)) as [->|Hne].
  - destruct (Z.eqb_spec (f (lo + S n)%nat) NULL); [contradiction|reflexivity].
  - rewrite (Hz (lo + S n)%nat) by lia. cbn [Z.eqb NULL].
    apply IH; [lia|exact Hf|]. intros i Hi. apply Hz. lia.
Qed.

(** Values below a value that is not null do not count. *)
Lemma deepest_ext_above (f g : nat -> Z) (lo n m : nat) :
  (lo < m <= lo + n)%nat -> f m <> NULL ->
  (forall i, (m <= i <= lo + n)%nat -> f i = g i) ->
  deepest f lo n = deepest g lo n.
Proof.
  induction n as [|n IH]; intros Hm Hf Hfg; [lia|].
  cbn [deepest]. rewrite <- (Hfg (lo + S n)%nat) by lia.
  destruct (Z.eqb_spec (f (lo + S n)%nat) NULL) as [E|E]; [|reflexivity].
  apply IH; [|exact Hf|intros i Hi; apply Hfg; lia].
  destruct (Nat.eq_dec m (lo + S n)) as [->|Hne]; [contradiction|lia].
Qed.

Lemma deepest_split (f : nat -> Z) (lo n m : nat) :
  deepest f lo (n + m) =
  if deepest f (lo + n) m =? NULL then deepest f lo n else deepest f (lo + n) m.
Proof.
  induction m as [|m IH].
  - rewrite Nat.add_0_r. reflexivity.
  - replace (n + S m)%nat with (S (n + m)) by lia. cbn [deepest].
    replace (lo + S (n + m))%nat with (lo + n + S m)%nat by lia.
    destruct (Z.eqb_spec (f (lo + n + S m)%nat) NULL) as [E|E].
    + exact IH.
    + destruct (Z.eqb_spec (f (lo + n + S m)%nat) NULL); [contradiction|reflexivity].
Qed.

(** *** The data of the btrie along an address *)

Lemma bnode_at_beyond (d : nat) :
  forall i node q pos,
    btrie_within d node = true -> (d < i)%nat -> bnode_at i node q pos = BNull.
Proof.
  induction d as [|d IH]; intros i node q pos Hw Hi.
  - destruct i as [|i]; [lia|]. cbn [bnode_at].
    destruct node as [|x c0 c1]; [apply bnode_at_null|].
    cbn [btrie_within] in Hw. apply andb_prop in Hw. destruct Hw as [H0 H1].
    destruct c0; [|discriminate H0]. destruct c1; [|discriminate H1].
    cbn [bchild]. destruct (_ =? 0); apply bnode_at_null.
  - destruct i as [|i]; [lia|]. cbn [bnode_at].
    apply IH; [|lia]. now apply btrie_within_bchild.
Qed.

Lemma data_at_beyond (root : btrie_node_t) (q : list Z) (i : nat) :
  btrie_within 128 root = true -> (128 < i)%nat -> data_at root q i = NULL.
Proof. intros Hw Hi. unfold data_at. now rewrite (bnode_at_beyond 128). Qed.

Lemma data_at_ensure (n : nat) (root : btrie_node_t) (a q : list Z) (i : nat) :
  data_at (bt_ensure n root a 0) q i = data_at root q i.
Proof. apply bdata_bnode_at_ensure. Qed.

Lemma data_at_store_other (root : btrie_node_t) (a q : list Z) (n i : nat) (v : Z) :
  (i <> n \/ exists p, 0 <= p < Z.of_nat n /\ addr_bit q p <> addr_bit a p) ->
  data_at (bnode_modify n root a 0 (fun nd => bset_data nd v)) q i = data_at root q i.
Proof.
  intros H. apply bdata_bnode_at_modify_other.
  destruct H as [H|[p [Hp Hne]]]; [now left|right]. exists p. split; [lia|exact Hne].
Qed.

Lemma data_at_store_same (root : btrie_node_t) (a q : list Z) (n : nat) (v : Z) :
  bnode_at n root a 0 <> BNull ->
  (forall p, 0 <= p < Z.of_nat n -> addr_bit q p = addr_bit a p) ->
  data_at (bnode_modify n root a 0 (fun nd => bset_data nd v)) q n = v.
Proof.
  intros Hn Hq. unfold data_at.
  rewrite (bnode_at_ext n _ q a 0) by (intros p Hp; apply Hq; lia).
  rewrite bnode_at_modify_same by exact Hn.
  destruct (bnode_at n root a 0); [congruence|reflexivity].
Qed.

(** *** The entries of the mtrie along an address *)

Lemma mtrie_block_at_ext (n : nat) :
  forall blk e a level,
    (forall l, level <= l < level + Z.of_nat n -> byte_at e l = byte_at a l) ->
    mtrie_block_at n blk e level = mtrie_block_at n blk a level.
Proof.
  induction n as [|n IH]; intros blk e a level H; [reflexivity|].
  cbn [mtrie_block_at]. rewrite (H level) by lia.
  apply IH. intros l Hl. apply H. lia.
Qed.

Lemma mtrie_data_at_ext (blk : mtrie_block_t) (e a : list Z) (n : nat) (i : Z) :
  (forall l, 0 <= l < Z.of_nat n -> byte_at e l = byte_at a l) ->
  mtrie_data_at blk e n i = mtrie_data_at blk a n i.
Proof.
  intros H. unfold mtrie_data_at. rewrite (mtrie_block_at_ext n blk e a 0); [reflexivity|].
  intros l Hl. apply H. lia.
Qed.

(** What a prefix expansion leaves as it was: the entries of the other
    levels, of the blocks off the path of the address, and those not
    selected. *)
Lemma expansion_post_other (table : lpm_lkup_table_t) (addr : list Z) (k : nat)
      (p : Z -> bool) (data : Z) (r : lpm_result_t) (table' : lpm_lkup_table_t)
      (q : list Z) (l : nat) (i : Z) :
  mtrie_wf (hi256_table_base table) ->
  expansion_post table addr k p data r table' ->
  0 <= i < 256 ->
  (l <> k \/ (exists c, 0 <= c < Z.of_nat k /\ byte_at q c <> byte_at addr c) \/
   p i = false) ->
  mtrie_data_at (hi256_table_base table') q l i = mtrie_data_at (hi256_table_base table) q l i.
Proof.
  intros Hwf [[_ [_ ->]]|[[_ [-> _]]|[_ ->]]] Hi Hcase; [reflexivity|reflexivity|].
  unfold table_after_write, mtrie_data_at.
  cbn [hi256_table_base set_stat set_hi256_table_base].
  apply mtrie_data_at_path_update; [exact Hwf|lia|intros es x; apply mbase_entry_at_write_where|].
  intros Hlk Hagree es Hlen.
  destruct Hcase as [Hne|[[c [Hc Hdiff]]|Hp]].
  - contradiction.
  - exfalso. apply Hdiff. apply Hagree. lia.
  - rewrite entry_at_write_where by lia. now rewrite Hp.
Qed.

(** What a successful prefix expansion writes. *)
Lemma expansion_post_written (table : lpm_lkup_table_t) (addr : list Z) (k : nat)
      (p : Z -> bool) (data : Z) (table' : lpm_lkup_table_t) (q : list Z) (i : Z) :
  mtrie_wf (hi256_table_base table) ->
  expansion_post table addr k p data LPM_SUCCESS table' ->
  0 <= i < 256 ->
  (forall c, 0 <= c < Z.of_nat k -> byte_at q c = byte_at addr c) ->
  p i = true ->
  mtrie_data_at (hi256_table_base table') q k i = data.
Proof.
  intros Hwf [[Hr _]|[[_ [_ Hnone]]|[_ ->]]] Hi Hagree Hp; [discriminate Hr| |].
  - rewrite (Hnone i Hi) in Hp. discriminate Hp.
  - rewrite (mtrie_data_at_ext _ q addr k i Hagree).
    unfold mtrie_data_at, table_after_write.
    cbn [hi256_table_base set_stat set_hi256_table_base].
    rewrite mtrie_block_at_path_update_same by exact Hwf.
    cbn [block_entries].
    rewrite entry_at_write_where.
    + now rewrite Hp.
    + rewrite block_entries_length; [lia|]. now apply mtrie_wf_block_at.
Qed.

Lemma chain_present (k : nat) :
  forall blk addr level,
    mtrie_block_at k blk addr level <> MNull -> chain_missing (S k) blk addr level = O.
Proof.
  induction k as [|k IH]; intros blk addr level H.
  - cbn [mtrie_block_at] in H. destruct blk; [congruence|reflexivity].
  - destruct blk as [|es].
    + rewrite mtrie_block_at_null in H. congruence.
    + cbn [mtrie_block_at block_entries] in H.
      change (chain_missing (S (S k)) (MBlock es) addr level)
        with (chain_missing (S k) (mbase (entry_at es (byte_at addr level))) addr (level + 1)).
      now apply IH.
Qed.

Lemma mtrie_data_at_missing (blk : mtrie_block_t) (q : list Z) (n : nat) (i : Z) :
  mtrie_block_at n blk q 0 = MNull -> mtrie_data_at blk q n i = NULL.
Proof.
  intros H. unfold mtrie_data_at. rewrite H. cbn [block_entries].
  now rewrite entry_at_zero_block.
Qed.

Lemma tries_agree_fresh (nm : option string) :
  tries_agree (btrie_root (fresh_table nm)) (hi256_table_base (fresh_table nm)).
Proof.
  intros q l. cbn [fresh_table btrie_root hi256_table_base].
  rewrite deepest_null.
  - unfold mtrie_data_at. destruct l as [|l].
    + cbn [mtrie_block_at block_entries]. now rewrite entry_at_zero_block.
    + rewrite mtrie_block_at_entries_null_base.
      * now rewrite entry_at_zero_block.
      * intros x. now rewrite entry_at_zero_block.
  - intros i Hi. unfold data_at. destruct i as [|i]; [lia|].
    cbn [bnode_at bchild]. destruct (_ =? 0); now rewrite bnode_at_null.
Qed.

(** *** Bits, bytes and the entries selected *)

Lemma forallb_below (P : Z -> bool) (n : nat) :
  forallb P (map Z.of_nat (seq 0 n)) = true <-> forall z, 0 <= z < Z.of_nat n -> P z = true.
Proof.
  rewrite forallb_forall. split.
  - intros H z Hz. apply H. apply in_map_iff. exists (Z.to_nat z).
    split; [lia|]. apply in_seq. lia.
  - intros H x Hx. apply in_map_iff in Hx. destruct Hx as [i [<- Hi]].
    apply in_seq in Hi. apply H. lia.
Qed.

Lemma forallb_below_false (P : Z -> bool) (n : nat) :
  forallb P (map Z.of_nat (seq 0 n)) = false ->
  exists z, 0 <= z < Z.of_nat n /\ P z = false.
Proof.
  induction n as [|n IH]; [discriminate|].
  rewrite seq_S, map_app, forallb_app. cbn [Nat.add map forallb].
  destruct (forallb P (map Z.of_nat (seq 0 n))) eqn:E.
  - cbn [andb]. rewrite andb_true_r. intros H. exists (Z.of_nat n). split; [lia|exact H].
  - intros _. destruct (IH eq_refl) as [z [Hz Hp]]. exists z. split; [lia|exact Hp].
Qed.

Lemma bits_match_true (q a : list Z) (n : nat) :
  bits_match q a n = true <->
  forall p, 0 <= p < Z.of_nat n -> addr_bit q p = addr_bit a p.
Proof.
  unfold bits_match. rewrite forallb_below. split; intros H p Hp.
  - apply Z.eqb_eq. now apply H.
  - apply Z.eqb_eq. now apply H.
Qed.

Lemma bits_match_false (q a : list Z) (n : nat) :
  bits_match q a n = false ->
  exists p, 0 <= p < Z.of_nat n /\ addr_bit q p <> addr_bit a p.
Proof.
  intros H. apply forallb_below_false in H. destruct H as [p [Hp Hne]].
  exists p. split; [exact Hp|]. now apply Z.eqb_neq.
Qed.

Lemma bytes_match_true (q a : list Z) (k : nat) :
  bytes_match q a k = true <->
  forall c, 0 <= c < Z.of_nat k -> byte_at q c = byte_at a c.
Proof.
  unfold bytes_match. rewrite forallb_below. split; intros H c Hc.
  - apply Z.eqb_eq. now apply H.
  - apply Z.eqb_eq. now apply H.
Qed.

Lemma bytes_match_false (q a : list Z) (k : nat) :
  bytes_match q a k = false ->
  exists c, 0 <= c < Z.of_nat k /\ byte_at q c <> byte_at a c.
Proof.
  intros H. apply forallb_below_false in H. destruct H as [c [Hc Hne]].
  exists c. split; [exact Hc|]. now apply Z.eqb_neq.
Qed.

Lemma byte_bit_eq_testbit (i b t : Z) :
  byte_bit i t = byte_bit b t <-> Z.testbit i (7 - t) = Z.testbit b (7 - t).
Proof.
  unfold byte_bit.
  destruct (Z.testbit i (7 - t)); destruct (Z.testbit b (7 - t)); split;
    intros H; try reflexivity; discriminate H.
Qed.

Lemma byte_high_bits (i m : Z) : 0 <= i < 256 -> 8 <= m -> Z.testbit i m = false.
Proof.
  intros Hi Hm. rewrite <- (Z.mod_small i (2 ^ 8)) by (change (2 ^ 8) with 256; lia).
  apply Z.mod_pow2_bits_high. lia.
Qed.

Lemma same_top_bits :
  forall j i b, 0 <= j < 8 -> 0 <= i < 256 -> 0 <= b < 256 ->
    (same_top (j + 1) i b = true <->
     forall t, 0 <= t <= j -> byte_bit i t = byte_bit b t).
Proof.
  intros j i b Hj Hi Hb. unfold same_top. rewrite Z.eqb_eq.
  replace (8 - (j + 1)) with (7 - j) by lia. split.
  - intros H t Ht. apply byte_bit_eq_testbit.
    replace (7 - t) with (j - t + (7 - j)) by lia.
    rewrite <- !Z.shiftr_spec by lia. now rewrite H.
  - intros H. apply Z.bits_inj'. intros m Hm.
    rewrite !Z.shiftr_spec by lia.
    destruct (Z.le_gt_cases m j) as [L|L].
    + replace (m + (7 - j)) with (7 - (j - m)) by lia.
      apply byte_bit_eq_testbit. apply H. lia.
    + rewrite !byte_high_bits by lia. reflexivity.
Qed.

Lemma addr_bit_in_byte (q : list Z) (c t : Z) :
  0 <= c -> 0 <= t < 8 -> addr_bit q (8 * c + t) = byte_bit (byte_at q c) t.
Proof.
  intros Hc Ht. rewrite addr_bit_byte_bit by lia.
  replace ((8 * c + t) / 8) with c by (apply (Z.div_unique _ 8 c t); lia).
  replace ((8 * c + t) mod 8) with t by (apply (Z.mod_unique _ 8 c t); lia).
  reflexivity.
Qed.

(** A prefix of [8 k + j + 1] bits is [k] bytes and the [j + 1] leading
    bits of the next byte. *)
Lemma bits_match_split (q a : list Z) (k : nat) (j : Z) :
  0 <= j < 8 ->
  bits_match q a (8 * k + Z.to_nat j + 1) =
  bytes_match q a k && same_top (j + 1) (byte_at q (Z.of_nat k)) (byte_at a (Z.of_nat k)).
Proof.
  intros Hj. apply Bool.eq_iff_eq_true.
  rewrite bits_match_true, andb_true_iff, bytes_match_true.
  rewrite same_top_bits by (try apply byte_at_range; lia).
  split.
  - intros H. split.
    + intros c Hc. apply byte_bits_inj; try apply byte_at_range.
      intros t Ht. rewrite <- !addr_bit_in_byte by lia. apply H. lia.
    + intros t Ht. rewrite <- !addr_bit_in_byte by lia. apply H. lia.
  - intros [Hbytes Htop] p Hp.
    rewrite (Z.div_mod p 8) by lia.
    pose proof (Z.mod_pos_bound p 8 ltac:(lia)) as Hmod.
    assert (Hdiv : 0 <= p / 8) by (apply Z.div_pos; lia).
    rewrite !addr_bit_in_byte by lia.
    destruct (Z.lt_ge_cases (p / 8) (Z.of_nat k)) as [Hlt|Hge].
    + rewrite Hbytes by lia. reflexivity.
    + assert (Hk : p / 8 = Z.of_nat k).
      { apply Z.le_antisymm; [|lia]. apply Z.lt_succ_r. apply Z.div_lt_upper_bound; lia. }
      rewrite Hk. apply Htop. rewrite (Z.div_mod p 8) in Hp by lia. lia.
Qed.

(** The entry of index [i] is left out by an expansion exactly when a
    node with data lies below the node of the prefix, within the
    stride, on the path of [i]. *)
Lemma unshadowed_false_inv (node : btrie_node_t) :
  forall j i,
    0 <= j <= 7 -> unshadowed node j i = false ->
    exists m : nat, j + Z.of_nat (S m) <= 7 /\ bdata (bwalk (S m) node i (j + 1)) <> NULL.
Proof.
  induction node as [|x c0 IH0 c1 IH1]; intros j i Hj H.
  - cbn [unshadowed] in H. destruct (j =? 7); discriminate H.
  - cbn [unshadowed] in H.
    destruct (Z.eqb_spec j 7) as [|Hj7]; [discriminate H|].
    assert (Hstep : forall c : btrie_node_t,
               c = bchild (BNode x c0 c1) (byte_bit i (j + 1)) ->
               (forall j i, 0 <= j <= 7 -> unshadowed c j i = false ->
                            exists m : nat, j + Z.of_nat (S m) <= 7 /\
                                            bdata (bwalk (S m) c i (j + 1)) <> NULL) ->
               match c with
               | BNull => true
               | BNode d _ _ => if d =? NULL then unshadowed c (j + 1) i else false
               end = false ->
               exists m : nat, j + Z.of_nat (S m) <= 7 /\
                               bdata (bwalk (S m) (BNode x c0 c1) i (j + 1)) <> NULL).
    { intros c Hc IH Hf. destruct c as [|d y z]; [discriminate Hf|].
      destruct (Z.eqb_spec d NULL) as [Hd|Hd].
      - destruct (IH (j + 1) i ltac:(lia) Hf) as [m [Hm Hdata]].
        exists (S m). split; [lia|].
        change (bwalk (S (S m)) (BNode x c0 c1) i (j + 1))
          with (bwalk (S m) (bchild (BNode x c0 c1) (byte_bit i (j + 1))) i (j + 1 + 1)).
        now rewrite <- Hc.
      - exists O. split; [lia|].
        change (bwalk 1 (BNode x c0 c1) i (j + 1))
          with (bchild (BNode x c0 c1) (byte_bit i (j + 1))).
        rewrite <- Hc. exact Hd. }
    destruct c0 as [|d0 y0 z0]; destruct c1 as [|d1 y1 z1]; [discriminate H| | |];
      cbn [bchild] in Hstep;
      (destruct (byte_bit i (j + 1) =? 0);
       [apply (Hstep _ eq_refl IH0 H) || discriminate H
       |apply (Hstep _ eq_refl IH1 H) || discriminate H]).
Qed.

Lemma unshadowed_true_inv (node : btrie_node_t) (j i : Z) (m : nat) :
  0 <= j -> unshadowed node j i = true -> j + Z.of_nat (S m) <= 7 ->
  bdata (bwalk (S m) node i (j + 1)) = NULL.
Proof.
  intros Hj Hu Hm.
  destruct (Z.eq_dec (bdata (bwalk (S m) node i (j + 1))) NULL) as [E|E]; [exact E|].
  rewrite (unshadowed_false m node j i Hj Hm E) in Hu. discriminate Hu.
Qed.

(** *** A prefix expansion keeps the tries in agreement *)

(** The data below the node of a prefix, within its stride, read along
    an address that matches the prefix. *)
Lemma data_at_below (root : btrie_node_t) (q a : list Z) (n k m : nat) (j : Z) :
  0 <= j -> j + Z.of_nat (S m) <= 7 ->
  Z.of_nat n = 8 * Z.of_nat k + j + 1 ->
  (forall p, 0 <= p < Z.of_nat n -> addr_bit q p = addr_bit a p) ->
  data_at root q (n + S m) =
  bdata (bwalk (S m) (bnode_at n root a 0) (byte_at q (Z.of_nat k)) (j + 1)).
Proof.
  intros Hj Hm Hn Hq. unfold data_at.
  rewrite bnode_at_add.
  rewrite (bnode_at_ext n root q a 0) by (intros p Hp; apply Hq; lia).
  f_equal. apply bnode_at_bwalk.
  intros t Ht.
  replace (0 + Z.of_nat n + t) with (8 * Z.of_nat k + (j + 1 + t)) by lia.
  apply addr_bit_in_byte; lia.
Qed.

Lemma expansion_keeps_agreement (root1 : btrie_node_t) (a temp : list Z) (masklen data : Z)
      (t2 t3 : lpm_lkup_table_t) :
  1 <= masklen <= 128 -> data <> NULL ->
  bnode_at (Z.to_nat masklen) root1 a 0 <> BNull ->
  btrie_root t2 =
    bnode_modify (Z.to_nat masklen) root1 a 0 (fun nd => bset_data nd data) ->
  tries_agree root1 (hi256_table_base t2) ->
  mtrie_wf (hi256_table_base t2) ->
  (forall c, 0 <= c <= (masklen - 1) / 8 -> byte_at temp c = byte_at a c) ->
  expansion_post t2 temp (Z.to_nat ((masklen - 1) / 8))
    (stride_written (bnode_at (Z.to_nat masklen) (btrie_root t2) a 0)
                    ((masklen - 1) mod 8) (byte_at temp ((masklen - 1) / 8)))
    data LPM_SUCCESS t3 ->
  tries_agree (btrie_root t2) (hi256_table_base t3).
Proof.
  intros Hml Hdata Hnode Hroot2 Hagree Hwf Htemp Hpost q l.
  set (n := Z.to_nat masklen) in *.
  set (k := Z.to_nat ((masklen - 1) / 8)) in *.
  set (j := (masklen - 1) mod 8) in *.
  assert (Hj : 0 <= j < 8) by (apply Z.mod_pos_bound; lia).
  assert (Hdiv : 0 <= (masklen - 1) / 8) by (apply Z.div_pos; lia).
  assert (Hk : Z.of_nat k = (masklen - 1) / 8) by (subst k; lia).
  assert (Hn : Z.of_nat n = 8 * Z.of_nat k + j + 1).
  { subst n j. rewrite Hk. pose proof (Z.div_mod (masklen - 1) 8 ltac:(lia)). lia. }
  assert (Hnat : n = (8 * k + Z.to_nat j + 1)%nat) by lia.
  rewrite <- Hk in Hpost, Htemp.
  pose proof (byte_at_range q (Z.of_nat l)) as Hi.
  set (node2 := bnode_at n (btrie_root t2) a 0) in *.
  destruct (Nat.eq_dec l k) as [Hlk|Hlk].
  2:{ rewrite (expansion_post_other _ _ _ _ _ _ _ q l _ Hwf Hpost Hi) by (now left).
      rewrite Hagree, Hroot2. apply deepest_ext. intros i' Hi'.
      symmetry. apply data_at_store_other. left. lia. }
  subst l.
  destruct (bits_match q a n) eqn:Hmatch.
  - pose proof Hmatch as Hsplit. rewrite Hnat, bits_match_split in Hsplit by exact Hj.
    apply andb_prop in Hsplit. destruct Hsplit as [Hbytes Htop].
    rewrite bytes_match_true in Hbytes. rewrite bits_match_true in Hmatch.
    assert (Hbytes' : forall c, 0 <= c < Z.of_nat k -> byte_at q c = byte_at temp c)
      by (intros c Hc; rewrite Htemp by lia; now apply Hbytes).
    assert (Hd : data_at (btrie_root t2) q n = data).
    { rewrite Hroot2. now apply data_at_store_same. }
    assert (Hbelow : forall m : nat,
               j + Z.of_nat (S m) <= 7 ->
               data_at (btrie_root t2) q (n + S m) =
               bdata (bwalk (S m) node2 (byte_at q (Z.of_nat k)) (j + 1))).
    { intros m Hm. apply (data_at_below _ q a n k m j); [lia|exact Hm|exact Hn|exact Hmatch]. }
    destruct (unshadowed node2 j (byte_at q (Z.of_nat k))) eqn:Hun.
    + rewrite (expansion_post_written _ _ _ _ _ _ q _ Hwf Hpost Hi Hbytes').
      * symmetry. rewrite <- Hd. apply deepest_at; [lia|now rewrite Hd|].
        intros i' Hi'. replace i' with (n + S (i' - n - 1))%nat by lia.
        rewrite Hbelow by lia. apply unshadowed_true_inv; [lia|exact Hun|lia].
      * unfold stride_written. rewrite Hun, andb_true_r.
        rewrite (Htemp (Z.of_nat k)) by lia. exact Htop.
    + rewrite (expansion_post_other _ _ _ _ _ _ _ q k _ Hwf Hpost Hi).
      * rewrite Hagree.
        apply unshadowed_false_inv in Hun; [|lia]. destruct Hun as [m [Hm Hne]].
        rewrite <- Hbelow in Hne by exact Hm.
        symmetry. apply (deepest_ext_above _ _ _ _ (n + S m)); [lia|exact Hne|].
        intros i' Hi'. rewrite Hroot2. apply data_at_store_other. left. lia.
      * right. right. unfold stride_written. rewrite Hun. apply andb_false_r.
  - assert (Hsame : deepest (data_at (btrie_root t2) q) (8 * k) 8 =
                    deepest (data_at root1 q) (8 * k) 8).
    { apply deepest_ext. intros i' Hi'. rewrite Hroot2.
      apply data_at_store_other. right. now apply bits_match_false. }
    rewrite Hsame, <- Hagree.
    apply (expansion_post_other _ _ _ _ _ _ _ q k _ Hwf Hpost Hi).
    rewrite Hnat, bits_match_split in Hmatch by exact Hj.
    apply andb_false_iff in Hmatch. destruct Hmatch as [Hb|Ht].
    + right. left. apply bytes_match_false in Hb. destruct Hb as [c [Hc Hne]].
      exists c. split; [exact Hc|]. rewrite Htemp by lia. exact Hne.
    + right. right. unfold stride_written.
      rewrite (Htemp (Z.of_nat k)) by lia. rewrite Ht. reflexivity.
Qed.

(** *** The calls that keep the tries in agreement *)

Lemma deepest_not_null (f : nat -> Z) (lo n m : nat) :
  (lo < m <= lo + n)%nat -> f m <> NULL -> deepest f lo n <> NULL.
Proof.
  induction n as [|n IH]; intros Hm Hf; [lia|].
  cbn [deepest]. destruct (Z.eqb_spec (f (lo + S n)%nat) NULL) as [E|E]; [|exact E].
  apply IH; [|exact Hf].
  destruct (Nat.eq_dec m (lo + S n)) as [->|Hne]; [contradiction|lia].
Qed.

Lemma tries_agree_ensure (root : btrie_node_t) (base : mtrie_block_t) (m : nat)
      (a : list Z) :
  tries_agree root base -> tries_agree (bt_ensure m root a 0) base.
Proof.
  intros H q l. rewrite H. apply deepest_ext. intros i _.
  symmetry. apply data_at_ensure.
Qed.

Lemma tries_agree_store_root (root : btrie_node_t) (base : mtrie_block_t) (a : list Z)
      (v : Z) :
  tries_agree root base ->
  tries_agree (bnode_modify 0 root a 0 (fun nd => bset_data nd v)) base.
Proof.
  intros H q l. rewrite H. apply deepest_ext. intros i Hi.
  symmetry. apply data_at_store_other. left. lia.
Qed.

Lemma copy_addr_bytes (a : list Z) (masklen c : Z) :
  1 <= masklen <= 128 -> 0 <= c <= (masklen - 1) / 8 ->
  byte_at (copy_addr a (u8 (Z.shiftr (masklen - 1) 3 + 1))) c = byte_at a c.
Proof.
  intros Hm Hc. rewrite shiftr3_div.
  assert (Hd : (masklen - 1) / 8 < 16) by (apply Z.div_lt_upper_bound; lia).
  rewrite u8_small by lia. apply byte_at_copy_addr; lia.
Qed.

(** The expansion of a prefix that ends a successful add or update. *)
Lemma expansion_step_agree (root1 : btrie_node_t) (a : list Z) (masklen data : Z)
      (t2 : lpm_lkup_table_t) (mem : list bool) (r : lpm_result_t)
      (t3 : lpm_lkup_table_t) (mem' : list bool) (addr' : list Z) :
  1 <= masklen <= 128 -> data <> NULL ->
  bnode_at (Z.to_nat masklen) root1 a 0 <> BNull ->
  btrie_root t2 =
    bnode_modify (Z.to_nat masklen) root1 a 0 (fun nd => bset_data nd data) ->
  tries_agree root1 (hi256_table_base t2) ->
  mtrie_ok (hi256_table_base t2) (mtrie_block_alloc_stat (stat t2)) ->
  lpm_prefix_expansion t2 mem (copy_addr a (u8 (Z.shiftr (masklen - 1) 3 + 1)))
    masklen (masklen - 1) (bnode_at (Z.to_nat masklen) (btrie_root t2) a 0) data =
    Ret (r, t3, mem', addr') ->
  (r = LPM_SUCCESS /\ tries_agree (btrie_root t3) (hi256_table_base t3)) \/
  (r = LPM_ERR_RESOURCES /\ hi256_table_base t3 = hi256_table_base t2 /\
   btrie_root t3 = btrie_root t2 /\
   btrie_node_alloc_stat (stat t3) = btrie_node_alloc_stat (stat t2) /\
   mtrie_block_at (Z.to_nat ((masklen - 1) / 8)) (hi256_table_base t2) a 0 = MNull).
Proof.
  intros Hml Hdata Hnode Hroot2 Hagree Hm Hrun.
  pose proof Hm as [_ [Hwf Hc]].
  unfold lpm_prefix_expansion in Hrun.
  apply expansion_spec in Hrun;
    [|lia|apply copy_addr_length|exact Hwf|rewrite Hc; apply s32_in_range].
  destruct Hrun as [_ [_ [_ Hpost]]].
  set (temp := copy_addr a (u8 (Z.shiftr (masklen - 1) 3 + 1))) in *.
  assert (Htemp : forall c, 0 <= c <= (masklen - 1) / 8 -> byte_at temp c = byte_at a c)
    by (intros c Hc'; now apply copy_addr_bytes).
  destruct (expansion_post_ok _ _ _ _ _ _ _ Hm Hpost) as [_ [Hr3 _]].
  destruct (expansion_post_result _ _ _ _ _ _ _ Hpost) as [-> | ->].
  - left. split; [reflexivity|]. rewrite Hr3.
    exact (expansion_keeps_agreement root1 a temp masklen data t2 t3
             Hml Hdata Hnode Hroot2 Hagree Hwf Htemp Hpost).
  - right. split; [reflexivity|].
    destruct Hpost as [[_ [Hmiss ->]]|[[Hr _]|[Hr _]]]; try discriminate Hr.
    split; [reflexivity|]. split; [reflexivity|]. split; [reflexivity|].
    destruct (mtrie_block_at (Z.to_nat ((masklen - 1) / 8)) (hi256_table_base t2) a 0)
      as [|es] eqn:Eblk; [reflexivity|].
    exfalso. apply Hmiss. apply chain_present.
    rewrite (mtrie_block_at_ext _ _ temp a 0).
    + rewrite Eblk. discriminate.
    + intros l Hl. apply Htemp.
      assert (0 <= (masklen - 1) / 8) by (apply Z.div_pos; lia). lia.
Qed.

Lemma update_entry_agree (t : lpm_lkup_table_t) (mem : list bool)
      (addr : option (list Z)) (masklen data : Z) (r : lpm_result_t)
      (t' : option lpm_lkup_table_t) (mem' : list bool) :
  0 <= masklen ->
  lpm_update_entry (Some t) mem addr masklen data = Ret (r, t', mem') ->
  table_ok t -> tries_agree (btrie_root t) (hi256_table_base t) ->
  tries_agree (btrie_root (live t t')) (hi256_table_base (live t t')).
Proof.
  intros Hml Hrun Hok Hagree. unfold lpm_update_entry in Hrun.
  destruct (check_arg_codes (Some t) addr masklen) as [Harg|Harg]; rewrite Harg in Hrun;
    cbn [negb lpm_result_eqb] in Hrun; [|inversion Hrun; subst; exact Hagree].
  apply check_arg_success in Harg.
  destruct (Z.eqb_spec data NULL) as [|Hdata]; [inversion Hrun; subst; exact Hagree|].
  destruct (bis_null (btrie_root t) || mis_null (hi256_table_base t));
    [inversion Hrun; subst; exact Hagree|].
  apply bind_ret in Hrun. destruct Hrun as [stored [Hfind Hrun]].
  unfold btrie_find_node in Hfind. apply btrie_find_node_loop_bnode_at in Hfind.
  set (a := addr_of addr) in *. set (n := Z.to_nat masklen) in *.
  destruct stored as [|sd sc0 sc1]; [inversion Hrun; subst; exact Hagree|].
  cbn [bis_null orb bdata] in Hrun.
  destruct (Z.eqb_spec sd NULL) as [|Hsd]; [inversion Hrun; subst; exact Hagree|].
  set (t1 := if sd =? data then t else btrie_store_data t a masklen data) in *.
  assert (Hroot1 : btrie_root t1 =
                   bnode_modify n (btrie_root t) a 0 (fun nd => bset_data nd data)).
  { subst t1. destruct (Z.eqb_spec sd data) as [->|_]; [|reflexivity].
    symmetry. apply bnode_modify_id. rewrite <- Hfind. reflexivity. }
  assert (Hbase1 : hi256_table_base t1 = hi256_table_base t)
    by (subst t1; destruct (sd =? data); reflexivity).
  assert (Hstat1 : stat t1 = stat t)
    by (subst t1; destruct (sd =? data); reflexivity).
  destruct (Z.eqb_spec masklen 0) as [Hm0|Hm0].
  - inversion Hrun; subst r t' mem'; clear Hrun. cbn [live].
    rewrite Hroot1, Hbase1. subst n. rewrite Hm0. now apply tries_agree_store_root.
  - apply bind_ret in Hrun. destruct Hrun as [[[[ret t2] mem1] addr1] [Hexp Hrun]].
    inversion Hrun; subst r t' mem'; clear Hrun. cbn [live].
    destruct Hok as [_ Hm].
    apply (expansion_step_agree (btrie_root t) a masklen data) in Hexp;
      [|lia|exact Hdata|fold n; rewrite <- Hfind; discriminate|exact Hroot1
       |now rewrite Hbase1|now rewrite Hbase1, Hstat1].
    destruct Hexp as [[_ H]|[_ [_ [_ [_ Hmiss]]]]]; [exact H|].
    exfalso. rewrite Hbase1 in Hmiss.
    assert (Hdiv : 0 <= (masklen - 1) / 8) by (apply Z.div_pos; lia).
    pose proof (Z.div_mod (masklen - 1) 8 ltac:(lia)) as Hdm.
    pose proof (Z.mod_pos_bound (masklen - 1) 8 ltac:(lia)) as Hmod.
    pose proof (Hagree a (Z.to_nat ((masklen - 1) / 8))) as Hlevel.
    rewrite mtrie_data_at_missing in Hlevel by exact Hmiss.
    symmetry in Hlevel. revert Hlevel.
    apply (deepest_not_null _ _ _ n); [subst n; lia|].
    unfold data_at. rewrite <- Hfind. exact Hsd.
Qed.

Lemma add_entry_agree (t : lpm_lkup_table_t) (mem : list bool)
      (addr : option (list Z)) (masklen data : Z) (r : lpm_result_t)
      (t' : option lpm_lkup_table_t) (mem' : list bool) :
  0 <= masklen ->
  lpm_add_entry (Some t) mem addr masklen data = Ret (r, t', mem') ->
  table_ok t -> tries_agree (btrie_root t) (hi256_table_base t) ->
  tries_agree (btrie_root (live t t')) (hi256_table_base (live t t')).
Proof.
  intros Hml Hrun Hok Hagree. unfold lpm_add_entry in Hrun.
  destruct (check_arg_codes (Some t) addr masklen) as [Harg|Harg]; rewrite Harg in Hrun;
    cbn [negb lpm_result_eqb] in Hrun; [|inversion Hrun; subst; exact Hagree].
  apply check_arg_success in Harg.
  destruct (Z.eqb_spec data NULL) as [|Hdata]; [inversion Hrun; subst; exact Hagree|].
  destruct (bis_null (btrie_root t) || mis_null (hi256_table_base t));
    [inversion Hrun; subst; exact Hagree|].
  apply bind_ret in Hrun. destruct Hrun as [[[out t1] mem1] [Hadd Hrun]].
  destruct Hok as [Hb Hm].
  pose proof Hb as [Hroot [Hwithin Hcount]].
  apply btrie_add_node_spec in Hadd; [|exact Hroot].
  destruct Hadd as [m [failed [Hkm [Ht1 [Hap Hret]]]]].
  set (a := addr_of addr) in *. set (n := Z.to_nat masklen) in *.
  set (root := btrie_root t) in *.
  set (k := existing n root a 0) in *.
  assert (Hroot1 : btrie_root t1 = bt_ensure m root a 0) by (now rewrite Ht1).
  assert (Hbase1 : hi256_table_base t1 = hi256_table_base t) by (now rewrite Ht1).
  assert (Hm1 : mtrie_ok (hi256_table_base t1) (mtrie_block_alloc_stat (stat t1)))
    by (rewrite Ht1; exact Hm).
  assert (Hagree1 : tries_agree (btrie_root t1) (hi256_table_base t1)).
  { rewrite Hroot1, Hbase1. now apply tries_agree_ensure. }
  assert (Hx : in_s32 (btrie_node_alloc_stat (stat t)))
    by (rewrite Hcount; apply s32_in_range).
  assert (Hrollback :
    forall T T' : lpm_lkup_table_t,
      (k < n)%nat -> (k <= m)%nat ->
      btrie_root T = bt_ensure m root a 0 ->
      btrie_node_alloc_stat (stat T) = incr_times (m - k) (btrie_node_alloc_stat (stat t)) ->
      hi256_table_base T = hi256_table_base t ->
      btrie_rollback T a (an_append_point out) (an_append_bit out) = Ret T' ->
      tries_agree (btrie_root T') (hi256_table_base T')).
  { intros T T' Hkn Hkm' HrT HcT HbT Hrb.
    destruct Hap as [Hp Hbit]; [lia|]. rewrite Hp, Hbit in Hrb.
    apply (btrie_rollback_spec T a n m root (btrie_node_alloc_stat (stat t))) in Hrb;
      [|exact Hroot|exact Hkn|exact Hkm'|exact HrT|exact HcT|exact Hx].
    subst T'. cbn [btrie_root hi256_table_base set_stat set_btrie_root].
    rewrite HbT. exact Hagree. }
  destruct failed.
  - destruct Hret as [Hr Hlt]. rewrite Hr in Hrun.
    apply bind_ret in Hrun. destruct Hrun as [t2 [Hrb Hrun]].
    inversion Hrun; subst r t' mem'; clear Hrun. cbn [live].
    apply (Hrollback t1 t2); [lia|lia|exact Hroot1|now rewrite Ht1|exact Hbase1|exact Hrb].
  - destruct Hret as [-> Hr].
    assert (Hundo : forall T3 : lpm_lkup_table_t,
               bdata (bnode_at n (btrie_root t1) a 0) = NULL ->
               btrie_root T3 =
                 btrie_root (stat_data_incr (btrie_store_data t1 a masklen data) masklen) ->
               btrie_root (stat_data_decr (btrie_store_data T3 a masklen NULL) masklen) =
               bt_ensure n root a 0).
    { intros T3 Hd0 HT3.
      cbn [btrie_root stat_data_decr set_stat btrie_store_data set_btrie_root].
      rewrite HT3.
      cbn [btrie_root stat_data_incr set_stat btrie_store_data set_btrie_root].
      rewrite bnode_modify_compose. fold n.
      rewrite Hroot1.
      apply bnode_modify_id.
      rewrite Hroot1 in Hd0.
      destruct (bnode_at n (bt_ensure n root a 0) a 0) as [|d c0 c1]; [reflexivity|].
      cbn [bdata] in Hd0. cbn [bset_data]. now rewrite Hd0. }
    destruct (Nat.eqb_spec k n) as [Hkn|Hkn]; rewrite Hr in Hrun;
      cbn [lpm_result_eqb] in Hrun;
      (destruct (bnode_at n (btrie_root t1) a 0) as [|d c0 c1] eqn:Hnode;
       [discriminate Hrun|]);
      (destruct (Z.eqb_spec d NULL) as [Hd|Hd]; cbn [negb] in Hrun;
       [|destruct (d =? data); inversion Hrun; subst; exact Hagree1]);
      (destruct (Z.eqb_spec masklen 0) as [Hm0|Hm0];
       [inversion Hrun; subst r t' mem'; cbn [live];
        cbn [btrie_root hi256_table_base stat_data_incr set_stat btrie_store_data
             set_btrie_root];
        rewrite Hm0; now apply tries_agree_store_root|]);
      apply bind_ret in Hrun; destruct Hrun as [[[[r3 t3] mem2] addr3] [Hexp Hrun]];
      (apply (expansion_step_agree (btrie_root t1) a masklen data) in Hexp;
       [|lia|exact Hdata|fold n; rewrite Hnode; discriminate|reflexivity
        |exact Hagree1|exact Hm1]);
      (destruct Hexp as [[-> H]|[-> [Hb3 [Hr3 [Hs3 _]]]]];
       [inversion Hrun; subst r t' mem'; exact H|]);
      assert (Hroot4 := Hundo t3 Hd Hr3).
    + inversion Hrun; subst r t' mem'; clear Hrun. cbn [live].
      rewrite Hroot4.
      cbn [hi256_table_base stat_data_decr set_stat btrie_store_data set_btrie_root].
      rewrite Hb3.
      cbn [hi256_table_base stat_data_incr set_stat btrie_store_data set_btrie_root].
      rewrite Hbase1. now apply tries_agree_ensure.
    + apply bind_ret in Hrun. destruct Hrun as [t5 [Hrb Hrun]].
      inversion Hrun; subst r t' mem'; clear Hrun. cbn [live].
      apply (Hrollback _ t5 ltac:(lia) ltac:(lia) Hroot4); [| |exact Hrb].
      * cbn [stat stat_data_decr set_stat btrie_node_alloc_stat
             set_data_per_masklen set_data_total btrie_store_data set_btrie_root].
        rewrite Hs3.
        cbn [stat stat_data_incr set_stat btrie_node_alloc_stat
             set_data_per_masklen set_data_total btrie_store_data set_btrie_root].
        rewrite Ht1. reflexivity.
      * cbn [hi256_table_base stat_data_decr set_stat btrie_store_data set_btrie_root].
        rewrite Hb3. exact Hbase1.
Qed.

Lemma apply_op_agree (t : lpm_lkup_table_t) (mem : list bool) (op : lpm_op)
      (r : lpm_result_t) (t' : lpm_lkup_table_t) (mem' : list bool) :
  op_in_range op -> op_keeps_bindings op ->
  apply_op t mem op = Ret (r, t', mem') ->
  table_ok t -> tries_agree (btrie_root t) (hi256_table_base t) ->
  tries_agree (btrie_root t') (hi256_table_base t').
Proof.
  intros Hop Hkeep Hrun Hok Hagree. destruct op as [a m d|a m d|a m|a m| |dbg on];
    cbn [apply_op op_in_range op_keeps_bindings] in *.
  - apply bind_ret in Hrun. destruct Hrun as [[[r0 t0] mem0] [Hcall Hrun]].
    inversion Hrun; subst.
    apply (add_entry_agree _ _ _ _ _ _ _ _ (proj1 Hop) Hcall Hok Hagree).
  - apply bind_ret in Hrun. destruct Hrun as [[[r0 t0] mem0] [Hcall Hrun]].
    inversion Hrun; subst.
    apply (update_entry_agree _ _ _ _ _ _ _ _ (proj1 Hop) Hcall Hok Hagree).
  - destruct Hkeep.
  - apply bind_ret in Hrun. destruct Hrun as [[r0 t0] [Hcall Hrun]].
    inversion Hrun; subst; clear Hrun.
    unfold lpm_update_default_data in Hcall.
    destruct (negb _) in Hcall; [inversion Hcall; subst; exact Hagree|].
    destruct (btrie_root t) as [|rd rc0 rc1] eqn:Hroot;
      [inversion Hcall; subst; cbn [live]; now rewrite Hroot|].
    apply bind_ret in Hcall. destruct Hcall as [dd [_ Hcall]].
    destruct (dd =? NULL); inversion Hcall; subst; cbn [live];
      cbn [btrie_root hi256_table_base set_default]; now rewrite Hroot.
  - unfold lpm_del_default_data in Hrun.
    destruct (default_data t =? NULL); inversion Hrun; subst; exact Hagree.
  - unfold lpm_debug_support in Hrun.
    destruct (on =? 1); [|destruct (on =? 0)];
      first [ destruct dbg; inversion Hrun; subst; exact Hagree
            | inversion Hrun; subst; exact Hagree ].
Qed.

Lemma apply_ops_agree (ops : list lpm_op) :
  forall t mem rs t' mem',
    Forall op_in_range ops -> Forall op_keeps_bindings ops ->
    apply_ops t mem ops = Ret (rs, t', mem') ->
    table_ok t -> tries_agree (btrie_root t) (hi256_table_base t) ->
    table_ok t' /\ tries_agree (btrie_root t') (hi256_table_base t').
Proof.
  induction ops as [|op ops IH]; intros t mem rs t' mem' Hops Hkeep Hrun Hok Hagree.
  - inversion Hrun; subst. now split.
  - cbn [apply_ops] in Hrun.
    apply bind_ret in Hrun. destruct Hrun as [[[r1 t1] mem1] [Hop Hrun]].
    apply bind_ret in Hrun. destruct Hrun as [[[rs2 t2] mem2] [Hrest Hrun]].
    inversion Hrun; subst; clear Hrun.
    inversion Hops as [|x l Hx Hl]; subst. inversion Hkeep as [|x l Hkx Hkl]; subst.
    apply (IH _ _ _ _ _ Hl Hkl Hrest).
    + exact (apply_op_ok _ _ _ _ _ _ Hx Hop Hok).
    + exact (apply_op_agree _ _ _ _ _ _ Hx Hkx Hop Hok Hagree).
Qed.

(** On a table whose tries agree, a search answers the data of the
    longest bound prefix of 1 to 128 bits that matches the address. *)
Lemma search_of_agree (t : lpm_lkup_table_t) (q : list Z) (u : Z) :
  btrie_within 128 (btrie_root t) = true ->
  tries_agree (btrie_root t) (hi256_table_base t) ->
  lpm_search_table (Some t) (Some q) (Some u) =
  if deepest (data_at (btrie_root t) q) 0 128 =? NULL
  then (default_data t, Some 1)
  else (deepest (data_at (btrie_root t) q) 0 128, Some 0).
Proof.
  intros Hw Hagree.
  set (f := data_at (btrie_root t) q).
  assert (Hlevel : forall n : nat,
             mdata (search_entry (hi256_table_base t) q 0 n) = deepest f (8 * n) 8).
  { intros n. subst f. rewrite <- (Hagree q n). reflexivity. }
  assert (Hbeyond : forall i, (128 < i)%nat -> f i = NULL)
    by (intros i Hi; now apply data_at_beyond).
  destruct (lpm_search_loop_deepest q (hi256_table_base t) 0 NULL) as [H1 H2].
  unfold lpm_search_table.
  destruct (Z.eqb_spec (deepest f 0 128) NULL) as [E|E].
  - rewrite H2; [reflexivity|].
    intros n. rewrite Hlevel. apply deepest_null. intros i Hi.
    destruct (Nat.le_gt_cases i 128) as [L|L]; [|now apply Hbeyond].
    apply (deepest_all_null f 0 128 E). lia.
  - destruct (deepest_found f 0 128 E) as [m [Hm [Hd Hz]]].
    assert (Hfm : f m <> NULL) by (now rewrite <- Hd).
    assert (Hzero : forall i, (m < i)%nat -> f i = NULL).
    { intros i Hi. destruct (Nat.le_gt_cases i 128) as [L|L]; [|now apply Hbeyond].
      apply Hz. lia. }
    set (n := ((m - 1) / 8)%nat).
    assert (Hn : (8 * n < m <= 8 * n + 8)%nat).
    { subst n. pose proof (Nat.div_mod_eq (m - 1) 8) as Hdm.
      pose proof (Nat.mod_upper_bound (m - 1) 8 ltac:(lia)). lia. }
    assert (Hsn : deepest f (8 * n) 8 = f m).
    { apply deepest_at; [exact Hn|exact Hfm|]. intros i Hi. apply Hzero. lia. }
    rewrite (H1 n).
    + rewrite Hlevel, Hsn, <- Hd.
      destruct (Z.eqb_spec (deepest f 0 128) NULL); [contradiction|reflexivity].
    + rewrite Hlevel, Hsn. exact Hfm.
    + intros n' Hn'. rewrite Hlevel. apply deepest_null. intros i Hi. apply Hzero. lia.
Qed.

(** After any sequence of add, update, default and debug calls on a
    table returned by [lpm_create_table], whatever they answered and
    whatever the allocator did, [lpm_search_table] answers the data of
    the longest prefix of 1 to 128 bits that is bound and matches the
    address, with the default flag cleared; when no such prefix matches,
    it answers the default data with the flag set. *)
Theorem search_longest_match (nm : option string) (mem0 mem1 mem mem' : list bool)
        (t0 t : lpm_lkup_table_t) (ops : list lpm_op) (rs : list lpm_result_t)
        (q : list Z) (u : Z) :
  lpm_create_table nm mem0 = Ret (Some t0, mem1) ->
  Forall op_in_range ops -> Forall op_keeps_bindings ops ->
  apply_ops t0 mem ops = Ret (rs, t, mem') ->
  (exists m d,
      1 <= m <= 128 /\ d <> NULL /\
      lpm_find_entry (Some t) (Some q) m = Ret d /\
      (forall m', m < m' <= 128 -> lpm_find_entry (Some t) (Some q) m' = Ret NULL) /\
      lpm_search_table (Some t) (Some q) (Some u) = (d, Some 0)) \/
  ((forall m, 1 <= m <= 128 -> lpm_find_entry (Some t) (Some q) m = Ret NULL) /\
   lpm_search_table (Some t) (Some q) (Some u) = (default_data t, Some 1)).
Proof.
  intros Hcreate Hops Hkeep Hrun.
  apply create_table_fresh in Hcreate. subst t0.
  destruct (apply_ops_agree _ _ _ _ _ _ Hops Hkeep Hrun (fresh_table_ok nm)
                            (tries_agree_fresh nm)) as [[[_ [Hw _]] _] Hagree].
  rewrite (search_of_agree t q u Hw Hagree).
  set (f := data_at (btrie_root t) q).
  assert (Hfind : forall m, 0 <= m <= 128 ->
                            lpm_find_entry (Some t) (Some q) m = Ret (f (Z.to_nat m))).
  { intros m Hm. rewrite find_entry_ret by lia. reflexivity. }
  destruct (Z.eqb_spec (deepest f 0 128) NULL) as [E|E].
  - right. split; [|reflexivity]. intros m Hm. rewrite Hfind by lia. f_equal.
    apply (deepest_all_null f 0 128 E). lia.
  - left. destruct (deepest_found f 0 128 E) as [m [Hm [Hd Hz]]].
    exists (Z.of_nat m), (deepest f 0 128).
    split; [lia|]. split; [exact E|]. split; [|split; [|reflexivity]].
    + rewrite Hfind by lia. rewrite Nat2Z.id. now rewrite Hd.
    + intros m' Hm'. rewrite Hfind by lia. f_equal. apply Hz. lia.
Qed.

Lemma search_longest_match_witness :
  lpm_search_table
    (Some (table_after [OpAdd [10] 8 7; OpAdd [10; 1] 16 9; OpUpdate [10] 8 5]))
    (Some [10; 2; 3; 4]) (Some 1) = (5, Some 0) /\
  lpm_find_entry
    (Some (table_after [OpAdd [10] 8 7; OpAdd [10; 1] 16 9; OpUpdate [10] 8 5]))
    (Some [10; 2; 3; 4]) 8 = Ret 5.
Proof.
  assert (Hcreate : lpm_create_table None [] = Ret (Some (created None), []))
    by (vm_compute; reflexivity).
  assert (Hops : Forall op_in_range
                        [OpAdd [10] 8 7; OpAdd [10; 1] 16 9; OpUpdate [10] 8 5]).
  { repeat constructor; cbn; lia. }
  assert (Hkeep : Forall op_keeps_bindings
                         [OpAdd [10] 8 7; OpAdd [10; 1] 16 9; OpUpdate [10] 8 5]).
  { repeat constructor. }
  assert (Hrun : apply_ops (created None) []
                           [OpAdd [10] 8 7; OpAdd [10; 1] 16 9; OpUpdate [10] 8 5] =
                 Ret ([LPM_SUCCESS; LPM_SUCCESS; LPM_SUCCESS],
                      table_after [OpAdd [10] 8 7; OpAdd [10; 1] 16 9; OpUpdate [10] 8 5],
                      [])).
  { vm_compute. reflexivity. }
  pose proof (search_longest_match None [] [] [] [] (created None) _ _ _ [10; 2; 3; 4] 1
                                   Hcreate Hops Hkeep Hrun) as H.
  split; [|vm_compute; reflexivity].
  destruct H as [[m [d [_ [_ [_ [_ Hs]]]]]]|[_ Hs]].
  - rewrite Hs. vm_compute in Hs. inversion Hs. reflexivity.
  - rewrite Hs. vm_compute in Hs. inversion Hs.
Defined.

(** *** Counting the bindings *)

Lemma count_at_null (d : nat) : btrie_data_count_at d BNull = 0.
Proof. destruct d; reflexivity. Qed.

Lemma count_bset_child (node c : btrie_node_t) (bit : Z) :
  node <> BNull ->
  btrie_data_count (bset_child node bit c) =
  btrie_data_count node - btrie_data_count (bchild node bit) + btrie_data_count c.
Proof.
  destruct node as [|d c0 c1]; [intros H; now destruct H|]. intros _.
  unfold bset_child, bchild. destruct (bit =? 0); cbn [btrie_data_count]; lia.
Qed.

Lemma count_at_bset_child (d : nat) (node c : btrie_node_t) (bit : Z) :
  node <> BNull ->
  btrie_data_count_at (S d) (bset_child node bit c) =
  btrie_data_count_at (S d) node - btrie_data_count_at d (bchild node bit) +
  btrie_data_count_at d c.
Proof.
  destruct node as [|x c0 c1]; [intros H; now destruct H|]. intros _.
  unfold bset_child, bchild. destruct (bit =? 0); cbn [btrie_data_count_at]; lia.
Qed.

Lemma count_at_bset_child_O (node c : btrie_node_t) (bit : Z) :
  btrie_data_count_at O (bset_child node bit c) = btrie_data_count_at O node.
Proof.
  destruct node as [|x c0 c1]; [reflexivity|].
  unfold bset_child. destruct (bit =? 0); reflexivity.
Qed.

Lemma count_materialize (node : btrie_node_t) :
  btrie_data_count (materialize node) = btrie_data_count node.
Proof. destruct node; reflexivity. Qed.

Lemma count_at_materialize (d : nat) (node : btrie_node_t) :
  btrie_data_count_at d (materialize node) = btrie_data_count_at d node.
Proof.
  destruct node; [|reflexivity]. rewrite count_at_null.
  destruct d; cbn [materialize btrie_data_count_at]; [reflexivity|].
  now rewrite count_at_null.
Qed.

Lemma bchild_materialize_null (bit : Z) : bchild (materialize BNull) bit = BNull.
Proof. cbn. now destruct (bit =? 0). Qed.

(** The nodes that [btrie_add_node] appends hold no data. *)
Lemma count_bt_ensure (m : nat) :
  forall node addr pos,
    btrie_data_count (bt_ensure m node addr pos) = btrie_data_count node.
Proof.
  induction m as [|m IH]; intros node addr pos.
  - apply count_materialize.
  - cbn [bt_ensure]. rewrite count_bset_child by apply materialize_not_null.
    rewrite IH, count_materialize. lia.
Qed.

Lemma count_at_bt_ensure (m : nat) :
  forall d node addr pos,
    btrie_data_count_at d (bt_ensure m node addr pos) = btrie_data_count_at d node.
Proof.
  induction m as [|m IH]; intros d node addr pos.
  - apply count_at_materialize.
  - cbn [bt_ensure]. destruct d as [|d].
    + rewrite count_at_bset_child_O. apply count_at_materialize.
    + rewrite count_at_bset_child by apply materialize_not_null.
      rewrite IH, count_at_materialize. lia.
Qed.

(** Writing the data of the node of a prefix. *)
Lemma count_store (n : nat) (v : Z) :
  forall node addr pos,
    bnode_at n node addr pos <> BNull ->
    btrie_data_count (bnode_modify n node addr pos (fun nd => bset_data nd v)) =
    btrie_data_count node - has_data (bdata (bnode_at n node addr pos)) + has_data v.
Proof.
  induction n as [|n IH]; intros node addr pos Hat.
  - cbn [bnode_modify bnode_at] in *. destruct node as [|x c0 c1]; [congruence|].
    cbn [bset_data bdata btrie_data_count]. unfold has_data. lia.
  - cbn [bnode_modify bnode_at] in *.
    destruct node as [|x c0 c1].
    + exfalso. apply Hat. cbn [bchild]. apply bnode_at_null.
    + rewrite count_bset_child by discriminate. rewrite IH by exact Hat. lia.
Qed.

Lemma count_at_store (n : nat) (v : Z) :
  forall d node addr pos,
    bnode_at n node addr pos <> BNull ->
    btrie_data_count_at d (bnode_modify n node addr pos (fun nd => bset_data nd v)) =
    if (d =? n)%nat
    then btrie_data_count_at d node - has_data (bdata (bnode_at n node addr pos)) + has_data v
    else btrie_data_count_at d node.
Proof.
  induction n as [|n IH]; intros d node addr pos Hat.
  - cbn [bnode_modify bnode_at] in *. destruct node as [|x c0 c1]; [congruence|].
    destruct d as [|d]; cbn [Nat.eqb bset_data bdata btrie_data_count_at];
      [unfold has_data; lia|reflexivity].
  - cbn [bnode_modify bnode_at] in *.
    destruct node as [|x c0 c1].
    + exfalso. apply Hat. cbn [bchild]. apply bnode_at_null.
    + destruct d as [|d].
      * rewrite count_at_bset_child_O. reflexivity.
      * rewrite count_at_bset_child by discriminate. rewrite IH by exact Hat.
        cbn [Nat.eqb]. destruct (d =? n)%nat; lia.
Qed.

Lemma u32_add_l (a b : Z) : u32 (u32 a + b) = u32 (a + b).
Proof. unfold u32. now rewrite Zplus_mod_idemp_l. Qed.

Lemma u32_sub_l (a b : Z) : u32 (u32 a - b) = u32 (a - b).
Proof. unfold u32. now rewrite Zminus_mod_idemp_l. Qed.

Lemma has_data_null : has_data NULL = 0.
Proof. reflexivity. Qed.

Lemma has_data_not_null (d : Z) : d <> NULL -> has_data d = 1.
Proof. unfold has_data. now destruct (Z.eqb_spec d NULL). Qed.

(** The counters follow a table whose btrie holds the same bindings. *)
Lemma data_stat_ok_same (t t' : lpm_lkup_table_t) :
  btrie_data_count (btrie_root t') = btrie_data_count (btrie_root t) ->
  (forall m, btrie_data_count_at m (btrie_root t') = btrie_data_count_at m (btrie_root t)) ->
  data_total (stat t') = data_total (stat t) ->
  data_per_masklen (stat t') = data_per_masklen (stat t) ->
  data_stat_ok t -> data_stat_ok t'.
Proof.
  intros Hc Hca Hdt Hpm [H1 [H2 H3]]. unfold data_stat_ok.
  rewrite Hc, Hdt, Hpm. split; [exact H1|]. split; [exact H2|].
  intros m Hm. rewrite Hca. now apply H3.
Qed.

(** Binding a prefix that was not bound: one more binding, counted. *)
Lemma data_stat_ok_incr (T : lpm_lkup_table_t) (a : list Z) (masklen data : Z) :
  0 <= masklen <= 128 -> data <> NULL ->
  bnode_at (Z.to_nat masklen) (btrie_root T) a 0 <> BNull ->
  bdata (bnode_at (Z.to_nat masklen) (btrie_root T) a 0) = NULL ->
  data_stat_ok T ->
  data_stat_ok (stat_data_incr (btrie_store_data T a masklen data) masklen).
Proof.
  intros Hml Hdata Hnode Hnull [H1 [H2 H3]]. unfold data_stat_ok.
  cbn [stat stat_data_incr set_stat btrie_store_data set_btrie_root btrie_root
       data_total data_per_masklen set_data_per_masklen set_data_total].
  split; [|split].
  - rewrite count_store by exact Hnode.
    rewrite Hnull, has_data_null, (has_data_not_null _ Hdata), H1, s32_add_l.
    f_equal. lia.
  - rewrite zset_length. exact H2.
  - intros m Hm. rewrite count_at_store by exact Hnode.
    rewrite Hnull, has_data_null, (has_data_not_null _ Hdata).
    destruct (Nat.eqb_spec m (Z.to_nat masklen)) as [E|E].
    + replace (Z.of_nat m) with masklen by lia.
      rewrite zget_zset_eq by lia.
      replace masklen with (Z.of_nat m) at 1 by lia.
      rewrite H3 by exact Hm. rewrite u32_add_l. f_equal. lia.
    + rewrite zget_zset_neq by lia. now apply H3.
Qed.

(** Clearing the data of a bound prefix: one binding less, counted. *)
Lemma data_stat_ok_decr (T : lpm_lkup_table_t) (a : list Z) (masklen : Z) :
  0 <= masklen <= 128 ->
  bnode_at (Z.to_nat masklen) (btrie_root T) a 0 <> BNull ->
  bdata (bnode_at (Z.to_nat masklen) (btrie_root T) a 0) <> NULL ->
  data_stat_ok T ->
  data_stat_ok (stat_data_decr (btrie_store_data T a masklen NULL) masklen).
Proof.
  intros Hml Hnode Hbound [H1 [H2 H3]]. unfold data_stat_ok.
  cbn [stat stat_data_decr set_stat btrie_store_data set_btrie_root btrie_root
       data_total data_per_masklen set_data_per_masklen set_data_total].
  split; [|split].
  - rewrite count_store by exact Hnode.
    rewrite (has_data_not_null _ Hbound), has_data_null, H1, s32_sub_l.
    f_equal. lia.
  - rewrite zset_length. exact H2.
  - intros m Hm. rewrite count_at_store by exact Hnode.
    rewrite (has_data_not_null _ Hbound), has_data_null.
    destruct (Nat.eqb_spec m (Z.to_nat masklen)) as [E|E].
    + replace (Z.of_nat m) with masklen by lia.
      rewrite zget_zset_eq by lia.
      replace masklen with (Z.of_nat m) at 1 by lia.
      rewrite H3 by exact Hm. rewrite u32_sub_l. f_equal. lia.
    + rewrite zget_zset_neq by lia. now apply H3.
Qed.

(** Replacing the data of a bound prefix leaves the counts alone. *)
Lemma data_stat_ok_replace (T : lpm_lkup_table_t) (a : list Z) (masklen data : Z) :
  data <> NULL ->
  bnode_at (Z.to_nat masklen) (btrie_root T) a 0 <> BNull ->
  bdata (bnode_at (Z.to_nat masklen) (btrie_root T) a 0) <> NULL ->
  data_stat_ok T -> data_stat_ok (btrie_store_data T a masklen data).
Proof.
  intros Hdata Hnode Hbound. apply data_stat_ok_same; try reflexivity.
  - cbn [btrie_root btrie_store_data set_btrie_root].
    rewrite count_store by exact Hnode.
    rewrite (has_data_not_null _ Hbound), (has_data_not_null _ Hdata). lia.
  - intros m. cbn [btrie_root btrie_store_data set_btrie_root].
    rewrite count_at_store by exact Hnode.
    rewrite (has_data_not_null _ Hbound), (has_data_not_null _ Hdata).
    destruct (m =? Z.to_nat masklen)%nat; lia.
Qed.

Lemma data_stat_ok_root_data (T : lpm_lkup_table_t) (a : list Z) (data : Z) :
  data <> NULL -> btrie_root T <> BNull -> bdata (btrie_root T) = NULL ->
  data_stat_ok T -> data_stat_ok (stat_data_incr (btrie_store_data T a 0 data) 0).
Proof.
  intros Hdata Hroot Hnull. apply (data_stat_ok_incr T a 0 data); try assumption. lia.
Qed.

(** A prefix expansion leaves the btrie and the counters of the bindings
    alone. *)
Lemma expansion_post_data_stat (table : lpm_lkup_table_t) (addr : list Z) (k : nat)
      (p : Z -> bool) (data : Z) (r : lpm_result_t) (table' : lpm_lkup_table_t) :
  expansion_post table addr k p data r table' ->
  btrie_root table' = btrie_root table /\
  data_total (stat table') = data_total (stat table) /\
  data_per_masklen (stat table') = data_per_masklen (stat table).
Proof.
  intros [[_ [_ ->]]|[[_ [-> _]]|[_ ->]]]; repeat split; reflexivity.
Qed.

Lemma prefix_expansion_data_stat (t : lpm_lkup_table_t) (mem : list bool) (addr : list Z)
      (masklen tb : Z) (node : btrie_node_t) (data : Z) (r : lpm_result_t)
      (t' : lpm_lkup_table_t) (mem' : list bool) (addr' : list Z) :
  0 <= tb -> length addr = 16%nat ->
  mtrie_ok (hi256_table_base t) (mtrie_block_alloc_stat (stat t)) ->
  lpm_prefix_expansion t mem addr masklen tb node data = Ret (r, t', mem', addr') ->
  (r = LPM_SUCCESS \/ r = LPM_ERR_RESOURCES) /\
  btrie_root t' = btrie_root t /\
  btrie_node_alloc_stat (stat t') = btrie_node_alloc_stat (stat t) /\
  data_total (stat t') = data_total (stat t) /\
  data_per_masklen (stat t') = data_per_masklen (stat t).
Proof.
  intros Htb Hlen Hm Hrun. unfold lpm_prefix_expansion in Hrun.
  apply expansion_spec in Hrun;
    [|exact Htb|exact Hlen|apply Hm
     |destruct Hm as [_ [_ ->]]; apply s32_in_range].
  destruct Hrun as [_ [_ [_ Hpost]]].
  split; [exact (expansion_post_result _ _ _ _ _ _ _ Hpost)|].
  destruct (expansion_post_data_stat _ _ _ _ _ _ _ Hpost) as [H1 [H2 H3]].
  destruct (expansion_post_ok _ _ _ _ _ _ _ Hm Hpost) as [_ [_ H4]].
  repeat split; assumption.
Qed.

Lemma update_entry_data_stat (t : lpm_lkup_table_t) (mem : list bool)
      (addr : option (list Z)) (masklen data : Z) (r : lpm_result_t)
      (t' : option lpm_lkup_table_t) (mem' : list bool) :
  0 <= masklen ->
  lpm_update_entry (Some t) mem addr masklen data = Ret (r, t', mem') ->
  table_ok t -> data_stat_ok t -> data_stat_ok (live t t').
Proof.
  intros Hml Hrun Hok Hds. unfold lpm_update_entry in Hrun.
  destruct (check_arg_codes (Some t) addr masklen) as [Harg|Harg]; rewrite Harg in Hrun;
    cbn [negb lpm_result_eqb] in Hrun; [|inversion Hrun; subst; exact Hds].
  apply check_arg_success in Harg.
  destruct (Z.eqb_spec data NULL) as [|Hdata]; [inversion Hrun; subst; exact Hds|].
  destruct (bis_null (btrie_root t) || mis_null (hi256_table_base t));
    [inversion Hrun; subst; exact Hds|].
  apply bind_ret in Hrun. destruct Hrun as [stored [Hfind Hrun]].
  unfold btrie_find_node in Hfind. apply btrie_find_node_loop_bnode_at in Hfind.
  set (a := addr_of addr) in *. set (n := Z.to_nat masklen) in *.
  destruct stored as [|sd sc0 sc1]; [inversion Hrun; subst; exact Hds|].
  cbn [bis_null orb bdata] in Hrun.
  destruct (Z.eqb_spec sd NULL) as [|Hsd]; [inversion Hrun; subst; exact Hds|].
  set (t1 := if sd =? data then t else btrie_store_data t a masklen data) in *.
  assert (Hds1 : data_stat_ok t1).
  { subst t1. destruct (sd =? data); [exact Hds|].
    apply data_stat_ok_replace; [exact Hdata| | |exact Hds];
      fold n; rewrite <- Hfind; [discriminate|exact Hsd]. }
  assert (Hm1 : mtrie_ok (hi256_table_base t1) (mtrie_block_alloc_stat (stat t1))).
  { subst t1. destruct (sd =? data); apply Hok. }
  destruct (Z.eqb_spec masklen 0) as [Hm0|Hm0]; [inversion Hrun; subst; exact Hds1|].
  apply bind_ret in Hrun. destruct Hrun as [[[[ret t2] mem1] addr1] [Hexp Hrun]].
  inversion Hrun; subst r t' mem'; clear Hrun. cbn [live].
  apply prefix_expansion_data_stat in Hexp; [|lia|apply copy_addr_length|exact Hm1].
  destruct Hexp as [_ [Hr2 [_ [Hdt Hpm]]]].
  refine (data_stat_ok_same t1 t2 _ _ Hdt Hpm Hds1);
    [now rewrite Hr2|intros m; now rewrite Hr2].
Qed.

Lemma add_entry_data_stat (t : lpm_lkup_table_t) (mem : list bool)
      (addr : option (list Z)) (masklen data : Z) (r : lpm_result_t)
      (t' : option lpm_lkup_table_t) (mem' : list bool) :
  0 <= masklen ->
  lpm_add_entry (Some t) mem addr masklen data = Ret (r, t', mem') ->
  table_ok t -> data_stat_ok t -> data_stat_ok (live t t').
Proof.
  intros Hml Hrun Hok Hds. unfold lpm_add_entry in Hrun.
  destruct (check_arg_codes (Some t) addr masklen) as [Harg|Harg]; rewrite Harg in Hrun;
    cbn [negb lpm_result_eqb] in Hrun; [|inversion Hrun; subst; exact Hds].
  apply check_arg_success in Harg.
  destruct (Z.eqb_spec data NULL) as [|Hdata]; [inversion Hrun; subst; exact Hds|].
  destruct (bis_null (btrie_root t) || mis_null (hi256_table_base t));
    [inversion Hrun; subst; exact Hds|].
  apply bind_ret in Hrun. destruct Hrun as [[[out t1] mem1] [Hadd Hrun]].
  destruct Hok as [Hb Hm].
  pose proof Hb as [Hroot [Hwithin Hcount]].
  apply btrie_add_node_spec in Hadd; [|exact Hroot].
  destruct Hadd as [m [failed [Hkm [Ht1 [Hap Hret]]]]].
  set (a := addr_of addr) in *. set (n := Z.to_nat masklen) in *.
  set (root := btrie_root t) in *.
  set (k := existing n root a 0) in *.
  assert (Hroot1 : btrie_root t1 = bt_ensure m root a 0) by (now rewrite Ht1).
  assert (Hm1 : mtrie_ok (hi256_table_base t1) (mtrie_block_alloc_stat (stat t1)))
    by (rewrite Ht1; exact Hm).
  assert (Hds1 : data_stat_ok t1).
  { refine (data_stat_ok_same t t1 _ _ _ _ Hds).
    - rewrite Hroot1. apply count_bt_ensure.
    - intros d. rewrite Hroot1. apply count_at_bt_ensure.
    - now rewrite Ht1.
    - now rewrite Ht1. }
  assert (Hx : in_s32 (btrie_node_alloc_stat (stat t)))
    by (rewrite Hcount; apply s32_in_range).
  assert (Hrollback :
    forall T T' : lpm_lkup_table_t,
      (k < n)%nat -> (k <= m)%nat ->
      btrie_root T = bt_ensure m root a 0 ->
      btrie_node_alloc_stat (stat T) = incr_times (m - k) (btrie_node_alloc_stat (stat t)) ->
      data_stat_ok T ->
      btrie_rollback T a (an_append_point out) (an_append_bit out) = Ret T' ->
      data_stat_ok T').
  { intros T T' Hkn Hkm' HrT HcT HdT Hrb.
    destruct Hap as [Hp Hbit]; [lia|]. rewrite Hp, Hbit in Hrb.
    apply (btrie_rollback_spec T a n m root (btrie_node_alloc_stat (stat t))) in Hrb;
      [|exact Hroot|exact Hkn|exact Hkm'|exact HrT|exact HcT|exact Hx].
    refine (data_stat_ok_same T T' _ _ _ _ HdT); rewrite Hrb; try reflexivity.
    - cbn [btrie_root set_stat set_btrie_root]. rewrite HrT. symmetry.
      apply count_bt_ensure.
    - intros d. cbn [btrie_root set_stat set_btrie_root]. rewrite HrT. symmetry.
      apply count_at_bt_ensure. }
  destruct failed.
  - destruct Hret as [Hr Hlt]. rewrite Hr in Hrun.
    apply bind_ret in Hrun. destruct Hrun as [t2 [Hrb Hrun]].
    inversion Hrun; subst r t' mem'; clear Hrun. cbn [live].
    apply (Hrollback t1 t2); [lia|lia|exact Hroot1|now rewrite Ht1|exact Hds1|exact Hrb].
  - destruct Hret as [-> Hr].
    assert (Hundo : forall T3 : lpm_lkup_table_t,
               bdata (bnode_at n (btrie_root t1) a 0) = NULL ->
               btrie_root T3 =
                 btrie_root (stat_data_incr (btrie_store_data t1 a masklen data) masklen) ->
               btrie_root (stat_data_decr (btrie_store_data T3 a masklen NULL) masklen) =
               bt_ensure n root a 0).
    { intros T3 Hd0 HT3.
      cbn [btrie_root stat_data_decr set_stat btrie_store_data set_btrie_root].
      rewrite HT3.
      cbn [btrie_root stat_data_incr set_stat btrie_store_data set_btrie_root].
      rewrite bnode_modify_compose. fold n.
      rewrite Hroot1.
      apply bnode_modify_id.
      rewrite Hroot1 in Hd0.
      destruct (bnode_at n (bt_ensure n root a 0) a 0) as [|d c0 c1]; [reflexivity|].
      cbn [bdata] in Hd0. cbn [bset_data]. now rewrite Hd0. }
    destruct (Nat.eqb_spec k n) as [Hkn|Hkn]; rewrite Hr in Hrun;
      cbn [lpm_result_eqb] in Hrun;
      (destruct (bnode_at n (btrie_root t1) a 0) as [|d c0 c1] eqn:Hnode;
       [discriminate Hrun|]);
      (destruct (Z.eqb_spec d NULL) as [Hd|Hd]; cbn [negb] in Hrun;
       [|destruct (d =? data); inversion Hrun; subst; exact Hds1]);
      (assert (Hds2 : data_stat_ok
                        (stat_data_incr (btrie_store_data t1 a masklen data) masklen))
         by (apply data_stat_ok_incr;
             [lia|exact Hdata|fold n; rewrite Hnode; discriminate
             |fold n; rewrite Hnode; exact Hd|exact Hds1]));
      (destruct (Z.eqb_spec masklen 0) as [Hm0|Hm0];
       [inversion Hrun; subst r t' mem'; exact Hds2|]);
      apply bind_ret in Hrun; destruct Hrun as [[[[r3 t3] mem2] addr3] [Hexp Hrun]];
      (apply prefix_expansion_data_stat in Hexp; [|lia|apply copy_addr_length|exact Hm1]);
      destruct Hexp as [Hr3 [Hroot3 [Hc3 [Hdt3 Hpm3]]]];
      (assert (Hds3 : data_stat_ok t3)
         by (refine (data_stat_ok_same _ t3 _ _ Hdt3 Hpm3 Hds2);
             [now rewrite Hroot3|intros x; now rewrite Hroot3]));
      (destruct Hr3 as [-> | ->];
       [inversion Hrun; subst r t' mem'; exact Hds3|]);
      assert (Hroot4 := Hundo t3 Hd Hroot3);
      (assert (Hat3 : bnode_at n (btrie_root t3) a 0 = BNode data c0 c1)
         by (rewrite Hroot3;
             cbn [btrie_root stat_data_incr set_stat btrie_store_data set_btrie_root];
             fold n; rewrite bnode_at_modify_same by (rewrite Hnode; discriminate);
             rewrite Hnode; reflexivity));
      (assert (Hds4 : data_stat_ok
                        (stat_data_decr (btrie_store_data t3 a masklen NULL) masklen))
         by (apply data_stat_ok_decr;
             [lia|fold n; rewrite Hat3; discriminate|fold n; rewrite Hat3; exact Hdata
             |exact Hds3])).
    + inversion Hrun; subst r t' mem'; clear Hrun. exact Hds4.
    + apply bind_ret in Hrun. destruct Hrun as [t5 [Hrb Hrun]].
      inversion Hrun; subst r t' mem'; clear Hrun. cbn [live].
      apply (Hrollback _ t5 ltac:(lia) ltac:(lia) Hroot4); [|exact Hds4|exact Hrb].
      cbn [stat stat_data_decr set_stat btrie_node_alloc_stat
           set_data_per_masklen set_data_total btrie_store_data set_btrie_root].
      rewrite Hc3.
      cbn [stat stat_data_incr set_stat btrie_node_alloc_stat
           set_data_per_masklen set_data_total btrie_store_data set_btrie_root].
      rewrite Ht1. reflexivity.
Qed.

Lemma data_stat_ok_fresh (nm : option string) : data_stat_ok (fresh_table nm).
Proof.
  split; [reflexivity|]. split; [reflexivity|].
  intros m Hm. cbn [fresh_table stat data_per_masklen btrie_root].
  replace (zget (repeat 0 129) (Z.of_nat m)) with 0.
  - destruct m as [|m]; cbn [btrie_data_count_at]; [reflexivity|].
    now rewrite count_at_null.
  - unfold zget. symmetry. apply nth_repeat.
Qed.

Lemma apply_op_data_stat (t : lpm_lkup_table_t) (mem : list bool) (op : lpm_op)
      (r : lpm_result_t) (t' : lpm_lkup_table_t) (mem' : list bool) :
  op_in_range op -> op_keeps_bindings op ->
  apply_op t mem op = Ret (r, t', mem') ->
  table_ok t -> data_stat_ok t -> data_stat_ok t'.
Proof.
  intros Hop Hkeep Hrun Hok Hds. destruct op as [a m d|a m d|a m|a m| |dbg on];
    cbn [apply_op op_in_range op_keeps_bindings] in *.
  - apply bind_ret in Hrun. destruct Hrun as [[[r0 t0] mem0] [Hcall Hrun]].
    inversion Hrun; subst.
    apply (add_entry_data_stat _ _ _ _ _ _ _ _ (proj1 Hop) Hcall Hok Hds).
  - apply bind_ret in Hrun. destruct Hrun as [[[r0 t0] mem0] [Hcall Hrun]].
    inversion Hrun; subst.
    apply (update_entry_data_stat _ _ _ _ _ _ _ _ (proj1 Hop) Hcall Hok Hds).
  - destruct Hkeep.
  - apply bind_ret in Hrun. destruct Hrun as [[r0 t0] [Hcall Hrun]].
    inversion Hrun; subst; clear Hrun.
    unfold lpm_update_default_data in Hcall.
    destruct (negb _) in Hcall; [inversion Hcall; subst; exact Hds|].
    destruct (btrie_root t) as [|rd rc0 rc1] eqn:Hroot;
      [inversion Hcall; subst; exact Hds|].
    apply bind_ret in Hcall. destruct Hcall as [dd [_ Hcall]].
    destruct (dd =? NULL); inversion Hcall; subst; cbn [live]; [exact Hds|].
    refine (data_stat_ok_same t _ _ _ eq_refl eq_refl Hds); reflexivity.
  - unfold lpm_del_default_data in Hrun.
    destruct (default_data t =? NULL); inversion Hrun; subst; exact Hds.
  - unfold lpm_debug_support in Hrun.
    destruct (on =? 1); [|destruct (on =? 0)];
      first [ destruct dbg; inversion Hrun; subst; exact Hds
            | inversion Hrun; subst; exact Hds ].
Qed.

Lemma apply_ops_data_stat (ops : list lpm_op) :
  forall t mem rs t' mem',
    Forall op_in_range ops -> Forall op_keeps_bindings ops ->
    apply_ops t mem ops = Ret (rs, t', mem') ->
    table_ok t -> data_stat_ok t -> data_stat_ok t'.
Proof.
  induction ops as [|op ops IH]; intros t mem rs t' mem' Hops Hkeep Hrun Hok Hds.
  - inversion Hrun; subst. exact Hds.
  - cbn [apply_ops] in Hrun.
    apply bind_ret in Hrun. destruct Hrun as [[[r1 t1] mem1] [Hop Hrun]].
    apply bind_ret in Hrun. destruct Hrun as [[[rs2 t2] mem2] [Hrest Hrun]].
    inversion Hrun; subst; clear Hrun.
    inversion Hops as [|x l Hx Hl]; subst. inversion Hkeep as [|x l Hkx Hkl]; subst.
    apply (IH _ _ _ _ _ Hl Hkl Hrest).
    + exact (apply_op_ok _ _ _ _ _ _ Hx Hop Hok).
    + exact (apply_op_data_stat _ _ _ _ _ _ Hx Hkx Hop Hok Hds).
Qed.

(** The bindings that a walk lists are the nodes with data. *)
Lemma dfs_bindings_length (node : btrie_node_t) :
  forall addr bitpos,
    Z.of_nat (length (dfs_bindings node addr bitpos)) = btrie_data_count node.
Proof.
  induction node as [|d c0 IH0 c1 IH1]; intros addr bitpos; [reflexivity|].
  cbn [dfs_bindings btrie_data_count]. rewrite !length_app, !Nat2Z.inj_add, IH0, IH1.
  destruct (d =? NULL); cbn [length]; lia.
Qed.

Lemma dfs_bindings_masklen (node : btrie_node_t) :
  forall addr bitpos a m d,
    In (a, m, d) (dfs_bindings node addr bitpos) -> bitpos <= m.
Proof.
  induction node as [|x c0 IH0 c1 IH1]; intros addr bitpos a m d Hin; [destruct Hin|].
  cbn [dfs_bindings] in Hin. apply in_app_or in Hin. destruct Hin as [Hin|Hin].
  - destruct (x =? NULL); [destruct Hin|].
    destruct Hin as [Hin|[]]. inversion Hin. lia.
  - apply in_app_or in Hin. destruct Hin as [Hin|Hin].
    + apply IH0 in Hin. lia.
    + apply IH1 in Hin. lia.
Qed.

Lemma filter_none {A : Type} (f : A -> bool) (l : list A) :
  (forall x, In x l -> f x = false) -> filter f l = [].
Proof.
  induction l as [|x l IH]; intros H; [reflexivity|].
  cbn [filter]. rewrite (H x) by (now left). apply IH. intros y Hy. apply H. now right.
Qed.

Lemma dfs_bindings_length_at (node : btrie_node_t) :
  forall (d : nat) addr bitpos,
    Z.of_nat (length (filter (fun c => snd (fst c) =? bitpos + Z.of_nat d)
                             (dfs_bindings node addr bitpos))) =
    btrie_data_count_at d node.
Proof.
  induction node as [|x c0 IH0 c1 IH1]; intros d addr bitpos.
  - cbn [dfs_bindings filter length]. now rewrite count_at_null.
  - cbn [dfs_bindings]. rewrite !filter_app, !length_app, !Nat2Z.inj_add.
    destruct d as [|d].
    + cbn [btrie_data_count_at].
      rewrite (filter_none _ (dfs_bindings c0 _ _)),
              (filter_none _ (dfs_bindings c1 _ _)).
      * destruct (x =? NULL); cbn [filter fst snd length]; [reflexivity|].
        replace (bitpos =? bitpos + Z.of_nat 0) with true
          by (symmetry; apply Z.eqb_eq; lia).
        reflexivity.
      * intros [[a m] v] Hin. apply dfs_bindings_masklen in Hin.
        cbn [fst snd]. apply Z.eqb_neq. lia.
      * intros [[a m] v] Hin. apply dfs_bindings_masklen in Hin.
        cbn [fst snd]. apply Z.eqb_neq. lia.
    + cbn [btrie_data_count_at].
      replace (bitpos + Z.of_nat (S d)) with (bitpos + 1 + Z.of_nat d) by lia.
      rewrite IH0, IH1.
      destruct (x =? NULL); cbn [filter fst snd length]; [lia|].
      replace (bitpos =? bitpos + 1 + Z.of_nat d) with false
        by (symmetry; apply Z.eqb_neq; lia).
      cbn [length]. lia.
Qed.

(** As long as no delete is called, the statistics of a table count its
    bindings: [data_total] is the number of bound prefixes, those that a
    walk lists, and [data_per_masklen] the number of them per mask
    length (as [int] and [u32] values). *)
Theorem data_counters_without_delete (nm : option string) (mem0 mem1 mem mem' : list bool)
        (t0 t : lpm_lkup_table_t) (ops : list lpm_op) (rs : list lpm_result_t) :
  lpm_create_table nm mem0 = Ret (Some t0, mem1) ->
  Forall op_in_range ops -> Forall op_keeps_bindings ops ->
  apply_ops t0 mem ops = Ret (rs, t, mem') ->
  data_total (stat t) =
    s32 (Z.of_nat (length (dfs_bindings (btrie_root t) (repeat 0 16) 0))) /\
  forall m,
    0 <= m <= 128 ->
    zget (data_per_masklen (stat t)) m =
    u32 (Z.of_nat (length (filter (fun c => snd (fst c) =? m)
                                  (dfs_bindings (btrie_root t) (repeat 0 16) 0)))).
Proof.
  intros Hcreate Hops Hkeep Hrun.
  apply create_table_fresh in Hcreate. subst t0.
  destruct (apply_ops_data_stat _ _ _ _ _ _ Hops Hkeep Hrun (fresh_table_ok nm)
                                (data_stat_ok_fresh nm)) as [H1 [_ H3]].
  split.
  - now rewrite dfs_bindings_length.
  - intros m Hm.
    pose proof (dfs_bindings_length_at (btrie_root t) (Z.to_nat m) (repeat 0 16) 0) as Hl.
    replace (0 + Z.of_nat (Z.to_nat m)) with m in Hl by lia.
    rewrite Hl, <- H3 by lia. f_equal. lia.
Qed.

Lemma data_counters_without_delete_witness :
  data_total
    (stat (table_after [OpAdd [10] 8 7; OpAdd [10; 1] 16 9; OpAdd [11; 1] 16 9;
                        OpUpdate [10] 8 5])) = 3 /\
  zget (data_per_masklen
          (stat (table_after [OpAdd [10] 8 7; OpAdd [10; 1] 16 9; OpAdd [11; 1] 16 9;
                              OpUpdate [10] 8 5]))) 16 = 2.
Proof.
  assert (Hcreate : lpm_create_table None [] = Ret (Some (created None), []))
    by (vm_compute; reflexivity).
  assert (Hops : Forall op_in_range
                        [OpAdd [10] 8 7; OpAdd [10; 1] 16 9; OpAdd [11; 1] 16 9;
                         OpUpdate [10] 8 5]).
  { repeat constructor; cbn; lia. }
  assert (Hkeep : Forall op_keeps_bindings
                         [OpAdd [10] 8 7; OpAdd [10; 1] 16 9; OpAdd [11; 1] 16 9;
                          OpUpdate [10] 8 5]).
  { repeat constructor. }
  assert (Hrun : apply_ops (created None) []
                           [OpAdd [10] 8 7; OpAdd [10; 1] 16 9; OpAdd [11; 1] 16 9;
                            OpUpdate [10] 8 5] =
                 Ret ([LPM_SUCCESS; LPM_SUCCESS; LPM_SUCCESS; LPM_SUCCESS],
                      table_after [OpAdd [10] 8 7; OpAdd [10; 1] 16 9; OpAdd [11; 1] 16 9;
                                   OpUpdate [10] 8 5],
                      [])).
  { vm_compute. reflexivity. }
  pose proof (data_counters_without_delete None [] [] [] [] (created None) _ _ _
                                           Hcreate Hops Hkeep Hrun) as [H1 H2].
  split.
  - rewrite H1. vm_compute. reflexivity.
  - rewrite (H2 16) by lia. vm_compute. reflexivity.
Defined.

(** *** The result codes *)

Lemma update_entry_codes (t : lpm_lkup_table_t) (mem : list bool)
      (addr : option (list Z)) (masklen data : Z) (r : lpm_result_t)
      (t' : option lpm_lkup_table_t) (mem' : list bool) :
  0 <= masklen ->
  lpm_update_entry (Some t) mem addr masklen data = Ret (r, t', mem') ->
  table_ok t -> tries_agree (btrie_root t) (hi256_table_base t) ->
  r = LPM_SUCCESS \/ r = LPM_ERR_INVALID \/ r = LPM_ERR_NOTFOUND.
Proof.
  intros Hml Hrun Hok Hagree. unfold lpm_update_entry in Hrun.
  destruct (check_arg_codes (Some t) addr masklen) as [Harg|Harg]; rewrite Harg in Hrun;
    cbn [negb lpm_result_eqb] in Hrun; [|inversion Hrun; subst; auto].
  apply check_arg_success in Harg.
  destruct (Z.eqb_spec data NULL) as [|Hdata]; [inversion Hrun; subst; auto|].
  destruct Hok as [[Hroot _] [Hbase Hm]].
  destruct (btrie_root t) as [|rd rc0 rc1] eqn:Er; [congruence|].
  destruct (hi256_table_base t) as [|es] eqn:Eb; [congruence|].
  cbn [bis_null mis_null orb] in Hrun.
  apply bind_ret in Hrun. destruct Hrun as [stored [Hfind Hrun]].
  unfold btrie_find_node in Hfind. apply btrie_find_node_loop_bnode_at in Hfind.
  set (a := addr_of addr) in *. set (n := Z.to_nat masklen) in *.
  destruct stored as [|sd sc0 sc1]; [inversion Hrun; subst; auto|].
  cbn [bis_null orb bdata] in Hrun.
  destruct (Z.eqb_spec sd NULL) as [|Hsd]; [inversion Hrun; subst; auto|].
  set (t1 := if sd =? data then t else btrie_store_data t a masklen data) in *.
  assert (Hroot1 : btrie_root t1 =
                   bnode_modify n (BNode rd rc0 rc1) a 0 (fun nd => bset_data nd data)).
  { subst t1. destruct (Z.eqb_spec sd data) as [->|_].
    - rewrite Er. symmetry. apply bnode_modify_id. rewrite <- Hfind. reflexivity.
    - cbn [btrie_root btrie_store_data set_btrie_root]. now rewrite Er. }
  assert (Hbase1 : hi256_table_base t1 = MBlock es)
    by (subst t1; destruct (sd =? data); exact Eb).
  assert (Hstat1 : stat t1 = stat t)
    by (subst t1; destruct (sd =? data); reflexivity).
  destruct (Z.eqb_spec masklen 0) as [Hm0|Hm0]; [inversion Hrun; subst; auto|].
  apply bind_ret in Hrun. destruct Hrun as [[[[ret t2] mem1] addr1] [Hexp Hrun]].
  inversion Hrun; subst r t' mem'; clear Hrun.
  apply (expansion_step_agree (BNode rd rc0 rc1) a masklen data) in Hexp;
    [|lia|exact Hdata|fold n; rewrite <- Hfind; discriminate|exact Hroot1
     |now rewrite Hbase1|rewrite Hbase1, Hstat1; split; [discriminate|exact Hm]].
  destruct Hexp as [[-> _]|[_ [_ [_ [_ Hmiss]]]]]; [auto|].
  exfalso. rewrite Hbase1 in Hmiss.
  assert (Hdiv : 0 <= (masklen - 1) / 8) by (apply Z.div_pos; lia).
  pose proof (Z.div_mod (masklen - 1) 8 ltac:(lia)) as Hdm.
  pose proof (Z.mod_pos_bound (masklen - 1) 8 ltac:(lia)) as Hmod.
  pose proof (Hagree a (Z.to_nat ((masklen - 1) / 8))) as Hlevel.
  rewrite mtrie_data_at_missing in Hlevel by exact Hmiss.
  symmetry in Hlevel. revert Hlevel.
  apply (deepest_not_null _ _ _ n); [subst n; lia|].
  unfold data_at. rewrite <- Hfind. exact Hsd.
Qed.

Lemma add_entry_codes (t : lpm_lkup_table_t) (mem : list bool)
      (addr : option (list Z)) (masklen data : Z) (r : lpm_result_t)
      (t' : option lpm_lkup_table_t) (mem' : list bool) :
  0 <= masklen ->
  lpm_add_entry (Some t) mem addr masklen data = Ret (r, t', mem') ->
  table_ok t ->
  r = LPM_SUCCESS \/ r = LPM_ERR_INVALID \/ r = LPM_ERR_RESOURCES \/
  r = LPM_ERR_EXISTS \/ r = LPM_ERR_CONFLICT.
Proof.
  intros Hml Hrun Hok. unfold lpm_add_entry in Hrun.
  destruct (check_arg_codes (Some t) addr masklen) as [Harg|Harg]; rewrite Harg in Hrun;
    cbn [negb lpm_result_eqb] in Hrun; [|inversion Hrun; subst; auto].
  apply check_arg_success in Harg.
  destruct (data =? NULL); [inversion Hrun; subst; auto|].
  pose proof Hok as [[Hroot _] [Hbase Hm]].
  destruct (btrie_root t) as [|rd rc0 rc1] eqn:Er; [congruence|].
  destruct (hi256_table_base t) as [|es] eqn:Eb; [congruence|].
  cbn [bis_null mis_null orb] in Hrun.
  apply bind_ret in Hrun. destruct Hrun as [[[out t1] mem1] [Hadd Hrun]].
  apply btrie_add_node_spec in Hadd; [|rewrite Er; discriminate].
  destruct Hadd as [m [failed [Hkm [Ht1 [Hap Hret]]]]].
  assert (Hm1 : mtrie_ok (hi256_table_base t1) (mtrie_block_alloc_stat (stat t1))).
  { rewrite Ht1. cbn [hi256_table_base set_btrie_root set_stat stat stat_after_add
                      mtrie_block_alloc_stat set_btrie_node_alloc_fail_stat
                      set_btrie_node_alloc_stat].
    rewrite Eb. split; [discriminate|exact Hm]. }
  destruct failed.
  - destruct Hret as [Hr _]. rewrite Hr in Hrun.
    apply bind_ret in Hrun. destruct Hrun as [t2 [_ Hrun]].
    inversion Hrun; subst; auto 6.
  - destruct Hret as [_ Hr].
    destruct (Nat.eqb_spec (existing (Z.to_nat masklen) (btrie_root t) (addr_of addr) 0)
                           (Z.to_nat masklen)) as [Hkn|Hkn];
      rewrite Hr in Hrun; cbn [lpm_result_eqb] in Hrun;
      (destruct (bnode_at (Z.to_nat masklen) (btrie_root t1) (addr_of addr) 0)
         as [|d c0 c1]; [discriminate Hrun|]);
      (destruct (negb (d =? NULL));
       [destruct (d =? data); inversion Hrun; subst; auto 6|]);
      (destruct (Z.eqb_spec masklen 0) as [Hm0|Hm0]; [inversion Hrun; subst; auto|]);
      apply bind_ret in Hrun; destruct Hrun as [[[[r3 t3] mem2] addr3] [Hexp Hrun]];
      (apply prefix_expansion_ok in Hexp; [|lia|apply copy_addr_length|exact Hm1]);
      destruct Hexp as [[-> | ->] _].
    + inversion Hrun; subst; auto.
    + inversion Hrun; subst; auto 6.
    + inversion Hrun; subst; auto.
    + apply bind_ret in Hrun. destruct Hrun as [t5 [_ Hrun]].
      inversion Hrun; subst; auto 6.
Qed.

(** On a table built by calls that do not delete, [lpm_add_entry]
    answers SUCCESS, INVALID, RESOURCES, EXISTS or CONFLICT, and
    [lpm_update_entry] answers SUCCESS, INVALID or NOTFOUND: the blocks
    that the expansion of a bound prefix needs are there, so that an
    update asks for no memory that it could be refused; INTERNAL is
    never answered. *)
Theorem result_codes_without_delete (nm : option string) (mem0 mem1 mem mem' : list bool)
        (t0 t : lpm_lkup_table_t) (ops : list lpm_op) (rs : list lpm_result_t)
        (m2 m2' : list bool) (addr : option (list Z)) (masklen data : Z)
        (r : lpm_result_t) (t' : option lpm_lkup_table_t) :
  lpm_create_table nm mem0 = Ret (Some t0, mem1) ->
  Forall op_in_range ops -> Forall op_keeps_bindings ops ->
  apply_ops t0 mem ops = Ret (rs, t, mem') ->
  0 <= masklen ->
  (lpm_add_entry (Some t) m2 addr masklen data = Ret (r, t', m2') ->
   r = LPM_SUCCESS \/ r = LPM_ERR_INVALID \/ r = LPM_ERR_RESOURCES \/
   r = LPM_ERR_EXISTS \/ r = LPM_ERR_CONFLICT) /\
  (lpm_update_entry (Some t) m2 addr masklen data = Ret (r, t', m2') ->
   r = LPM_SUCCESS \/ r = LPM_ERR_INVALID \/ r = LPM_ERR_NOTFOUND).
Proof.
  intros Hcreate Hops Hkeep Hrun Hml.
  apply create_table_fresh in Hcreate. subst t0.
  destruct (apply_ops_agree _ _ _ _ _ _ Hops Hkeep Hrun (fresh_table_ok nm)
                            (tries_agree_fresh nm)) as [Hok Hagree].
  split; intros Hcall.
  - exact (add_entry_codes _ _ _ _ _ _ _ _ Hml Hcall Hok).
  - exact (update_entry_codes _ _ _ _ _ _ _ _ Hml Hcall Hok Hagree).
Qed.

Lemma result_codes_without_delete_witness :
  lpm_update_entry (Some (table_after [OpAdd [10] 8 7; OpAdd [10; 1] 16 9])) [false]
                   (Some [10; 1]) 16 4 =
  Ret (LPM_SUCCESS,
       Some (table_after [OpAdd [10] 8 7; OpAdd [10; 1] 16 9; OpUpdate [10; 1] 16 4]),
       [false]).
Proof.
  assert (Hcreate : lpm_create_table None [] = Ret (Some (created None), []))
    by (vm_compute; reflexivity).
  assert (Hops : Forall op_in_range [OpAdd [10] 8 7; OpAdd [10; 1] 16 9]).
  { repeat constructor; cbn; lia. }
  assert (Hkeep : Forall op_keeps_bindings [OpAdd [10] 8 7; OpAdd [10; 1] 16 9]).
  { repeat constructor. }
  assert (Hrun : apply_ops (created None) [] [OpAdd [10] 8 7; OpAdd [10; 1] 16 9] =
                 Ret ([LPM_SUCCESS; LPM_SUCCESS],
                      table_after [OpAdd [10] 8 7; OpAdd [10; 1] 16 9], [])).
  { vm_compute. reflexivity. }
  destruct (lpm_update_entry (Some (table_after [OpAdd [10] 8 7; OpAdd [10; 1] 16 9]))
                             [false] (Some [10; 1]) 16 4) as [[[r t'] m']|] eqn:E;
    [|vm_compute in E; discriminate E].
  assert (Hml : 0 <= 16) by lia.
  pose proof (proj2 (result_codes_without_delete None [] [] [] [] (created None) _ _ _
                       [false] m' (Some [10; 1]) 16 4 r t'
                       Hcreate Hops Hkeep Hrun Hml) E) as Hcodes.
  destruct Hcodes as [-> |[-> | ->]]; vm_compute in E; first [discriminate E | idtac].
  inversion E. vm_compute. reflexivity.
Defined.

(** *** The calls return *)

Lemma btrie_add_node_loop_returns (n : nat) :
  forall table mem place addr pos out,
    place <> BNull -> 0 <= pos -> pos + Z.of_nat n <= 128 ->
    (pos + Z.of_nat n = 128 -> n <> O -> bnode_at n place addr pos = BNull) ->
    exists res, btrie_add_node_loop n table mem place addr pos out = Ret res.
Proof.
  induction n as [|n IH]; intros table mem place addr pos out Hplace Hpos Hn Hlast.
  - eexists. reflexivity.
  - cbn [btrie_add_node_loop]. destruct place as [|x c0 c1]; [congruence|].
    rewrite bit_at_position_ok by (change LPM_MASKLEN_MAX with 128; lia).
    cbn [bind].
    destruct (bchild (BNode x c0 c1) (addr_bit addr pos)) as [|x' c0' c1'] eqn:Hchild.
    + rewrite btrie_alloc_node_eq. destruct (fst (malloc mem)).
      * destruct (IH (set_stat table
                        (set_btrie_node_alloc_stat (stat table)
                           (s32 (btrie_node_alloc_stat (stat table) + 1))))
                     (snd (malloc mem)) (BNode NULL BNull BNull) addr (pos + 1)
                     (mkAddOut LPM_SUCCESS (an_append_point out) (an_append_bit out)))
          as [[[[sub out'] table2] mem2] Hrec]; [discriminate|lia|lia| |].
        -- intros _ Hn0. destruct n as [|n']; [congruence|].
           cbn [bnode_at bchild]. destruct (_ =? 0); apply bnode_at_null.
        -- rewrite Hrec. cbn [bind]. eexists. reflexivity.
      * eexists. reflexivity.
    + assert (Hlt : pos + 1 < 128).
      { destruct (Z.eq_dec (pos + Z.of_nat (S n)) 128) as [E|E]; [|lia].
        destruct n as [|n']; [|lia].
        specialize (Hlast E ltac:(discriminate)).
        cbn [bnode_at] in Hlast. rewrite Hchild in Hlast. discriminate Hlast. }
      rewrite bit_at_position_ok by (change LPM_MASKLEN_MAX with 128; lia).
      cbn [bind].
      destruct (IH table mem (BNode x' c0' c1') addr (pos + 1)
                   (mkAddOut (an_ret out) (Some (pos + 1)) (addr_bit addr (pos + 1))))
        as [[[[sub out'] table2] mem2] Hrec]; [discriminate|lia|lia| |].
      * intros E Hn0. specialize (Hlast ltac:(lia) ltac:(discriminate)).
        cbn [bnode_at] in Hlast. rewrite Hchild in Hlast. exact Hlast.
      * rewrite Hrec. cbn [bind]. eexists. reflexivity.
Qed.

Lemma btrie_add_node_returns (table : lpm_lkup_table_t) (mem : list bool) (addr : list Z)
      (masklen : Z) :
  btrie_root table <> BNull -> hi256_table_base table <> MNull ->
  0 <= masklen <= 128 ->
  (masklen = 128 -> bnode_at 128 (btrie_root table) addr 0 = BNull) ->
  exists res, btrie_add_node table mem addr masklen = Ret res.
Proof.
  intros Hroot Hbase Hml Hlast. unfold btrie_add_node.
  destruct (hi256_table_base table); [congruence|].
  assert (Hout : exists out0,
             (if 0 <? masklen
              then bit0 <- bit_at_position addr 0 ;;
                   Ret (mkAddOut LPM_ERR_EXISTS (Some 0) bit0)
              else Ret (mkAddOut LPM_ERR_EXISTS None 0)) = Ret out0).
  { destruct (0 <? masklen); [|eexists; reflexivity].
    rewrite bit_at_position_ok by (change LPM_MASKLEN_MAX with 128; lia).
    eexists. reflexivity. }
  destruct Hout as [out0 ->]. cbn [bind].
  destruct (btrie_add_node_loop_returns (Z.to_nat masklen) table mem (btrie_root table)
              addr 0 out0) as [[[[root out] table1] mem1] Hloop]; [exact Hroot|lia|lia| |].
  - intros E _. replace (Z.to_nat masklen) with 128%nat by lia. apply Hlast. lia.
  - rewrite Hloop. cbn [bind]. eexists. reflexivity.
Qed.

Lemma btrie_del_appended_returns (addr : list Z) (c : nat) :
  forall (T : lpm_lkup_table_t) pos,
    Z.of_nat c <= btrie_node_alloc_stat (stat T) < 2147483648 ->
    exists T', btrie_del_appended T (fresh_chain c addr pos) = Ret T'.
Proof.
  induction c as [|c IH]; intros T pos Hc.
  - eexists. reflexivity.
  - rewrite fresh_chain_S.
    assert (Hfree : forall nd, nd <> BNull ->
              btrie_free_node T nd =
              Ret (set_stat T (set_btrie_node_alloc_stat (stat T)
                                 (btrie_node_alloc_stat (stat T) - 1)))).
    { intros nd Hnd. unfold btrie_free_node, btrie_mem_free.
      destruct nd; [congruence|].
      destruct (Z.ltb_spec 0 (btrie_node_alloc_stat (stat T))) as [_|H]; [|lia].
      cbn [bind]. rewrite s32_small by (unfold in_s32; lia). reflexivity. }
    assert (Hrec : forall nd : btrie_node_t,
               exists T',
                 btrie_del_appended
                   (set_stat T (set_btrie_node_alloc_stat (stat T)
                                  (btrie_node_alloc_stat (stat T) - 1)))
                   (fresh_chain c addr (pos + 1)) = Ret T').
    { intros _. apply IH.
      cbn [stat set_stat btrie_node_alloc_stat set_btrie_node_alloc_stat]. lia. }
    destruct (addr_bit addr pos =? 0) eqn:Hb; cbn [bset_child]; rewrite Hb;
      cbn [btrie_del_appended].
    + destruct (fresh_chain c addr (pos + 1)) as [|y z w] eqn:Hfc.
      * rewrite Hfree by discriminate. cbn [bind btrie_del_appended].
        eexists. reflexivity.
      * rewrite Hfree by discriminate. cbn [bind]. apply (Hrec BNull).
    + rewrite Hfree by discriminate. cbn [bind]. apply (Hrec BNull).
Qed.

Lemma btrie_rollback_returns (T : lpm_lkup_table_t) (a : list Z) (n m : nat)
      (root : btrie_node_t) :
  root <> BNull ->
  (existing n root a 0 < n)%nat ->
  (existing n root a 0 <= m)%nat ->
  btrie_root T = bt_ensure m root a 0 ->
  Z.of_nat (m - existing n root a 0) <= btrie_node_alloc_stat (stat T) < 2147483648 ->
  exists T',
    btrie_rollback T a (Some (Z.of_nat (existing n root a 0)))
                   (addr_bit a (Z.of_nat (existing n root a 0))) = Ret T'.
Proof.
  intros Hnn Hlt Hle Hroot Hc.
  unfold btrie_rollback. rewrite Nat2Z.id, Hroot.
  change (Z.of_nat (existing n root a 0)) with (0 + Z.of_nat (existing n root a 0)).
  rewrite (bnode_at_cut_chain a n m root 0 Hnn Hlt Hle).
  apply btrie_del_appended_returns. exact Hc.
Qed.

Lemma count_alloc_cons (l : chain_link) (chain : list chain_link) :
  count_alloc (l :: chain) = ((if cl_alloc l then 1 else 0) + count_alloc chain)%nat.
Proof. unfold count_alloc. cbn [filter]. destruct (cl_alloc l); reflexivity. Qed.

Lemma trie_chain_release_returns (chain : list chain_link) :
  forall table : lpm_lkup_table_t,
    Forall (fun l => cl_alloc l = true -> cl_block l = zero_block) chain ->
    Z.of_nat (count_alloc chain) <= mtrie_block_alloc_stat (stat table) < 2147483648 ->
    exists table', trie_chain_release table chain = Ret table'.
Proof.
  induction chain as [|l chain IH]; intros table Hfresh Hc.
  - eexists. reflexivity.
  - cbn [trie_chain_release]. rewrite count_alloc_cons in Hc.
    inversion Hfresh as [|x y Hl Hrest]; subst.
    destruct (cl_alloc l) eqn:Ha.
    + rewrite (Hl eq_refl). unfold mtrie_free_block.
      rewrite mtrie_free_block_unfold, (free_entries_no_base _ _ zero_block_no_base).
      cbn [bind mtrie_mem_free].
      destruct (Z.ltb_spec 0 (mtrie_block_alloc_stat (stat table))) as [_|H]; [|lia].
      cbn [bind]. apply IH; [exact Hrest|].
      cbn [stat set_stat mtrie_block_alloc_stat set_mtrie_block_alloc_stat].
      rewrite s32_small by (unfold in_s32; lia). lia.
    + cbn [bind]. apply IH; [exact Hrest|]. lia.
Qed.

Lemma chain_missing_null (n : nat) (addr : list Z) (level : Z) :
  chain_missing n MNull addr level = n.
Proof. destruct n; reflexivity. Qed.

Lemma trie_chain_build_returns (n : nat) :
  forall table mem frontier addr level chain,
    Forall (fun l => cl_alloc l = true -> cl_block l = zero_block) chain ->
    Z.of_nat (count_alloc chain) <= mtrie_block_alloc_stat (stat table) ->
    mtrie_block_alloc_stat (stat table) +
      Z.of_nat (chain_missing n frontier addr level) < 2147483648 ->
    exists res, trie_chain_build n table mem frontier addr level chain = Ret res.
Proof.
  induction n as [|n IH]; intros table mem frontier addr level chain Hfresh Hlo Hhi.
  - eexists. reflexivity.
  - rewrite trie_chain_build_step. destruct frontier as [|es].
    + rewrite chain_missing_null in Hhi. destruct (fst (malloc mem)).
      * apply IH.
        -- apply Forall_app. split; [exact Hfresh|]. constructor; [|constructor].
           intros _. reflexivity.
        -- rewrite count_alloc_app.
           cbn [stat set_stat mtrie_block_alloc_stat set_mtrie_block_alloc_stat].
           rewrite s32_small by (unfold in_s32; lia).
           change (count_alloc [mkLink zero_block (byte_at addr level) true]) with 1%nat.
           lia.
        -- cbn [stat set_stat mtrie_block_alloc_stat set_mtrie_block_alloc_stat].
           rewrite s32_small by (unfold in_s32; lia).
           rewrite chain_missing_null. lia.
      * destruct (trie_chain_release_returns chain
                    (set_stat table (stat_mtrie_failed (stat table))) Hfresh)
          as [table2 Hrel].
        -- cbn [stat set_stat stat_mtrie_failed mtrie_block_alloc_stat
                set_mtrie_block_alloc_fail_stat]. lia.
        -- rewrite Hrel. cbn [bind]. eexists. reflexivity.
    + apply IH.
      * apply Forall_app. split; [exact Hfresh|]. constructor; [|constructor].
        cbn [cl_alloc]. discriminate.
      * rewrite count_alloc_app.
        change (count_alloc [mkLink es (byte_at addr level) false]) with O. lia.
      * exact Hhi.
Qed.

Lemma combination_target_returns (idx tb nextbit : Z) :
  nextbit = -1 \/ BOUNDARY_BIT_POSITION tb = false ->
  exists res, combination_target idx tb nextbit = Ret res.
Proof.
  intros H. unfold combination_target.
  destruct H as [-> |Hb]; [eexists; reflexivity|]. rewrite Hb.
  destruct (nextbit =? 0); [eexists; reflexivity|].
  destruct (nextbit =? 1); eexists; reflexivity.
Qed.

Lemma gen_combinations_returns (table : lpm_lkup_table_t) (mem : list bool)
      (addr : list Z) (tb data nextbit : Z) :
  0 <= tb < 128 ->
  nextbit = -1 \/ ((nextbit = 0 \/ nextbit = 1) /\ BOUNDARY_BIT_POSITION tb = false) ->
  hi256_table_base table <> MNull ->
  0 <= mtrie_block_alloc_stat (stat table) ->
  mtrie_block_alloc_stat (stat table) +
    Z.of_nat (chain_missing (S (Z.to_nat (tb / 8))) (hi256_table_base table) addr 0)
    < 2147483648 ->
  exists res, lpm_gen_combinations table mem addr tb data nextbit = Ret res.
Proof.
  intros Htb Hnb Hbase Hlo Hhi. unfold lpm_gen_combinations.
  destruct (Z.ltb_spec tb LPM_MASKLEN_MAX) as [_|H];
    [|change LPM_MASKLEN_MAX with 128 in H; lia].
  cbn [negb].
  assert (Hnb' : (nextbit =? -1) || (nextbit =? 0) || (nextbit =? 1) = true).
  { destruct Hnb as [-> |[[-> | ->] _]]; reflexivity. }
  rewrite Hnb'. cbn [negb].
  assert (Hct : forall idx, exists res, combination_target idx tb nextbit = Ret res).
  { intros idx. apply combination_target_returns.
    destruct Hnb as [H|[_ H]]; [now left|now right]. }
  destruct (hi256_table_base table) as [|es] eqn:Eb; [congruence|].
  destruct (tb <? 8).
  - destruct (Hct (byte_at addr 0)) as [[idx bitpos] ->]. cbn [bind].
    eexists. reflexivity.
  - rewrite shiftr3_div.
    replace (Z.to_nat (tb / 8 + 1)) with (S (Z.to_nat (tb / 8)))
      by (assert (0 <= tb / 8) by (apply Z.div_pos; lia); lia).
    destruct (trie_chain_build_returns (S (Z.to_nat (tb / 8))) table mem (MBlock es)
                addr 0 []) as [[[chain table1] mem1] Hbuild];
      [constructor|cbn; lia|exact Hhi|].
    rewrite Hbuild. cbn [bind].
    destruct chain as [chain|]; [|eexists; reflexivity].
    apply trie_chain_build_success in Hbuild.
    destruct Hbuild as [_ [_ [last [uppers [Hrev _]]]]].
    rewrite Hrev.
    destruct (Hct (cl_idx last)) as [[idx bitpos] ->]. cbn [bind].
    eexists. reflexivity.
Qed.

Lemma incr_times_small (c : nat) (x : Z) :
  0 <= x -> x + Z.of_nat c < 2147483648 -> incr_times c x = x + Z.of_nat c.
Proof.
  induction c as [|c IH]; intros Hx Hc.
  - change (incr_times 0 x) with x. lia.
  - rewrite incr_times_S, IH by lia. rewrite s32_small by (unfold in_s32; lia). lia.
Qed.

Lemma chain_room_ext (table : lpm_lkup_table_t) (addr addr' : list Z) (k : nat) :
  (forall l, 0 <= l -> l <> Z.of_nat k -> byte_at addr' l = byte_at addr l) ->
  chain_room table addr k -> chain_room table addr' k.
Proof.
  intros Haddr [Hn [Hwf [Hlo Hhi]]]. repeat split; auto.
  rewrite <- (chain_missing_ext (S k) _ addr addr'); [exact Hhi|].
  intros l Hl. apply Haddr; lia.
Qed.

Lemma chain_room_post (table : lpm_lkup_table_t) (addr : list Z) (k : nat)
      (p : Z -> bool) (data : Z) (table' : lpm_lkup_table_t) :
  chain_room table addr k ->
  expansion_post table addr k p data LPM_SUCCESS table' ->
  chain_room table' addr k.
Proof.
  intros [Hn [Hwf [Hlo Hhi]]] [[Hr _]|[[_ [-> _]]|[_ ->]]].
  - discriminate Hr.
  - repeat split; auto.
  - unfold table_after_write, chain_room.
    cbn [hi256_table_base set_stat set_hi256_table_base stat mtrie_block_alloc_stat
         set_mtrie_block_alloc_stat].
    split; [apply mtrie_path_update_not_null|]. split.
    { apply mtrie_wf_path_update; [exact Hwf|]. intros es. apply mtrie_wf_write_where. }
    rewrite chain_missing_path_update by exact Hwf.
    rewrite incr_times_small by lia. cbn [Z.of_nat]. lia.
Qed.

Lemma clear_bit_returns (addr : list Z) (pos : Z) :
  pos < 128 -> exists a, CLEAR_BIT_AT_POSITION addr pos = Ret a.
Proof.
  intros Hpos. unfold CLEAR_BIT_AT_POSITION.
  destruct (Z.ltb_spec pos LPM_MASKLEN_MAX) as [_|H];
    [|change LPM_MASKLEN_MAX with 128 in H; lia].
  eexists. reflexivity.
Qed.

Lemma set_bit_returns (addr : list Z) (pos : Z) :
  pos < 128 -> exists a, SET_BIT_AT_POSITION addr pos = Ret a.
Proof.
  intros Hpos. unfold SET_BIT_AT_POSITION.
  destruct (Z.ltb_spec pos LPM_MASKLEN_MAX) as [_|H];
    [|change LPM_MASKLEN_MAX with 128 in H; lia].
  eexists. reflexivity.
Qed.

Lemma gen_combinations_room (table : lpm_lkup_table_t) (mem : list bool)
      (addr : list Z) (tb data nextbit : Z) :
  0 <= tb < 128 ->
  nextbit = -1 \/ ((nextbit = 0 \/ nextbit = 1) /\ tb mod 8 < 7) ->
  chain_room table addr (Z.to_nat (tb / 8)) ->
  exists res,
    (' (r, t, m) <- lpm_gen_combinations table mem addr tb data nextbit ;;
     Ret (r, t, m, addr)) = Ret res.
Proof.
  intros Htb Hnb [Hn [Hwf [Hlo Hhi]]].
  destruct (gen_combinations_returns table mem addr tb data nextbit)
    as [[[r t] m] Hgen]; auto.
  - destruct Hnb as [H|[H Hj]]; [now left|right]. split; [exact H|].
    rewrite boundary_mod. apply Z.eqb_neq. lia.
  - rewrite Hgen. cbn [bind]. eexists. reflexivity.
Qed.

(** One half of an expansion step returns, when the expansion of the
    child does. *)
Lemma expansion_half_returns (c : btrie_node_t) (bv : Z)
      (op : list Z -> Z -> exec (list Z)) :
  (forall table mem addr masklen tb data,
     0 <= tb < 128 -> length addr = 16%nat ->
     c <> BNull \/ tb mod 8 = 7 ->
     chain_room table addr (Z.to_nat (tb / 8)) ->
     exists res, __lpm_prefix_expansion table mem addr masklen tb c data = Ret res) ->
  (op = CLEAR_BIT_AT_POSITION /\ bv = 0) \/ (op = SET_BIT_AT_POSITION /\ bv = 1) ->
  forall table mem addr masklen tb data,
    0 <= tb < 128 -> tb mod 8 < 7 -> length addr = 16%nat ->
    chain_room table addr (Z.to_nat (tb / 8)) ->
    exists res,
      match c with
      | BNode d0 _ _ =>
          if d0 =? NULL then
            a <- op addr (tb + 1) ;;
            __lpm_prefix_expansion table mem a masklen (tb + 1) c data
          else Ret (LPM_SUCCESS, table, mem, addr)
      | BNull =>
          ' (r, t, m) <- lpm_gen_combinations table mem addr tb data bv ;;
          Ret (r, t, m, addr)
      end = Ret res.
Proof.
  intros IH Hop table mem addr masklen tb data Htb Hj Hlen Hroom.
  destruct (mod8_succ tb ltac:(lia) Hj) as [Hmod Hdiv].
  assert (Htb1 : tb + 1 < 128).
  { pose proof (Z.div_mod tb 8 ltac:(lia)) as E.
    assert (tb / 8 < 16) by (apply Z.div_lt_upper_bound; lia). lia. }
  destruct c as [|d0 x y].
  - apply gen_combinations_room; auto.
    right. split; [destruct Hop as [[_ ->]|[_ ->]]; auto|exact Hj].
  - destruct (d0 =? NULL); [|eexists; reflexivity].
    assert (Ha : exists a, op addr (tb + 1) = Ret a /\ length a = 16%nat /\
                   (forall l, 0 <= l -> l <> tb / 8 -> byte_at a l = byte_at addr l)).
    { destruct Hop as [[-> _]|[-> _]].
      - destruct (clear_bit_returns addr (tb + 1) Htb1) as [a Ea]. exists a.
        split; [exact Ea|].
        apply CLEAR_BIT_AT_POSITION_spec in Ea; [|lia|exact Hlen].
        destruct Ea as [_ [Hl [Hb _]]]. rewrite Hdiv in Hb. auto.
      - destruct (set_bit_returns addr (tb + 1) Htb1) as [a Ea]. exists a.
        split; [exact Ea|].
        apply SET_BIT_AT_POSITION_spec in Ea; [|lia|exact Hlen].
        destruct Ea as [_ [Hl [Hb _]]]. rewrite Hdiv in Hb. auto. }
    destruct Ha as [a [-> [Hla Hba]]]. cbn [bind].
    apply IH; [lia|exact Hla|left; discriminate|].
    rewrite Hdiv. apply (chain_room_ext table addr); [|exact Hroom].
    intros l Hl Hne. apply Hba; [exact Hl|].
    rewrite Z2Nat.id in Hne by (apply Z.div_pos; lia). exact Hne.
Qed.

(** The expansion of a prefix returns: no assertion of
    [__lpm_prefix_expansion] or [lpm_gen_combinations] fails, given room
    in the block counter. *)
Lemma expansion_returns (node : btrie_node_t) :
  forall table mem addr masklen tb data,
    0 <= tb < 128 -> length addr = 16%nat ->
    node <> BNull \/ tb mod 8 = 7 ->
    chain_room table addr (Z.to_nat (tb / 8)) ->
    exists res, __lpm_prefix_expansion table mem addr masklen tb node data = Ret res.
Proof.
  induction node as [|d c0 IH0 c1 IH1];
    intros table mem addr masklen tb data Htb Hlen Hnode Hroom;
    rewrite expansion_unfold; cbv zeta; rewrite boundary_mod;
    pose proof (Z.mod_pos_bound tb 8 ltac:(lia)) as Hjr.
  - destruct Hnode as [H|H]; [congruence|]. rewrite H. cbn [Z.eqb Pos.eqb].
    apply gen_combinations_room; auto.
  - destruct (Z.eqb_spec (tb mod 8) 7) as [Hb|Hb];
      [apply gen_combinations_room; auto|].
    assert (Hj : tb mod 8 < 7) by lia.
    assert (Hsome :
      exists res,
        (' (ret, table1, mem1, addr1) <-
           match c0 with
           | BNode d0 _ _ =>
               if d0 =? NULL then
                 a <- CLEAR_BIT_AT_POSITION addr (tb + 1) ;;
                 __lpm_prefix_expansion table mem a masklen (tb + 1) c0 data
               else Ret (LPM_SUCCESS, table, mem, addr)
           | BNull =>
               ' (r, t, m) <- lpm_gen_combinations table mem addr tb data 0 ;;
               Ret (r, t, m, addr)
           end ;;
         if negb (lpm_result_eqb ret LPM_SUCCESS) then Ret (ret, table1, mem1, addr1)
         else
           ' (ret', table2, mem2, addr2) <-
             match c1 with
             | BNode d1 _ _ =>
                 if d1 =? NULL then
                   a <- SET_BIT_AT_POSITION addr1 (tb + 1) ;;
                   __lpm_prefix_expansion table1 mem1 a masklen (tb + 1) c1 data
                 else Ret (LPM_SUCCESS, table1, mem1, addr1)
             | BNull =>
                 ' (r, t, m) <- lpm_gen_combinations table1 mem1 addr1 tb data 1 ;;
                 Ret (r, t, m, addr1)
             end ;;
           if negb (lpm_result_eqb ret' LPM_SUCCESS) then Ret (ret', table2, mem2, addr2)
           else Ret (LPM_SUCCESS, table2, mem2, addr2)) = Ret res).
    { destruct (expansion_half_returns c0 0 CLEAR_BIT_AT_POSITION IH0 ltac:(auto)
                  table mem addr masklen tb data Htb Hj Hlen Hroom)
        as [[[[ret table1] mem1] addr1] Hh1].
      rewrite Hh1. cbn [bind].
      destruct Hroom as [Hn [Hwf [Hlo Hhi]]].
      apply (expansion_half c0 0 CLEAR_BIT_AT_POSITION (expansion_spec c0) ltac:(auto))
        in Hh1; [|lia|exact Hj|exact Hlen|exact Hwf|unfold in_s32; lia].
      destruct Hh1 as [Hlen1 [Hb1 [_ Hpost1]]].
      destruct (lpm_result_eqb ret LPM_SUCCESS) eqn:Eret; cbn [negb];
        [|eexists; reflexivity].
      assert (ret = LPM_SUCCESS) as -> by (destruct ret; try discriminate Eret; reflexivity).
      assert (Hroom1 : chain_room table1 addr1 (Z.to_nat (tb / 8))).
      { apply (chain_room_ext table1 addr).
        - intros l Hl Hne. apply Hb1; [exact Hl|].
          rewrite Z2Nat.id in Hne by (apply Z.div_pos; lia). exact Hne.
        - refine (chain_room_post table addr _ _ data table1 _ Hpost1).
          repeat split; auto. }
      destruct (expansion_half_returns c1 1 SET_BIT_AT_POSITION IH1 ltac:(auto)
                  table1 mem1 addr1 masklen tb data Htb Hj Hlen1 Hroom1)
        as [[[[ret2 table2] mem2] addr2] Hh2].
      rewrite Hh2. cbn [bind].
      destruct (negb (lpm_result_eqb ret2 LPM_SUCCESS)); eexists; reflexivity. }
    destruct c0 as [|d0 x0 y0]; destruct c1 as [|d1 x1 y1];
      [apply gen_combinations_room; auto|exact Hsome..].
Qed.

Lemma bnode_at_ensure_not_null (n : nat) :
  forall node a pos, bnode_at n (bt_ensure n node a pos) a pos <> BNull.
Proof.
  induction n as [|n IH]; intros node a pos.
  - apply materialize_not_null.
  - cbn [bt_ensure bnode_at].
    rewrite bchild_bset_child by apply materialize_not_null. apply IH.
Qed.

Lemma chain_missing_le (n : nat) :
  forall blk addr level, (chain_missing n blk addr level <= n)%nat.
Proof.
  induction n as [|n IH]; intros blk addr level; [apply Nat.le_refl|].
  cbn [chain_missing]. destruct blk as [|es]; [apply Nat.le_refl|].
  specialize (IH (mbase (entry_at es (byte_at addr level))) addr (level + 1)). lia.
Qed.

(** A counted mtrie with sixteen blocks to spare has room for any chain. *)
Lemma mtrie_ok_chain_room (T : lpm_lkup_table_t) (addr : list Z) (k : nat) :
  mtrie_ok (hi256_table_base T) (mtrie_block_alloc_stat (stat T)) ->
  mtrie_size (hi256_table_base T) + 16 < 2147483648 ->
  (k < 16)%nat ->
  chain_room T addr k.
Proof.
  intros [Hn [Hwf Hc]] Hsize Hk.
  pose proof (mtrie_size_nonneg (hi256_table_base T)) as H0.
  pose proof (chain_missing_le (S k) (hi256_table_base T) addr 0) as Hle.
  rewrite s32_small in Hc by (unfold in_s32; lia).
  unfold chain_room. rewrite Hc. repeat split; auto; lia.
Qed.

(** The expansion called by [lpm_add_entry] and [lpm_update_entry]
    returns. *)
Lemma prefix_expansion_returns (T : lpm_lkup_table_t) (mem : list bool) (a : list Z)
      (masklen data : Z) (node : btrie_node_t) :
  1 <= masklen <= 128 -> node <> BNull ->
  mtrie_ok (hi256_table_base T) (mtrie_block_alloc_stat (stat T)) ->
  mtrie_size (hi256_table_base T) + 16 < 2147483648 ->
  exists res,
    lpm_prefix_expansion T mem (copy_addr a (u8 (Z.shiftr (masklen - 1) 3 + 1)))
      masklen (masklen - 1) node data = Ret res.
Proof.
  intros Hml Hnode Hm Hsize. unfold lpm_prefix_expansion.
  apply expansion_returns; [lia|apply copy_addr_length|now left|].
  apply mtrie_ok_chain_room; [exact Hm|exact Hsize|].
  assert ((masklen - 1) / 8 < 16) by (apply Z.div_lt_upper_bound; lia).
  assert (0 <= (masklen - 1) / 8) by (apply Z.div_pos; lia). lia.
Qed.

(** The rollback of [lpm_add_entry] returns: the counter is not below
    the number of nodes to free. *)
Lemma add_rollback_returns (t T : lpm_lkup_table_t) (a : list Z) (n m : nat) :
  btrie_ok (btrie_root t) (btrie_node_alloc_stat (stat t)) ->
  btrie_size (btrie_root t) + 128 < 2147483648 ->
  (n <= 128)%nat ->
  (existing n (btrie_root t) a 0 < n)%nat ->
  (existing n (btrie_root t) a 0 <= m <= n)%nat ->
  btrie_root T = bt_ensure m (btrie_root t) a 0 ->
  btrie_node_alloc_stat (stat T) =
    incr_times (m - existing n (btrie_root t) a 0) (btrie_node_alloc_stat (stat t)) ->
  exists T',
    btrie_rollback T a (Some (Z.of_nat (existing n (btrie_root t) a 0)))
                   (addr_bit a (Z.of_nat (existing n (btrie_root t) a 0))) = Ret T'.
Proof.
  intros [Hroot [_ Hc]] Hsize Hn Hlt Hle HrT HcT.
  pose proof (btrie_size_nonneg (btrie_root t)) as H0.
  rewrite s32_small in Hc by (unfold in_s32; lia).
  apply (btrie_rollback_returns T a n m (btrie_root t)); [exact Hroot|exact Hlt|lia|exact HrT|].
  rewrite HcT, Hc, incr_times_small by lia. lia.
Qed.

Lemma update_entry_returns (t : lpm_lkup_table_t) (mem : list bool)
      (addr : option (list Z)) (masklen data : Z) :
  0 <= masklen -> table_ok t ->
  mtrie_size (hi256_table_base t) + 16 < 2147483648 ->
  exists res, lpm_update_entry (Some t) mem addr masklen data = Ret res.
Proof.
  intros Hml [Hb Hm] Hms. unfold lpm_update_entry.
  destruct (check_arg_codes (Some t) addr masklen) as [Harg|Harg]; rewrite Harg;
    cbn [negb lpm_result_eqb]; [|eexists; reflexivity].
  apply check_arg_success in Harg.
  destruct (data =? NULL); [eexists; reflexivity|].
  destruct (bis_null (btrie_root t) || mis_null (hi256_table_base t));
    [eexists; reflexivity|].
  unfold btrie_find_node. rewrite btrie_find_node_loop_ret by lia. cbn [bind].
  set (a := addr_of addr). set (n := Z.to_nat masklen).
  destruct (bnode_at n (btrie_root t) a 0) as [|d c0 c1] eqn:Hnode;
    [eexists; reflexivity|].
  cbn [bis_null bdata orb].
  destruct (d =? NULL); [eexists; reflexivity|].
  destruct (Z.eqb_spec masklen 0) as [Hm0|Hm0]; [eexists; reflexivity|].
  set (t1 := if d =? data then t else btrie_store_data t a masklen data).
  assert (Hm1 : hi256_table_base t1 = hi256_table_base t /\
                mtrie_block_alloc_stat (stat t1) = mtrie_block_alloc_stat (stat t))
    by (subst t1; destruct (d =? data); split; reflexivity).
  destruct Hm1 as [Hbase1 Hcnt1].
  destruct (prefix_expansion_returns t1 mem a masklen data
              (bnode_at n (btrie_root t1) a 0)) as [[[[r2 t2] mem2] addr2] Hexp].
  - lia.
  - subst t1. destruct (d =? data); [rewrite Hnode; discriminate|].
    cbn [btrie_root btrie_store_data set_btrie_root]. fold n.
    rewrite bnode_at_modify_same by (rewrite Hnode; discriminate).
    rewrite Hnode. discriminate.
  - rewrite Hbase1, Hcnt1. exact Hm.
  - rewrite Hbase1. exact Hms.
  - fold n in Hexp. rewrite Hexp. cbn [bind]. eexists. reflexivity.
Qed.

Lemma add_entry_returns (t : lpm_lkup_table_t) (mem : list bool)
      (addr : option (list Z)) (masklen data : Z) :
  0 <= masklen -> table_room t ->
  (masklen = 128 -> bnode_at 128 (btrie_root t) (addr_of addr) 0 = BNull) ->
  exists res, lpm_add_entry (Some t) mem addr masklen data = Ret res.
Proof.
  intros Hml [[Hb Hm] [Hbs Hms]] Hlast. unfold lpm_add_entry.
  destruct (check_arg_codes (Some t) addr masklen) as [Harg|Harg]; rewrite Harg;
    cbn [negb lpm_result_eqb]; [|eexists; reflexivity].
  apply check_arg_success in Harg.
  destruct (data =? NULL); [eexists; reflexivity|].
  destruct (bis_null (btrie_root t) || mis_null (hi256_table_base t));
    [eexists; reflexivity|].
  pose proof Hb as [Hroot [Hwithin Hcount]].
  set (a := addr_of addr) in *.
  destruct (btrie_add_node_returns t mem a masklen Hroot (proj1 Hm) ltac:(lia) Hlast)
    as [[[out t1] mem1] Hadd].
  rewrite Hadd. cbn [bind].
  apply btrie_add_node_spec in Hadd; [|exact Hroot].
  destruct Hadd as [m [failed [Hkm [Ht1 [Hap Hret]]]]].
  set (n := Z.to_nat masklen) in *.
  set (root := btrie_root t) in *.
  set (k := existing n root a 0) in *.
  assert (Hn128 : (n <= 128)%nat) by (subst n; lia).
  assert (Hrollback :
    forall T : lpm_lkup_table_t,
      (k < n)%nat ->
      btrie_root T = bt_ensure m root a 0 ->
      btrie_node_alloc_stat (stat T) = incr_times (m - k) (btrie_node_alloc_stat (stat t)) ->
      exists T', btrie_rollback T a (an_append_point out) (an_append_bit out) = Ret T').
  { intros T Hkn HrT HcT.
    destruct Hap as [Hp Hbit]; [lia|]. rewrite Hp, Hbit.
    exact (add_rollback_returns t T a n m Hb Hbs Hn128 Hkn Hkm HrT HcT). }
  destruct failed.
  - destruct Hret as [Hr Hlt]. rewrite Hr.
    destruct (Hrollback t1) as [t2 Hrb]; [lia|now rewrite Ht1|now rewrite Ht1|].
    rewrite Hrb. cbn [bind]. eexists. reflexivity.
  - destruct Hret as [-> Hr].
    assert (Hnode : bnode_at n (btrie_root t1) a 0 <> BNull).
    { rewrite Ht1. cbn [btrie_root set_btrie_root]. apply bnode_at_ensure_not_null. }
    assert (Hfinish :
      exists res,
        match bnode_at n (btrie_root t1) a 0 with
        | BNull => Abort
        | BNode d _ _ =>
            if negb (d =? NULL) then
              if d =? data then Ret (LPM_ERR_EXISTS, Some t1, mem1)
              else Ret (LPM_ERR_CONFLICT, Some t1, mem1)
            else
              let t2 := stat_data_incr (btrie_store_data t1 a masklen data) masklen in
              if masklen =? 0 then Ret (LPM_SUCCESS, Some t2, mem1)
              else
                ' (ret, t3, mem2, _) <-
                  lpm_prefix_expansion t2 mem1
                    (copy_addr a (u8 (Z.shiftr (masklen - 1) 3 + 1))) masklen (masklen - 1)
                    (bnode_at (Z.to_nat masklen) (btrie_root t2) a 0) data ;;
                match ret with
                | LPM_SUCCESS => Ret (ret, Some t3, mem2)
                | LPM_ERR_RESOURCES =>
                    let t4 := stat_data_decr (btrie_store_data t3 a masklen NULL) masklen in
                    if (k =? n)%nat then Ret (ret, Some t4, mem2)
                    else
                      t5 <- btrie_rollback t4 a (an_append_point out) (an_append_bit out) ;;
                      Ret (ret, Some t5, mem2)
                | _ => Abort
                end
        end = Ret res).
    { destruct (bnode_at n (btrie_root t1) a 0) as [|d c0 c1] eqn:En; [congruence|].
      destruct (Z.eqb_spec d NULL) as [Hd|Hd]; cbn [negb];
        [|destruct (d =? data); eexists; reflexivity].
      cbv zeta.
      destruct (Z.eqb_spec masklen 0) as [Hm0|Hm0]; [eexists; reflexivity|].
      set (t2 := stat_data_incr (btrie_store_data t1 a masklen data) masklen).
      assert (Hm2 : mtrie_ok (hi256_table_base t2) (mtrie_block_alloc_stat (stat t2))).
      { subst t2. rewrite Ht1. exact Hm. }
      destruct (prefix_expansion_returns t2 mem1 a masklen data
                  (bnode_at (Z.to_nat masklen) (btrie_root t2) a 0))
        as [[[[r3 t3] mem2] addr3] Hexp].
      - lia.
      - subst t2. cbn [btrie_root stat_data_incr set_stat btrie_store_data set_btrie_root].
        fold n. rewrite bnode_at_modify_same by (rewrite En; discriminate).
        rewrite En. discriminate.
      - exact Hm2.
      - subst t2. rewrite Ht1. exact Hms.
      - rewrite Hexp. cbn [bind].
        apply prefix_expansion_ok in Hexp; [|lia|apply copy_addr_length|exact Hm2].
        destruct Hexp as [Hr3 [_ [Hroot3 Hc3]]].
        destruct Hr3 as [-> | ->]; [eexists; reflexivity|].
        destruct (Nat.eqb_spec k n) as [Hkn|Hkn]; [eexists; reflexivity|].
        destruct (Hrollback (stat_data_decr (btrie_store_data t3 a masklen NULL) masklen))
          as [t5 Hrb].
        + lia.
        + cbn [btrie_root stat_data_decr set_stat btrie_store_data set_btrie_root].
          rewrite Hroot3. subst t2.
          cbn [btrie_root stat_data_incr set_stat btrie_store_data set_btrie_root].
          rewrite bnode_modify_compose. fold n.
          rewrite Ht1. cbn [btrie_root set_btrie_root].
          apply bnode_modify_id.
          rewrite Ht1 in En. cbn [btrie_root set_btrie_root] in En.
          rewrite En. cbn [bset_data]. now rewrite Hd.
        + cbn [stat stat_data_decr set_stat btrie_node_alloc_stat
               set_data_per_masklen set_data_total btrie_store_data set_btrie_root].
          rewrite Hc3. subst t2.
          cbn [stat stat_data_incr set_stat btrie_node_alloc_stat
               set_data_per_masklen set_data_total btrie_store_data set_btrie_root].
          rewrite Ht1. reflexivity.
        + rewrite Hrb. cbn [bind]. eexists. reflexivity. }
    destruct (Nat.eqb_spec k n) as [Hkn|Hkn]; rewrite Hr; cbn [lpm_result_eqb];
      exact Hfinish.
Qed.

(** On a table that went through any calls since its creation,
    [lpm_add_entry] returns: no assertion on its path fails, whatever
    the allocator does, as long as the node and block counters are 128
    and 16 short of the end of their range, and the call is not the one
    that adds at mask length 128 where the btrie already has the node
    (there the walk of [btrie_add_node] reads the bit at position 128). *)
Theorem add_entry_returns_after_calls (nm : option string) (mem0 mem1 mem mem' : list bool)
        (t0 t : lpm_lkup_table_t) (ops : list lpm_op) (rs : list lpm_result_t)
        (mem2 : list bool) (addr : option (list Z)) (masklen data : Z) :
  lpm_create_table nm mem0 = Ret (Some t0, mem1) ->
  Forall op_in_range ops ->
  apply_ops t0 mem ops = Ret (rs, t, mem') ->
  btrie_size (btrie_root t) + 128 < 2147483648 ->
  mtrie_size (hi256_table_base t) + 16 < 2147483648 ->
  0 <= masklen ->
  (masklen = 128 -> bnode_at 128 (btrie_root t) (addr_of addr) 0 = BNull) ->
  exists r t' mem3, lpm_add_entry (Some t) mem2 addr masklen data = Ret (r, t', mem3).
Proof.
  intros Hcreate Hops Hrun Hnodes Hblocks Hml Hlast.
  apply create_table_fresh in Hcreate. subst t0.
  pose proof (apply_ops_ok _ _ _ _ _ _ Hops Hrun (fresh_table_ok nm)) as Hok.
  destruct (add_entry_returns t mem2 addr masklen data Hml
              (conj Hok (conj Hnodes Hblocks)) Hlast) as [[[r t'] mem3] H].
  exists r, t', mem3. exact H.
Qed.

Lemma add_entry_returns_after_calls_witness :
  exists r t' mem3,
    lpm_add_entry (Some (table_after [OpAdd [10; 1] 16 5; OpDel [10; 1] 16])) [false]
                  (Some [10; 2]) 12 6 = Ret (r, t', mem3).
Proof.
  assert (Hcreate : lpm_create_table None [] = Ret (Some (created None), []))
    by (vm_compute; reflexivity).
  assert (Hops : Forall op_in_range [OpAdd [10; 1] 16 5; OpDel [10; 1] 16]).
  { repeat constructor; cbn; lia. }
  assert (Hrun : apply_ops (created None) [] [OpAdd [10; 1] 16 5; OpDel [10; 1] 16] =
                 Ret ([LPM_SUCCESS; LPM_SUCCESS],
                      table_after [OpAdd [10; 1] 16 5; OpDel [10; 1] 16], [])).
  { vm_compute. reflexivity. }
  apply (add_entry_returns_after_calls None [] [] [] [] (created None) _ _ _ [false]
           (Some [10; 2]) 12 6 Hcreate Hops Hrun).
  - vm_compute. reflexivity.
  - vm_compute. reflexivity.
  - lia.
  - intros H. discriminate H.
Defined.

(** On a table that went through any calls since its creation,
    [lpm_update_entry] returns for every address, mask length and data:
    no assertion on its path fails, whatever the allocator does, as long
    as the block counter is 16 short of the end of its range. *)
Theorem update_entry_returns_after_calls (nm : option string)
        (mem0 mem1 mem mem' : list bool)
        (t0 t : lpm_lkup_table_t) (ops : list lpm_op) (rs : list lpm_result_t)
        (mem2 : list bool) (addr : option (list Z)) (masklen data : Z) :
  lpm_create_table nm mem0 = Ret (Some t0, mem1) ->
  Forall op_in_range ops ->
  apply_ops t0 mem ops = Ret (rs, t, mem') ->
  mtrie_size (hi256_table_base t) + 16 < 2147483648 ->
  0 <= masklen ->
  exists r t' mem3, lpm_update_entry (Some t) mem2 addr masklen data = Ret (r, t', mem3).
Proof.
  intros Hcreate Hops Hrun Hblocks Hml.
  apply create_table_fresh in Hcreate. subst t0.
  pose proof (apply_ops_ok _ _ _ _ _ _ Hops Hrun (fresh_table_ok nm)) as Hok.
  destruct (update_entry_returns t mem2 addr masklen data Hml Hok Hblocks)
    as [[[r t'] mem3] H].
  exists r, t', mem3. exact H.
Qed.

Lemma update_entry_returns_after_calls_witness :
  exists r t' mem3,
    lpm_update_entry (Some (table_after [OpAdd [10; 1] 16 5; OpAdd [10; 2] 12 6])) [false]
                     (Some [10; 2]) 12 7 = Ret (r, t', mem3).
Proof.
  assert (Hcreate : lpm_create_table None [] = Ret (Some (created None), []))
    by (vm_compute; reflexivity).
  assert (Hops : Forall op_in_range [OpAdd [10; 1] 16 5; OpAdd [10; 2] 12 6]).
  { repeat constructor; cbn; lia. }
  assert (Hrun : apply_ops (created None) [] [OpAdd [10; 1] 16 5; OpAdd [10; 2] 12 6] =
                 Ret ([LPM_SUCCESS; LPM_SUCCESS],
                      table_after [OpAdd [10; 1] 16 5; OpAdd [10; 2] 12 6], [])).
  { vm_compute. reflexivity. }
  apply (update_entry_returns_after_calls None [] [] [] [] (created None) _ _ _ [false]
           (Some [10; 2]) 12 7 Hcreate Hops Hrun).
  - vm_compute. reflexivity.
  - lia.
Defined.

(** *** Which calls fail for lack of memory *)

Lemma allocs_succeeded_refl (mem : list bool) : allocs_succeeded mem mem.
Proof. exists []. split; [reflexivity|constructor]. Qed.

Lemma allocs_succeeded_trans (m1 m2 m3 : list bool) :
  allocs_succeeded m1 m2 -> allocs_succeeded m2 m3 -> allocs_succeeded m1 m3.
Proof.
  intros [u1 [E1 F1]] [u2 [E2 F2]]. exists (u1 ++ u2). split.
  - rewrite E1, E2. apply app_assoc.
  - apply Forall_app. split; assumption.
Qed.

Lemma allocs_then_failed (m1 m2 m3 : list bool) :
  allocs_succeeded m1 m2 -> alloc_failed m2 m3 -> alloc_failed m1 m3.
Proof.
  intros [u1 [E1 F1]] [u2 [E2 F2]]. exists (u1 ++ u2). split.
  - rewrite E1, E2. apply app_assoc.
  - apply Forall_app. split; assumption.
Qed.

Lemma malloc_succeeded (mem : list bool) :
  fst (malloc mem) = true -> allocs_succeeded mem (snd (malloc mem)).
Proof.
  destruct mem as [|ok mem]; cbn; intros H.
  - apply allocs_succeeded_refl.
  - subst ok. exists [true]. split; [reflexivity|]. constructor; [reflexivity|constructor].
Qed.

Lemma malloc_failed (mem : list bool) :
  fst (malloc mem) = false -> alloc_failed mem (snd (malloc mem)).
Proof.
  destruct mem as [|ok mem]; cbn; intros H; [discriminate H|].
  subst ok. exists []. split; [reflexivity|constructor].
Qed.

Lemma oracle_outcome_step (r : lpm_result_t) (m1 m2 m3 : list bool) :
  allocs_succeeded m1 m2 -> oracle_outcome r m2 m3 -> oracle_outcome r m1 m3.
Proof.
  intros H12 [[Hr H]|[Hr H]].
  - left. split; [exact Hr|]. exact (allocs_then_failed _ _ _ H12 H).
  - right. split; [exact Hr|]. exact (allocs_succeeded_trans _ _ _ H12 H).
Qed.

Lemma oracle_outcome_none (r : lpm_result_t) (mem : list bool) :
  r <> LPM_ERR_RESOURCES -> oracle_outcome r mem mem.
Proof. intros H. right. split; [exact H|apply allocs_succeeded_refl]. Qed.

Lemma add_node_loop_oracle (n : nat) :
  forall table mem place addr pos out sub out' table' mem',
    btrie_add_node_loop n table mem place addr pos out = Ret (sub, out', table', mem') ->
    an_ret out <> LPM_ERR_RESOURCES ->
    oracle_outcome (an_ret out') mem mem'.
Proof.
  induction n as [|n IH]; intros table mem place addr pos out sub out' table' mem' Hrun Hout.
  - cbn in Hrun. inversion Hrun; subst. now apply oracle_outcome_none.
  - cbn [btrie_add_node_loop] in Hrun.
    destruct place as [|d c0 c1]; [discriminate Hrun|].
    apply bind_ret in Hrun. destruct Hrun as [bit [_ Hrun]].
    destruct (bchild (BNode d c0 c1) bit) as [|d' c0' c1'].
    + rewrite btrie_alloc_node_eq in Hrun.
      destruct (fst (malloc mem)) eqn:Hm.
      * apply bind_ret in Hrun. destruct Hrun as [[[[sub1 out1] table1] mem1] [Hrec Hrun]].
        inversion Hrun; subst; clear Hrun.
        apply IH in Hrec; [|cbn; discriminate].
        exact (oracle_outcome_step _ _ _ _ (malloc_succeeded mem Hm) Hrec).
      * inversion Hrun; subst; clear Hrun. left. split; [reflexivity|].
        now apply malloc_failed.
    + apply bind_ret in Hrun. destruct Hrun as [nextbit [_ Hrun]].
      apply bind_ret in Hrun. destruct Hrun as [[[[sub1 out1] table1] mem1] [Hrec Hrun]].
      inversion Hrun; subst; clear Hrun.
      apply IH in Hrec; [exact Hrec|exact Hout].
Qed.

Lemma add_node_oracle (table : lpm_lkup_table_t) (mem : list bool) (addr : list Z)
      (masklen : Z) (out : add_node_out) (table' : lpm_lkup_table_t) (mem' : list bool) :
  btrie_add_node table mem addr masklen = Ret (out, table', mem') ->
  oracle_outcome (an_ret out) mem mem'.
Proof.
  unfold btrie_add_node. intros Hrun.
  destruct (hi256_table_base table); [discriminate Hrun|].
  apply bind_ret in Hrun. destruct Hrun as [out0 [Hout0 Hrun]].
  apply bind_ret in Hrun. destruct Hrun as [[[[root out1] table1] mem1] [Hloop Hrun]].
  inversion Hrun; subst; clear Hrun.
  apply add_node_loop_oracle in Hloop; [exact Hloop|].
  destruct (0 <? masklen).
  - apply bind_ret in Hout0. destruct Hout0 as [b [_ Hout0]].
    inversion Hout0. cbn. discriminate.
  - inversion Hout0. cbn. discriminate.
Qed.

Lemma chain_build_oracle (n : nat) :
  forall table mem frontier addr level chain res table' mem',
    trie_chain_build n table mem frontier addr level chain = Ret (res, table', mem') ->
    match res with
    | None => alloc_failed mem mem'
    | Some _ => allocs_succeeded mem mem'
    end.
Proof.
  induction n as [|n IH]; intros table mem frontier addr level chain res table' mem' Hrun.
  - cbn in Hrun. inversion Hrun; subst. apply allocs_succeeded_refl.
  - rewrite trie_chain_build_step in Hrun. destruct frontier as [|es].
    + destruct (fst (malloc mem)) eqn:Hm.
      * apply IH in Hrun. pose proof (malloc_succeeded mem Hm) as H1.
        destruct res; [exact (allocs_succeeded_trans _ _ _ H1 Hrun)
                      |exact (allocs_then_failed _ _ _ H1 Hrun)].
      * apply bind_ret in Hrun. destruct Hrun as [table2 [_ Hrun]].
        inversion Hrun; subst. now apply malloc_failed.
    + apply IH in Hrun. exact Hrun.
Qed.

Lemma gen_combinations_oracle (table : lpm_lkup_table_t) (mem : list bool) (addr : list Z)
      (tb data nextbit : Z) (r : lpm_result_t) (table' : lpm_lkup_table_t)
      (mem' : list bool) :
  lpm_gen_combinations table mem addr tb data nextbit = Ret (r, table', mem') ->
  oracle_outcome r mem mem'.
Proof.
  unfold lpm_gen_combinations. intros Hrun.
  destruct (negb (tb <? LPM_MASKLEN_MAX)); [discriminate Hrun|].
  destruct (negb _); [discriminate Hrun|].
  destruct (hi256_table_base table) as [|base]; [discriminate Hrun|].
  destruct (tb <? 8).
  - apply bind_ret in Hrun. destruct Hrun as [[idx bitpos] [_ Hrun]].
    inversion Hrun; subst. apply oracle_outcome_none. discriminate.
  - apply bind_ret in Hrun. destruct Hrun as [[[chain table1] mem1] [Hbuild Hrun]].
    apply chain_build_oracle in Hbuild.
    destruct chain as [chain|].
    + destruct (rev chain) as [|last uppers]; [discriminate Hrun|].
      apply bind_ret in Hrun. destruct Hrun as [[idx bitpos] [_ Hrun]].
      inversion Hrun; subst. right. split; [discriminate|exact Hbuild].
    + inversion Hrun; subst. left. split; [reflexivity|exact Hbuild].
Qed.

Lemma gen_direct_oracle (table : lpm_lkup_table_t) (mem : list bool) (addr : list Z)
      (tb data nextbit : Z) (r : lpm_result_t) (table' : lpm_lkup_table_t)
      (mem' : list bool) (addr' : list Z) :
  (' (r, t, m) <- lpm_gen_combinations table mem addr tb data nextbit ;;
   Ret (r, t, m, addr)) = Ret (r, table', mem', addr') ->
  oracle_outcome r mem mem'.
Proof.
  intros Hrun. apply bind_ret in Hrun. destruct Hrun as [[[r0 t0] m0] [Hgen Hrun]].
  inversion Hrun; subst. exact (gen_combinations_oracle _ _ _ _ _ _ _ _ _ Hgen).
Qed.

Lemma expansion_half_oracle (c : btrie_node_t) (bv : Z)
      (op : list Z -> Z -> exec (list Z)) :
  (forall table mem addr masklen tb data r table' mem' addr',
     __lpm_prefix_expansion table mem addr masklen tb c data = Ret (r, table', mem', addr') ->
     oracle_outcome r mem mem') ->
  forall table mem addr masklen tb data ret table1 mem1 addr1,
    match c with
    | BNode d0 _ _ =>
        if d0 =? NULL then
          a <- op addr (tb + 1) ;;
          __lpm_prefix_expansion table mem a masklen (tb + 1) c data
        else Ret (LPM_SUCCESS, table, mem, addr)
    | BNull =>
        ' (r, t, m) <- lpm_gen_combinations table mem addr tb data bv ;;
        Ret (r, t, m, addr)
    end = Ret (ret, table1, mem1, addr1) ->
    oracle_outcome ret mem mem1.
Proof.
  intros IH table mem addr masklen tb data ret table1 mem1 addr1 Hrun.
  destruct c as [|d0 x y].
  - exact (gen_direct_oracle _ _ _ _ _ _ _ _ _ _ Hrun).
  - destruct (d0 =? NULL).
    + apply bind_ret in Hrun. destruct Hrun as [a [_ Hrec]]. exact (IH _ _ _ _ _ _ _ _ _ _ Hrec).
    + inversion Hrun; subst. apply oracle_outcome_none. discriminate.
Qed.

Lemma expansion_oracle (node : btrie_node_t) :
  forall table mem addr masklen tb data r table' mem' addr',
    __lpm_prefix_expansion table mem addr masklen tb node data = Ret (r, table', mem', addr') ->
    oracle_outcome r mem mem'.
Proof.
  induction node as [|d c0 IH0 c1 IH1];
    intros table mem addr masklen tb data r table' mem' addr' Hrun;
    rewrite expansion_unfold in Hrun; cbv zeta in Hrun.
  - destruct (BOUNDARY_BIT_POSITION tb); [|discriminate Hrun].
    exact (gen_direct_oracle _ _ _ _ _ _ _ _ _ _ Hrun).
  - destruct (BOUNDARY_BIT_POSITION tb);
      [exact (gen_direct_oracle _ _ _ _ _ _ _ _ _ _ Hrun)|].
    assert (Hsome :
      (' (ret, table1, mem1, addr1) <-
         match c0 with
         | BNode d0 _ _ =>
             if d0 =? NULL then
               a <- CLEAR_BIT_AT_POSITION addr (tb + 1) ;;
               __lpm_prefix_expansion table mem a masklen (tb + 1) c0 data
             else Ret (LPM_SUCCESS, table, mem, addr)
         | BNull =>
             ' (r, t, m) <- lpm_gen_combinations table mem addr tb data 0 ;;
             Ret (r, t, m, addr)
         end ;;
       if negb (lpm_result_eqb ret LPM_SUCCESS) then Ret (ret, table1, mem1, addr1)
       else
         ' (ret', table2, mem2, addr2) <-
           match c1 with
           | BNode d1 _ _ =>
               if d1 =? NULL then
                 a <- SET_BIT_AT_POSITION addr1 (tb + 1) ;;
                 __lpm_prefix_expansion table1 mem1 a masklen (tb + 1) c1 data
               else Ret (LPM_SUCCESS, table1, mem1, addr1)
           | BNull =>
               ' (r, t, m) <- lpm_gen_combinations table1 mem1 addr1 tb data 1 ;;
               Ret (r, t, m, addr1)
           end ;;
         if negb (lpm_result_eqb ret' LPM_SUCCESS) then Ret (ret', table2, mem2, addr2)
         else Ret (LPM_SUCCESS, table2, mem2, addr2)) = Ret (r, table', mem', addr') ->
      oracle_outcome r mem mem').
    { intros H. apply bind_ret in H. destruct H as [[[[ret table1] mem1] addr1] [Hh1 H]].
      apply (expansion_half_oracle c0 0 CLEAR_BIT_AT_POSITION IH0) in Hh1.
      destruct (lpm_result_eqb ret LPM_SUCCESS) eqn:Eret; cbn [negb] in H.
      - assert (ret = LPM_SUCCESS) as -> by (destruct ret; try discriminate Eret; reflexivity).
        destruct Hh1 as [[Hr _]|[_ H1]]; [discriminate Hr|].
        apply bind_ret in H. destruct H as [[[[ret2 table2] mem2] addr2] [Hh2 H]].
        apply (expansion_half_oracle c1 1 SET_BIT_AT_POSITION IH1) in Hh2.
        apply (oracle_outcome_step _ _ _ _ H1).
        destruct (lpm_result_eqb ret2 LPM_SUCCESS) eqn:Eret2; cbn [negb] in H;
          inversion H; subst; [|exact Hh2].
        destruct Hh2 as [[Hr H2]|[Hr H2]]; [|right; split; [discriminate|exact H2]].
        subst ret2. discriminate Eret2.
      - inversion H; subst. exact Hh1. }
    destruct c0 as [|d0 x0 y0]; destruct c1 as [|d1 x1 y1];
      [exact (gen_direct_oracle _ _ _ _ _ _ _ _ _ _ Hrun)|exact (Hsome Hrun)..].
Qed.

Lemma prefix_expansion_oracle (table : lpm_lkup_table_t) (mem : list bool) (addr : list Z)
      (masklen tb : Z) (node : btrie_node_t) (data : Z) (r : lpm_result_t)
      (table' : lpm_lkup_table_t) (mem' : list bool) (addr' : list Z) :
  lpm_prefix_expansion table mem addr masklen tb node data = Ret (r, table', mem', addr') ->
  oracle_outcome r mem mem'.
Proof. apply expansion_oracle. Qed.

Lemma add_entry_oracle (t : lpm_lkup_table_t) (mem : list bool) (addr : option (list Z))
      (masklen data : Z) (r : lpm_result_t) (t' : option lpm_lkup_table_t)
      (mem' : list bool) :
  lpm_add_entry (Some t) mem addr masklen data = Ret (r, t', mem') ->
  oracle_outcome r mem mem'.
Proof.
  intros Hrun. unfold lpm_add_entry in Hrun.
  destruct (check_arg_codes (Some t) addr masklen) as [Harg|Harg]; rewrite Harg in Hrun;
    cbn [negb lpm_result_eqb] in Hrun;
    [|inversion Hrun; subst; apply oracle_outcome_none; discriminate].
  destruct (data =? NULL); [inversion Hrun; subst; apply oracle_outcome_none; discriminate|].
  destruct (bis_null (btrie_root t) || mis_null (hi256_table_base t));
    [inversion Hrun; subst; apply oracle_outcome_none; discriminate|].
  apply bind_ret in Hrun. destruct Hrun as [[[out t1] mem1] [Hadd Hrun]].
  apply add_node_oracle in Hadd.
  destruct Hadd as [[Hr Hf]|[Hr Hs]].
  - rewrite Hr in Hrun. apply bind_ret in Hrun. destruct Hrun as [t2 [_ Hrun]].
    inversion Hrun; subst. left. split; [reflexivity|exact Hf].
  - apply (oracle_outcome_step _ _ _ _ Hs).
    assert (Hfinish :
      match bnode_at (Z.to_nat masklen) (btrie_root t1) (addr_of addr) 0 with
      | BNull => Abort
      | BNode d _ _ =>
          if negb (d =? NULL) then
            if d =? data then Ret (LPM_ERR_EXISTS, Some t1, mem1)
            else Ret (LPM_ERR_CONFLICT, Some t1, mem1)
          else
            let t2 := stat_data_incr (btrie_store_data t1 (addr_of addr) masklen data)
                                     masklen in
            if masklen =? 0 then Ret (LPM_SUCCESS, Some t2, mem1)
            else
              ' (ret, t3, mem2, _) <-
                lpm_prefix_expansion t2 mem1
                  (copy_addr (addr_of addr) (u8 (Z.shiftr (masklen - 1) 3 + 1)))
                  masklen (masklen - 1)
                  (bnode_at (Z.to_nat masklen) (btrie_root t2) (addr_of addr) 0) data ;;
              match ret with
              | LPM_SUCCESS => Ret (ret, Some t3, mem2)
              | LPM_ERR_RESOURCES =>
                  let t4 := stat_data_decr (btrie_store_data t3 (addr_of addr) masklen NULL)
                                           masklen in
                  if lpm_result_eqb (an_ret out) LPM_ERR_EXISTS then Ret (ret, Some t4, mem2)
                  else
                    t5 <- btrie_rollback t4 (addr_of addr) (an_append_point out)
                                         (an_append_bit out) ;;
                    Ret (ret, Some t5, mem2)
              | _ => Abort
              end
      end = Ret (r, t', mem') -> oracle_outcome r mem1 mem').
    { clear Hrun. intros Hrun.
      destruct (bnode_at (Z.to_nat masklen) (btrie_root t1) (addr_of addr) 0)
        as [|d c0 c1]; [discriminate Hrun|].
      destruct (negb (d =? NULL)).
      { destruct (d =? data); inversion Hrun; subst; apply oracle_outcome_none; discriminate. }
      cbv zeta in Hrun.
      destruct (masklen =? 0);
        [inversion Hrun; subst; apply oracle_outcome_none; discriminate|].
      apply bind_ret in Hrun. destruct Hrun as [[[[r3 t3] mem2] addr3] [Hexp Hrun]].
      apply prefix_expansion_oracle in Hexp.
      destruct r3; try discriminate Hrun.
      - inversion Hrun; subst. exact Hexp.
      - destruct Hexp as [[_ Hf]|[Hr3 _]]; [|congruence].
        destruct (lpm_result_eqb (an_ret out) LPM_ERR_EXISTS).
        + inversion Hrun; subst. left. split; [reflexivity|exact Hf].
        + apply bind_ret in Hrun. destruct Hrun as [t5 [_ Hrun]].
          inversion Hrun; subst. left. split; [reflexivity|exact Hf]. }
    destruct (an_ret out); try congruence;
      first [exact (Hfinish Hrun)
            |inversion Hrun; subst; apply oracle_outcome_none; discriminate].
Qed.

Lemma update_entry_oracle (t : lpm_lkup_table_t) (mem : list bool) (addr : option (list Z))
      (masklen data : Z) (r : lpm_result_t) (t' : option lpm_lkup_table_t)
      (mem' : list bool) :
  lpm_update_entry (Some t) mem addr masklen data = Ret (r, t', mem') ->
  oracle_outcome r mem mem'.
Proof.
  intros Hrun. unfold lpm_update_entry in Hrun.
  destruct (check_arg_codes (Some t) addr masklen) as [Harg|Harg]; rewrite Harg in Hrun;
    cbn [negb lpm_result_eqb] in Hrun;
    [|inversion Hrun; subst; apply oracle_outcome_none; discriminate].
  destruct (data =? NULL); [inversion Hrun; subst; apply oracle_outcome_none; discriminate|].
  destruct (bis_null (btrie_root t) || mis_null (hi256_table_base t));
    [inversion Hrun; subst; apply oracle_outcome_none; discriminate|].
  apply bind_ret in Hrun. destruct Hrun as [stored [_ Hrun]].
  destruct (bis_null stored || (bdata stored =? NULL));
    [inversion Hrun; subst; apply oracle_outcome_none; discriminate|].
  destruct (masklen =? 0); [inversion Hrun; subst; apply oracle_outcome_none; discriminate|].
  apply bind_ret in Hrun. destruct Hrun as [[[[r2 t2] mem2] addr2] [Hexp Hrun]].
  apply prefix_expansion_oracle in Hexp. inversion Hrun; subst. exact Hexp.
Qed.

Lemma zero_out_data_no_resources (table : lpm_lkup_table_t) (addr : list Z) (masklen : Z)
      (r : lpm_result_t) (table' : lpm_lkup_table_t) :
  zero_out_data table addr masklen = Ret (r, table') -> r <> LPM_ERR_RESOURCES.
Proof.
  unfold zero_out_data. intros Hrun.
  destruct (hi256_table_base table) as [|es]; [discriminate Hrun|].
  destruct (masklen <=? 8); [inversion Hrun; discriminate|].
  destruct (mbase (entry_at es (byte_at addr 0))); inversion Hrun; discriminate.
Qed.

Lemma del_entry_oracle (t : lpm_lkup_table_t) (mem : list bool) (addr : option (list Z))
      (masklen : Z) (r : lpm_result_t) (t' : option lpm_lkup_table_t) (mem' : list bool) :
  lpm_del_entry (Some t) mem addr masklen = Ret (r, t', mem') ->
  oracle_outcome r mem mem'.
Proof.
  intros Hrun. unfold lpm_del_entry in Hrun.
  destruct (check_arg_codes (Some t) addr masklen) as [Harg|Harg]; rewrite Harg in Hrun;
    cbn [negb lpm_result_eqb] in Hrun;
    [|inversion Hrun; subst; apply oracle_outcome_none; discriminate].
  destruct (bis_null (btrie_root t) || mis_null (hi256_table_base t));
    [inversion Hrun; subst; apply oracle_outcome_none; discriminate|].
  destruct (masklen =? 0).
  { destruct (bdata (btrie_root t) =? NULL);
      [inversion Hrun; subst; apply oracle_outcome_none; discriminate|].
    destruct (negb _); [discriminate Hrun|].
    inversion Hrun; subst; apply oracle_outcome_none; discriminate. }
  apply bind_ret in Hrun. destruct Hrun as [[[r1 t1] mem1] [Hdel Hrun]].
  inversion Hrun; subst r t' mem'; clear Hrun.
  unfold __lpm_del_entry in Hdel.
  apply bind_ret in Hdel. destruct Hdel as [[node lk] [_ Hdel]].
  destruct node as [|d c0 c1];
    [inversion Hdel; subst; apply oracle_outcome_none; discriminate|].
  destruct (d =? NULL); [inversion Hdel; subst; apply oracle_outcome_none; discriminate|].
  destruct (negb _); [discriminate Hdel|].
  apply bind_ret in Hdel. destruct Hdel as [[[[ret t2] mem2] addr2] [Hexp Hdel]].
  assert (Hret : oracle_outcome ret mem mem2).
  { destruct lk as [[lb ld]|].
    - destruct (_ =? _); exact (prefix_expansion_oracle _ _ _ _ _ _ _ _ _ _ _ Hexp).
    - destruct (_ || _); [exact (prefix_expansion_oracle _ _ _ _ _ _ _ _ _ _ _ Hexp)|].
      apply bind_ret in Hexp. destruct Hexp as [[r0 t0] [Hz Hexp]].
      inversion Hexp; subst. apply oracle_outcome_none.
      exact (zero_out_data_no_resources _ _ _ _ _ Hz). }
  destruct (lpm_result_eqb ret LPM_SUCCESS) eqn:Eret; cbn [negb] in Hdel.
  - assert (ret = LPM_SUCCESS) as -> by (destruct ret; try discriminate Eret; reflexivity).
    destruct lk as [[lb ld]|];
      (apply bind_ret in Hdel; destruct Hdel as [[[z sub] t3] [_ Hdel]];
       inversion Hdel; subst; exact Hret).
  - inversion Hdel; subst. exact Hret.
Qed.

(** [lpm_add_entry], [lpm_update_entry] and [lpm_del_entry] return
    [LPM_ERR_RESOURCES] exactly when one of their allocation requests
    failed: every request before it was granted, and none is made after
    it.  With any other result, every request of the call was granted. *)
Theorem resources_iff_allocation_failed (t : lpm_lkup_table_t) (mem : list bool)
        (addr : option (list Z)) (masklen data : Z) (r : lpm_result_t)
        (t' : option lpm_lkup_table_t) (mem' : list bool) :
  lpm_add_entry (Some t) mem addr masklen data = Ret (r, t', mem') \/
  lpm_update_entry (Some t) mem addr masklen data = Ret (r, t', mem') \/
  lpm_del_entry (Some t) mem addr masklen = Ret (r, t', mem') ->
  (r = LPM_ERR_RESOURCES /\
   exists used, mem = used ++ false :: mem' /\ Forall (fun ok => ok = true) used) \/
  (r <> LPM_ERR_RESOURCES /\
   exists used, mem = used ++ mem' /\ Forall (fun ok => ok = true) used).
Proof.
  intros [H|[H|H]].
  - exact (add_entry_oracle _ _ _ _ _ _ _ _ H).
  - exact (update_entry_oracle _ _ _ _ _ _ _ _ H).
  - exact (del_entry_oracle _ _ _ _ _ _ _ H).
Qed.

Lemma resources_iff_allocation_failed_witness :
  exists used,
    [true; true; false; true] = used ++ [false; true] /\
    Forall (fun ok => ok = true) used.
Proof.
  assert (Hrun : lpm_add_entry (Some (created None)) [true; true; false; true]
                               (Some [10; 0]) 8 200 =
                 Ret (LPM_ERR_RESOURCES,
                      Some (set_stat (created None) (stat_btrie_failed (stat (created None)))),
                      [true])).
  { vm_compute. reflexivity. }
  destruct (resources_iff_allocation_failed (created None) [true; true; false; true]
              (Some [10; 0]) 8 200 _ _ _ (or_introl Hrun)) as [[_ H]|[Hr _]].
  - exact H.
  - exfalso. apply Hr. reflexivity.
Defined.
